(** * The Tackle 1.2 -> Tackle 2 migration tool (hack/tool/tackle)

    A shallow embedding of the export / import / clean engine of
    [hack/tool/tackle] and the properties of its design that the
    specification states.

    - JSON documents (API payloads, snapshot files) are the tree type [JSON].
    - A [Tackle2Object] is the attribute dictionary of a Python instance
      ([vars(obj)]).  Instances are shared and mutated after they have been
      put into collections, so they live in a heap and are named by address.
    - Methods of [Tackle12Import] are computations in a state-and-exception
      monad over the importer instance ([self]).  [exit(1)] and uncaught
      Python exceptions are both exceptions of the monad; the message
      printed before [exit(1)] travels with the exit.
    - The payloads of the source system are records with the fields the
      tool reads: the answers of the source are taken as received and well
      formed.  Fields the tool computes with have the type it needs (ids
      are integers, the names used as dictionary keys are strings), fields
      it only copies are JSON values.
    - On the import side the snapshot files, the [json] module and the
      destination service are an environment: the engine is run against any
      text encoding and any service.
    - Token acquisition, command line parsing and progress printing are not
      modelled. *)

From Stdlib Require Import ZArith List String Ascii Bool Arith Lia DecimalString.
Import ListNotations.
Local Open Scope string_scope.
Local Open Scope list_scope.

Set Implicit Arguments.
Set Warnings "-register-all".

(* ===================================================================== *)
(** ** JSON documents *)
(* ===================================================================== *)

Inductive JSON : Type :=
| JNull
| JBool (b : bool)
| JInt (z : Z)
| JStr (s : string)
| JList (l : list JSON)
| JDict (d : list (string * JSON)).

(** Python dictionaries keep insertion order; keys are unique, assignment
    to an existing key replaces the value in place. *)
Fixpoint dict_get {V : Type} (k : string) (d : list (string * V)) : option V :=
  match d with
  | [] => None
  | (k', v) :: rest => if String.eqb k k' then Some v else dict_get k rest
  end.

Fixpoint dict_set {V : Type} (k : string) (v : V) (d : list (string * V))
  : list (string * V) :=
  match d with
  | [] => [(k, v)]
  | (k', v') :: rest =>
      if String.eqb k k' then (k, v) :: rest else (k', v') :: dict_set k v rest
  end.

Definition dict_has {V : Type} (k : string) (d : list (string * V)) : bool :=
  match dict_get k d with Some _ => true | None => false end.

(** Python's [==] on JSON values: numbers compare by value ([True == 1]),
    lists element-wise, dictionaries as mappings. *)
Fixpoint py_eq (a b : JSON) {struct a} : bool :=
  match a, b with
  | JNull, JNull => true
  | JBool x, JBool y => Bool.eqb x y
  | JBool x, JInt y => Z.eqb (if x then 1 else 0) y
  | JInt x, JBool y => Z.eqb x (if y then 1 else 0)
  | JInt x, JInt y => Z.eqb x y
  | JStr x, JStr y => String.eqb x y
  | JList x, JList y =>
      (fix go (x y : list JSON) {struct x} : bool :=
         match x, y with
         | [], [] => true
         | u :: x', v :: y' => py_eq u v && go x' y'
         | _, _ => false
         end) x y
  | JDict x, JDict y =>
      Nat.eqb (List.length x) (List.length y) &&
      (fix go (x : list (string * JSON)) {struct x} : bool :=
         match x with
         | [] => true
         | (k, u) :: x' =>
             match dict_get k y with
             | Some v => py_eq u v && go x'
             | None => false
             end
         end) x
  | _, _ => false
  end.

(** Truth value of a JSON value in a Python [if]. *)
Definition truthy (j : JSON) : bool :=
  match j with
  | JNull => false
  | JBool b => b
  | JInt z => negb (Z.eqb z 0)
  | JStr s => negb (String.eqb s "")
  | JList l => match l with [] => false | _ => true end
  | JDict d => match d with [] => false | _ => true end
  end.

(* ===================================================================== *)
(** ** Exceptions and the state-and-exception monad *)
(* ===================================================================== *)

(** The messages printed immediately before [exit(1)]. *)
Inductive Diagnostic : Type :=
| RecordNotFound (objType : string) (id : Z)
    (* "ERROR: %s record ID %d not found." *)
| AlreadyExists (t : string) (id : Z) (name destName : JSON)
    (* "ERROR: Resource %s/%d "%s" already exists in Tackle2 destination
       as "%s". Clean it before running import." *)
| RequestFailed (status : Z) (url : string).
    (* "ERROR: API request failed with status %d for %s" *)

Inductive Exn : Type :=
| SystemExit (code : Z) (msg : Diagnostic)
| KeyError (key : string)
| AttributeError (attr : string)
| TypeError (what : string)
| ValueError (what : string)
| FileNotFoundError (path : string)
| OSError (class : string) (path : string).
    (* another [OSError], by the name of its class: [FileExistsError],
       [NotADirectoryError], [PermissionError], ... *)

(** Exit status of the interpreter: the argument of [exit], and 1 for an
    uncaught exception. *)
Definition exit_status (e : Exn) : Z :=
  match e with
  | SystemExit code _ => code
  | _ => 1
  end.

Inductive Res (A : Type) : Type :=
| Val (a : A)
| Exc (e : Exn).
Arguments Val {A} a.
Arguments Exc {A} e.

Definition M (S A : Type) : Type := S -> Res A * S.

Definition ret {S A : Type} (a : A) : M S A := fun s => (Val a, s).

Definition bind {S A B : Type} (m : M S A) (f : A -> M S B) : M S B :=
  fun s =>
    match m s with
    | (Val a, s') => f a s'
    | (Exc e, s') => (Exc e, s')
    end.

Definition raise {S A : Type} (e : Exn) : M S A := fun s => (Exc e, s).

Definition gets {S A : Type} (f : S -> A) : M S A := fun s => (Val (f s), s).

Definition modify {S : Type} (f : S -> S) : M S unit := fun s => (Val tt, f s).

Definition lift_res {S A : Type} (r : Res A) : M S A := fun s => (r, s).

Definition pass {S : Type} : M S unit := fun s => (Val tt, s).

Declare Scope py_scope.
Delimit Scope py_scope with py.
Notation "x <- m ;; k" := (bind m (fun x => k))
  (at level 61, m at next level, right associativity) : py_scope.
Notation "m ;;; k" := (bind m (fun _ => k))
  (at level 61, right associativity) : py_scope.
Local Open Scope py_scope.

(** [for x in xs: body(x)] *)
Fixpoint for_each {S X : Type} (xs : list X) (body : X -> M S unit) : M S unit :=
  match xs with
  | [] => pass
  | x :: rest => body x ;;; for_each rest body
  end.

(* ===================================================================== *)
(** ** Python objects *)
(* ===================================================================== *)

(** Attribute values that occur in the tool: JSON data copied from a payload
    (or a dict literal), a reference to a [Tackle2Object], a list of such
    references. *)
Inductive PyVal : Type :=
| Json (j : JSON)
| Obj (a : nat)
| ObjList (l : list nat).

(** [class Tackle2Object]: an instance is its attribute dictionary. *)
Definition Tackle2Object : Type := list (string * PyVal).

(** The payload fields every Tackle record carries. *)
Record Base : Type := mkBase {
  id : Z;
  createUser : JSON;
  updateUser : JSON
}.

(** [Tackle2Object.__init__(self, initAttrs = {})]: the three attributes are
    set only for a non-empty [initAttrs]. *)
Definition Tackle2Object_init (initAttrs : option Base) : Tackle2Object :=
  match initAttrs with
  | Some a =>
      [("id", Json (JInt (id a)));
       ("createUser", Json (createUser a));
       ("updateUser", Json (updateUser a))]
  | None => []
  end.

(** [==] between attribute values; instances compare by identity. *)
Definition pyval_eq (u v : PyVal) : bool :=
  match u, v with
  | Json a, Json b => py_eq a b
  | Obj a, Obj b => Nat.eqb a b
  | ObjList a, ObjList b => if list_eq_dec Nat.eq_dec a b then true else false
  | _, _ => false
  end.

(* ===================================================================== *)
(** ** class Tackle12Import: the export side *)
(* ===================================================================== *)

(** [TYPES] order matters for import/upload to Tackle2 (line 121). *)
Definition TYPES : list string :=
  ["tags"; "tagtypes"; "jobfunctions"; "stakeholdergroups"; "stakeholders";
   "businessservices"; "applications"; "proxies"; "dependencies";
   "assessments"; "assessments--assessment-risk"; "assessments--confidence";
   "reviews"; "identities"].

Definition TACKLE2_SEED_TYPES : list string :=
  ["tags"; "tagtypes"; "jobfunctions"].

(** The instance: the heap of [Tackle2Object]s created so far, [self.data]
    (type -> list of objects) and [self.destData] (type -> name -> object).
    Both dictionaries are created with every key they are ever used with, so
    they are total maps here. *)
Record Tackle12Import : Type := mkImport {
  heap : list Tackle2Object;
  data : string -> list nat;
  destData : string -> list (string * nat)
}.

(** [__init__]: empty collections, empty destination index. *)
Definition Tackle12Import_init : Tackle12Import :=
  mkImport [] (fun _ => []) (fun _ => []).

Definition deref (self : Tackle12Import) (a : nat) : Tackle2Object :=
  nth a (heap self) [].

Definition Py (A : Type) : Type := M Tackle12Import A.

(** Instantiation: a fresh address. *)
Definition new_object (attrs : Tackle2Object) : Py nat :=
  fun self =>
    (Val (List.length (heap self)),
     mkImport (heap self ++ [attrs]) (data self) (destData self)).

Fixpoint update_nth {A : Type} (n : nat) (f : A -> A) (l : list A) : list A :=
  match l, n with
  | [], _ => []
  | x :: rest, O => f x :: rest
  | x :: rest, S n' => x :: update_nth n' f rest
  end.

(** [obj.k = v] *)
Definition setattr (a : nat) (k : string) (v : PyVal) : Py unit :=
  modify (fun self =>
    mkImport (update_nth a (dict_set k v) (heap self)) (data self) (destData self)).

(** [obj.k] *)
Definition getattr (a : nat) (k : string) : Py PyVal :=
  fun self =>
    match dict_get k (deref self a) with
    | Some v => (Val v, self)
    | None => (Exc (AttributeError k), self)
    end.

Definition update_map {V : Type} (m : string -> V) (k : string) (v : V)
  : string -> V :=
  fun k' => if String.eqb k' k then v else m k'.

(** [self.data[type].append(item)] *)
Definition append_data (type : string) (item : nat) : Py unit :=
  modify (fun self =>
    mkImport (heap self) (update_map (data self) type (data self type ++ [item]))
             (destData self)).

(** The loop of [add] (lines 369-372): [Val true] when the [return] inside the
    loop is taken.  [hasattr(item, 'id')] short-circuits the comparison;
    [existingItem.id] raises when the existing item has no [id]. *)
Fixpoint add_scan (item : Tackle2Object) (existing : list Tackle2Object)
  : Res bool :=
  match existing with
  | [] => Val false
  | existingItem :: rest =>
      match dict_get "id" item with
      | None => add_scan item rest
      | Some i =>
          match dict_get "id" existingItem with
          | None => Exc (AttributeError "id")
          | Some j => if pyval_eq i j then Val true else add_scan item rest
          end
      end
  end.

(** [def add(self, type, item)] (lines 368-373) *)
Definition add (type : string) (item : nat) : Py unit :=
  fun self =>
    match add_scan (deref self item) (map (deref self) (data self type)) with
    | Val true => (Val tt, self)
    | Val false => append_data type item self
    | Exc e => (Exc e, self)
    end.

(** [for x in xs: ...; acc.append(y)]: a loop that fills a temporary list. *)
Fixpoint map_each {S X Y : Type} (xs : list X) (body : X -> M S Y) : M S (list Y) :=
  match xs with
  | [] => ret []
  | x :: rest => y <- body x ;; ys <- map_each rest body ;; ret (y :: ys)
  end.

(** Attribute assignments on an instance that is still local to the code
    that created it. *)
Definition with_attrs (o : Tackle2Object) (kvs : list (string * PyVal))
  : Tackle2Object :=
  fold_left (fun d kv => dict_set (fst kv) (snd kv) d) kvs o.

(** [copy.deepcopy(obj)] at its only call site (line 195): [obj] is a tag type
    whose attributes hold JSON data only (its [tags] list is attached
    afterwards), so the copy is a new instance with an equal dictionary. *)
Definition deepcopy (a : nat) : Py nat :=
  attrs <- gets (fun self => deref self a) ;;
  new_object attrs.

(** [self.destData[type][name] = obj] *)
Definition set_dest (type name : string) (a : nat) : Py unit :=
  modify (fun self =>
    mkImport (heap self) (data self)
             (update_map (destData self) type (dict_set name a (destData self type)))).

(** A name used as a key of a destination index.  The index is keyed by the
    destination's names, which are strings. *)
Definition dest_get (name : PyVal) (index : list (string * nat)) : option nat :=
  match name with
  | Json (JStr s) => dict_get s index
  | _ => None
  end.

(** [d[k]] on a JSON value. *)
Definition getitem (d : JSON) (k : string) : Res JSON :=
  match d with
  | JDict kvs =>
      match dict_get k kvs with
      | Some v => Val v
      | None => Exc (KeyError k)
      end
  | JList _ => Exc (TypeError "list indices must be integers or slices, not str")
  | JStr _ => Exc (TypeError "string indices must be integers")
  | _ => Exc (TypeError "object is not subscriptable")
  end.

(** [obj[k]] on a [Tackle2Object]: the class defines no [__getitem__]. *)
Definition subscript_object (a : nat) (k : string) : Py JSON :=
  raise (TypeError "'Tackle2Object' object is not subscriptable").

(** ["%d" % v] accepts numbers only. *)
Definition format_d (v : JSON) : Res Z :=
  match v with
  | JInt z => Val z
  | JBool b => Val (if b then 1 else 0)%Z
  | _ => Exc (TypeError "%d format: a real number is required")
  end.

(** *** Payloads of the Tackle 1.2 API

    The records of the source system, with the fields the tool reads.
    Fields that are only copied are JSON values. *)

Record Tag1 : Type := mkTag1 {
  tag1_base : Base;
  tag1_name : string
}.

Record TagType1 : Type := mkTagType1 {
  tt1_base : Base;
  tt1_name : string;
  tt1_colour : JSON;
  tt1_rank : JSON;
  tt1_tags : list Tag1
}.

Record Review1 : Type := mkReview1 {
  rev1_base : Base;
  rev1_proposedAction : JSON;
  rev1_effortEstimate : JSON;
  rev1_businessCriticality : JSON;
  rev1_workPriority : JSON;
  rev1_comments : JSON;
  rev1_copiedFromReviewId : JSON
}.

(** [app1_tags]: the ids listed under ['tags'], after [int(tagId)]; empty when
    the field is null.  [app1_businessService]: [None] when the field is
    falsy, else its [int()]. *)
Record Application1 : Type := mkApplication1 {
  app1_base : Base;
  app1_name : JSON;
  app1_description : JSON;
  app1_tags : list Z;
  app1_businessService : option Z;
  app1_review : option Review1
}.

Record Endpoint1 : Type := mkEndpoint1 {
  ep1_id : JSON;
  ep1_name : JSON
}.

Record Dependency1 : Type := mkDependency1 {
  dep1_base : Base;
  dep1_to : Endpoint1;
  dep1_from : Endpoint1
}.

Record Assessment1 : Type := mkAssessment1 {
  assm1_id : JSON;
  assm1_applicationId : JSON;
  assm1_status : JSON
}.

Record AssessmentRisk1 : Type := mkAssessmentRisk1 {
  assmr1_assessmentId : JSON;
  assmr1_applicationId : JSON;
  assmr1_risk : JSON
}.

Record Confidence1 : Type := mkConfidence1 {
  conf1_assessmentId : JSON;
  conf1_applicationId : JSON;
  conf1_confidence : JSON
}.

Record StakeholderGroup1 : Type := mkStakeholderGroup1 {
  shg1_base : Base;
  shg1_name : JSON;
  shg1_description : JSON
}.

(** [sh1_jobFunction] is the raw ['jobFunction'] field (null when the
    stakeholder has none). *)
Record Stakeholder1 : Type := mkStakeholder1 {
  sh1_base : Base;
  sh1_displayName : JSON;
  sh1_email : JSON;
  sh1_stakeholderGroups : list StakeholderGroup1;
  sh1_jobFunction : JSON
}.

Record StakeholderRef1 : Type := mkStakeholderRef1 {
  shr1_base : Base;
  shr1_displayName : JSON;
  shr1_email : JSON
}.

Record JobFunction1 : Type := mkJobFunction1 {
  jf1_base : Base;
  jf1_role : string;
  jf1_stakeholders : list StakeholderRef1
}.

Record BusinessService1 : Type := mkBusinessService1 {
  bs1_base : Base;
  bs1_name : JSON;
  bs1_description : JSON;
  bs1_owner : JSON
}.

(** What the source system answers to the requests of [dumpTackle1]; the
    three Pathfinder collections are requested per application id. *)
Record Tackle1 : Type := mkTackle1 {
  t1_tag_type : list TagType1;
  t1_application : list Application1;
  t1_applications_dependency : list Dependency1;
  t1_assessments : Z -> list Assessment1;
  t1_assessment_risk : Z -> list AssessmentRisk1;
  t1_confidence : Z -> list Confidence1;
  t1_stakeholder : list Stakeholder1;
  t1_stakeholder_group : list StakeholderGroup1;
  t1_job_function : list JobFunction1;
  t1_business_service : list BusinessService1
}.

(** *** Payloads of the Tackle 2 seed queries *)

Record SeedTag2 : Type := mkSeedTag2 {
  t2_id : JSON;
  t2_name : string
}.

Record SeedTagType2 : Type := mkSeedTagType2 {
  tt2_base : Base;
  tt2_name : string;
  tt2_tags : list SeedTag2
}.

Record SeedJobFunction2 : Type := mkSeedJobFunction2 {
  jf2_base : Base;
  jf2_name : string
}.

Record Tackle2Seeds : Type := mkTackle2Seeds {
  t2_tagtypes : list SeedTagType2;
  t2_jobfunctions : list SeedJobFunction2
}.

(** [def loadTackle2Seeds(self)] (lines 141-160) *)
Definition loadTackle2Seeds (dest : Tackle2Seeds) : Py unit :=
  for_each (t2_tagtypes dest) (fun tt2 =>
    tt <- new_object (with_attrs (Tackle2Object_init (Some (tt2_base tt2)))
                        [("name", Json (JStr (tt2_name tt2)))]) ;;
    set_dest "tagtypes" (tt2_name tt2) tt ;;;
    for_each (tt2_tags tt2) (fun t2 =>
      tag <- new_object (with_attrs (Tackle2Object_init None)
                           [("id", Json (t2_id t2));
                            ("name", Json (JStr (t2_name t2)))]) ;;
      set_dest "tags" (t2_name t2) tag)) ;;;
  for_each (t2_jobfunctions dest) (fun jf2 =>
    jf <- new_object (with_attrs (Tackle2Object_init (Some (jf2_base jf2)))
                        [("name", Json (JStr (jf2_name jf2)))]) ;;
    set_dest "jobfunctions" (jf2_name jf2) jf).

(** The loop of [findById] (lines 164-166). *)
Fixpoint findById_scan (self : Tackle12Import) (id : Z) (objs : list nat)
  : Res (option nat) :=
  match objs with
  | [] => Val None
  | obj :: rest =>
      match dict_get "id" (deref self obj) with
      | None => Exc (AttributeError "id")
      | Some i =>
          if pyval_eq i (Json (JInt id)) then Val (Some obj)
          else findById_scan self id rest
      end
  end.

(** [def findById(self, objType, id)] (lines 162-169) *)
Definition findById (objType : string) (id : Z) : Py nat :=
  fun self =>
    match findById_scan self id (data self objType) with
    | Val (Some obj) => (Val obj, self)
    | Val None => (Exc (SystemExit 1 (RecordNotFound objType id)), self)
    | Exc e => (Exc e, self)
    end.

(** *** dumpTackle1 (lines 172-366), one definition per block *)

(** Lines 180-187: one tag of a tag type. *)
Definition dump_tag (tag1 : Tag1) : Py nat :=
  tag <- new_object (with_attrs (Tackle2Object_init (Some (tag1_base tag1)))
                       [("name", Json (JStr (tag1_name tag1)))]) ;;
  add "origin-tags" tag ;;;
  index <- gets (fun self => destData self "tags") ;;
  (if negb (dict_has (tag1_name tag1) index) then add "tags" tag else pass) ;;;
  ret tag.

(** Lines 175-199: one tag type.  The tags are already in the collections
    when [tagType] is assigned to them (line 195). *)
Definition dump_tagtype (tt1 : TagType1) : Py unit :=
  tags <- map_each (tt1_tags tt1) dump_tag ;;
  tt <- new_object (with_attrs (Tackle2Object_init (Some (tt1_base tt1)))
                      [("name", Json (JStr (tt1_name tt1)));
                       ("colour", Json (tt1_colour tt1));
                       ("rank", Json (tt1_rank tt1));
                       ("username", Json (createUser (tt1_base tt1)))]) ;;
  for_each tags (fun tag =>
    c <- deepcopy tt ;;
    setattr tag "tagType" (Obj c)) ;;;
  setattr tt "tags" (ObjList tags) ;;;
  index <- gets (fun self => destData self "tagtypes") ;;
  if negb (dict_has (tt1_name tt1) index) then add "tagtypes" tt else pass.

(** Lines 210-220: one tag id of an application. *)
Definition resolve_app_tag (tagId : Z) : Py nat :=
  appTag <- findById "origin-tags" tagId ;;
  name <- getattr appTag "name" ;;
  index <- gets (fun self => destData self "tags") ;;
  match dest_get name index with
  | Some destTag => ret destTag
  | None =>
      i <- getattr appTag "id" ;;
      new_object (with_attrs (Tackle2Object_init None) [("id", i); ("name", name)])
  end.

(** Lines 232-241: the review embedded in an application. *)
Definition review_object (app1 : Application1) (r : Review1) : Tackle2Object :=
  with_attrs (Tackle2Object_init (Some (rev1_base r)))
    ([("proposedAction", Json (rev1_proposedAction r));
      ("effortEstimate", Json (rev1_effortEstimate r));
      ("businessCriticality", Json (rev1_businessCriticality r));
      ("workPriority", Json (rev1_workPriority r));
      ("comments", Json (rev1_comments r));
      ("application",
       Json (JDict [("id", JInt (id (app1_base app1))); ("name", app1_name app1)]))]
     ++ (if truthy (rev1_copiedFromReviewId r)
         then [("copiedFromReviewId", Json (rev1_copiedFromReviewId r))]
         else [])).

(** Lines 203-245: one application. *)
Definition dump_application (app1 : Application1) : Py unit :=
  tags <- map_each (app1_tags app1) resolve_app_tag ;;
  app <- new_object (with_attrs (Tackle2Object_init (Some (app1_base app1)))
                       ([("name", Json (app1_name app1));
                         ("description", Json (app1_description app1));
                         ("tags", ObjList tags)]
                        ++ match app1_businessService app1 with
                           | Some bs => [("businessService", Json (JDict [("id", JInt bs)]))]
                           | None => []   (* a warning is printed *)
                           end)) ;;
  match app1_review app1 with
  | Some r => rev <- new_object (review_object app1 r) ;; add "reviews" rev
  | None => pass
  end ;;;
  add "applications" app.

(** Lines 257-262: one dependency. *)
Definition dependency_object (dep1 : Dependency1) : Tackle2Object :=
  with_attrs (Tackle2Object_init (Some (dep1_base dep1)))
    [("to", Json (JDict [("id", ep1_id (dep1_to dep1));
                         ("name", ep1_name (dep1_to dep1))]));
     ("from", Json (JDict [("id", ep1_id (dep1_from dep1));
                           ("name", ep1_name (dep1_from dep1))]))].

Definition dump_dependency (dep1 : Dependency1) : Py unit :=
  dep <- new_object (dependency_object dep1) ;;
  add "dependencies" dep.

(** Lines 269-273, 278-282, 287-291: one assessment, one assessment risk,
    one confidence record.  The last two are built without an [id]. *)
Definition assessment_object (assm1 : Assessment1) : Tackle2Object :=
  with_attrs (Tackle2Object_init None)
    [("id", Json (assm1_id assm1));
     ("applicationId", Json (assm1_applicationId assm1));
     ("status", Json (assm1_status assm1))].

Definition assessment_risk_object (assmr1 : AssessmentRisk1) : Tackle2Object :=
  with_attrs (Tackle2Object_init None)
    [("assessmentId", Json (assmr1_assessmentId assmr1));
     ("applicationId", Json (assmr1_applicationId assmr1));
     ("risk", Json (assmr1_risk assmr1))].

Definition confidence_object (conf1 : Confidence1) : Tackle2Object :=
  with_attrs (Tackle2Object_init None)
    [("assessmentId", Json (conf1_assessmentId conf1));
     ("applicationId", Json (conf1_applicationId conf1));
     ("confidence", Json (conf1_confidence conf1))].

Definition dump_assessment (assm1 : Assessment1) : Py unit :=
  assm <- new_object (assessment_object assm1) ;;
  add "assessments" assm.

Definition dump_assessment_risk (assmr1 : AssessmentRisk1) : Py unit :=
  assmr <- new_object (assessment_risk_object assmr1) ;;
  add "assessments--assessment-risk" assmr.

Definition dump_confidence (conf1 : Confidence1) : Py unit :=
  conf <- new_object (confidence_object conf1) ;;
  add "assessments--confidence" conf.

(** Lines 265-291: the Pathfinder records of one extracted application; the
    three collections are requested with [app.id]. *)
Definition dump_assessments_of (src : Tackle1) (app : nat) : Py unit :=
  i <- getattr app "id" ;;
  appId <- lift_res (match i with
                     | Json j => format_d j
                     | _ => Exc (TypeError "%d format: a real number is required")
                     end) ;;
  for_each (t1_assessments src appId) dump_assessment ;;;
  for_each (t1_assessment_risk src appId) dump_assessment_risk ;;;
  for_each (t1_confidence src appId) dump_confidence.

(** [Tackle2Object(d)] for a raw JSON dictionary [d]. *)
Definition Tackle2Object_of_json (d : JSON) : Res Tackle2Object :=
  if truthy d then
    match getitem d "id", getitem d "createUser", getitem d "updateUser" with
    | Val i, Val c, Val u =>
        Val [("id", Json i); ("createUser", Json c); ("updateUser", Json u)]
    | Exc e, _, _ => Exc e
    | _, Exc e, _ => Exc e
    | _, _, Exc e => Exc e
    end
  else Val [].

(** [k in index] for a raw JSON key: lists and dictionaries are unhashable. *)
Definition json_in_dest (k : JSON) (index : list (string * nat)) : Res bool :=
  match k with
  | JStr s => Val (dict_has s index)
  | JList _ => Exc (TypeError "unhashable type: 'list'")
  | JDict _ => Exc (TypeError "unhashable type: 'dict'")
  | _ => Val false
  end.

Definition stakeholdergroup_object (shg1 : StakeholderGroup1) : Tackle2Object :=
  with_attrs (Tackle2Object_init (Some (shg1_base shg1)))
    [("name", Json (shg1_name shg1));
     ("description", Json (shg1_description shg1))].

(** Lines 318-327: the job function of a stakeholder.  The source subscripts
    [sh], the [Tackle2Object] under construction, where the payload [sh1] is
    meant (lines 321, 324, 325). *)
Definition dump_stakeholder_jobFunction (sh1 : Stakeholder1) (sh : nat) : Py unit :=
  if truthy (sh1_jobFunction sh1) then
    name <- lift_res (getitem (sh1_jobFunction sh1) "name") ;;
    index <- gets (fun self => destData self "jobfunctions") ;;
    present <- lift_res (json_in_dest name index) ;;
    if present then
      jf1 <- subscript_object sh "jobFunction" ;;
      key <- lift_res (getitem jf1 "name") ;;
      match dest_get (Json key) index with
      | Some jf => setattr sh "jobFunction" (Obj jf)
      | None => raise (KeyError (match key with JStr s => s | _ => "" end))
      end
    else
      jf1 <- subscript_object sh "jobFunction" ;;
      attrs <- lift_res (Tackle2Object_of_json jf1) ;;
      jf1' <- subscript_object sh "jobFunction" ;;
      role <- lift_res (getitem jf1' "role") ;;
      jf <- new_object (with_attrs attrs [("name", Json role)]) ;;
      add "jobfunctions" jf ;;;
      setattr sh "jobFunction" (Obj jf)
  else pass.

(** Lines 303-328: one stakeholder. *)
Definition dump_stakeholder (sh1 : Stakeholder1) : Py unit :=
  shgs <- map_each (sh1_stakeholderGroups sh1) (fun shg1 =>
            shg <- new_object (stakeholdergroup_object shg1) ;;
            add "stakeholdergroups" shg ;;;
            ret shg) ;;
  sh <- new_object (with_attrs (Tackle2Object_init (Some (sh1_base sh1)))
                      [("name", Json (sh1_displayName sh1));
                       ("email", Json (sh1_email sh1));
                       ("groups", ObjList shgs)]) ;;
  dump_stakeholder_jobFunction sh1 sh ;;;
  add "stakeholders" sh.

(** Lines 332-337: one stakeholder group. *)
Definition dump_stakeholdergroup (shg1 : StakeholderGroup1) : Py unit :=
  shg <- new_object (stakeholdergroup_object shg1) ;;
  add "stakeholdergroups" shg.

(** Lines 341-356: one job function. *)
Definition dump_jobfunction (jf1 : JobFunction1) : Py unit :=
  shs <- map_each (jf1_stakeholders jf1) (fun sh1 =>
           new_object (with_attrs (Tackle2Object_init (Some (shr1_base sh1)))
                         [("name", Json (shr1_displayName sh1));
                          ("email", Json (shr1_email sh1))])) ;;
  jf <- new_object (with_attrs (Tackle2Object_init (Some (jf1_base jf1)))
                      [("name", Json (JStr (jf1_role jf1)));
                       ("stakeholders", ObjList shs)]) ;;
  index <- gets (fun self => destData self "jobfunctions") ;;
  if negb (dict_has (jf1_role jf1) index) then add "jobfunctions" jf else pass.

(** Lines 360-366: one business service. *)
Definition dump_businessservice (bs1 : BusinessService1) : Py unit :=
  bs <- new_object (with_attrs (Tackle2Object_init (Some (bs1_base bs1)))
                      [("name", Json (bs1_name bs1));
                       ("description", Json (bs1_description bs1));
                       ("owner", Json (bs1_owner bs1))]) ;;
  add "businessservices" bs.

Definition dump_tagtypes (src : Tackle1) : Py unit :=
  for_each (t1_tag_type src) dump_tagtype.

Definition dump_applications (src : Tackle1) : Py unit :=
  for_each (t1_application src) dump_application.

Definition dump_assessments (src : Tackle1) : Py unit :=
  apps <- gets (fun self => data self "applications") ;;
  for_each apps (dump_assessments_of src).

(** [def dumpTackle1(self)] *)
Definition dumpTackle1 (src : Tackle1) : Py unit :=
  dump_tagtypes src ;;;
  dump_applications src ;;;
  for_each (t1_applications_dependency src) dump_dependency ;;;
  dump_assessments src ;;;
  for_each (t1_stakeholder src) dump_stakeholder ;;;
  for_each (t1_stakeholder_group src) dump_stakeholdergroup ;;;
  for_each (t1_job_function src) dump_jobfunction ;;;
  for_each (t1_business_service src) dump_businessservice.

(* ===================================================================== *)
(** ** Strings, paths, iteration *)
(* ===================================================================== *)

(** [sub in s] on strings. *)
Fixpoint contains (sub s : string) : bool :=
  String.prefix sub s ||
  match s with
  | EmptyString => false
  | String _ rest => contains sub rest
  end.

(** [s.replace("--", "/")] *)
Fixpoint replace_dashes (s : string) : string :=
  match s with
  | String "-"%char (String "-"%char rest) => String "/"%char (replace_dashes rest)
  | String c rest => String c (replace_dashes rest)
  | EmptyString => EmptyString
  end.

(** [s.rsplit('/')[-1]]: what follows the last slash. *)
Fixpoint last_segment_from (cur s : string) : string :=
  match s with
  | EmptyString => cur
  | String "/"%char rest => last_segment_from EmptyString rest
  | String c rest => last_segment_from (cur ++ String c EmptyString) rest
  end.

Definition last_segment (s : string) : string := last_segment_from EmptyString s.

Fixpoint ends_with_slash (s : string) : bool :=
  match s with
  | EmptyString => false
  | String c EmptyString => Ascii.eqb c "/"%char
  | String _ rest => ends_with_slash rest
  end.

(** [os.path.join(a, b)] (POSIX) *)
Definition path_join (a b : string) : string :=
  if String.prefix "/" b then b
  else if (String.eqb a "" || ends_with_slash a)%bool then a ++ b
  else a ++ "/" ++ b.

(** [def tackle2path(obj)] (lines 97-100) *)
Definition tackle2path (obj : string) : string :=
  if contains "assessment" obj then "/pathfinder/" ++ replace_dashes obj
  else "/hub/" ++ obj.

(** The elements a [for] loop takes from a JSON value. *)
Definition iter_json (j : JSON) : Res (list JSON) :=
  match j with
  | JList l => Val l
  | JDict d => Val (map (fun kv => JStr (fst kv)) d)
  | JStr s => Val (map (fun c => JStr (String c EmptyString)) (list_ascii_of_string s))
  | _ => Exc (TypeError "object is not iterable")
  end.

(** [k in j] for a string [k]. *)
Definition py_in (k : string) (j : JSON) : Res bool :=
  match j with
  | JDict d => Val (dict_has k d)
  | JList l => Val (existsb (fun x => py_eq (JStr k) x) l)
  | JStr s => Val (contains k s)
  | _ => Exc (TypeError "argument is not iterable")
  end.

(** ["%d" % z] *)
Definition decimal (z : Z) : string := NilZero.string_of_int (Z.to_int z).

Fixpoint all_some {A : Type} (l : list (option A)) : option (list A) :=
  match l with
  | [] => Some []
  | None :: _ => None
  | Some x :: rest =>
      match all_some rest with
      | Some xs => Some (x :: xs)
      | None => None
      end
  end.

(** What [json.dumps(_, default=vars)] encodes for an instance: the JSON
    tree of its attribute dictionary, instances inside it encoded the same
    way.  [fuel] bounds the nesting; the encoder is run with more fuel than
    there are instances, so [None] stands for a circular reference, on which
    [json.dumps] raises [ValueError]. *)
Fixpoint object_json (fuel : nat) (h : list Tackle2Object) (a : nat) : option JSON :=
  match fuel with
  | O => None
  | S fuel' =>
      option_map JDict
        (all_some
           (map (fun kv =>
                   option_map (pair (fst kv))
                     match snd kv with
                     | Json j => Some j
                     | Obj b => object_json fuel' h b
                     | ObjList l =>
                         option_map JList (all_some (map (object_json fuel' h) l))
                     end)
                (nth a h [])))
  end.

Definition collection_json (self : Tackle12Import) (coll : list nat) : option JSON :=
  option_map JList
    (all_some (map (object_json (S (List.length (heap self))) (heap self)) coll)).

(* ===================================================================== *)
(** ** Snapshot files, the destination API, import and clean *)
(* ===================================================================== *)

Inductive Method : Type := GET | POST | DELETE.

Record Response (Text : Type) : Type := mkResponse {
  resp_ok : bool;
  resp_status_code : Z;
  resp_text : option Text      (* [None]: no text or the empty text *)
}.

(** What a run does to the outside, in order. *)
Inductive Event : Type :=
| Loaded (path : string)                             (* a snapshot file opened for reading *)
| Requested (method : Method) (url : string) (data : option JSON).


Definition is_read (e : Event) : bool :=
  match e with
  | Loaded _ => true
  | Requested GET _ _ => true
  | _ => false
  end.


Fixpoint filter_map {A B : Type} (f : A -> option B) (l : list A) : list B :=
  match l with
  | [] => []
  | x :: rest =>
      match f x with
      | Some y => y :: filter_map f rest
      | None => filter_map f rest
      end
  end.

(** The [json] module, the file contents it produces, the directories of
    the file system and the destination service are outside the tool: the
    text encoding of JSON, what the file system answers for a directory
    path, the state of the service and its answers are the fields of an
    environment.  A GET has no access to the state it could change.
    [os_mkdir path] is [None] when [os.mkdir(path)] makes the directory,
    else the exception it raises (for the empty path, a path that exists, a
    path whose parent is missing, a parent that cannot be written). *)
Record Environment : Type := mkEnvironment {
  Text : Type;
  empty_text : Text;
  json_dumps : JSON -> Text;               (* [json.dumps] *)
  json_load : Text -> option JSON;         (* [json.load], [json.loads] *)
  os_path_isdir : string -> bool;          (* [os.path.isdir] *)
  os_mkdir : string -> option Exn;         (* [os.mkdir] *)
  ServerState : Type;
  http_get : ServerState -> string -> Response Text;
  http_post : ServerState -> string -> Text -> Response Text * ServerState;
  http_delete : ServerState -> string -> Response Text * ServerState
}.

Section Engine.

Variable E : Environment.

(** [args.data_dir] and the destination URL of the configuration. *)
Variable dataDir : string.
Variable tackle2Url : string.

Record World : Type := mkWorld {
  files : string -> option (Text E);
  server : ServerState E;
  trace : list Event
}.

Definition IO (A : Type) : Type := M World A.

Definition log (e : Event) : IO unit :=
  modify (fun w => mkWorld (files w) (server w) (trace w ++ [e])).

Definition write_file (path : string) (text : Text E) : IO unit :=
  modify (fun w => mkWorld (update_map (files w) path (Some text)) (server w) (trace w)).

(** [requests.get / post / delete] *)
Definition request (method : Method) (url : string) (data : option JSON)
  : IO (Response (Text E)) :=
  log (Requested method url data) ;;;
  fun w =>
    match method with
    | GET => (Val (http_get E (server w) url), w)
    | POST =>
        let body := json_dumps E (match data with Some j => j | None => JNull end) in
        (Val (fst (http_post E (server w) url body)),
         mkWorld (files w) (snd (http_post E (server w) url body)) (trace w))
    | DELETE =>
        (Val (fst (http_delete E (server w) url)),
         mkWorld (files w) (snd (http_delete E (server w) url)) (trace w))
    end.

(** Lines 85-95 of [apiJSON]: decoding the answer. *)
Definition decode_response (url : string) (r : Response (Text E)) : Res (option JSON) :=
  match resp_text r with
  | None => Val None
  | Some text =>
      match json_load E text with
      | None => Exc (ValueError "JSONDecodeError")
      | Some respData =>
          match py_in "_embedded" respData with
          | Exc e => Exc e
          | Val true =>
              match getitem respData "_embedded" with
              | Exc e => Exc e
              | Val inner =>
                  match getitem inner (last_segment url) with
                  | Exc e => Exc e
                  | Val v => Val (Some v)
                  end
              end
          | Val false => Val (Some respData)
          end
      end
  end.

(** [def apiJSON(url, token, data=None, method='GET', ignoreErrors=False)]
    (lines 67-95) *)
Definition apiJSON (url : string) (data : option JSON) (method : Method)
    (ignoreErrors : bool) : IO (option JSON) :=
  r <- request method url data ;;
  (if negb (resp_ok r) then
     if ignoreErrors then pass
     else raise (SystemExit 1 (RequestFailed (resp_status_code r) url))
   else pass) ;;;
  lift_res (decode_response url r).

(** [def loadDump(path)] (lines 102-104) *)
Definition loadDump (path : string) : IO JSON :=
  log (Loaded path) ;;;
  fs <- gets files ;;
  match fs path with
  | None => raise (FileNotFoundError path)
  | Some text =>
      match json_load E text with
      | Some j => ret j
      | None => raise (ValueError "JSONDecodeError")
      end
  end.

(** [def saveJSON(path, jsonData)] (lines 106-109): the file is opened for
    writing, which truncates it, before the data is encoded. *)
Definition saveJSON (path : string) (self : Tackle12Import) (jsonData : list nat)
  : IO unit :=
  write_file (path ++ ".json") (empty_text E) ;;;
  match collection_json self jsonData with
  | Some j => write_file (path ++ ".json") (json_dumps E j)
  | None => raise (ValueError "Circular reference detected")
  end.

(** [def ensureDataDir(dataDir)] (lines 27-32) *)
Definition ensureDataDir (dataDir : string) : IO unit :=
  if os_path_isdir E dataDir then pass
  else match os_mkdir E dataDir with
       | None => pass
       | Some e => raise e
       end.

(** [def store(self)] (lines 375-378) *)
Definition store (self : Tackle12Import) : IO unit :=
  ensureDataDir dataDir ;;;
  for_each TYPES (fun t => saveJSON (path_join dataDir t) self (data self t)).

(** [def uploadTackle2(self)] (lines 380-388) *)
Definition uploadTackle2 : IO unit :=
  for_each TYPES (fun t =>
    dictCollection <- loadDump (path_join dataDir (t ++ ".json")) ;;
    items <- lift_res (iter_json dictCollection) ;;
    for_each items (fun dictObj =>
      if contains "assessment" t then pass
      else
        _ <- apiJSON (tackle2Url ++ tackle2path t) (Some dictObj) POST false ;;
        pass)).

(** The elements of [for destObj in destCollection] (line 398);
    [apiJSON] returns [None] for an empty answer. *)
Definition iter_answer (c : option JSON) : Res (list JSON) :=
  match c with
  | Some j => iter_json j
  | None => Exc (TypeError "'NoneType' object is not iterable")
  end.

(** Lines 399-401: one pair of objects. *)
Definition check_pair (t : string) (importObj destObj : JSON) : IO unit :=
  a <- lift_res (getitem importObj "id") ;;
  b <- lift_res (getitem destObj "id") ;;
  if py_eq a b then
    i <- lift_res (getitem importObj "id") ;;
    name <- lift_res (getitem importObj "name") ;;
    destName <- lift_res (getitem destObj "name") ;;
    n <- lift_res (format_d i) ;;
    raise (SystemExit 1 (AlreadyExists t n name destName))
  else pass.

(** [def preImportCheck(self)] (lines 390-401) *)
Definition preImportCheck : IO unit :=
  for_each TYPES (fun t =>
    if contains "assessment" t then pass
    else
      destCollection <- apiJSON (tackle2Url ++ tackle2path t) None GET false ;;
      localCollection <- loadDump (path_join dataDir (t ++ ".json")) ;;
      locals <- lift_res (iter_json localCollection) ;;
      for_each locals (fun importObj =>
        dests <- lift_res (iter_answer destCollection) ;;
        for_each dests (fun destObj => check_pair t importObj destObj))).

(** [def cleanTackle2(self)] (lines 403-416).  [self.TYPES.reverse()]
    reverses the list in place; nothing reads [TYPES] after the clean
    action. *)
Definition cleanTackle2 : IO unit :=
  for_each (rev TYPES) (fun t =>
    dictCollection <- loadDump (path_join dataDir (t ++ ".json")) ;;
    items <- lift_res (iter_json dictCollection) ;;
    for_each items (fun dictObj =>
      if contains "assessment" t then pass
      else
        _ <- lift_res (getitem dictObj "id") ;;     (* the printed line *)
        i <- lift_res (getitem dictObj "id") ;;
        n <- lift_res (format_d i) ;;
        _ <- apiJSON (tackle2Url ++ "/hub/" ++ t ++ "/" ++ decimal n) None DELETE true ;;
        pass)).

(** The export action (lines 432-449): seeds, extraction, snapshot files. *)
Definition export_action (skipDestCheck : bool) (dest : Tackle2Seeds)
    (src : Tackle1) : IO unit :=
  match ((if negb skipDestCheck then loadTackle2Seeds dest else pass) ;;;
         dumpTackle1 src) Tackle12Import_init with
  | (Val _, self) => store self
  | (Exc e, _) => raise e
  end.

(** The import action (lines 452-465). *)
Definition import_action (skipDestCheck : bool) : IO unit :=
  (if negb skipDestCheck then preImportCheck else pass) ;;;
  uploadTackle2.

(** The clean action (lines 468-478). *)
Definition clean_action : IO unit := cleanTackle2.

End Engine.

(* ===================================================================== *)
(** ** Vocabulary of the statements *)
(* ===================================================================== *)

(** [hasattr(o, 'id')] *)
Definition has_id (o : Tackle2Object) : Prop := dict_get "id" o <> None.

(** The attribute [k] of the instance at address [a] of a heap. *)
Definition attr (h : list Tackle2Object) (a : nat) (k : string) : option PyVal :=
  dict_get k (nth a h []).

(** The [id] of an instance when it is an integer. *)
Definition int_id (h : list Tackle2Object) (a : nat) : option Z :=
  match attr h a "id" with
  | Some (Json (JInt z)) => Some z
  | _ => None
  end.

(** What the successive [add]s of records with the keys [key x] leave in a
    collection: the first record of every key. *)
Definition add_by {X : Type} (key : X -> Z) (acc : list X) (x : X) : list X :=
  if existsb (fun u => Z.eqb (key x) (key u)) acc then acc else acc ++ [x].

Definition dedup_by {X : Type} (key : X -> Z) (l : list X) : list X :=
  fold_left (add_by key) l [].

(** The heap [h'] is a later stage of [h]: instances below [n0] are
    untouched, no instance disappears, [id] and [name] never change. *)
Definition evolves (n0 : nat) (h h' : list Tackle2Object) : Prop :=
  (forall a, (a < n0)%nat -> nth a h' [] = nth a h [])
  /\ (List.length h <= List.length h')%nat
  /\ (forall a, (a < List.length h)%nat ->
        attr h' a "id" = attr h a "id" /\ attr h' a "name" = attr h a "name").

Definition tag_id (t : Tag1) : Z := id (tag1_base t).
Definition app_id (a : Application1) : Z := id (app1_base a).

(** The instance at [a] is the object built for the source tag [t], created
    during this export (at or above [n0]). *)
Definition is_tag (n0 : nat) (h : list Tackle2Object) (a : nat) (t : Tag1) : Prop :=
  int_id h a = Some (tag_id t)
  /\ attr h a "name" = Some (Json (JStr (tag1_name t)))
  /\ (n0 <= a)%nat.

(** [{P} m {Q | E}]: from a state in [P], [m] ends in [Q] when it returns
    and in [E] when it raises. *)
Definition triple {S A : Type} (P : S -> Prop) (m : M S A)
    (Q : A -> S -> Prop) (E : Exn -> S -> Prop) : Prop :=
  forall s, P s ->
    match m s with
    | (Val a, s') => Q a s'
    | (Exc e, s') => E e s'
    end.

(** All tags of the source, in the order [dumpTackle1] meets them. *)
Definition all_tags (src : Tackle1) : list Tag1 :=
  flat_map tt1_tags (t1_tag_type src).

(** The tags whose name the destination index does not have. *)
Definition new_tags (self0 : Tackle12Import) (tags : list Tag1) : list Tag1 :=
  filter (fun t => negb (dict_has (tag1_name t) (destData self0 "tags"))) tags.

(** State of the export once the tags [ptags] have been met, starting from
    [self0]: 'origin-tags' holds an object for the first tag of every id,
    'tags' only those whose name is new to the destination. *)
Definition tags_inv (self0 : Tackle12Import) (ptags : list Tag1)
    (s : Tackle12Import) : Prop :=
  evolves (List.length (heap self0)) (heap self0) (heap s)
  /\ destData s = destData self0
  /\ Forall2 (is_tag (List.length (heap self0)) (heap s))
             (data s "origin-tags") (dedup_by tag_id ptags)
  /\ Forall2 (is_tag (List.length (heap self0)) (heap s))
             (data s "tags") (dedup_by tag_id (new_tags self0 ptags))
  /\ Forall (fun a => int_id (heap s) a <> None) (data s "tagtypes")
  /\ (forall t, t <> "origin-tags" -> t <> "tags" -> t <> "tagtypes" ->
        data s t = data self0 t).

(** The tag of the origin index that [findById] returns for [tagId]. *)
Definition origin_tag (src : Tackle1) (tagId : Z) : option Tag1 :=
  find (fun t => Z.eqb (tag_id t) tagId) (dedup_by tag_id (all_tags src)).

(** The reference [r] an application gets for the tag id [tagId]: the
    destination's object when the destination has the tag's name, else an
    object that holds the origin id and name only. *)
Definition resolved (self0 : Tackle12Import) (src : Tackle1)
    (h : list Tackle2Object) (tagId : Z) (r : nat) : Prop :=
  exists t,
    origin_tag src tagId = Some t
    /\ match dict_get (tag1_name t) (destData self0 "tags") with
       | Some d => r = d
       | None => nth r h [] = [("id", Json (JInt (tag_id t)));
                               ("name", Json (JStr (tag1_name t)))]
       end.

(** The instance at [a] is the object built for the application [app1]. *)
Definition is_app (self0 : Tackle12Import) (src : Tackle1)
    (h : list Tackle2Object) (a : nat) (app1 : Application1) : Prop :=
  int_id h a = Some (app_id app1)
  /\ exists refs,
       attr h a "tags" = Some (ObjList refs)
       /\ Forall2 (resolved self0 src h) (app1_tags app1) refs.

(** State of the export once the applications [papps] have been processed. *)
Definition apps_inv (self0 : Tackle12Import) (src : Tackle1)
    (papps : list Application1) (s : Tackle12Import) : Prop :=
  evolves (List.length (heap self0)) (heap self0) (heap s)
  /\ destData s = destData self0
  /\ Forall2 (is_tag (List.length (heap self0)) (heap s))
             (data s "origin-tags") (dedup_by tag_id (all_tags src))
  /\ Forall2 (is_tag (List.length (heap self0)) (heap s))
             (data s "tags") (dedup_by tag_id (new_tags self0 (all_tags src)))
  /\ Forall2 (is_app self0 src (heap s))
             (data s "applications") (dedup_by app_id papps)
  /\ Forall (fun a => int_id (heap s) a <> None) (data s "reviews")
  /\ (forall t, t <> "origin-tags" -> t <> "tags" -> t <> "tagtypes" ->
        t <> "applications" -> t <> "reviews" -> data s t = data self0 t).

(** What an application object holds for the tag ids of its payload. *)
Definition app_refs (h : list Tackle2Object) (app1 : Application1)
    (app : nat) (refs : list nat) : Prop :=
  int_id h app = Some (app_id app1)
  /\ attr h app "tags" = Some (ObjList refs)
  /\ List.length refs = List.length (app1_tags app1).

(** A computation that only creates instances and leaves the collections
    'tags' and 'applications' as they are, whatever its outcome. *)
Definition appends_only {A : Type} (m : Py A) : Prop :=
  forall s,
    (exists ext, heap (snd (m s)) = heap s ++ ext)
    /\ data (snd (m s)) "tags" = data s "tags"
    /\ data (snd (m s)) "applications" = data s "applications".

(** What [loadTackle2Seeds] leaves: no collected data, an index that points
    at existing objects, and under every tag name an object made of the
    destination's id and that name. *)
Definition seeded (s : Tackle12Import) : Prop :=
  (forall t, data s t = [])
  /\ (forall type, Forall (fun kv => (snd kv < List.length (heap s))%nat)
                          (destData s type))
  /\ (forall n a, dict_get n (destData s "tags") = Some a ->
         exists i, nth a (heap s) [] = [("id", Json i); ("name", Json (JStr n))]).

(** What the later blocks of [dumpTackle1] rely on and keep. *)
Definition export_inv (self0 : Tackle12Import) (src : Tackle1)
    (s : Tackle12Import) : Prop :=
  evolves (List.length (heap self0)) (heap self0) (heap s)
  /\ Forall2 (is_tag (List.length (heap self0)) (heap s))
             (data s "tags") (dedup_by tag_id (new_tags self0 (all_tags src)))
  /\ Forall2 (is_app self0 src (heap s))
             (data s "applications") (dedup_by app_id (t1_application src)).

(** What the export leaves for the source tags and the applications that
    list them.  For a tag whose name the destination index has: no object of
    'tags' has that name, the destination's object is untouched and made of
    the destination's id and the name, and the applications that list the
    tag's id hold the destination's object at that position.  For another tag: an object with its origin id and name is
    in 'tags', and the applications hold at that position an object made of
    this id and name. *)
Definition remapped (self0 : Tackle12Import) (src : Tackle1)
    (self' : Tackle12Import) : Prop :=
  forall tag1, In tag1 (all_tags src) ->
    match dict_get (tag1_name tag1) (destData self0 "tags") with
    | Some d =>
        (forall a, In a (data self' "tags") ->
                   attr (heap self') a "name" <> Some (Json (JStr (tag1_name tag1))))
        /\ nth d (heap self') [] = nth d (heap self0) []
        /\ (exists i, nth d (heap self') []
                      = [("id", Json i); ("name", Json (JStr (tag1_name tag1)))])
        /\ forall app1, In app1 (t1_application src) ->
             exists app refs,
               In app (data self' "applications")
               /\ app_refs (heap self') app1 app refs
               /\ forall k, nth_error (app1_tags app1) k = Some (tag_id tag1) ->
                            nth_error refs k = Some d
    | None =>
        (exists a, In a (data self' "tags")
                   /\ int_id (heap self') a = Some (tag_id tag1)
                   /\ attr (heap self') a "name" = Some (Json (JStr (tag1_name tag1))))
        /\ forall app1, In app1 (t1_application src) ->
             exists app refs,
               In app (data self' "applications")
               /\ app_refs (heap self') app1 app refs
               /\ forall k, nth_error (app1_tags app1) k = Some (tag_id tag1) ->
                    exists r,
                      nth_error refs k = Some r
                      /\ nth r (heap self') []
                         = [("id", Json (JInt (tag_id tag1)));
                            ("name", Json (JStr (tag1_name tag1)))]
    end.

(** Position of a type in a list of types, and "strictly before". *)
Fixpoint position (t : string) (l : list string) : option nat :=
  match l with
  | [] => None
  | t' :: rest =>
      if String.eqb t t' then Some O
      else option_map S (position t rest)
  end.

Definition precedes (t' t : string) (l : list string) : bool :=
  match position t' l, position t l with
  | Some i, Some j => Nat.ltb i j
  | _, _ => false
  end.

(** The attributes through which a produced entity refers to an entity of
    another collection by an embedded dictionary, a nested object or a list
    of nested objects, as [dumpTackle1] assigns them:
    (type of the entity, attribute, type referred to).
    Plain id fields ([applicationId], [assessmentId], [copiedFromReviewId])
    are scalars and are not listed. *)
Definition reference_fields : list (string * string * string) :=
  [("tags", "tagType", "tagtypes");                     (* line 195 *)
   ("tagtypes", "tags", "tags");                        (* line 196 *)
   ("applications", "tags", "tags");                    (* line 225 *)
   ("applications", "businessService", "businessservices");   (* line 227 *)
   ("reviews", "application", "applications");          (* line 238 *)
   ("dependencies", "to", "applications");              (* line 260 *)
   ("dependencies", "from", "applications");            (* line 261 *)
   ("stakeholders", "groups", "stakeholdergroups");     (* line 317 *)
   ("stakeholders", "jobFunction", "jobfunctions");     (* lines 321, 327 *)
   ("jobfunctions", "stakeholders", "stakeholders");    (* line 353 *)
   ("businessservices", "owner", "stakeholders")].      (* line 365 *)

(** The two references that point at a type placed later in [TYPES]. *)
Definition points_forward (r : string * string * string) : bool :=
  match r with
  | (t, f, _) =>
      (String.eqb t "tags" && String.eqb f "tagType")
      || (String.eqb t "jobfunctions" && String.eqb f "stakeholders")
  end.

(* ===================================================================== *)
(** ** Sample data used by the examples *)
(* ===================================================================== *)

Definition sample_base (i : Z) : Base := mkBase i (JStr "admin") (JStr "admin").

(** An instance with one application (id 7) already collected. *)
Definition one_application : Tackle12Import :=
  mkImport [Tackle2Object_init (Some (sample_base 7))]
           (fun t => if String.eqb t "applications" then [0%nat] else [])
           (fun _ => []).

(** An instance holding two objects with the same id, none collected yet. *)
Definition two_pending : Tackle12Import :=
  mkImport [Tackle2Object_init (Some (sample_base 7));
            Tackle2Object_init (Some (sample_base 7))]
           (fun _ => [])
           (fun _ => []).

(** An instance holding one assessment-risk object, not collected yet. *)
Definition one_risk_pending : Tackle12Import :=
  mkImport [assessment_risk_object (mkAssessmentRisk1 (JInt 1) (JInt 7) (JStr "RED"))]
           (fun _ => [])
           (fun _ => []).

(** The destination already has a tag "Java" (id 42) under another tag type,
    and a job function "Architect". *)
Definition sample_seeds : Tackle2Seeds :=
  mkTackle2Seeds
    [mkSeedTagType2 (sample_base 7) "Runtime" [mkSeedTag2 (JInt 42) "Java"]]
    [mkSeedJobFunction2 (sample_base 4) "Architect"].

(** A source with tag type "Language" holding "Java" (id 99) and "Go"
    (id 100), one application that lists both tags, and one dependency. *)
Definition sample_source : Tackle1 :=
  mkTackle1
    [mkTagType1 (sample_base 5) "Language" (JStr "#fff") (JInt 1)
       [mkTag1 (sample_base 99) "Java"; mkTag1 (sample_base 100) "Go"]]
    [mkApplication1 (sample_base 1) (JStr "Shop") JNull [99%Z; 100%Z] (Some 3%Z) None]
    [mkDependency1 (sample_base 8) (mkEndpoint1 (JInt 20) (JStr "B"))
                   (mkEndpoint1 (JInt 10) (JStr "A"))]
    (fun _ => []) (fun _ => []) (fun _ => [])
    [] [] [] [].

(** The instance after [__init__] and [loadTackle2Seeds]. *)
Definition sample_seeded : Tackle12Import :=
  snd (loadTackle2Seeds sample_seeds Tackle12Import_init).

(** A source whose only record is a stakeholder with a job function. *)
Definition sample_jobFunction : JSON :=
  JDict [("id", JInt 3); ("createUser", JStr "admin"); ("updateUser", JStr "admin");
         ("name", JStr "Architect"); ("role", JStr "Architect")].

Definition sample_stakeholder : Stakeholder1 :=
  mkStakeholder1 (sample_base 2) (JStr "Ann") (JStr "ann@example.com") []
                 sample_jobFunction.

Definition sample_source_stakeholder : Tackle1 :=
  mkTackle1 [] [] [] (fun _ => []) (fun _ => []) (fun _ => [])
            [sample_stakeholder] [] [] [].

(* ===================================================================== *)
(** ** Vocabulary of the statements about import and clean *)
(* ===================================================================== *)

(** A computation that leaves files and the destination service as they
    are, adds only reads (file loads, GET requests) to the trace, and whose
    exceptions all end the process with status 1. *)
Definition only_reads {E : Environment} {A : Type} (m : IO E A) : Prop :=
  forall w,
    files (snd (m w)) = files w
    /\ server (snd (m w)) = server w
    /\ (exists evs, trace (snd (m w)) = trace w ++ evs /\ forallb is_read evs = true)
    /\ (forall e, fst (m w) = Exc e -> exit_status e = 1%Z).

(** The snapshot file of a type. *)
Definition snapshot_path (dataDir t : string) : string :=
  path_join dataDir (t ++ ".json").

(** The snapshot of type [t] and the destination's collection of type [t],
    as preflight gets them in the world [w]: [locals] and [dests]. *)
Definition preflight_sees {E : Environment} (dataDir tackle2Url : string)
    (w : World E) (t : string) (locals dests : list JSON) : Prop :=
  (exists text j,
      files w (snapshot_path dataDir t) = Some text
      /\ json_load E text = Some j
      /\ iter_json j = Val locals)
  /\ resp_ok (http_get E (server w) (tackle2Url ++ tackle2path t)) = true
  /\ exists c,
       decode_response E (tackle2Url ++ tackle2path t)
         (http_get E (server w) (tackle2Url ++ tackle2path t)) = Val c
       /\ iter_answer c = Val dests.

(** An entity of the snapshot and one of the destination with equal ids. *)
Definition collide (x y : JSON) : Prop :=
  exists a b, getitem x "id" = Val a /\ getitem y "id" = Val b /\ py_eq a b = true.

Definition differ (x y : JSON) : Prop :=
  exists a b, getitem x "id" = Val a /\ getitem y "id" = Val b /\ py_eq a b = false.



(** The types preflight checks, import creates and clean deletes. *)
Definition checked (t : string) : bool := negb (contains "assessment" t).





(** The create request of import for an entity [x] of type [t], and the
    trace of a complete import run over the snapshots [objs]. *)
Definition create_request (tackle2Url t : string) (x : JSON) : Event :=
  Requested POST (tackle2Url ++ tackle2path t) (Some x).

Definition import_trace (dataDir tackle2Url : string) (objs : string -> list JSON)
  : list Event :=
  flat_map (fun t =>
              Loaded (snapshot_path dataDir t)
              :: (if checked t then map (create_request tackle2Url t) (objs t) else []))
           TYPES.

(** *** A sample environment

    Texts are JSON trees; no directory exists yet and every directory but
    the one of the empty path can be made; the service holds one collection
    per URL, answers a GET with it, answers every POST with 201 Created and
    every DELETE with 404 Not Found, both without text. *)
Definition sample_environment : Environment :=
  {| Text := JSON;
     empty_text := JNull;
     json_dumps := fun j => j;
     json_load := fun t => Some t;
     os_path_isdir := fun path => false;
     os_mkdir := fun path =>
       if String.eqb path "" then Some (FileNotFoundError path) else None;
     ServerState := list (string * JSON);
     http_get := fun s url =>
       mkResponse true 200
         (Some (match dict_get url s with Some c => c | None => JList [] end));
     http_post := fun s url body => (mkResponse true 201 None, s);
     http_delete := fun s url => (mkResponse false 404 None, s) |}.

Definition entity (i : Z) (name : string) : JSON :=
  JDict [("id", JInt i); ("name", JStr name)].

(** Snapshot files under "data": one application (id 7), other types empty. *)
Definition sample_files (path : string) : option JSON :=
  if String.eqb path "data/applications.json" then Some (JList [entity 7 "Shop"])
  else if existsb (fun t => String.eqb path ("data/" ++ t ++ ".json")) TYPES
       then Some (JList [])
       else None.


(** The destination has an application with another id. *)
Definition sample_world_clear : World sample_environment :=
  mkWorld sample_environment sample_files
          [("http://hub/hub/applications", JList [entity 8 "Store"])] [].


(** The directory prefix [os.path.join] puts before a relative name. *)
Definition dir_prefix (dataDir : string) : string :=
  if (String.eqb dataDir "" || ends_with_slash dataDir)%bool then dataDir
  else dataDir ++ "/".

(** An object whose attributes all hold JSON data, and its JSON tree. *)
Definition flat (o : Tackle2Object) : Prop :=
  Forall (fun kv => exists j, snd kv = Json j) o.

Definition vars_json (o : Tackle2Object) : JSON :=
  JDict (map (fun kv => (fst kv, match snd kv with Json j => j | _ => JNull end)) o).

(** An instance with the dependency of the sample source collected. *)
Definition sample_dependency : Dependency1 :=
  mkDependency1 (sample_base 8) (mkEndpoint1 (JInt 20) (JStr "B"))
                (mkEndpoint1 (JInt 10) (JStr "A")).

Definition sample_exported : Tackle12Import :=
  snd (dumpTackle1 sample_source sample_seeded).

Definition sample_world_empty : World sample_environment :=
  mkWorld sample_environment (fun _ => None) [] [].

(** The URLs of the create requests of a trace, in order. *)
Definition created_urls (evs : list Event) : list string :=
  filter_map (fun e => match e with
                       | Requested POST url _ => Some url
                       | _ => None
                       end) evs.

(** The serialised entities of the sample export, by type. *)
Definition sample_objs (t : string) : list JSON :=
  match collection_json sample_exported (data sample_exported t) with
  | Some (JList l) => l
  | _ => []
  end.

(** The data directory is a directory already, or [os.mkdir] makes it. *)
Definition usable_dir (E : Environment) (dataDir : string) : Prop :=
  os_path_isdir E dataDir = true \/ os_mkdir E dataDir = None.

(** The JSON tree that stands for a value of an attribute: JSON data stands
    for itself, an instance is the dictionary of its attributes, in their
    order and each under its name, and a list of instances is the list of
    their dictionaries. *)
Inductive written (h : list Tackle2Object) : PyVal -> JSON -> Prop :=
| written_json (j : JSON) : written h (Json j) j
| written_obj (a : nat) (kvs : list (string * JSON)) :
    Forall2 (fun (kv : string * PyVal) (kj : string * JSON) =>
               fst kv = fst kj /\ written h (snd kv) (snd kj))
            (nth a h []) kvs ->
    written h (Obj a) (JDict kvs)
| written_list (l : list nat) (js : list JSON) :
    Forall2 (fun (a : nat) (j : JSON) => written h (Obj a) j) l js ->
    written h (ObjList l) (JList js).








(* ===================================================================== *)
(** ** Vocabulary of the statement about references and [TYPES] *)
(* ===================================================================== *)

(** An attribute value through which an entity can carry a reference: a
    nested instance, a list of nested instances or an embedded dictionary. *)
Definition holds_reference (v : PyVal) : bool :=
  match v with
  | Json (JDict _) => true
  | Json _ => false
  | Obj _ => true
  | ObjList _ => true
  end.

Definition is_dict (j : JSON) : bool :=
  match j with
  | JDict _ => true
  | _ => false
  end.

(** The fields of the payloads that the tool copies into an entity as they
    come hold no dictionary.  (The endpoints of a dependency and the owner
    of a business service are references and are not constrained.) *)
Definition plain_base (b : Base) : Prop :=
  is_dict (createUser b) = false /\ is_dict (updateUser b) = false.

Definition plain_tagtype (tt1 : TagType1) : Prop :=
  plain_base (tt1_base tt1)
  /\ is_dict (tt1_colour tt1) = false /\ is_dict (tt1_rank tt1) = false
  /\ Forall (fun tag1 => plain_base (tag1_base tag1)) (tt1_tags tt1).

Definition plain_review (r : Review1) : Prop :=
  plain_base (rev1_base r)
  /\ is_dict (rev1_proposedAction r) = false
  /\ is_dict (rev1_effortEstimate r) = false
  /\ is_dict (rev1_businessCriticality r) = false
  /\ is_dict (rev1_workPriority r) = false
  /\ is_dict (rev1_comments r) = false
  /\ is_dict (rev1_copiedFromReviewId r) = false.

Definition plain_application (app1 : Application1) : Prop :=
  plain_base (app1_base app1)
  /\ is_dict (app1_name app1) = false /\ is_dict (app1_description app1) = false
  /\ match app1_review app1 with
     | Some r => plain_review r
     | None => True
     end.

Definition plain_assessment (assm1 : Assessment1) : Prop :=
  is_dict (assm1_id assm1) = false
  /\ is_dict (assm1_applicationId assm1) = false
  /\ is_dict (assm1_status assm1) = false.

Definition plain_assessment_risk (assmr1 : AssessmentRisk1) : Prop :=
  is_dict (assmr1_assessmentId assmr1) = false
  /\ is_dict (assmr1_applicationId assmr1) = false
  /\ is_dict (assmr1_risk assmr1) = false.

Definition plain_confidence (conf1 : Confidence1) : Prop :=
  is_dict (conf1_assessmentId conf1) = false
  /\ is_dict (conf1_applicationId conf1) = false
  /\ is_dict (conf1_confidence conf1) = false.

Definition plain_stakeholdergroup (shg1 : StakeholderGroup1) : Prop :=
  plain_base (shg1_base shg1)
  /\ is_dict (shg1_name shg1) = false /\ is_dict (shg1_description shg1) = false.

Definition plain_stakeholder (sh1 : Stakeholder1) : Prop :=
  plain_base (sh1_base sh1)
  /\ is_dict (sh1_displayName sh1) = false /\ is_dict (sh1_email sh1) = false
  /\ Forall plain_stakeholdergroup (sh1_stakeholderGroups sh1).

Definition plain_businessservice (bs1 : BusinessService1) : Prop :=
  plain_base (bs1_base bs1)
  /\ is_dict (bs1_name bs1) = false /\ is_dict (bs1_description bs1) = false.

Definition plain_source (src : Tackle1) : Prop :=
  Forall plain_tagtype (t1_tag_type src)
  /\ Forall plain_application (t1_application src)
  /\ Forall (fun dep1 => plain_base (dep1_base dep1)) (t1_applications_dependency src)
  /\ (forall appId, Forall plain_assessment (t1_assessments src appId))
  /\ (forall appId, Forall plain_assessment_risk (t1_assessment_risk src appId))
  /\ (forall appId, Forall plain_confidence (t1_confidence src appId))
  /\ Forall plain_stakeholder (t1_stakeholder src)
  /\ Forall plain_stakeholdergroup (t1_stakeholder_group src)
  /\ Forall (fun jf1 => plain_base (jf1_base jf1)) (t1_job_function src)
  /\ Forall plain_businessservice (t1_business_service src).

(** Every attribute of the instance [o] that can carry a reference is
    listed for the type [t] in [reference_fields]. *)
Definition listed (t : string) (o : Tackle2Object) : Prop :=
  forall k v, In (k, v) o -> holds_reference v = true ->
    exists t', In (t, k, t') reference_fields.

(** State of an export: the instances collected under a type of [TYPES]
    are instances made for that type ([kind]), and the attributes of an
    instance made for a type are listed for it. *)
Definition covered_by (kind : nat -> option string) (s : Tackle12Import) : Prop :=
  (forall t a, In t TYPES -> In a (data s t) -> kind a = Some t)
  /\ (forall a t, kind a = Some t -> listed t (nth a (heap s) []))
  /\ (forall a, (List.length (heap s) <= a)%nat -> kind a = None).

(** [covered tr s]: the state is covered and the instances of [tr] are
    made for the types [tr] gives them. *)
Definition covered (tr : list (nat * string)) (s : Tackle12Import) : Prop :=
  exists kind,
    covered_by kind s /\ Forall (fun p => kind (fst p) = Some (snd p)) tr.

(** A source with a tag type, an application with a review and a business
    service, a stakeholder in a group, and a job function that lists a
    stakeholder. *)
Definition sample_source_references : Tackle1 :=
  mkTackle1
    [mkTagType1 (sample_base 5) "Language" (JStr "#fff") (JInt 1)
       [mkTag1 (sample_base 99) "Java"]]
    [mkApplication1 (sample_base 1) (JStr "Shop") JNull [99%Z] (Some 3%Z)
       (Some (mkReview1 (sample_base 11) (JStr "rehost") (JStr "small") (JInt 5)
                        (JInt 1) (JStr "") JNull))]
    [mkDependency1 (sample_base 8) (mkEndpoint1 (JInt 20) (JStr "B"))
                   (mkEndpoint1 (JInt 10) (JStr "A"))]
    (fun _ => []) (fun _ => []) (fun _ => [])
    [mkStakeholder1 (sample_base 2) (JStr "Ann") (JStr "ann@example.com")
       [mkStakeholderGroup1 (sample_base 1) (JStr "Core") JNull] JNull]
    []
    [mkJobFunction1 (sample_base 4) "Tester"
       [mkStakeholderRef1 (sample_base 2) (JStr "Ann") (JStr "ann@example.com")]]
    [mkBusinessService1 (sample_base 3) (JStr "Retail") JNull
       (JDict [("id", JInt 2); ("displayName", JStr "Ann")])].

(* ===================================================================== *)
(** ** Vocabulary of the statements about single runs *)
(* ===================================================================== *)

(** A computation that leaves the files as they are and adds to the trace
    only events that [allowed] accepts, whatever its outcome. *)
Definition emits {E : Environment} {A : Type} (allowed : Event -> bool)
    (m : IO E A) : Prop :=
  forall w,
    files (snd (m w)) = files w
    /\ exists evs, trace (snd (m w)) = trace w ++ evs /\ forallb allowed evs = true.

(** The load of the snapshot file of one of the [TYPES]. *)
Definition snapshot_load (dataDir : string) (e : Event) : bool :=
  match e with
  | Loaded p => existsb (fun t => String.eqb p (snapshot_path dataDir t)) TYPES
  | _ => false
  end.

(** What an import run does: it loads snapshot files and asks the hub to
    create entities of the checked types. *)
Definition import_event (dataDir tackle2Url : string) (e : Event) : bool :=
  match e with
  | Loaded _ => snapshot_load dataDir e
  | Requested POST url (Some _) =>
      existsb (fun t => checked t && String.eqb url (tackle2Url ++ "/hub/" ++ t)) TYPES
  | _ => false
  end.

(** What a clean run does: it loads snapshot files and asks the hub to
    delete single entities of the checked types. *)
Definition clean_event (dataDir tackle2Url : string) (e : Event) : bool :=
  match e with
  | Loaded _ => snapshot_load dataDir e
  | Requested DELETE url None =>
      existsb (fun t => checked t && String.prefix (tackle2Url ++ "/hub/" ++ t ++ "/") url)
              TYPES
  | _ => false
  end.

(** The snapshot file of type [t] is at hand in [w] and holds something a
    [for] loop can run over. *)
Definition snapshot_present {E : Environment} (dataDir : string) (w : World E)
    (t : string) : Prop :=
  exists text j items,
    files w (snapshot_path dataDir t) = Some text
    /\ json_load E text = Some j
    /\ iter_json j = Val items.

(** An exception raised by the data at hand: a missing key, a value of the
    wrong kind, a text that is not JSON. *)
Definition data_error (e : Exn) : Prop :=
  match e with
  | KeyError _ | TypeError _ | ValueError _ => True
  | _ => False
  end.

(** The sample destination, refusing every create request. *)
Definition sample_environment_refusing : Environment :=
  {| Text := JSON;
     empty_text := JNull;
     json_dumps := fun j => j;
     json_load := fun t => Some t;
     os_path_isdir := fun path => false;
     os_mkdir := fun path =>
       if String.eqb path "" then Some (FileNotFoundError path) else None;
     ServerState := list (string * JSON);
     http_get := fun s url =>
       mkResponse true 200
         (Some (match dict_get url s with Some c => c | None => JList [] end));
     http_post := fun s url body => (mkResponse false 500 None, s);
     http_delete := fun s url => (mkResponse false 404 None, s) |}.

Definition sample_world_refusing : World sample_environment_refusing :=
  mkWorld sample_environment_refusing sample_files [] [].

(** Snapshot files under "data" that hold the sample dependency (id 8) and
    nothing else, and a destination that already has a dependency 8. *)
Definition sample_files_dependency (path : string) : option JSON :=
  if String.eqb path "data/dependencies.json"
  then Some (JList [vars_json (dependency_object sample_dependency)])
  else if existsb (fun t => String.eqb path ("data/" ++ t ++ ".json")) TYPES
       then Some (JList [])
       else None.

Definition sample_world_dependency : World sample_environment :=
  mkWorld sample_environment sample_files_dependency
          [("http://hub/hub/dependencies", JList [JDict [("id", JInt 8)]])] [].

(** The instance at [a] bears the integer id [i]. *)
Definition bears (h : list Tackle2Object) (i : Z) (a : nat) : bool :=
  match int_id h a with
  | Some z => Z.eqb z i
  | None => false
  end.

(** An instance with two collected objects (ids 7 and 9) and a third object
    (id 9 again) not collected yet. *)
Definition two_collected : Tackle12Import :=
  mkImport [Tackle2Object_init (Some (sample_base 7));
            Tackle2Object_init (Some (sample_base 9));
            Tackle2Object_init (Some (sample_base 9))]
           (fun t => if String.eqb t "applications" then [0%nat; 1%nat] else [])
           (fun _ => []).

(** All tags of the destination's tag types, in the order
    [loadTackle2Seeds] meets them. *)
Definition all_seed_tags (dest : Tackle2Seeds) : list SeedTag2 :=
  flat_map tt2_tags (t2_tagtypes dest).

(** The objects [loadTackle2Seeds] builds. *)
Definition seed_tagtype_object (tt2 : SeedTagType2) : Tackle2Object :=
  [("id", Json (JInt (id (tt2_base tt2))));
   ("createUser", Json (createUser (tt2_base tt2)));
   ("updateUser", Json (updateUser (tt2_base tt2)));
   ("name", Json (JStr (tt2_name tt2)))].

Definition seed_tag_object (t2 : SeedTag2) : Tackle2Object :=
  [("id", Json (t2_id t2)); ("name", Json (JStr (t2_name t2)))].

Definition seed_jobfunction_object (jf2 : SeedJobFunction2) : Tackle2Object :=
  [("id", Json (JInt (id (jf2_base jf2))));
   ("createUser", Json (createUser (jf2_base jf2)));
   ("updateUser", Json (updateUser (jf2_base jf2)));
   ("name", Json (JStr (jf2_name jf2)))].

(** The index of [type] holds exactly the names of the seeds [L], and
    under each name the object built for the last seed of that name. *)
Definition indexed {X : Type} (s : Tackle12Import) (type : string) (L : list X)
    (name : X -> string) (obj : X -> Tackle2Object) : Prop :=
  forall n,
    match find (fun x => String.eqb (name x) n) (rev L) with
    | Some x =>
        exists a, dict_get n (destData s type) = Some a
                  /\ (a < List.length (heap s))%nat
                  /\ nth a (heap s) [] = obj x
    | None => dict_get n (destData s type) = None
    end.

(** State of [loadTackle2Seeds] once the tag types [tts], the tags [ts] and
    the job functions [jfs] have been entered. *)
Definition seeds_entered (tts : list SeedTagType2) (ts : list SeedTag2)
    (jfs : list SeedJobFunction2) (s : Tackle12Import) : Prop :=
  (forall t, data s t = [])
  /\ indexed s "tagtypes" tts tt2_name seed_tagtype_object
  /\ indexed s "tags" ts t2_name seed_tag_object
  /\ indexed s "jobfunctions" jfs jf2_name seed_jobfunction_object
  /\ (forall t, t <> "tagtypes" -> t <> "tags" -> t <> "jobfunctions" -> destData s t = []).

(* ===================================================================== *)
(** ** Vocabulary of the statements about references between instances *)
(* ===================================================================== *)

(** The instances an attribute value and an instance refer to. *)
Definition refs_val (v : PyVal) : list nat :=
  match v with
  | Json _ => []
  | Obj b => [b]
  | ObjList l => l
  end.

Definition refs_of (o : Tackle2Object) : list nat :=
  flat_map (fun kv => refs_val (snd kv)) o.

(** The references of a heap follow the ranking [lv]: an instance refers
    to existing instances of lower rank only. *)
Definition ranked (lv : nat -> nat) (h : list Tackle2Object) : Prop :=
  forall a b, In b (refs_of (nth a h [])) ->
    (b < List.length h)%nat /\ (lv b < lv a)%nat.

(** [id] and [name], where an instance has them, hold JSON data. *)
Definition scalar_keys (o : Tackle2Object) : Prop :=
  forall k v, k = "id" \/ k = "name" -> dict_get k o = Some v -> exists j, v = Json j.

(** State of an export that started with [n0] instances: references follow
    a ranking with three ranks, the instances that were there at the start
    have the lowest one, and the destination index points at them. *)
Definition layered_by (n0 : nat) (lv : nat -> nat) (s : Tackle12Import) : Prop :=
  ranked lv (heap s)
  /\ (forall a, lv a <= 2)%nat
  /\ (forall a, (a < n0)%nat -> lv a = 0%nat)
  /\ (n0 <= List.length (heap s))%nat
  /\ (forall a, scalar_keys (nth a (heap s) []))
  /\ (forall t, Forall (fun kv => (snd kv < n0)%nat) (destData s t)).

(** [layered n0 k ys s]: the state is layered and the instances [ys] exist
    and have rank [k]. *)
Definition layered (n0 k : nat) (ys : list nat) (s : Tackle12Import) : Prop :=
  exists lv,
    layered_by n0 lv s
    /\ Forall (fun y => (y < List.length (heap s))%nat /\ lv y = k) ys.

(** A state all of whose instances hold JSON data only and whose index
    points at existing instances: what [__init__] and [loadTackle2Seeds]
    leave. *)
Definition flat_start (s : Tackle12Import) : Prop :=
  (forall a, flat (nth a (heap s) []))
  /\ (forall t, Forall (fun kv => (snd kv < List.length (heap s))%nat) (destData s t)).





(* ===================================================================== *)
(** ** Vocabulary of the statements about the collections of an export *)
(* ===================================================================== *)

(** A computation that, whatever its outcome, leaves the destination index
    as it is and changes no collection but those of [ts]. *)
Definition writes {A : Type} (ts : list string) (m : Py A) : Prop :=
  forall s,
    destData (snd (m s)) = destData s
    /\ forall t, ~ In t ts -> data (snd (m s)) t = data s t.

(** A computation that moreover only creates instances: the instances that
    exist stay as they are. *)
Definition touches {A : Type} (ts : list string) (m : Py A) : Prop :=
  forall s,
    (exists ext, heap (snd (m s)) = heap s ++ ext)
    /\ destData (snd (m s)) = destData s
    /\ forall t, ~ In t ts -> data (snd (m s)) t = data s t.

(** The instance at [a] is the object [mk x] built for the record [x]. *)
Definition is_record {X : Type} (mk : X -> Tackle2Object)
    (h : list Tackle2Object) (a : nat) (x : X) : Prop :=
  nth a h [] = mk x.

(** The objects built for a business service (lines 362-365), for the
    stakeholder listed under a job function (lines 346-348) and for a
    stakeholder with the groups [shgs] (lines 314-317). *)
Definition businessservice_object (bs1 : BusinessService1) : Tackle2Object :=
  [("id", Json (JInt (id (bs1_base bs1))));
   ("createUser", Json (createUser (bs1_base bs1)));
   ("updateUser", Json (updateUser (bs1_base bs1)));
   ("name", Json (bs1_name bs1));
   ("description", Json (bs1_description bs1));
   ("owner", Json (bs1_owner bs1))].

Definition stakeholder_ref_object (sh1 : StakeholderRef1) : Tackle2Object :=
  [("id", Json (JInt (id (shr1_base sh1))));
   ("createUser", Json (createUser (shr1_base sh1)));
   ("updateUser", Json (updateUser (shr1_base sh1)));
   ("name", Json (shr1_displayName sh1));
   ("email", Json (shr1_email sh1))].

Definition stakeholder_object (sh1 : Stakeholder1) (shgs : list nat) : Tackle2Object :=
  [("id", Json (JInt (id (sh1_base sh1))));
   ("createUser", Json (createUser (sh1_base sh1)));
   ("updateUser", Json (updateUser (sh1_base sh1)));
   ("name", Json (sh1_displayName sh1));
   ("email", Json (sh1_email sh1));
   ("groups", ObjList shgs)].

Definition jobfunction_object (jf1 : JobFunction1) (shs : list nat) : Tackle2Object :=
  [("id", Json (JInt (id (jf1_base jf1))));
   ("createUser", Json (createUser (jf1_base jf1)));
   ("updateUser", Json (updateUser (jf1_base jf1)));
   ("name", Json (JStr (jf1_role jf1)));
   ("stakeholders", ObjList shs)].

(** The instance at [a] is the object built for the stakeholder [sh1]: its
    [groups] are objects built for the groups of the payload, one each. *)
Definition is_stakeholder (h : list Tackle2Object) (a : nat) (sh1 : Stakeholder1) : Prop :=
  exists shgs,
    nth a h [] = stakeholder_object sh1 shgs
    /\ Forall2 (is_record stakeholdergroup_object h) shgs (sh1_stakeholderGroups sh1).

(** The instance at [a] is the object built for the job function [jf1]: its
    [stakeholders] are objects built for those of the payload, one each. *)
Definition is_jobfunction (h : list Tackle2Object) (a : nat) (jf1 : JobFunction1) : Prop :=
  exists shs,
    nth a h [] = jobfunction_object jf1 shs
    /\ Forall2 (is_record stakeholder_ref_object h) shs (jf1_stakeholders jf1).

(** The job functions whose role the destination index does not have. *)
Definition new_jobfunctions (self0 : Tackle12Import) (jfs : list JobFunction1)
  : list JobFunction1 :=
  filter (fun jf1 => negb (dict_has (jf1_role jf1) (destData self0 "jobfunctions"))) jfs.

(** The groups [dumpTackle1] meets, in order: those nested in the
    stakeholders, then the listed ones. *)
Definition all_stakeholdergroups (src : Tackle1) : list StakeholderGroup1 :=
  flat_map sh1_stakeholderGroups (t1_stakeholder src) ++ t1_stakeholder_group src.

(** From [s] to [s'] instances were only created and the collection [t]
    stayed as it was. *)
Definition kept (t : string) (s s' : Tackle12Import) : Prop :=
  (exists ext, heap s' = heap s ++ ext) /\ data s' t = data s t.

(** A source with one stakeholder (no job function) in group 1, the groups
    1 and 2 listed, the job functions "Architect" (which the sample
    destination has) and "Tester", and one business service listed twice. *)
Definition sample_source_people : Tackle1 :=
  mkTackle1 [] [] [] (fun _ => []) (fun _ => []) (fun _ => [])
    [mkStakeholder1 (sample_base 2) (JStr "Ann") (JStr "ann@example.com")
       [mkStakeholderGroup1 (sample_base 1) (JStr "Core") JNull] JNull]
    [mkStakeholderGroup1 (sample_base 1) (JStr "Core team") JNull;
     mkStakeholderGroup1 (sample_base 2) (JStr "Ops") JNull]
    [mkJobFunction1 (sample_base 3) "Architect" [];
     mkJobFunction1 (sample_base 4) "Tester"
       [mkStakeholderRef1 (sample_base 2) (JStr "Ann") (JStr "ann@example.com")]]
    [mkBusinessService1 (sample_base 6) (JStr "Retail") JNull JNull;
     mkBusinessService1 (sample_base 6) (JStr "Retail (copy)") JNull JNull].

(** The instance at [a] bears the id and the name of the tag type [tt1]. *)
Definition is_tagtype (h : list Tackle2Object) (a : nat) (tt1 : TagType1) : Prop :=
  int_id h a = Some (id (tt1_base tt1))
  /\ attr h a "name" = Some (Json (JStr (tt1_name tt1))).

(** The tag types whose name the destination index does not have. *)
Definition new_tagtypes (self0 : Tackle12Import) (tts : list TagType1) : list TagType1 :=
  filter (fun tt1 => negb (dict_has (tt1_name tt1) (destData self0 "tagtypes"))) tts.

(** A computation that, whatever its outcome, removes no instance and
    leaves the [id] and the [name] of every instance as they are. *)
Definition steady {A : Type} (m : Py A) : Prop :=
  forall s, evolves 0 (heap s) (heap (snd (m s))).

(** A source with the tag types "Language" (new to the sample destination),
    "Runtime" (which it has) and a second record of the id of "Language". *)
Definition sample_source_tagtypes : Tackle1 :=
  mkTackle1
    [mkTagType1 (sample_base 5) "Language" (JStr "#fff") (JInt 1)
       [mkTag1 (sample_base 99) "Java"];
     mkTagType1 (sample_base 6) "Runtime" (JStr "#000") (JInt 2)
       [mkTag1 (sample_base 101) "JVM"];
     mkTagType1 (sample_base 5) "Languages" (JStr "#fff") (JInt 3) []]
    [] [] (fun _ => []) (fun _ => []) (fun _ => [])
    [] [] [] [].

(* ===================================================================== *)
(** * The CSV import of the hub (api/import.go) *)
(* ===================================================================== *)

(** Go functions return, or stop with a run-time panic; the only panic of
    the functions below is the one of an index out of range. *)
Inductive Go (A : Type) : Type :=
| Returned (a : A)
| IndexOutOfRange.
Arguments Returned {A} a.
Arguments IndexOutOfRange {A}.

Definition go_bind {A B : Type} (m : Go A) (f : A -> Go B) : Go B :=
  match m with
  | Returned a => f a
  | IndexOutOfRange => IndexOutOfRange
  end.

Declare Scope go_scope.
Delimit Scope go_scope with go.
Notation "x <~ m ;; k" := (go_bind m (fun x => k))
  (at level 61, m at next level, right associativity) : go_scope.

(** [row[i]] for an [int] index: the indexes and lengths below stay far
    inside the range of [int], so they are integers. *)
Definition index (row : list string) (i : Z) : Go string :=
  if ((0 <=? i) && (i <? Z.of_nat (List.length row)))%Z
  then Returned (nth (Z.to_nat i) row EmptyString)
  else IndexOutOfRange.

(** [model.ImportTag] and [model.Import] are declared in the model package;
    the records have the fields this file names.  A composite literal
    leaves the fields it does not name at their zero value. *)
Record ImportTag : Type := mkImportTag {
  Name : string;
  TagType : string
}.

Record ModelImport : Type := mkModelImport {
  Filename : string;
  RecordType1 : string;
  ApplicationName : string;
  Description : string;
  Comments : string;
  BusinessService : string;
  Dependency : string;
  DependencyDirection : string;
  BinaryGroup : string;
  BinaryArtifact : string;
  BinaryVersion : string;
  BinaryPackaging : string;
  RepositoryKind : string;
  RepositoryURL : string;
  RepositoryBranch : string;
  RepositoryPath : string;
  ImportTags : list ImportTag;
  Processed : bool;
  IsValid : bool
}.

(** [func (h ImportHandler) dependencyFromRow(fileName string, row []string)]
    (lines 327-344) *)
Definition dependencyFromRow (fileName : string) (row : list string) : Go ModelImport :=
  let len := Z.of_nat (List.length row) in
  let depApplicatonPos := if (7 <? len)%Z then 5%Z else (len - 2)%Z in
  let depDirectionPos := if (7 <? len)%Z then 6%Z else (len - 1)%Z in
  (r0 <~ index row 0 ;;
   r1 <~ index row 1 ;;
   dep <~ index row depApplicatonPos ;;
   dir <~ index row depDirectionPos ;;
   Returned (mkModelImport fileName r0 r1 "" "" "" dep dir "" "" "" "" "" "" "" ""
                           [] false false))%go.

(** The loop of lines 399-407: [i] runs from 15 to [len(row) - 1]; at an
    even [i] a tag is appended. *)
Fixpoint importTags (row : list string) (idxs : list Z) (tags : list ImportTag)
  : Go (list ImportTag) :=
  match idxs with
  | [] => Returned tags
  | i :: rest =>
      if (Z.rem i 2 =? 0)%Z then
        (name <~ index row i ;;
         tagType <~ index row (i - 1) ;;
         importTags row rest (tags ++ [mkImportTag name tagType]))%go
      else importTags row rest tags
  end.

(** [func (h ImportHandler) applicationFromRow(fileName string, row []string)]
    (lines 378-410) *)
Definition applicationFromRow (fileName : string) (row : list string) : Go ModelImport :=
  (r0 <~ index row 0 ;;
   r1 <~ index row 1 ;;
   r2 <~ index row 2 ;;
   r3 <~ index row 3 ;;
   r4 <~ index row 4 ;;
   r5 <~ index row 5 ;;
   r6 <~ index row 6 ;;
   r7 <~ index row 7 ;;
   r8 <~ index row 8 ;;
   r9 <~ index row 9 ;;
   r10 <~ index row 10 ;;
   r11 <~ index row 11 ;;
   r12 <~ index row 12 ;;
   r13 <~ index row 13 ;;
   r14 <~ index row 14 ;;
   tags <~ importTags row (map Z.of_nat (seq 15 (List.length row - 15))) [] ;;
   Returned (mkModelImport fileName r0 r1 r2 r3 r4 r5 r6 r7 r8 r9 r10 r11 r12 r13 r14
                           tags false false))%go.

(** The switch of [UploadCSV] on the record type of a row (lines 259-274):
    the import record of the row, or the answer 400 for an application row
    with fewer than 15 columns. *)
Inductive RowOutcome : Type :=
| RowImport (imp : ModelImport)
| BadRequest.

Definition importFromRow (fileName : string) (row : list string) : Go RowOutcome :=
  (r0 <~ index row 0 ;;
   if String.eqb r0 "1" then
     if (Z.of_nat (List.length row) <? 15)%Z then Returned BadRequest
     else imp <~ applicationFromRow fileName row ;; Returned (RowImport imp)
   else if String.eqb r0 "2" then
     imp <~ dependencyFromRow fileName row ;; Returned (RowImport imp)
   else
     r0' <~ index row 0 ;;
     Returned (RowImport (mkModelImport fileName r0' "" "" "" "" "" "" "" "" "" "" "" "" ""
                                        "" [] false false)))%go.

(** The wrap-around of the 64-bit [int]. *)
Definition int64 (z : Z) : Z := ((z + 2 ^ 63) mod 2 ^ 64 - 2 ^ 63)%Z.

(** [api.ImportSummary] and, of [model.ImportSummary], the fields [With]
    reads.  [Resource], the embedded model and the time type are declared
    elsewhere, as is [Resource.With]. *)
Section ImportSummaries.

Variable Resource : Type.
Variable Model : Type.
Variable Time : Type.
Variable Resource_With : Resource -> Model -> Resource.

Record ModelImportSummary : Type := mkModelImportSummary {
  m_Model : Model;
  m_CreateTime : Time;
  m_Filename : string;
  m_Imports : list ModelImport
}.

Record ImportSummary : Type := mkImportSummary {
  r_Resource : Resource;
  r_Filename : string;
  r_ImportStatus : string;
  r_ImportTime : Time;
  r_ValidCount : Z;
  r_InvalidCount : Z
}.

(** The loop of lines 433-441. *)
Fixpoint count_imports (imports : list ModelImport) (valid invalid : Z) : Z * Z :=
  match imports with
  | [] => (valid, invalid)
  | imp :: rest =>
      if Processed imp then
        if IsValid imp then count_imports rest (int64 (valid + 1)) invalid
        else count_imports rest valid (int64 (invalid + 1))
      else count_imports rest valid invalid
  end.

(** [func (r *ImportSummary) With(m *model.ImportSummary)] (lines 429-447) *)
Definition ImportSummary_With (r : ImportSummary) (m : ModelImportSummary)
  : ImportSummary :=
  let counts := count_imports (m_Imports m) (r_ValidCount r) (r_InvalidCount r) in
  mkImportSummary
    (Resource_With (r_Resource r) (m_Model m))
    (m_Filename m)
    (if (Z.of_nat (List.length (m_Imports m)) =? int64 (fst counts + snd counts))%Z
     then "Completed" else "In Progress")
    (m_CreateTime m)
    (fst counts)
    (snd counts).

End ImportSummaries.

(** Consecutive pairs (tag type, tag) of a list of columns; a last column
    without a partner is dropped. *)
Fixpoint tag_pairs (cols : list string) : list ImportTag :=
  match cols with
  | tagType :: name :: rest => mkImportTag name tagType :: tag_pairs rest
  | _ => []
  end.

(** The import records that count as valid and as invalid. *)
Definition counted_valid (imp : ModelImport) : bool := Processed imp && IsValid imp.
Definition counted_invalid (imp : ModelImport) : bool := Processed imp && negb (IsValid imp).

(** An import of four records: two processed and valid, one processed and
    invalid, one not processed yet; and a fresh summary. *)
Definition sample_record (processed valid : bool) : ModelImport :=
  mkModelImport "apps.csv" "1" "app" "" "" "" "" "" "" "" "" "" "" "" "" "" []
                processed valid.

Definition sample_model_summary : ModelImportSummary unit unit :=
  mkModelImportSummary tt tt "apps.csv"
    [sample_record true true; sample_record true false;
     sample_record false false; sample_record true true].

Definition sample_fresh_summary : ImportSummary unit unit :=
  mkImportSummary tt "" "" tt 0 0.

(* ===================================================================== *)
(** ** Vocabulary of the statements about applications and reviews *)
(* ===================================================================== *)

(** The object built for an application whose tags are the objects [tags]
    (lines 222-229): [businessService] is set only when the payload has
    one. *)
Definition application_object (app1 : Application1) (tags : list nat) : Tackle2Object :=
  [("id", Json (JInt (id (app1_base app1))));
   ("createUser", Json (createUser (app1_base app1)));
   ("updateUser", Json (updateUser (app1_base app1)));
   ("name", Json (app1_name app1));
   ("description", Json (app1_description app1));
   ("tags", ObjList tags)]
  ++ match app1_businessService app1 with
     | Some bs => [("businessService", Json (JDict [("id", JInt bs)]))]
     | None => []
     end.

(** The instance at [a] is the object built for the application [app1],
    with one tag object per tag id of the payload. *)
Definition is_application (h : list Tackle2Object) (a : nat) (app1 : Application1) : Prop :=
  exists tags,
    nth a h [] = application_object app1 tags
    /\ List.length tags = List.length (app1_tags app1).

(** The reviews [dumpTackle1] meets, in order, each with the application
    that embeds it. *)
Definition reviews_of (app1 : Application1) : list (Application1 * Review1) :=
  match app1_review app1 with
  | Some r => [(app1, r)]
  | None => []
  end.

Definition source_reviews (src : Tackle1) : list (Application1 * Review1) :=
  flat_map reviews_of (t1_application src).

Definition review_id (p : Application1 * Review1) : Z := id (rev1_base (snd p)).

Definition review_of (p : Application1 * Review1) : Tackle2Object :=
  review_object (fst p) (snd p).

(** A source with one tag and four applications: "Shop" with review 11,
    a second record of the id of "Shop" with review 12, "Bank" without
    business service and review, and "Mail" with a second record of review
    11. *)
Definition sample_review (i : Z) (copied : JSON) : Review1 :=
  mkReview1 (sample_base i) (JStr "rehost") (JStr "small") (JInt 5) (JInt 1)
            (JStr "") copied.

Definition sample_source_reviews : Tackle1 :=
  mkTackle1
    [mkTagType1 (sample_base 5) "Language" (JStr "#fff") (JInt 1)
       [mkTag1 (sample_base 99) "Java"]]
    [mkApplication1 (sample_base 1) (JStr "Shop") JNull [99%Z] (Some 3%Z)
       (Some (sample_review 11 JNull));
     mkApplication1 (sample_base 1) (JStr "Shop (copy)") JNull [] (Some 3%Z)
       (Some (sample_review 12 (JInt 11)));
     mkApplication1 (sample_base 2) (JStr "Bank") JNull [] None None;
     mkApplication1 (sample_base 3) (JStr "Mail") JNull [99%Z; 99%Z] (Some 4%Z)
       (Some (sample_review 11 JNull))]
    [] (fun _ => []) (fun _ => []) (fun _ => [])
    [] [] [] [].

(** A source whose second application lists a tag id (555) that no tag
    bears: "Mail" with review 21 comes before it, "Blog" after it. *)
Definition sample_source_missing_later : Tackle1 :=
  mkTackle1
    [mkTagType1 (sample_base 5) "Language" (JStr "#fff") (JInt 1)
       [mkTag1 (sample_base 99) "Java"]]
    [mkApplication1 (sample_base 3) (JStr "Mail") JNull [99%Z] None
       (Some (sample_review 21 JNull));
     mkApplication1 (sample_base 1) (JStr "Shop") JNull [99%Z; 555%Z] None
       (Some (sample_review 22 JNull));
     mkApplication1 (sample_base 2) (JStr "Blog") JNull [] None None]
    [mkDependency1 (sample_base 8) (mkEndpoint1 (JInt 2) (JStr "Blog"))
                   (mkEndpoint1 (JInt 1) (JStr "Shop"))]
    (fun _ => []) (fun _ => []) (fun _ => [])
    [] [] [] [].

(** The collections of applications and reviews hold what the applications
    [pre] gave, and nothing else. *)
Definition applications_of (pre : list Application1) (s : Tackle12Import) : Prop :=
  Forall2 (is_application (heap s)) (data s "applications") (dedup_by app_id pre)
  /\ Forall2 (is_record review_of (heap s)) (data s "reviews")
             (dedup_by review_id (flat_map reviews_of pre)).

(* ===================================================================== *)
(** * The script and the functions it starts with *)
(* ===================================================================== *)

(** What ends a run of the script: one of its own exits, named by the
    message printed before [exit(1)], or an exception or exit of a function
    it calls. *)
Inductive Stop : Type :=
| ConfigUnreadable (path : string)
    (* "ERROR reading config file %s: %s" *)
| TokenRefused (url : string)
    (* "ERROR getting auth token from %s" *)
| UnknownAction
    (* "Unknown action, use tackle --help to see usage." *)
| Uncaught (e : Exn).

Inductive Ran (A : Type) : Type :=
| Went (a : A)
| Stopped (st : Stop).
Arguments Went {A} a.
Arguments Stopped {A} st.

(** The arguments of the command line (lines 12-23). *)
Record Args : Type := mkArgs {
  args_action : list string;
  args_config : string;
  args_data_dir : string;
  args_verbose : bool;
  args_skipDestCheck : bool
}.

(** The configuration the script reads: the entries [url], [username],
    [password] and, under [tackle1], the same three. *)
Record Config : Type := mkConfig {
  c_url : string;
  c_username : string;
  c_password : string;
  c_tackle1_url : string;
  c_tackle1_username : string;
  c_tackle1_password : string
}.

(** [def cmdWanted(args, action)] (lines 111-115) *)
Definition cmdWanted (args : Args) (action : string) : bool :=
  if existsb (String.eqb action) (args_action args) then true else false.

Section Script.

Variable E : Environment.

(** Outside the tool: what [open] and [yaml.safe_load] give for a path,
    [None] when either raises; and what Keycloak answers to a POST, which may
    depend on all that happened before. *)
Variable config_file : string -> option Config.
Variable keycloak : list Event -> string -> JSON -> Response (Text E).

Definition Script (A : Type) : Type := World E -> Ran A * World E.

Definition went {A : Type} (a : A) : Script A := fun w => (Went a, w).

Definition stop {A : Type} (st : Stop) : Script A := fun w => (Stopped st, w).

Definition then_ {A B : Type} (m : Script A) (f : A -> Script B) : Script B :=
  fun w =>
    match m w with
    | (Went a, w') => f a w'
    | (Stopped st, w') => (Stopped st, w')
    end.

(** A function of the tool called by the script: what it raises ends the
    run. *)
Definition call {A : Type} (m : IO E A) : Script A :=
  fun w =>
    match m w with
    | (Val a, w') => (Went a, w')
    | (Exc e, w') => (Stopped (Uncaught e), w')
    end.

(** [def loadConfig(path)] (lines 40-47) *)
Definition loadConfig (path : string) : Script Config :=
  match config_file path with
  | Some c => went c
  | None => stop (ConfigUnreadable path)
  end.

(** [def getKeycloakToken(host, username, password, client_id='tackle-ui',
    realm='tackle')] (lines 53-65) *)
Definition getKeycloakToken (host username password client_id realm : string)
  : Script JSON :=
  let url := (host ++ "/auth/realms/" ++ realm
              ++ "/protocol/openid-connect/token")%string in
  let data := JDict [("username", JStr username); ("password", JStr password);
                     ("client_id", JStr client_id); ("grant_type", JStr "password")] in
  fun w =>
    let r := keycloak (trace w) url data in
    let w' := mkWorld E (files w) (server w)
                      (trace w ++ [Requested POST url (Some data)]) in
    if resp_ok r then
      match resp_text r with
      | None => (Stopped (Uncaught (ValueError "JSONDecodeError")), w')
      | Some text =>
          match json_load E text with
          | None => (Stopped (Uncaught (ValueError "JSONDecodeError")), w')
          | Some respData =>
              match getitem respData "access_token" with
              | Val token => (Went token, w')
              | Exc e => (Stopped (Uncaught e), w')
              end
          end
      end
    else (Stopped (TokenRefused url), w').

(** The script (lines 427-484).  [dest] and [src] are what the two services
    hold, as in [export_action]. *)
Definition script (args : Args) (dest : Tackle2Seeds) (src : Tackle1) : Script unit :=
  then_ (loadConfig (args_config args)) (fun c =>
  then_ (if cmdWanted args "export-tackle1" then
           then_ (getKeycloakToken (c_tackle1_url c) (c_tackle1_username c)
                                   (c_tackle1_password c) "tackle-ui" "tackle")
                 (fun token1 =>
           then_ (getKeycloakToken (c_url c) (c_username c) (c_password c)
                                   "tackle-ui" "tackle")
                 (fun token2 =>
           then_ (call (export_action (args_data_dir args) (args_skipDestCheck args)
                                      dest src))
                 (fun _ => went true)))
         else went false) (fun cmdExecuted1 =>
  then_ (if cmdWanted args "import" then
           then_ (getKeycloakToken (c_url c) (c_username c) (c_password c)
                                   "tackle-ui" "tackle")
                 (fun token2 =>
           then_ (call (import_action (args_data_dir args) (c_url c)
                                      (args_skipDestCheck args)))
                 (fun _ => went true))
         else went cmdExecuted1) (fun cmdExecuted2 =>
  then_ (if cmdWanted args "clean" then
           then_ (getKeycloakToken (c_url c) (c_username c) (c_password c)
                                   "tackle-ui" "tackle")
                 (fun token2 =>
           then_ (call (clean_action (args_data_dir args) (c_url c)))
                 (fun _ => went true))
         else went cmdExecuted2) (fun cmdExecuted =>
  if negb cmdExecuted then stop UnknownAction else went tt)))).

End Script.

(** The actions the script knows, in the order it takes them. *)
Definition known_actions : list string := ["export-tackle1"; "import"; "clean"].

(** The command line that names the wanted actions once each, in that
    order. *)
Definition wanted (args : Args) : Args :=
  mkArgs (filter (cmdWanted args) known_actions)
         (args_config args) (args_data_dir args) (args_verbose args)
         (args_skipDestCheck args).

(** The URL and the form of the token request for the destination. *)
Definition token_url (host : string) : string :=
  (host ++ "/auth/realms/" ++ "tackle" ++ "/protocol/openid-connect/token")%string.

Definition token_form (username password : string) : JSON :=
  JDict [("username", JStr username); ("password", JStr password);
         ("client_id", JStr "tackle-ui"); ("grant_type", JStr "password")].

(** A sample configuration and a Keycloak that grants every token. *)
Definition sample_config : Config :=
  mkConfig "http://hub" "admin" "secret" "http://tackle1" "admin" "secret".

Definition sample_config_file (path : string) : option Config :=
  if String.eqb path "./tackle-config.yml" then Some sample_config else None.

Definition sample_keycloak (history : list Event) (url : string) (data : JSON)
  : Response JSON :=
  mkResponse true 200 (Some (JDict [("access_token", JStr "token")])).

Definition sample_keycloak_refusing (history : list Event) (url : string) (data : JSON)
  : Response JSON :=
  mkResponse false 401 None.

Definition sample_args (action : list string) : Args :=
  mkArgs action "./tackle-config.yml" "data" false false.

(** The host and the credentials of the first token a run asks for: those
    of Tackle 1 when the export is wanted, else those of the destination. *)
Definition first_credentials (args : Args) (c : Config) : string * string * string :=
  if cmdWanted args "export-tackle1"
  then (c_tackle1_url c, c_tackle1_username c, c_tackle1_password c)
  else (c_url c, c_username c, c_password c).

(** The requests of a trace that are no GET, in order. *)
Definition changing_requests (evs : list Event) : list (Method * string) :=
  filter_map (fun e => match e with
                       | Requested GET _ _ => None
                       | Requested method url _ => Some (method, url)
                       | Loaded _ => None
                       end) evs.

(* ===================================================================== *)
(** ** Basic facts: the monad, the heap *)
(* ===================================================================== *)

Unset Implicit Arguments.

Lemma nth_fresh {A : Type} (l : list A) (x d : A) :
  nth (List.length l) (l ++ [x]) d = x.
Proof.
  induction l as [|y l IH]; simpl; [reflexivity | exact IH].
Qed.

Lemma nth_old {A : Type} (l : list A) (x d : A) (n : nat) :
  (n < List.length l)%nat -> nth n (l ++ [x]) d = nth n l d.
Proof.
  intros H. now rewrite app_nth1.
Qed.

(* ===================================================================== *)
(** ** add *)
(* ===================================================================== *)

Lemma add_scan_without_id (item : Tackle2Object) (existing : list Tackle2Object) :
  dict_get "id" item = None -> add_scan item existing = Val false.
Proof.
  intros H. induction existing as [|e rest IH]; simpl.
  - reflexivity.
  - rewrite H. exact IH.
Qed.

Lemma add_scan_present (item : Tackle2Object) (i : PyVal)
    (existing : list Tackle2Object) :
  dict_get "id" item = Some i ->
  Forall has_id existing ->
  Exists (fun e => exists j, dict_get "id" e = Some j /\ pyval_eq i j = true) existing ->
  add_scan item existing = Val true.
Proof.
  intros Hi Hall Hex.
  induction existing as [|e rest IH]; simpl.
  - inversion Hex.
  - rewrite Hi. inversion Hall as [|? ? He Hrest]; subst.
    destruct (dict_get "id" e) as [j|] eqn:Ej.
    + destruct (pyval_eq i j) eqn:Eq; [reflexivity|].
      apply IH; [assumption|].
      inversion Hex as [? ? [j' [Hj' Heq]]|]; subst; [|assumption].
      rewrite Ej in Hj'. injection Hj' as <-. congruence.
    + exfalso. apply He. exact Ej.
Qed.

Lemma add_without_id (type : string) (item : nat) (self : Tackle12Import) :
  dict_get "id" (deref self item) = None ->
  add type item self = append_data type item self.
Proof.
  intros H. unfold add. now rewrite add_scan_without_id.
Qed.

Lemma add_present (type : string) (item : nat) (i : PyVal) (self : Tackle12Import) :
  dict_get "id" (deref self item) = Some i ->
  Forall (fun e => has_id (deref self e)) (data self type) ->
  Exists (fun e => exists j, dict_get "id" (deref self e) = Some j
                             /\ pyval_eq i j = true) (data self type) ->
  add type item self = (Val tt, self).
Proof.
  intros Hi Hall Hex. unfold add.
  rewrite (add_scan_present _ i); try assumption.
  - reflexivity.
  - rewrite Forall_map. exact Hall.
  - rewrite Exists_map. exact Hex.
Qed.

Lemma add_to_empty (type : string) (item : nat) (self : Tackle12Import) :
  data self type = [] ->
  add type item self = append_data type item self.
Proof.
  intros H. unfold add. now rewrite H.
Qed.

Lemma update_map_same {V : Type} (m : string -> V) (k : string) (v : V) :
  update_map m k v k = v.
Proof.
  unfold update_map. now rewrite String.eqb_refl.
Qed.

Lemma update_map_other {V : Type} (m : string -> V) (k k' : string) (v : V) :
  k' <> k -> update_map m k v k' = m k'.
Proof.
  intros H. unfold update_map.
  destruct (String.eqb_spec k' k); [contradiction | reflexivity].
Qed.

(** C6.  Adding to a collection an entity whose id some element of the
    collection already bears changes nothing; adding two entities with the
    same integer id one after the other to an empty collection leaves
    exactly the first one in it (length 1). *)
Theorem add_idempotent_on_id :
  (forall (self : Tackle12Import) (type : string) (item : nat) (i : PyVal),
     dict_get "id" (deref self item) = Some i ->
     Forall (fun e => has_id (deref self e)) (data self type) ->
     Exists (fun e => exists j, dict_get "id" (deref self e) = Some j
                                /\ pyval_eq i j = true) (data self type) ->
     add type item self = (Val tt, self))
  /\
  (forall (self : Tackle12Import) (type : string) (first second : nat) (z : Z),
     data self type = [] ->
     dict_get "id" (deref self first) = Some (Json (JInt z)) ->
     dict_get "id" (deref self second) = Some (Json (JInt z)) ->
     exists self',
       (add type first ;;; add type second) self = (Val tt, self')
       /\ heap self' = heap self
       /\ data self' type = [first]
       /\ List.length (data self' type) = 1%nat).
Proof.
  split.
  - intros self type item i. apply add_present.
  - intros self type first second z Hempty H1 H2.
    unfold bind. rewrite (add_to_empty type first self Hempty).
    unfold append_data, modify. rewrite Hempty. cbn [app].
    set (self1 := mkImport _ _ _).
    assert (Hd : data self1 type = [first]) by (subst self1; cbn; apply update_map_same).
    exists self1. split; [|split; [reflexivity | split; [exact Hd | now rewrite Hd]]].
    apply (add_present type second (Json (JInt z))).
    + exact H2.
    + rewrite Hd. constructor; [|constructor].
      unfold has_id. change (deref self1 first) with (deref self first).
      rewrite H1. discriminate.
    + rewrite Hd. constructor. exists (Json (JInt z)). split.
      * exact H1.
      * cbn. apply Z.eqb_refl.
Qed.

Lemma add_idempotent_on_id_witness :
  add "applications" 0 one_application = (Val tt, one_application)
  /\ exists self',
       (add "reviews" 0 ;;; add "reviews" 1) two_pending = (Val tt, self')
       /\ heap self' = heap two_pending
       /\ data self' "reviews" = [0%nat]
       /\ List.length (data self' "reviews") = 1%nat.
Proof.
  split.
  - apply (proj1 add_idempotent_on_id one_application "applications" 0%nat
                 (Json (JInt 7))).
    + reflexivity.
    + simpl. constructor; [unfold has_id; simpl; discriminate | constructor].
    + simpl. constructor. exists (Json (JInt 7)). split; reflexivity.
  - apply (proj2 add_idempotent_on_id two_pending "reviews" 0%nat 1%nat 7%Z);
      reflexivity.
Defined.

Lemma deref_fresh (self : Tackle12Import) (o : Tackle2Object) d dd :
  deref (mkImport (heap self ++ [o]) d dd) (List.length (heap self)) = o.
Proof.
  unfold deref. cbn [heap]. apply nth_fresh.
Qed.

(** A loop that builds an object without [id] for every record and adds it:
    every record ends up in the collection. *)
Lemma for_each_add_without_id {X : Type} (mk : X -> Tackle2Object) (type : string) :
  (forall x, dict_get "id" (mk x) = None) ->
  forall (xs : list X) (self : Tackle12Import),
  exists self',
    for_each xs (fun x => o <- new_object (mk x) ;; add type o) self = (Val tt, self')
    /\ heap self' = heap self ++ map mk xs
    /\ data self' type
       = data self type ++ seq (List.length (heap self)) (List.length xs)
    /\ (forall t, t <> type -> data self' t = data self t)
    /\ destData self' = destData self.
Proof.
  intros Hmk xs. induction xs as [|x xs IH]; intros self.
  - exists self. cbn. rewrite !app_nil_r. repeat split; reflexivity.
  - cbn [for_each]. unfold bind at 1. unfold bind at 1. unfold new_object at 1.
    rewrite add_without_id by (rewrite deref_fresh; apply Hmk).
    unfold append_data, modify. cbn [heap data destData].
    match goal with |- context [for_each xs _ ?s] => destruct (IH s) as (self' & Hrun & Hh & Hd & Ho & Hdd) end.
    exists self'. rewrite Hrun. cbn [heap data destData] in *.
    split; [reflexivity|]. split; [|split; [|split]].
    + rewrite Hh. rewrite <- app_assoc. reflexivity.
    + rewrite Hd. rewrite update_map_same. rewrite <- app_assoc.
      rewrite length_app. cbn [List.length app seq map].
      replace (List.length (heap self) + 1)%nat with (S (List.length (heap self))) by lia.
      reflexivity.
    + intros t Ht. rewrite (Ho t Ht). now apply update_map_other.
    + exact Hdd.
Qed.

(** C10.  The objects built for assessment-risk and confidence records have
    no [id].  An item without an [id] attribute is appended by [add]
    whatever the collection holds; the loops over assessment-risk and
    confidence records therefore append one object per record encountered,
    equal records included. *)
Theorem add_without_id_always_appends :
  (forall (r : AssessmentRisk1) (c : Confidence1),
     dict_get "id" (assessment_risk_object r) = None
     /\ dict_get "id" (confidence_object c) = None)
  /\
  (forall (self : Tackle12Import) (type : string) (item : nat),
     dict_get "id" (deref self item) = None ->
     add type item self
     = (Val tt, mkImport (heap self)
                         (update_map (data self) type (data self type ++ [item]))
                         (destData self)))
  /\
  (forall (rs : list AssessmentRisk1) (self : Tackle12Import),
     exists self',
       for_each rs dump_assessment_risk self = (Val tt, self')
       /\ heap self' = heap self ++ map assessment_risk_object rs
       /\ data self' "assessments--assessment-risk"
          = data self "assessments--assessment-risk"
            ++ seq (List.length (heap self)) (List.length rs))
  /\
  (forall (cs : list Confidence1) (self : Tackle12Import),
     exists self',
       for_each cs dump_confidence self = (Val tt, self')
       /\ heap self' = heap self ++ map confidence_object cs
       /\ data self' "assessments--confidence"
          = data self "assessments--confidence"
            ++ seq (List.length (heap self)) (List.length cs)).
Proof.
  split; [|split; [|split]].
  - intros r c. split; reflexivity.
  - intros self type item H. rewrite add_without_id by exact H. reflexivity.
  - intros rs self.
    destruct (for_each_add_without_id assessment_risk_object
                "assessments--assessment-risk" (fun _ => eq_refl) rs self)
      as (self' & Hrun & Hh & Hd & _).
    exists self'. repeat split; assumption.
  - intros cs self.
    destruct (for_each_add_without_id confidence_object
                "assessments--confidence" (fun _ => eq_refl) cs self)
      as (self' & Hrun & Hh & Hd & _).
    exists self'. repeat split; assumption.
Qed.

Lemma add_without_id_always_appends_witness :
  add "assessments--assessment-risk" 0 one_risk_pending
  = (Val tt, mkImport (heap one_risk_pending)
                      (update_map (data one_risk_pending) "assessments--assessment-risk"
                                  (data one_risk_pending "assessments--assessment-risk" ++ [0%nat]))
                      (destData one_risk_pending)).
Proof.
  apply (proj1 (proj2 add_without_id_always_appends) one_risk_pending
               "assessments--assessment-risk" 0%nat).
  reflexivity.
Defined.

(* ===================================================================== *)
(** ** The job function of a stakeholder *)
(* ===================================================================== *)

Lemma dump_stakeholder_jobFunction_raises (sh1 : Stakeholder1) (sh : nat)
    (self : Tackle12Import) :
  truthy (sh1_jobFunction sh1) = true ->
  exists e,
    dump_stakeholder_jobFunction sh1 sh self = (Exc e, self)
    /\ (e = KeyError "name" \/ exists what, e = TypeError what).
Proof.
  intros Ht. unfold dump_stakeholder_jobFunction. rewrite Ht.
  unfold bind, lift_res, gets.
  destruct (sh1_jobFunction sh1) as [| b | z | s | l | d]; cbn [getitem];
    try (eexists; split; [reflexivity | right; eexists; reflexivity]).
  destruct (dict_get "name" d) as [name|].
  - destruct name as [| b | z | s | l | d']; cbn [json_in_dest];
      try (eexists; split; [reflexivity | right; eexists; reflexivity]).
    destruct (dict_has s (destData self "jobfunctions"));
      cbn; eexists; (split; [reflexivity | right; eexists; reflexivity]).
  - eexists; split; [reflexivity | left; reflexivity].
Qed.

(** C5: the code does not do what the claim says.  Whenever the payload of
    a stakeholder carries a job function, lines 319-327 raise: the branches
    subscript the [Tackle2Object] [sh] (and the test reads the key 'name').
    No [jobFunction] is set, nothing is added to 'jobfunctions', and the
    export of the sample stakeholder stops there, whether or not the
    destination has the job function. *)
Theorem stakeholder_jobFunction_raises :
  (forall (sh1 : Stakeholder1) (sh : nat) (self : Tackle12Import),
     truthy (sh1_jobFunction sh1) = true ->
     exists e,
       dump_stakeholder_jobFunction sh1 sh self = (Exc e, self)
       /\ (e = KeyError "name" \/ exists what, e = TypeError what))
  /\ fst (dumpTackle1 sample_source_stakeholder sample_seeded)
     = Exc (TypeError "'Tackle2Object' object is not subscriptable")
  /\ fst (dumpTackle1 sample_source_stakeholder Tackle12Import_init)
     = Exc (TypeError "'Tackle2Object' object is not subscriptable")
  /\ data (snd (dumpTackle1 sample_source_stakeholder Tackle12Import_init)) "jobfunctions" = []
  /\ data (snd (dumpTackle1 sample_source_stakeholder Tackle12Import_init)) "stakeholders" = [].
Proof.
  split; [|repeat split; reflexivity].
  exact dump_stakeholder_jobFunction_raises.
Qed.

Lemma stakeholder_jobFunction_raises_witness :
  exists e,
    dump_stakeholder_jobFunction sample_stakeholder 0 Tackle12Import_init = (Exc e, Tackle12Import_init)
    /\ (e = KeyError "name" \/ exists what, e = TypeError what).
Proof.
  apply (proj1 stakeholder_jobFunction_raises sample_stakeholder 0%nat Tackle12Import_init).
  reflexivity.
Defined.

(* ===================================================================== *)
(** ** Rules for triples *)
(* ===================================================================== *)

Lemma triple_ret {S A : Type} (a : A) (Q : A -> S -> Prop) (E : Exn -> S -> Prop) :
  triple (Q a) (ret a) Q E.
Proof. intros s H. exact H. Qed.

Lemma triple_pass {S : Type} (Q : unit -> S -> Prop) (E : Exn -> S -> Prop) :
  triple (Q tt) pass Q E.
Proof. intros s H. exact H. Qed.

Lemma triple_bind {S A B : Type} (P : S -> Prop) (m : M S A) (f : A -> M S B)
    (Q' : A -> S -> Prop) (Q : B -> S -> Prop) (E : Exn -> S -> Prop) :
  triple P m Q' E ->
  (forall a, triple (Q' a) (f a) Q E) ->
  triple P (bind m f) Q E.
Proof.
  intros Hm Hf s HP. unfold bind. specialize (Hm s HP).
  destruct (m s) as [[a | e] s'].
  - exact (Hf a s' Hm).
  - exact Hm.
Qed.

Lemma triple_weaken {S A : Type} (P P' : S -> Prop) (m : M S A)
    (Q Q' : A -> S -> Prop) (E E' : Exn -> S -> Prop) :
  triple P' m Q' E' ->
  (forall s, P s -> P' s) ->
  (forall a s, Q' a s -> Q a s) ->
  (forall e s, E' e s -> E e s) ->
  triple P m Q E.
Proof.
  intros H HP HQ HE s Hs. specialize (H s (HP s Hs)).
  destruct (m s) as [[a | e] s']; auto.
Qed.

Lemma triple_for_each_from {S X : Type} (I : list X -> S -> Prop)
    (body : X -> M S unit) (E : Exn -> S -> Prop) (all : list X) :
  (forall pre x post, all = pre ++ x :: post ->
     triple (I pre) (body x) (fun _ => I (pre ++ [x])) E) ->
  forall xs pre, all = pre ++ xs ->
    triple (I pre) (for_each xs body) (fun _ => I all) E.
Proof.
  intros Hbody xs. induction xs as [|x xs IH]; intros pre Hall.
  - rewrite app_nil_r in Hall. subst. intros s H. exact H.
  - cbn [for_each]. eapply triple_bind.
    + apply (Hbody pre x xs Hall).
    + intros u. apply IH. rewrite <- app_assoc. exact Hall.
Qed.

Lemma triple_for_each {S X : Type} (I : list X -> S -> Prop)
    (body : X -> M S unit) (E : Exn -> S -> Prop) (xs : list X) :
  (forall pre x post, xs = pre ++ x :: post ->
     triple (I pre) (body x) (fun _ => I (pre ++ [x])) E) ->
  triple (I []) (for_each xs body) (fun _ => I xs) E.
Proof.
  intros H. apply (triple_for_each_from I body E xs H xs []). reflexivity.
Qed.

Lemma triple_map_each_from {S X Y : Type} (I : list X -> list Y -> S -> Prop)
    (body : X -> M S Y) (E : Exn -> S -> Prop) (all : list X) :
  (forall pre ys x post, all = pre ++ x :: post ->
     triple (I pre ys) (body x) (fun y => I (pre ++ [x]) (ys ++ [y])) E) ->
  forall xs pre ys, all = pre ++ xs ->
    triple (I pre ys) (map_each xs body) (fun zs => I all (ys ++ zs)) E.
Proof.
  intros Hbody xs. induction xs as [|x xs IH]; intros pre ys Hall.
  - rewrite app_nil_r in Hall. subst. intros s H. cbn. now rewrite app_nil_r.
  - cbn [map_each]. eapply triple_bind.
    + apply (Hbody pre ys x xs Hall).
    + intros y. eapply triple_bind.
      * apply (IH (pre ++ [x]) (ys ++ [y])). rewrite <- app_assoc. exact Hall.
      * intros zs s H. cbn. rewrite <- app_assoc in H. exact H.
Qed.

Lemma triple_map_each {S X Y : Type} (I : list X -> list Y -> S -> Prop)
    (body : X -> M S Y) (E : Exn -> S -> Prop) (xs : list X) :
  (forall pre ys x post, xs = pre ++ x :: post ->
     triple (I pre ys) (body x) (fun y => I (pre ++ [x]) (ys ++ [y])) E) ->
  triple (I [] []) (map_each xs body) (fun ys => I xs ys) E.
Proof.
  intros H. apply (triple_map_each_from I body E xs H xs [] []). reflexivity.
Qed.

(** Running a triple. *)
Lemma triple_run {S A : Type} (P : S -> Prop) (m : M S A)
    (Q : A -> S -> Prop) (s : S) :
  triple P m Q (fun _ _ => False) -> P s ->
  exists a s', m s = (Val a, s') /\ Q a s'.
Proof.
  intros H HP. specialize (H s HP).
  destruct (m s) as [[a | e] s']; [eauto | contradiction].
Qed.

(* ===================================================================== *)
(** ** Dictionaries and the heap *)
(* ===================================================================== *)

Lemma dict_get_set_same {V : Type} (k : string) (v : V) (d : list (string * V)) :
  dict_get k (dict_set k v d) = Some v.
Proof.
  induction d as [|[k' v'] d IH]; cbn.
  - now rewrite String.eqb_refl.
  - destruct (String.eqb k k') eqn:Ek; cbn.
    + now rewrite String.eqb_refl.
    + now rewrite Ek.
Qed.

Lemma dict_get_set_other {V : Type} (k k' : string) (v : V) (d : list (string * V)) :
  k' <> k -> dict_get k' (dict_set k v d) = dict_get k' d.
Proof.
  intros Hne. induction d as [|[k0 v0] d IH]; cbn.
  - destruct (String.eqb_spec k' k); [contradiction | reflexivity].
  - destruct (String.eqb_spec k k0) as [-> | Hk]; cbn.
    + destruct (String.eqb_spec k' k0); [contradiction | reflexivity].
    + destruct (String.eqb k' k0); [reflexivity | exact IH].
Qed.

Lemma dict_get_In {V : Type} (k : string) (v : V) (d : list (string * V)) :
  dict_get k d = Some v -> In (k, v) d.
Proof.
  induction d as [|[k' v'] d IH]; cbn; [discriminate|].
  destruct (String.eqb_spec k k') as [<- | _].
  - intros [= <-]. now left.
  - intros H. right. auto.
Qed.

Lemma nth_update_nth_same {A : Type} (n : nat) (f : A -> A) (l : list A) (d : A) :
  (n < List.length l)%nat -> nth n (update_nth n f l) d = f (nth n l d).
Proof.
  revert n. induction l as [|x l IH]; intros [|n] H; cbn in *; try lia.
  - reflexivity.
  - apply IH. lia.
Qed.

Lemma nth_update_nth_other {A : Type} (n m : nat) (f : A -> A) (l : list A) (d : A) :
  m <> n -> nth m (update_nth n f l) d = nth m l d.
Proof.
  revert n m. induction l as [|x l IH]; intros [|n] [|m] H; cbn; try reflexivity.
  - congruence.
  - apply IH. congruence.
Qed.

Lemma length_update_nth {A : Type} (n : nat) (f : A -> A) (l : list A) :
  List.length (update_nth n f l) = List.length l.
Proof.
  revert n. induction l as [|x l IH]; intros [|n]; cbn; auto.
Qed.

Lemma attr_valid (h : list Tackle2Object) (a : nat) (k : string) :
  attr h a k <> None -> (a < List.length h)%nat.
Proof.
  intros H. destruct (Nat.lt_ge_cases a (List.length h)) as [Hlt | Hge]; [exact Hlt|].
  exfalso. apply H. unfold attr. now rewrite nth_overflow.
Qed.

Lemma int_id_valid (h : list Tackle2Object) (a : nat) (z : Z) :
  int_id h a = Some z -> (a < List.length h)%nat.
Proof.
  unfold int_id. intros H. apply (attr_valid h a "id").
  destruct (attr h a "id"); [discriminate | discriminate H].
Qed.

Lemma attr_alloc_old (h : list Tackle2Object) (o : Tackle2Object) (a : nat) (k : string) :
  (a < List.length h)%nat -> attr (h ++ [o]) a k = attr h a k.
Proof.
  intros H. unfold attr. now rewrite app_nth1.
Qed.

Lemma attr_alloc_new (h : list Tackle2Object) (o : Tackle2Object) (k : string) :
  attr (h ++ [o]) (List.length h) k = dict_get k o.
Proof.
  unfold attr. now rewrite nth_fresh.
Qed.

Lemma attr_update_other_key (h : list Tackle2Object) (a b : nat) (k k' : string)
    (v : PyVal) :
  k' <> k -> attr (update_nth a (dict_set k v) h) b k' = attr h b k'.
Proof.
  intros Hk. unfold attr.
  destruct (Nat.eq_dec b a) as [-> | Hne].
  - destruct (Nat.lt_ge_cases a (List.length h)) as [Hlt | Hge].
    + rewrite nth_update_nth_same by exact Hlt. now apply dict_get_set_other.
    + rewrite !nth_overflow; [reflexivity | exact Hge |].
      now rewrite length_update_nth.
  - now rewrite nth_update_nth_other.
Qed.

Lemma attr_update_same (h : list Tackle2Object) (a : nat) (k : string) (v : PyVal) :
  (a < List.length h)%nat -> attr (update_nth a (dict_set k v) h) a k = Some v.
Proof.
  intros H. unfold attr. rewrite nth_update_nth_same by exact H.
  apply dict_get_set_same.
Qed.

Lemma int_id_alloc_old (h : list Tackle2Object) (o : Tackle2Object) (a : nat) :
  (a < List.length h)%nat -> int_id (h ++ [o]) a = int_id h a.
Proof.
  intros H. unfold int_id. now rewrite attr_alloc_old.
Qed.

(** *** Later stages of a heap *)

Lemma evolves_refl (n0 : nat) (h : list Tackle2Object) : evolves n0 h h.
Proof. repeat split; auto. Qed.

Lemma evolves_trans (n0 : nat) (h1 h2 h3 : list Tackle2Object) :
  evolves n0 h1 h2 -> evolves n0 h2 h3 -> evolves n0 h1 h3.
Proof.
  intros (A1 & B1 & C1) (A2 & B2 & C2). repeat split.
  - intros a Ha. rewrite A2, A1; auto.
  - lia.
  - destruct (C2 a) as [-> _]; [lia|]. now destruct (C1 a H).
  - destruct (C2 a) as [_ ->]; [lia|]. now destruct (C1 a H).
Qed.

Lemma evolves_alloc (n0 : nat) (h : list Tackle2Object) (o : Tackle2Object) :
  (n0 <= List.length h)%nat -> evolves n0 h (h ++ [o]).
Proof.
  intros Hn. repeat split.
  - intros a Ha. rewrite app_nth1; [reflexivity | lia].
  - rewrite length_app. lia.
  - now apply attr_alloc_old.
  - now apply attr_alloc_old.
Qed.

Lemma evolves_setattr (n0 : nat) (h : list Tackle2Object) (a : nat) (k : string)
    (v : PyVal) :
  (n0 <= a)%nat -> k <> "id" -> k <> "name" ->
  evolves n0 h (update_nth a (dict_set k v) h).
Proof.
  intros Hn Hid Hname. repeat split.
  - intros b Hb. apply nth_update_nth_other. lia.
  - rewrite length_update_nth. lia.
  - apply attr_update_other_key. congruence.
  - apply attr_update_other_key. congruence.
Qed.

Lemma evolves_int_id (n0 : nat) (h h' : list Tackle2Object) (a : nat) (z : Z) :
  evolves n0 h h' -> int_id h a = Some z -> int_id h' a = Some z.
Proof.
  intros (_ & _ & C) H. pose proof (int_id_valid h a z H) as Hv.
  unfold int_id in *. destruct (C a Hv) as [-> _]. exact H.
Qed.

Lemma evolves_is_tag (n0 : nat) (h h' : list Tackle2Object) (a : nat) (t : Tag1) :
  evolves n0 h h' -> is_tag n0 h a t -> is_tag n0 h' a t.
Proof.
  intros Hev (Hi & Hn & Ha). pose proof (int_id_valid h a _ Hi) as Hv.
  repeat split.
  - exact (evolves_int_id n0 h h' a _ Hev Hi).
  - destruct Hev as (_ & _ & C). destruct (C a Hv) as [_ ->]. exact Hn.
  - exact Ha.
Qed.

(* ===================================================================== *)
(** ** loadTackle2Seeds *)
(* ===================================================================== *)

Lemma Forall_dict_set {V : Type} (P : string * V -> Prop) (k : string) (v : V)
    (d : list (string * V)) :
  Forall P d -> P (k, v) -> Forall P (dict_set k v d).
Proof.
  intros Hd Hkv. induction Hd as [|[k' v'] d Hx Hrest IH]; cbn.
  - constructor; [exact Hkv | constructor].
  - destruct (String.eqb k k'); constructor; assumption.
Qed.

Lemma dict_get_set {V : Type} (k k' : string) (v : V) (d : list (string * V)) :
  dict_get k' (dict_set k v d)
  = if String.eqb k' k then Some v else dict_get k' d.
Proof.
  destruct (String.eqb_spec k' k) as [-> | Hne].
  - apply dict_get_set_same.
  - now apply dict_get_set_other.
Qed.

Lemma new_object_seeded (o : Tackle2Object) :
  triple seeded (new_object o)
         (fun a s => seeded s /\ (a < List.length (heap s))%nat /\ nth a (heap s) [] = o)
         (fun _ _ => False).
Proof.
  intros s (Hdata & Hidx & Htags). unfold new_object, seeded.
  cbn [heap data destData].
  split; [split; [exact Hdata | split]|].
  - intros ty. eapply Forall_impl; [|apply Hidx]. cbn. intros kv H.
    rewrite length_app. cbn. lia.
  - intros n a H. destruct (Htags n a H) as [i Hi]. exists i.
    rewrite app_nth1; [exact Hi|].
    specialize (Hidx "tags"). rewrite Forall_forall in Hidx.
    exact (Hidx _ (dict_get_In _ _ _ H)).
  - split; [rewrite length_app; cbn; lia | apply nth_fresh].
Qed.

(** One seed entered in the index. *)
Lemma set_dest_seeded (type name : string) (a : nat) :
  triple (fun s => seeded s /\ (a < List.length (heap s))%nat
                   /\ (type = "tags" ->
                       exists i, nth a (heap s) [] = [("id", Json i);
                                                      ("name", Json (JStr name))]))
         (set_dest type name a)
         (fun _ => seeded) (fun _ _ => False).
Proof.
  intros s ((Hdata & Hidx & Htags) & Ha & Ho).
  unfold set_dest, modify, seeded. cbn [heap data destData].
  split; [exact Hdata|]. split.
  - intros ty. unfold update_map. destruct (String.eqb ty type); [|apply Hidx].
    apply Forall_dict_set; [apply Hidx | exact Ha].
  - intros n b. unfold update_map.
    destruct (String.eqb_spec "tags" type) as [<- | Hne]; [|apply Htags].
    rewrite dict_get_set. destruct (String.eqb_spec n name) as [-> | Hn].
    + intros [= <-]. exact (Ho eq_refl).
    + apply Htags.
Qed.

Lemma seed_step (type name : string) (o : Tackle2Object) :
  (type = "tags" -> exists i, o = [("id", Json i); ("name", Json (JStr name))]) ->
  triple seeded (a <- new_object o ;; set_dest type name a)
         (fun _ => seeded) (fun _ _ => False).
Proof.
  intros Ho. eapply triple_bind; [apply new_object_seeded|].
  intros a. eapply triple_weaken; [apply set_dest_seeded | | auto | auto].
  intros s (Hs & Ha & Hnth). split; [exact Hs|]. split; [exact Ha|].
  intros Ht. destruct (Ho Ht) as [i ->]. eauto.
Qed.

(** The instance [loadTackle2Seeds] builds from the fresh one is [seeded],
    whatever the destination answers. *)
Lemma loadTackle2Seeds_seeded (dest : Tackle2Seeds) :
  exists s, loadTackle2Seeds dest Tackle12Import_init = (Val tt, s) /\ seeded s.
Proof.
  assert (Hinit : seeded Tackle12Import_init).
  { split; [reflexivity|]. split; [intros ty; constructor|]. intros n a [=]. }
  assert (H : triple seeded (loadTackle2Seeds dest) (fun _ => seeded)
                (fun _ _ => False)).
  { unfold loadTackle2Seeds. eapply triple_bind.
    - apply (triple_for_each (fun _ => seeded)). intros pre tt2 post _.
      eapply triple_bind; [apply new_object_seeded|]. intros a.
      eapply triple_bind with (Q' := fun _ => seeded).
      + eapply triple_weaken; [apply set_dest_seeded | | auto | auto].
        intros s (Hs & Ha & _). split; [exact Hs|]. split; [exact Ha|].
        discriminate.
      + intros u. apply (triple_for_each (fun _ => seeded)). intros p t2 q _.
        apply seed_step. intros _. eexists. reflexivity.
    - intros u. apply (triple_for_each (fun _ => seeded)). intros pre jf2 post _.
      apply seed_step. discriminate. }
  destruct (triple_run _ _ _ Tackle12Import_init H Hinit) as ([] & s & Hrun & Hs).
  eauto.
Qed.

(* ===================================================================== *)
(** ** add on collections of objects with integer ids *)
(* ===================================================================== *)

Lemma int_id_inv (h : list Tackle2Object) (a : nat) (z : Z) :
  int_id h a = Some z -> dict_get "id" (nth a h []) = Some (Json (JInt z)).
Proof.
  unfold int_id, attr. intros H.
  destruct (dict_get "id" (nth a h [])) as [[[] | |]|]; try discriminate.
  now injection H as ->.
Qed.

Lemma add_scan_int {X : Type} (key : X -> Z) (item : Tackle2Object) (i : Z)
    (objs : list Tackle2Object) (L : list X) :
  dict_get "id" item = Some (Json (JInt i)) ->
  Forall2 (fun o y => dict_get "id" o = Some (Json (JInt (key y)))) objs L ->
  add_scan item objs = Val (existsb (fun u => Z.eqb i (key u)) L).
Proof.
  intros Hi H. induction H as [|o y objs L Ho _ IH]; cbn.
  - reflexivity.
  - rewrite Hi, Ho. cbn. destruct (Z.eqb i (key y)); [reflexivity | exact IH].
Qed.

Lemma Forall2_snoc {A B : Type} (R : A -> B -> Prop) (l : list A) (l' : list B)
    (a : A) (b : B) :
  Forall2 R l l' -> R a b -> Forall2 R (l ++ [a]) (l' ++ [b]).
Proof.
  intros H Hab. apply Forall2_app; [exact H | constructor; [exact Hab | constructor]].
Qed.

Lemma Forall2_impl {A B : Type} (R R' : A -> B -> Prop) (l : list A) (l' : list B) :
  (forall a b, R a b -> R' a b) -> Forall2 R l l' -> Forall2 R' l l'.
Proof.
  intros HR H. induction H; constructor; auto.
Qed.

Lemma add_by_spec {X : Type} (key : X -> Z) (R : nat -> X -> Prop) (type : string)
    (item : nat) (x : X) (self : Tackle12Import) (L : list X) :
  (forall a y, R a y -> int_id (heap self) a = Some (key y)) ->
  Forall2 R (data self type) L ->
  R item x ->
  exists self',
    add type item self = (Val tt, self')
    /\ heap self' = heap self
    /\ destData self' = destData self
    /\ (forall t, t <> type -> data self' t = data self t)
    /\ Forall2 R (data self' type) (add_by key L x).
Proof.
  intros HR HC Hx. unfold add.
  rewrite (add_scan_int key _ (key x) _ L).
  - unfold add_by. destruct (existsb _ L).
    + exists self. repeat split; auto.
    + eexists. split; [reflexivity|]. cbn [heap data destData].
      split; [reflexivity|]. split; [reflexivity|]. split.
      * intros t Ht. now apply update_map_other.
      * rewrite update_map_same. now apply Forall2_snoc.
  - apply int_id_inv. now apply HR.
  - unfold deref. induction HC as [|a y C L' Hay _ IH]; cbn; constructor.
    + apply int_id_inv. now apply HR.
    + exact IH.
Qed.

Lemma dedup_by_snoc {X : Type} (key : X -> Z) (l : list X) (x : X) :
  dedup_by key (l ++ [x]) = add_by key (dedup_by key l) x.
Proof.
  unfold dedup_by. now rewrite fold_left_app.
Qed.

Lemma new_tags_snoc (self0 : Tackle12Import) (l : list Tag1) (t : Tag1) :
  new_tags self0 (l ++ [t])
  = new_tags self0 l
    ++ (if dict_has (tag1_name t) (destData self0 "tags") then [] else [t]).
Proof.
  unfold new_tags. rewrite filter_app. cbn.
  now destruct (dict_has (tag1_name t) (destData self0 "tags")).
Qed.

(** A step that only lets the heap evolve keeps the invariant of the tags. *)
Lemma tags_inv_evolve (self0 : Tackle12Import) (ptags : list Tag1)
    (s s' : Tackle12Import) :
  tags_inv self0 ptags s ->
  evolves (List.length (heap self0)) (heap s) (heap s') ->
  data s' = data s ->
  destData s' = destData s ->
  tags_inv self0 ptags s'.
Proof.
  intros (H1 & H2 & H3 & H4 & H5 & H6) Hev Hd Hdd.
  unfold tags_inv. rewrite Hd, Hdd.
  split; [|split; [|split; [|split; [|split]]]].
  - apply (evolves_trans _ _ _ _ H1 Hev).
  - exact H2.
  - eapply Forall2_impl; [|exact H3]. intros a b. now apply evolves_is_tag.
  - eapply Forall2_impl; [|exact H4]. intros a b. now apply evolves_is_tag.
  - eapply Forall_impl; [|exact H5]. intros a Ha.
    destruct (int_id (heap s) a) as [z|] eqn:Ez; [|contradiction].
    now rewrite (evolves_int_id _ _ _ _ _ Hev Ez).
  - exact H6.
Qed.

(* ===================================================================== *)
(** ** The tag types block of dumpTackle1 *)
(* ===================================================================== *)

Lemma is_tag_fresh (n0 : nat) (h : list Tackle2Object) (t : Tag1) :
  (n0 <= List.length h)%nat ->
  is_tag n0
    (h ++ [with_attrs (Tackle2Object_init (Some (tag1_base t)))
             [("name", Json (JStr (tag1_name t)))]])
    (List.length h) t.
Proof.
  intros Hn. split; [|split].
  - unfold int_id. rewrite attr_alloc_new. reflexivity.
  - rewrite attr_alloc_new. reflexivity.
  - exact Hn.
Qed.

Lemma dump_tag_triple (self0 : Tackle12Import) (P pre : list Tag1)
    (ys : list nat) (t : Tag1) :
  triple
    (fun s => tags_inv self0 (P ++ pre) s
              /\ Forall (fun a => List.length (heap self0) <= a < List.length (heap s))%nat ys)
    (dump_tag t)
    (fun y s => tags_inv self0 (P ++ (pre ++ [t])) s
                /\ Forall (fun a => List.length (heap self0) <= a < List.length (heap s))%nat
                          (ys ++ [y]))
    (fun _ _ => False).
Proof.
  intros s [Hinv Hys].
  assert (Hn0 : (List.length (heap self0) <= List.length (heap s))%nat)
    by (destruct Hinv as ((_ & H & _) & _); exact H).
  unfold dump_tag. unfold bind at 1. unfold new_object at 1.
  set (o := with_attrs _ _).
  set (s1 := mkImport (heap s ++ [o]) (data s) (destData s)).
  assert (Hinv1 : tags_inv self0 (P ++ pre) s1).
  { apply tags_inv_evolve with s; try reflexivity; [exact Hinv|].
    now apply evolves_alloc. }
  assert (Htag : is_tag (List.length (heap self0)) (heap s1) (List.length (heap s)) t)
    by (now apply is_tag_fresh).
  assert (Hys1 : Forall (fun a => List.length (heap self0) <= a < List.length (heap s1))%nat
                        (ys ++ [List.length (heap s)])).
  { apply Forall_app. split.
    - eapply Forall_impl; [|exact Hys]. cbn. intros a Ha. rewrite length_app. cbn. lia.
    - constructor; [|constructor]. cbn. rewrite length_app. cbn. lia. }
  destruct Hinv1 as (Hev & Hdd & HO & HT & HTT & Hfr).
  destruct (add_by_spec tag_id (is_tag (List.length (heap self0)) (heap s1))
              "origin-tags" (List.length (heap s)) t s1 _
              (fun a y H => proj1 H) HO Htag)
    as (s2 & Hrun2 & Hh2 & Hdd2 & Hfr2 & HO2).
  unfold bind at 1. rewrite Hrun2. unfold bind at 1. unfold gets at 1.
  rewrite Hdd2, Hdd.
  rewrite <- Hh2 in Hys1, Hev, Htag.
  assert (HT2 : Forall2 (is_tag (List.length (heap self0)) (heap s2))
                        (data s2 "tags") (dedup_by tag_id (new_tags self0 (P ++ pre)))).
  { rewrite Hh2, Hfr2 by discriminate. exact HT. }
  assert (HTT2 : Forall (fun a => int_id (heap s2) a <> None) (data s2 "tagtypes")).
  { rewrite Hh2, Hfr2 by discriminate. exact HTT. }
  rewrite <- Hh2 in HO2.
  destruct (dict_has (tag1_name t) (destData self0 "tags")) eqn:EH; cbn [negb].
  - unfold bind, pass, ret. split; [|exact Hys1].
    rewrite app_assoc.
    split; [exact Hev|]. split; [congruence|]. split; [|split; [|split]].
    + rewrite dedup_by_snoc. exact HO2.
    + rewrite new_tags_snoc, EH, app_nil_r. exact HT2.
    + exact HTT2.
    + intros u U1 U2 U3. rewrite Hfr2 by exact U1. now apply Hfr.
  - destruct (add_by_spec tag_id (is_tag (List.length (heap self0)) (heap s2))
                "tags" (List.length (heap s)) t s2 _
                (fun a y H => proj1 H) HT2 Htag)
      as (s3 & Hrun3 & Hh3 & Hdd3 & Hfr3 & HT3).
    unfold bind at 1. rewrite Hrun3. unfold ret.
    rewrite <- Hh3 in Hys1, Hev, HT3, HO2, HTT2.
    split; [|exact Hys1].
    rewrite app_assoc.
    split; [exact Hev|]. split; [congruence|]. split; [|split; [|split]].
    + rewrite dedup_by_snoc. rewrite Hfr3 by discriminate. exact HO2.
    + rewrite new_tags_snoc, EH, dedup_by_snoc. exact HT3.
    + rewrite Hfr3 by discriminate. exact HTT2.
    + intros u U1 U2 U3. rewrite Hfr3 by exact U2. rewrite Hfr2 by exact U1.
      now apply Hfr.
Qed.

Lemma Forall_int_id_Forall2 (h : list Tackle2Object) (C : list nat) :
  Forall (fun a => int_id h a <> None) C ->
  exists L, Forall2 (fun a z => int_id h a = Some z) C L.
Proof.
  induction 1 as [|a C Ha _ [L IH]].
  - exists []. constructor.
  - destruct (int_id h a) as [z|] eqn:Ez; [|contradiction].
    exists (z :: L). now constructor.
Qed.

Lemma Forall2_int_id_Forall (h : list Tackle2Object) (C : list nat) (L : list Z) :
  Forall2 (fun a z => int_id h a = Some z) C L ->
  Forall (fun a => int_id h a <> None) C.
Proof.
  induction 1 as [|a z C L Ha _ IH]; constructor; [congruence | exact IH].
Qed.

(** [add] of an object with an integer id to a collection of such objects
    returns, keeps the heap, and keeps the collection one of such objects. *)
Lemma add_int_collection (type : string) (item : nat) (z : Z) (self : Tackle12Import) :
  int_id (heap self) item = Some z ->
  Forall (fun a => int_id (heap self) a <> None) (data self type) ->
  exists self',
    add type item self = (Val tt, self')
    /\ heap self' = heap self
    /\ destData self' = destData self
    /\ (forall t, t <> type -> data self' t = data self t)
    /\ Forall (fun a => int_id (heap self') a <> None) (data self' type)
    /\ (data self' type = data self type \/ data self' type = data self type ++ [item]).
Proof.
  intros Hz HC. destruct (Forall_int_id_Forall2 _ _ HC) as [L HL].
  destruct (add_by_spec (fun z : Z => z) (fun a z => int_id (heap self) a = Some z)
              type item z self L (fun a y H => H) HL Hz)
    as (s' & Hrun & Hh & Hdd & Hfr & HC').
  exists s'. rewrite Hh. repeat split; auto.
  - exact (Forall2_int_id_Forall _ _ _ HC').
  - revert Hrun. unfold add.
    destruct (add_scan _ _) as [[|]|]; intros [= <-]; cbn; auto.
    right. apply update_map_same.
Qed.

Lemma tagtype_copy_triple (self0 : Tackle12Import) (pt : list Tag1)
    (ys : list nat) (tt_ tag : nat) (z : Z) :
  In tag ys ->
  triple
    (fun s => tags_inv self0 pt s
              /\ Forall (fun a => List.length (heap self0) <= a < List.length (heap s))%nat
                        (tt_ :: ys)
              /\ int_id (heap s) tt_ = Some z)
    (c <- deepcopy tt_ ;; setattr tag "tagType" (Obj c))
    (fun _ s => tags_inv self0 pt s
              /\ Forall (fun a => List.length (heap self0) <= a < List.length (heap s))%nat
                        (tt_ :: ys)
              /\ int_id (heap s) tt_ = Some z)
    (fun _ _ => False).
Proof.
  intros Hin s (Hinv & Hys & Hz).
  unfold bind, deepcopy, bind, gets, new_object, setattr, modify. cbn [heap data destData].
  assert (Hn0 : (List.length (heap self0) <= List.length (heap s))%nat)
    by (destruct Hinv as ((_ & H & _) & _); exact H).
  assert (Htag : (List.length (heap self0) <= tag)%nat).
  { rewrite Forall_forall in Hys. apply (Hys tag). now right. }
  set (s1 := mkImport (heap s ++ [deref s tt_]) (data s) (destData s)).
  assert (Hev : evolves (List.length (heap self0)) (heap s)
                  (update_nth tag (dict_set "tagType" (Obj (List.length (heap s)))) (heap s1))).
  { eapply evolves_trans; [apply (evolves_alloc _ (heap s) (deref s tt_) Hn0)|].
    apply evolves_setattr; [exact Htag | discriminate | discriminate]. }
  split; [|split].
  - apply tags_inv_evolve with s; auto.
  - eapply Forall_impl; [|exact Hys]. cbn. intros a Ha.
    rewrite length_update_nth, length_app. cbn. lia.
  - cbn [heap]. exact (evolves_int_id _ _ _ _ _ Hev Hz).
Qed.

Lemma flat_map_snoc {A B : Type} (f : A -> list B) (l : list A) (x : A) :
  flat_map f (l ++ [x]) = flat_map f l ++ f x.
Proof.
  rewrite flat_map_app. cbn. now rewrite app_nil_r.
Qed.

Lemma dump_tagtype_triple (self0 : Tackle12Import) (pre : list TagType1)
    (tt1 : TagType1) :
  triple (tags_inv self0 (flat_map tt1_tags pre))
         (dump_tagtype tt1)
         (fun _ => tags_inv self0 (flat_map tt1_tags (pre ++ [tt1])))
         (fun _ _ => False).
Proof.
  unfold dump_tagtype. rewrite flat_map_snoc.
  eapply triple_bind.
  { eapply triple_weaken;
      [apply (triple_map_each
                (fun p ys s =>
                   tags_inv self0 (flat_map tt1_tags pre ++ p) s
                   /\ Forall (fun a => List.length (heap self0) <= a
                                       < List.length (heap s))%nat ys))| | |].
    - intros p ys x post _. apply dump_tag_triple.
    - intros s H. rewrite app_nil_r. split; [exact H | constructor].
    - intros a s H. exact H.
    - intros e s H. exact H. }
  intros tags. cbn beta.
  set (pt := flat_map tt1_tags pre ++ tt1_tags tt1).
  intros s [Hinv Hys].
  assert (Hn0 : (List.length (heap self0) <= List.length (heap s))%nat)
    by (destruct Hinv as ((_ & H & _) & _); exact H).
  unfold bind at 1. unfold new_object at 1.
  set (o := with_attrs _ _).
  set (tt_ := List.length (heap s)).
  set (s1 := mkImport (heap s ++ [o]) (data s) (destData s)).
  assert (H1 : tags_inv self0 pt s1
               /\ Forall (fun a => List.length (heap self0) <= a
                                   < List.length (heap s1))%nat (tt_ :: tags)
               /\ int_id (heap s1) tt_ = Some (id (tt1_base tt1))).
  { split; [|split].
    - apply tags_inv_evolve with s; try reflexivity; [exact Hinv|].
      now apply evolves_alloc.
    - constructor.
      + cbn. rewrite length_app. cbn. subst tt_. lia.
      + eapply Forall_impl; [|exact Hys]. cbn. intros a Ha.
        rewrite length_app. cbn. lia.
    - unfold int_id. cbn [heap s1]. subst tt_. rewrite attr_alloc_new. reflexivity. }
  unfold bind at 1.
  pose proof (triple_for_each
                (fun (_ : list nat) s' =>
                   tags_inv self0 pt s'
                   /\ Forall (fun a => List.length (heap self0) <= a
                                       < List.length (heap s'))%nat (tt_ :: tags)
                   /\ int_id (heap s') tt_ = Some (id (tt1_base tt1)))
                (fun tag => c <- deepcopy tt_ ;; setattr tag "tagType" (Obj c))
                (fun _ _ => False) tags) as Hloop.
  cbn beta in Hloop.
  specialize (Hloop (fun p x post Hx =>
                       tagtype_copy_triple self0 pt tags tt_ x _
                         (eq_ind_r (fun l => In x l) (in_elt x p post) Hx))
                    s1 H1).
  destruct (for_each tags _ s1) as [[[]| e] s2]; [|contradiction].
  destruct Hloop as (Hinv2 & Hys2 & Hz2).
  unfold bind at 1. unfold setattr at 1, modify.
  set (s3 := mkImport _ (data s2) (destData s2)).
  assert (Htt : (List.length (heap self0) <= tt_)%nat)
    by (inversion Hys2; subst; lia).
  assert (Hev3 : evolves (List.length (heap self0)) (heap s2) (heap s3)).
  { apply evolves_setattr; [exact Htt | discriminate | discriminate]. }
  assert (Hinv3 : tags_inv self0 pt s3)
    by (apply tags_inv_evolve with s2; auto).
  assert (Hz3 : int_id (heap s3) tt_ = Some (id (tt1_base tt1)))
    by (exact (evolves_int_id _ _ _ _ _ Hev3 Hz2)).
  unfold bind at 1. unfold gets at 1.
  destruct (negb (dict_has (tt1_name tt1) (destData s3 "tagtypes"))).
  - destruct Hinv3 as (Hev & Hdd & HO & HT & HTT & Hfr).
    destruct (add_int_collection "tagtypes" tt_ _ s3 Hz3 HTT)
      as (s4 & Hrun & Hh & Hdd4 & Hfr4 & HTT4 & _).
    rewrite Hrun. unfold tags_inv. rewrite Hh.
    rewrite !Hfr4 by discriminate.
    split; [exact Hev|]. split; [congruence|]. split; [exact HO|].
    split; [exact HT|]. split; [rewrite <- Hh; exact HTT4|].
    intros u U1 U2 U3. rewrite Hfr4 by exact U3. now apply Hfr.
  - exact Hinv3.
Qed.

(** The tag types block returns from every fresh instance and establishes
    the invariant for all tags of the source. *)
Lemma dump_tagtypes_triple (self0 : Tackle12Import) (src : Tackle1) :
  triple (tags_inv self0 [])
         (dump_tagtypes src)
         (fun _ => tags_inv self0 (all_tags src))
         (fun _ _ => False).
Proof.
  unfold dump_tagtypes, all_tags.
  apply (triple_for_each (fun pre => tags_inv self0 (flat_map tt1_tags pre))).
  intros pre x post _. apply dump_tagtype_triple.
Qed.

Lemma tags_inv_init (self0 : Tackle12Import) :
  (forall t, data self0 t = []) -> tags_inv self0 [] self0.
Proof.
  intros H. unfold tags_inv. rewrite !H. cbn.
  split; [apply evolves_refl|]. repeat split; constructor.
Qed.

(* ===================================================================== *)
(** ** The applications block of dumpTackle1 *)
(* ===================================================================== *)

Lemma findById_scan_spec {X : Type} (key : X -> Z) (R : nat -> X -> Prop)
    (self : Tackle12Import) (i : Z) (C : list nat) (L : list X) :
  (forall a y, R a y -> int_id (heap self) a = Some (key y)) ->
  Forall2 R C L ->
  match find (fun y => Z.eqb (key y) i) L with
  | Some y => exists a, findById_scan self i C = Val (Some a) /\ In a C /\ R a y
  | None => findById_scan self i C = Val None
            /\ forall a, In a C -> int_id (heap self) a <> Some i
  end.
Proof.
  intros HR H. induction H as [|a y C L Hay _ IH]; cbn.
  - split; [reflexivity | intros a []].
  - unfold deref. rewrite (int_id_inv _ _ _ (HR a y Hay)). cbn.
    destruct (Z.eqb_spec (key y) i) as [Heq | Hne].
    + exists a. auto.
    + destruct (find _ L) as [y'|].
      * destruct IH as (a' & -> & Hin & HR'). exists a'. auto.
      * destruct IH as [-> Hno]. split; [reflexivity|].
        intros a' [<- | Hin]; [|now apply Hno].
        rewrite (HR a y Hay). congruence.
Qed.

Lemma nth_extend {A : Type} (h ext : list A) (n : nat) (d x : A) :
  nth n h d = x -> x <> d -> nth n (h ++ ext) d = x.
Proof.
  intros H Hx. destruct (Nat.lt_ge_cases n (List.length h)) as [Hlt | Hge].
  - now rewrite app_nth1.
  - rewrite nth_overflow in H by exact Hge. congruence.
Qed.

Lemma attr_extend (h ext : list Tackle2Object) (a : nat) (k : string) (v : PyVal) :
  attr h a k = Some v -> attr (h ++ ext) a k = Some v.
Proof.
  intros H. unfold attr. rewrite app_nth1; [exact H|].
  apply (attr_valid h a k). congruence.
Qed.

Lemma int_id_extend (h ext : list Tackle2Object) (a : nat) (z : Z) :
  int_id h a = Some z -> int_id (h ++ ext) a = Some z.
Proof.
  intros H. pose proof (int_id_valid _ _ _ H) as Hv.
  unfold int_id, attr in *. now rewrite app_nth1.
Qed.

Lemma evolves_extend (n0 : nat) (h ext : list Tackle2Object) :
  (n0 <= List.length h)%nat -> evolves n0 h (h ++ ext).
Proof.
  intros Hn. repeat split.
  - intros a Ha. rewrite app_nth1; [reflexivity | lia].
  - rewrite length_app. lia.
  - unfold attr. now rewrite app_nth1.
  - unfold attr. now rewrite app_nth1.
Qed.

Lemma resolved_extend (self0 : Tackle12Import) (src : Tackle1)
    (h ext : list Tackle2Object) (i : Z) (r : nat) :
  resolved self0 src h i r -> resolved self0 src (h ++ ext) i r.
Proof.
  intros (t & Ht & H). exists t. split; [exact Ht|].
  destruct (dict_get (tag1_name t) (destData self0 "tags")); [exact H|].
  apply nth_extend; [exact H | discriminate].
Qed.

Lemma is_app_extend (self0 : Tackle12Import) (src : Tackle1)
    (h ext : list Tackle2Object) (a : nat) (app1 : Application1) :
  is_app self0 src h a app1 -> is_app self0 src (h ++ ext) a app1.
Proof.
  intros (Hi & refs & Hr & Hall). split; [now apply int_id_extend|].
  exists refs. split; [now apply attr_extend|].
  eapply Forall2_impl; [|exact Hall]. intros i r. apply resolved_extend.
Qed.

(** Allocation keeps the invariant of the applications. *)
Lemma apps_inv_alloc (self0 : Tackle12Import) (src : Tackle1)
    (papps : list Application1) (s : Tackle12Import) (ext : list Tackle2Object) :
  apps_inv self0 src papps s ->
  apps_inv self0 src papps (mkImport (heap s ++ ext) (data s) (destData s)).
Proof.
  intros (H1 & H2 & H3 & H4 & H5 & H6 & H7).
  assert (Hn0 : (List.length (heap self0) <= List.length (heap s))%nat)
    by (destruct H1 as (_ & H & _); exact H).
  pose proof (evolves_extend _ (heap s) ext Hn0) as Hev.
  unfold apps_inv. cbn [heap data destData].
  split; [|split; [|split; [|split; [|split; [|split]]]]].
  - exact (evolves_trans _ _ _ _ H1 Hev).
  - exact H2.
  - eapply Forall2_impl; [|exact H3]. intros a b. now apply evolves_is_tag.
  - eapply Forall2_impl; [|exact H4]. intros a b. now apply evolves_is_tag.
  - eapply Forall2_impl; [|exact H5]. intros a b. apply is_app_extend.
  - eapply Forall_impl; [|exact H6]. intros a Ha.
    destruct (int_id (heap s) a) as [z|] eqn:Ez; [|contradiction].
    now rewrite (int_id_extend _ _ _ _ Ez).
  - exact H7.
Qed.

Lemma origin_tag_none_not_found (self0 : Tackle12Import) (src : Tackle1)
    (papps : list Application1) (s : Tackle12Import) (i : Z) :
  apps_inv self0 src papps s ->
  origin_tag src i = None ->
  findById "origin-tags" i s = (Exc (SystemExit 1 (RecordNotFound "origin-tags" i)), s)
  /\ forall a, In a (data s "origin-tags") -> int_id (heap s) a <> Some i.
Proof.
  intros (_ & _ & HO & _) Hnone.
  pose proof (findById_scan_spec tag_id _ s i _ _ (fun a y H => proj1 H) HO) as H.
  unfold origin_tag in Hnone. rewrite Hnone in H. destruct H as [Hscan Hno].
  unfold findById. rewrite Hscan. auto.
Qed.

Lemma origin_tag_some_found (self0 : Tackle12Import) (src : Tackle1)
    (papps : list Application1) (s : Tackle12Import) (i : Z) (t : Tag1) :
  apps_inv self0 src papps s ->
  origin_tag src i = Some t ->
  exists a, findById "origin-tags" i s = (Val a, s)
            /\ is_tag (List.length (heap self0)) (heap s) a t.
Proof.
  intros (_ & _ & HO & _) Hsome.
  pose proof (findById_scan_spec tag_id _ s i _ _ (fun a y H => proj1 H) HO) as H.
  unfold origin_tag in Hsome. rewrite Hsome in H. destruct H as (a & Hscan & _ & Ha).
  exists a. unfold findById. rewrite Hscan. auto.
Qed.

(** One tag id of an application: the reference is resolved, or the run
    stops in [findById]. *)
Lemma resolve_app_tag_triple (self0 : Tackle12Import) (src : Tackle1)
    (papps : list Application1) (pre : list Z) (refs : list nat) (i : Z) :
  triple
    (fun s => apps_inv self0 src papps s
              /\ Forall2 (resolved self0 src (heap s)) pre refs)
    (resolve_app_tag i)
    (fun r s => apps_inv self0 src papps s
                /\ Forall2 (resolved self0 src (heap s)) (pre ++ [i]) (refs ++ [r]))
    (fun e s => e = SystemExit 1 (RecordNotFound "origin-tags" i)
                /\ origin_tag src i = None
                /\ apps_inv self0 src papps s).
Proof.
  intros s [Hinv Hrefs]. unfold resolve_app_tag. unfold bind at 1.
  destruct (origin_tag src i) as [t|] eqn:Et.
  - destruct (origin_tag_some_found _ _ _ _ _ _ Hinv Et) as (a & -> & Hi & Hn & Ha).
    unfold bind at 1. unfold getattr at 1. unfold deref.
    change (dict_get "name" (nth a (heap s) [])) with (attr (heap s) a "name").
    rewrite Hn. unfold bind at 1. unfold gets at 1.
    destruct Hinv as (H1 & H2 & Hrest). rewrite H2. cbn [dest_get].
    destruct (dict_get (tag1_name t) (destData self0 "tags")) as [d|] eqn:Ed.
    + unfold ret. split; [exact (conj H1 (conj H2 Hrest))|].
      apply Forall2_snoc; [exact Hrefs|]. exists t. split; [exact Et|].
      now rewrite Ed.
    + unfold bind at 1. unfold getattr at 1. unfold deref.
      rewrite (int_id_inv _ _ _ Hi). unfold new_object. cbn [with_attrs fold_left].
      split.
      * apply (apps_inv_alloc self0 src papps s _ (conj H1 (conj H2 Hrest))).
      * cbn [heap]. apply Forall2_snoc.
        -- eapply Forall2_impl; [|exact Hrefs]. intros j r. apply resolved_extend.
        -- exists t. split; [exact Et|]. rewrite Ed. rewrite nth_fresh. reflexivity.
  - destruct (origin_tag_none_not_found _ _ _ _ _ Hinv Et) as [-> _]. auto.
Qed.

Lemma application_object_id (app1 : Application1) (tags : list nat) :
  dict_get "id"
    (with_attrs (Tackle2Object_init (Some (app1_base app1)))
       ([("name", Json (app1_name app1));
         ("description", Json (app1_description app1));
         ("tags", ObjList tags)]
        ++ match app1_businessService app1 with
           | Some bs => [("businessService", Json (JDict [("id", JInt bs)]))]
           | None => []
           end))
  = Some (Json (JInt (app_id app1)))
  /\
  dict_get "tags"
    (with_attrs (Tackle2Object_init (Some (app1_base app1)))
       ([("name", Json (app1_name app1));
         ("description", Json (app1_description app1));
         ("tags", ObjList tags)]
        ++ match app1_businessService app1 with
           | Some bs => [("businessService", Json (JDict [("id", JInt bs)]))]
           | None => []
           end))
  = Some (ObjList tags).
Proof.
  destruct (app1_businessService app1); split; reflexivity.
Qed.

Lemma review_object_id (app1 : Application1) (r : Review1) :
  dict_get "id" (review_object app1 r) = Some (Json (JInt (id (rev1_base r)))).
Proof.
  unfold review_object. destruct (truthy (rev1_copiedFromReviewId r)); reflexivity.
Qed.

Lemma dump_application_triple (self0 : Tackle12Import) (src : Tackle1)
    (pre : list Application1) (app1 : Application1) :
  triple (apps_inv self0 src pre)
         (dump_application app1)
         (fun _ s => apps_inv self0 src (pre ++ [app1]) s
                     /\ Forall (fun i => origin_tag src i <> None) (app1_tags app1))
         (fun e s => exists i,
              e = SystemExit 1 (RecordNotFound "origin-tags" i)
              /\ In i (app1_tags app1)
              /\ origin_tag src i = None
              /\ apps_inv self0 src pre s).
Proof.
  unfold dump_application. eapply triple_bind.
  { eapply triple_weaken;
      [apply (triple_map_each
                (fun p refs s =>
                   apps_inv self0 src pre s
                   /\ Forall2 (resolved self0 src (heap s)) p refs)
                resolve_app_tag
                (fun e s => exists i,
                     e = SystemExit 1 (RecordNotFound "origin-tags" i)
                     /\ In i (app1_tags app1)
                     /\ origin_tag src i = None
                     /\ apps_inv self0 src pre s)) | | |].
    - intros p refs x post Hx.
      eapply triple_weaken; [apply resolve_app_tag_triple | | |]; cbn beta.
      + intros s H. exact H.
      + intros a s H. exact H.
      + intros e s (He & Hnone & Hinv). exists x. rewrite Hx.
        split; [exact He|]. split; [apply in_elt|]. split; assumption.
    - intros s H. split; [exact H | constructor].
    - intros a s H. exact H.
    - intros e s H. exact H. }
  intros tags s [Hinv Hrefs]. cbn beta in *.
  unfold bind at 1. unfold new_object at 1.
  set (o := with_attrs _ _).
  set (app := List.length (heap s)).
  set (s1 := mkImport (heap s ++ [o]) (data s) (destData s)).
  assert (Hinv1 : apps_inv self0 src pre s1) by (now apply apps_inv_alloc).
  assert (Happ1 : is_app self0 src (heap s1) app app1).
  { destruct (application_object_id app1 tags) as [Hid Htags]. split.
    - unfold int_id. cbn [heap s1]. subst app. rewrite attr_alloc_new.
      subst o. now rewrite Hid.
    - exists tags. cbn [heap s1]. subst app. rewrite attr_alloc_new. split.
      + subst o. exact Htags.
      + eapply Forall2_impl; [|exact Hrefs]. intros j r. apply resolved_extend. }
  assert (Hall : Forall (fun i => origin_tag src i <> None) (app1_tags app1)).
  { clear -Hrefs. induction Hrefs as [|i r l l' (t & Ht & _) _ IH]; constructor.
    - congruence.
    - exact IH. }
  clearbody s1 o app. clear Hinv Hrefs s.
  assert (Hrev : exists s2 ext,
             match app1_review app1 with
             | Some r => rev <- new_object (review_object app1 r) ;; add "reviews" rev
             | None => pass
             end s1 = (Val tt, s2)
             /\ heap s2 = heap s1 ++ ext
             /\ apps_inv self0 src pre s2).
  { destruct (app1_review app1) as [r|].
    - unfold bind, new_object.
      set (s1' := mkImport (heap s1 ++ [review_object app1 r]) (data s1) (destData s1)).
      assert (Hinv1' : apps_inv self0 src pre s1') by (now apply apps_inv_alloc).
      assert (Hid : int_id (heap s1') (List.length (heap s1)) = Some (id (rev1_base r))).
      { unfold int_id. cbn [heap s1']. rewrite attr_alloc_new.
        now rewrite review_object_id. }
      destruct Hinv1' as (H1 & H2 & H3 & H4 & H5 & H6 & H7).
      destruct (add_int_collection "reviews" _ _ s1' Hid H6)
        as (s2 & Hrun & Hh & Hdd & Hfr & HR & _).
      exists s2, [review_object app1 r]. split; [exact Hrun|].
      split; [exact Hh|]. unfold apps_inv.
      rewrite Hh, (Hfr "origin-tags"), (Hfr "tags"), (Hfr "applications") by discriminate.
      split; [exact H1|]. split; [congruence|]. split; [exact H3|].
      split; [exact H4|]. split; [exact H5|]. split; [now rewrite <- Hh|].
      intros u U1 U2 U3 U4 U5. rewrite Hfr by exact U5. now apply H7.
    - exists s1, []. rewrite app_nil_r. auto. }
  destruct Hrev as (s2 & ext & Hrun2 & Hh2 & Hinv2).
  unfold bind at 1. rewrite Hrun2.
  assert (Happ2 : is_app self0 src (heap s2) app app1)
    by (rewrite Hh2; now apply is_app_extend).
  destruct Hinv2 as (H1 & H2 & H3 & H4 & H5 & H6 & H7).
  destruct (add_by_spec app_id (is_app self0 src (heap s2)) "applications" app app1
              s2 _ (fun a y (H : is_app self0 src (heap s2) a y) => proj1 H) H5 Happ2)
    as (s3 & Hrun3 & Hh3 & Hdd3 & Hfr3 & HA3).
  rewrite Hrun3. split; [|exact Hall]. unfold apps_inv.
  rewrite Hh3, (Hfr3 "origin-tags"), (Hfr3 "tags"), (Hfr3 "reviews") by discriminate.
  split; [exact H1|]. split; [congruence|]. split; [exact H3|].
  split; [exact H4|]. split; [now rewrite dedup_by_snoc|]. split; [exact H6|].
  intros u U1 U2 U3 U4 U5. rewrite Hfr3 by exact U4. now apply H7.
Qed.

Lemma dump_applications_triple (self0 : Tackle12Import) (src : Tackle1) :
  triple (apps_inv self0 src [])
         (dump_applications src)
         (fun _ s => apps_inv self0 src (t1_application src) s
                     /\ Forall (fun app1 =>
                                  Forall (fun i => origin_tag src i <> None)
                                         (app1_tags app1))
                               (t1_application src))
         (fun e s => exists i pre,
              e = SystemExit 1 (RecordNotFound "origin-tags" i)
              /\ (exists app1, In app1 (t1_application src) /\ In i (app1_tags app1))
              /\ origin_tag src i = None
              /\ apps_inv self0 src pre s).
Proof.
  unfold dump_applications.
  intros s0 H0.
  pose proof (triple_for_each
                (fun pre s =>
                   apps_inv self0 src pre s
                   /\ Forall (fun app1 =>
                                Forall (fun i => origin_tag src i <> None)
                                       (app1_tags app1)) pre)
                dump_application
                (fun e s => exists i pre,
                     e = SystemExit 1 (RecordNotFound "origin-tags" i)
                     /\ (exists app1, In app1 (t1_application src)
                                      /\ In i (app1_tags app1))
                     /\ origin_tag src i = None
                     /\ apps_inv self0 src pre s)
                (t1_application src)) as Hloop.
  cbn beta in Hloop. apply Hloop; [|split; [exact H0 | constructor]].
  clear s0 H0 Hloop.
  intros pre x post Hx s [Hinv Hpre].
  pose proof (dump_application_triple self0 src pre x s Hinv) as H.
  destruct (dump_application x s) as [[[] | e] s'].
  - destruct H as [Hinv' Hx']. split; [exact Hinv'|].
    apply Forall_app. split; [exact Hpre | constructor; [exact Hx' | constructor]].
  - destruct H as (i & He & Hin & Hnone & Hinv'). exists i, pre.
    split; [exact He|]. split; [|split; assumption].
    exists x. split; [|exact Hin]. rewrite Hx. apply in_elt.
Qed.

Lemma tags_inv_apps_inv (self0 : Tackle12Import) (src : Tackle1) (s : Tackle12Import) :
  (forall t, data self0 t = []) ->
  tags_inv self0 (all_tags src) s -> apps_inv self0 src [] s.
Proof.
  intros Hfresh (H1 & H2 & H3 & H4 & H5 & H6).
  unfold apps_inv. rewrite (H6 "applications"), (H6 "reviews") by discriminate.
  rewrite !Hfresh. cbn.
  split; [exact H1|]. split; [exact H2|]. split; [exact H3|]. split; [exact H4|].
  split; [constructor|]. split; [constructor|].
  intros u U1 U2 U3 _ _. now apply H6.
Qed.

(* ===================================================================== *)
(** ** Reference resolution: the fatal case *)
(* ===================================================================== *)

Lemma Forall2_In_r {A B : Type} (R : A -> B -> Prop) (l : list A) (l' : list B) (b : B) :
  Forall2 R l l' -> In b l' -> exists a, In a l /\ R a b.
Proof.
  induction 1 as [|a b' l l' Hab _ IH]; intros Hin; [destruct Hin|].
  destruct Hin as [<- | Hin].
  - exists a. split; [now left | exact Hab].
  - destruct (IH Hin) as (a' & Ha' & HR). exists a'. split; [now right | exact HR].
Qed.

Lemma Forall2_In_l {A B : Type} (R : A -> B -> Prop) (l : list A) (l' : list B) (a : A) :
  Forall2 R l l' -> In a l -> exists b, In b l' /\ R a b.
Proof.
  induction 1 as [|a' b l l' Hab _ IH]; intros Hin; [destruct Hin|].
  destruct Hin as [<- | Hin].
  - exists b. split; [now left | exact Hab].
  - destruct (IH Hin) as (b' & Hb' & HR). exists b'. split; [now right | exact HR].
Qed.

Lemma origin_tag_in_index (self0 : Tackle12Import) (src : Tackle1)
    (s : Tackle12Import) (i : Z) (t : Tag1) :
  tags_inv self0 (all_tags src) s ->
  origin_tag src i = Some t ->
  exists a, In a (data s "origin-tags") /\ int_id (heap s) a = Some i.
Proof.
  intros (_ & _ & HO & _) Ht. unfold origin_tag in Ht.
  apply find_some in Ht. destruct Ht as [Hin Heq].
  apply Z.eqb_eq in Heq.
  destruct (Forall2_In_r _ _ _ _ HO Hin) as (a & Ha & Hi & _).
  exists a. split; [exact Ha|]. now rewrite Hi, Heq.
Qed.

(* ===================================================================== *)
(** ** Deduplication of tags and the references of applications *)
(* ===================================================================== *)

Lemma existsb_key_false {X : Type} (key : X -> Z) (acc : list X) (x : X) :
  ~ In (key x) (map key acc) ->
  existsb (fun u => Z.eqb (key x) (key u)) acc = false.
Proof.
  intros H. induction acc as [|u acc IH]; cbn; [reflexivity|].
  cbn in H. destruct (Z.eqb_spec (key x) (key u)) as [Heq | Hne].
  - exfalso. apply H. left. congruence.
  - apply IH. intros Hin. apply H. now right.
Qed.

Lemma fold_add_by_NoDup {X : Type} (key : X -> Z) (l acc : list X) :
  NoDup (map key (acc ++ l)) -> fold_left (add_by key) l acc = acc ++ l.
Proof.
  revert acc. induction l as [|x l IH]; intros acc H; cbn.
  - now rewrite app_nil_r.
  - unfold add_by at 2. rewrite existsb_key_false.
    + rewrite IH; rewrite <- app_assoc; [reflexivity | exact H].
    + rewrite map_app in H. cbn in H. apply NoDup_remove_2 in H.
      intros Hin. apply H. apply in_or_app. now left.
Qed.

Lemma dedup_by_NoDup {X : Type} (key : X -> Z) (l : list X) :
  NoDup (map key l) -> dedup_by key l = l.
Proof.
  intros H. unfold dedup_by. now rewrite fold_add_by_NoDup.
Qed.

Lemma NoDup_map_filter {X : Type} (key : X -> Z) (f : X -> bool) (l : list X) :
  NoDup (map key l) -> NoDup (map key (filter f l)).
Proof.
  induction l as [|x l IH]; cbn; intros H; [constructor|].
  inversion H as [|? ? Hx Hl]; subst.
  destruct (f x); cbn; [constructor|]; auto.
  intros Hin. apply Hx. apply in_map_iff in Hin. destruct Hin as (y & Hy & Hin).
  apply filter_In in Hin. apply in_map_iff. exists y. tauto.
Qed.

Lemma find_unique {X : Type} (key : X -> Z) (l : list X) (x : X) :
  NoDup (map key l) -> In x l ->
  find (fun y => Z.eqb (key y) (key x)) l = Some x.
Proof.
  induction l as [|y l IH]; cbn; intros Hnd Hin; [destruct Hin|].
  inversion Hnd as [|? ? Hy Hl]; subst.
  destruct Hin as [-> | Hin].
  - now rewrite Z.eqb_refl.
  - destruct (Z.eqb_spec (key y) (key x)) as [Heq | Hne]; [|auto].
    exfalso. apply Hy. rewrite Heq. now apply in_map.
Qed.

Lemma find_key_some {X : Type} (key : X -> Z) (l : list X) (i : Z) :
  In i (map key l) -> find (fun y => Z.eqb (key y) i) l <> None.
Proof.
  induction l as [|y l IH]; cbn; intros Hin; [destruct Hin|].
  destruct (Z.eqb_spec (key y) i) as [Heq | Hne]; [discriminate|].
  destruct Hin as [Heq | Hin]; [contradiction | auto].
Qed.

Lemma Forall2_nth_error {A B : Type} (R : A -> B -> Prop) (l : list A) (l' : list B)
    (k : nat) (a : A) :
  Forall2 R l l' -> nth_error l k = Some a ->
  exists b, nth_error l' k = Some b /\ R a b.
Proof.
  intros H. revert k. induction H as [|x y l l' Hxy _ IH]; intros [|k] Hk; cbn in *;
    try discriminate.
  - injection Hk as <-. eauto.
  - auto.
Qed.

Lemma apps_inv_export_inv (self0 : Tackle12Import) (src : Tackle1) (s : Tackle12Import) :
  apps_inv self0 src (t1_application src) s -> export_inv self0 src s.
Proof.
  intros (H1 & _ & _ & H4 & H5 & _). exact (conj H1 (conj H4 H5)).
Qed.

Lemma export_inv_extend (self0 : Tackle12Import) (src : Tackle1)
    (s s' : Tackle12Import) (ext : list Tackle2Object) :
  export_inv self0 src s ->
  heap s' = heap s ++ ext ->
  data s' "tags" = data s "tags" ->
  data s' "applications" = data s "applications" ->
  export_inv self0 src s'.
Proof.
  intros (H1 & H2 & H3) Hh Ht Ha.
  assert (Hn0 : (List.length (heap self0) <= List.length (heap s))%nat)
    by (destruct H1 as (_ & H & _); exact H).
  pose proof (evolves_extend _ (heap s) ext Hn0) as Hev.
  unfold export_inv. rewrite Hh, Ht, Ha. split; [|split].
  - exact (evolves_trans _ _ _ _ H1 Hev).
  - eapply Forall2_impl; [|exact H2]. intros a b. now apply evolves_is_tag.
  - eapply Forall2_impl; [|exact H3]. intros a b. apply is_app_extend.
Qed.

Lemma export_inv_remapped (self0 : Tackle12Import) (src : Tackle1) (s : Tackle12Import) :
  seeded self0 ->
  NoDup (map tag_id (all_tags src)) ->
  NoDup (map app_id (t1_application src)) ->
  export_inv self0 src s ->
  remapped self0 src s.
Proof.
  intros (_ & Hdest & Hseed) Hndt Hnda (Hev & HT & HA).
  specialize (Hdest "tags").
  rewrite (dedup_by_NoDup _ _ Hnda) in HA.
  unfold new_tags in HT.
  rewrite (dedup_by_NoDup _ _ (NoDup_map_filter tag_id _ _ Hndt)) in HT.
  fold (new_tags self0 (all_tags src)) in HT.
  assert (Happs : forall tag1, In tag1 (all_tags src) ->
            forall app1, In app1 (t1_application src) ->
            exists app refs,
              In app (data s "applications")
              /\ app_refs (heap s) app1 app refs
              /\ forall k, nth_error (app1_tags app1) k = Some (tag_id tag1) ->
                   exists r, nth_error refs k = Some r
                     /\ match dict_get (tag1_name tag1) (destData self0 "tags") with
                        | Some d => r = d
                        | None => nth r (heap s) []
                                  = [("id", Json (JInt (tag_id tag1)));
                                     ("name", Json (JStr (tag1_name tag1)))]
                        end).
  { intros tag1 Htag app1 Happ.
    destruct (Forall2_In_r _ _ _ _ HA Happ) as (app & Hin & Hid & refs & Hrefs & Hall).
    exists app, refs. split; [exact Hin|]. split.
    - split; [exact Hid|]. split; [exact Hrefs|].
      symmetry. exact (Forall2_length Hall).
    - intros k Hk.
      destruct (Forall2_nth_error _ _ _ _ _ Hall Hk) as (r & Hr & t & Ht & Hres).
      exists r. split; [exact Hr|].
      unfold origin_tag in Ht. rewrite (dedup_by_NoDup _ _ Hndt) in Ht.
      rewrite (find_unique tag_id _ tag1 Hndt Htag) in Ht.
      injection Ht as <-. exact Hres. }
  intros tag1 Htag.
  destruct (dict_get (tag1_name tag1) (destData self0 "tags")) as [d|] eqn:Ed.
  - assert (Hsame : nth d (heap s) [] = nth d (heap self0) []).
    { destruct Hev as (Hlow & _). apply Hlow.
      rewrite Forall_forall in Hdest.
      exact (Hdest _ (dict_get_In _ _ _ Ed)). }
    split; [|split; [|split]].
    + intros a Ha Hname.
      destruct (Forall2_In_l _ _ _ _ HT Ha) as (t' & Ht' & _ & Hn' & _).
      rewrite Hn' in Hname. injection Hname as Hname.
      unfold new_tags in Ht'. apply filter_In in Ht'. destruct Ht' as [_ Hnew].
      unfold dict_has in Hnew. rewrite Hname, Ed in Hnew. discriminate.
    + exact Hsame.
    + rewrite Hsame. exact (Hseed _ _ Ed).
    + intros app1 Happ.
      destruct (Happs tag1 Htag app1 Happ) as (app & refs & Hin & Hrefs & Hk).
      exists app, refs. split; [exact Hin|]. split; [exact Hrefs|].
      intros k Hnth. destruct (Hk k Hnth) as (r & Hr & Hres).
      rewrite Ed in Hres. now subst r.
  - split.
    + assert (Hnew : In tag1 (new_tags self0 (all_tags src))).
      { unfold new_tags. apply filter_In. split; [exact Htag|].
        unfold dict_has. now rewrite Ed. }
      destruct (Forall2_In_r _ _ _ _ HT Hnew) as (a & Ha & Hi & Hn & _).
      exists a. auto.
    + intros app1 Happ.
      destruct (Happs tag1 Htag app1 Happ) as (app & refs & Hin & Hrefs & Hk).
      exists app, refs. split; [exact Hin|]. split; [exact Hrefs|].
      intros k Hnth. destruct (Hk k Hnth) as (r & Hr & Hres).
      rewrite Ed in Hres. exists r. auto.
Qed.

(** *** The later blocks only create instances *)

Lemma appends_only_unchanged {A : Type} (m : Py A) :
  (forall s, snd (m s) = s) -> appends_only m.
Proof.
  intros H s. rewrite H. split; [exists []; now rewrite app_nil_r | auto].
Qed.

Lemma appends_only_bind {A B : Type} (m : Py A) (f : A -> Py B) :
  appends_only m -> (forall a, appends_only (f a)) -> appends_only (bind m f).
Proof.
  intros Hm Hf s. unfold bind. specialize (Hm s).
  destruct (m s) as [[a | e] s1]; cbn [snd] in *; [|exact Hm].
  destruct Hm as ((ext & Hh) & Ht & Ha).
  destruct (Hf a s1) as ((ext' & Hh') & Ht' & Ha').
  split; [|split; congruence].
  exists (ext ++ ext'). rewrite Hh', Hh. now rewrite app_assoc.
Qed.

Lemma appends_only_for_each {X : Type} (xs : list X) (body : X -> Py unit) :
  (forall x, appends_only (body x)) -> appends_only (for_each xs body).
Proof.
  intros H. induction xs as [|x xs IH]; cbn [for_each].
  - now apply appends_only_unchanged.
  - apply appends_only_bind; [apply H | intros _; exact IH].
Qed.

Lemma appends_only_map_each {X Y : Type} (xs : list X) (body : X -> Py Y) :
  (forall x, appends_only (body x)) -> appends_only (map_each xs body).
Proof.
  intros H. induction xs as [|x xs IH]; cbn [map_each].
  - now apply appends_only_unchanged.
  - apply appends_only_bind; [apply H|]. intros y.
    apply appends_only_bind; [exact IH|]. intros ys.
    now apply appends_only_unchanged.
Qed.

Lemma appends_only_new_object (o : Tackle2Object) : appends_only (new_object o).
Proof.
  intros s. cbn. split; [now exists [o] | auto].
Qed.

Lemma appends_only_add (type : string) (item : nat) :
  type <> "tags" -> type <> "applications" -> appends_only (add type item).
Proof.
  intros H1 H2 s. unfold add.
  destruct (add_scan _ _) as [[|] | e]; cbn.
  - split; [exists []; now rewrite app_nil_r | auto].
  - split; [exists []; now rewrite app_nil_r|].
    split; apply update_map_other; congruence.
  - split; [exists []; now rewrite app_nil_r | auto].
Qed.

Lemma appends_only_getattr (a : nat) (k : string) : appends_only (getattr a k).
Proof.
  apply appends_only_unchanged. intros s. unfold getattr.
  now destruct (dict_get k (deref s a)).
Qed.

Lemma appends_only_jobFunction (sh1 : Stakeholder1) (sh : nat) :
  appends_only (dump_stakeholder_jobFunction sh1 sh).
Proof.
  apply appends_only_unchanged. intros s.
  destruct (truthy (sh1_jobFunction sh1)) eqn:Et.
  - destruct (dump_stakeholder_jobFunction_raises sh1 sh s Et) as (e & -> & _).
    reflexivity.
  - unfold dump_stakeholder_jobFunction. now rewrite Et.
Qed.

Ltac appends_only_steps :=
  repeat first
    [ apply appends_only_bind; [|intro]
    | apply appends_only_for_each; intro
    | apply appends_only_map_each; intro
    | apply appends_only_new_object
    | apply appends_only_add; discriminate
    | apply appends_only_getattr
    | apply appends_only_jobFunction
    | apply appends_only_unchanged; intro; reflexivity ].

Lemma appends_only_later_blocks (src : Tackle1) :
  appends_only
    (for_each (t1_applications_dependency src) dump_dependency ;;;
     dump_assessments src ;;;
     for_each (t1_stakeholder src) dump_stakeholder ;;;
     for_each (t1_stakeholder_group src) dump_stakeholdergroup ;;;
     for_each (t1_job_function src) dump_jobfunction ;;;
     for_each (t1_business_service src) dump_businessservice).
Proof.
  unfold dump_dependency, dump_assessments, dump_assessments_of, dump_assessment,
    dump_assessment_risk, dump_confidence, dump_stakeholder, dump_stakeholdergroup,
    dump_jobfunction, dump_businessservice.
  appends_only_steps.
  destruct (negb _); appends_only_steps.
Qed.

Lemma bind_seq_run {S A B C : Type} (m : M S A) (k : M S B) (rest : M S C)
    (s s2 : S) (b : B) :
  (m ;;; k) s = (Val b, s2) -> (m ;;; k ;;; rest) s = rest s2.
Proof.
  unfold bind. destruct (m s) as [[a | e] s1]; [|discriminate].
  destruct (k s1) as [[b' | e] s2']; [|discriminate].
  now intros [= _ <-].
Qed.

Lemma dumpTackle1_after_applications (src : Tackle1) (s s2 : Tackle12Import) :
  (dump_tagtypes src ;;; dump_applications src) s = (Val tt, s2) ->
  dumpTackle1 src s
  = (for_each (t1_applications_dependency src) dump_dependency ;;;
     dump_assessments src ;;;
     for_each (t1_stakeholder src) dump_stakeholder ;;;
     for_each (t1_stakeholder_group src) dump_stakeholdergroup ;;;
     for_each (t1_job_function src) dump_jobfunction ;;;
     for_each (t1_business_service src) dump_businessservice) s2.
Proof.
  intros H. unfold dumpTackle1.
  exact (bind_seq_run (dump_tagtypes src) (dump_applications src) _ s s2 tt H).
Qed.

(** C1.  Source tags and applications have unique origin ids, the instance
    is as [loadTackle2Seeds] leaves it ([seeded]: nothing collected, an
    index of existing objects made of the destination's id and name), and
    every tag id an application lists is the id of a source tag.  Then the
    tag types and applications blocks of [dumpTackle1] return, and in the
    state they leave, as in the state [dumpTackle1] leaves when it returns,
    for every source tag ([remapped]):
    - if the destination index has its name, no object of the outgoing
      'tags' collection has that name, the destination's object is as it
      was (the destination's id and the name), and every application that
      lists the tag's origin id holds, at that position of its [tags] list,
      the destination's object;
    - otherwise an object with the tag's origin id and name is in 'tags',
      and every application that lists the id holds at that position an
      object made of exactly this id and name. *)
Theorem dedup_remaps_tag_references :
  forall (src : Tackle1) (self0 : Tackle12Import),
    seeded self0 ->
    NoDup (map tag_id (all_tags src)) ->
    NoDup (map app_id (t1_application src)) ->
    Forall (fun app1 => Forall (fun i => In i (map tag_id (all_tags src)))
                               (app1_tags app1))
           (t1_application src) ->
    exists self2,
      (dump_tagtypes src ;;; dump_applications src) self0 = (Val tt, self2)
      /\ remapped self0 src self2
      /\ forall self',
           dumpTackle1 src self0 = (Val tt, self') -> remapped self0 src self'.
Proof.
  intros src self0 Hseeded Hndt Hnda Hids.
  pose proof (proj1 Hseeded) as Hfresh.
  destruct (triple_run _ _ _ self0 (dump_tagtypes_triple self0 src)
              (tags_inv_init self0 Hfresh)) as ([] & self1 & Hrun1 & Hinv1).
  pose proof (dump_applications_triple self0 src self1
                (tags_inv_apps_inv self0 src self1 Hfresh Hinv1)) as H2.
  assert (Hprefix : exists self2,
             (dump_tagtypes src ;;; dump_applications src) self0 = (Val tt, self2)
             /\ export_inv self0 src self2).
  { unfold bind. rewrite Hrun1.
    destruct (dump_applications src self1) as [[[] | e] self2].
    - exists self2. split; [reflexivity|].
      apply apps_inv_export_inv. exact (proj1 H2).
    - exfalso. destruct H2 as (i & pre & _ & (app1 & Happ & Hi) & Hnone & _).
      rewrite Forall_forall in Hids. specialize (Hids app1 Happ).
      rewrite Forall_forall in Hids. specialize (Hids i Hi).
      unfold origin_tag in Hnone. rewrite (dedup_by_NoDup _ _ Hndt) in Hnone.
      exact (find_key_some tag_id _ i Hids Hnone). }
  destruct Hprefix as (self2 & Hrun2 & Hinv2).
  exists self2. split; [exact Hrun2|]. split.
  - now apply export_inv_remapped.
  - intros self' Hrun.
    rewrite (dumpTackle1_after_applications src self0 self2 Hrun2) in Hrun.
    destruct (appends_only_later_blocks src self2) as ((ext & Hh) & Ht & Ha).
    rewrite Hrun in Hh, Ht, Ha. cbn [snd] in Hh, Ht, Ha.
    apply export_inv_remapped; try assumption.
    exact (export_inv_extend self0 src self2 self' ext Hinv2 Hh Ht Ha).
Qed.

Lemma dedup_remaps_tag_references_witness :
  exists self2,
    (dump_tagtypes sample_source ;;; dump_applications sample_source) sample_seeded
    = (Val tt, self2)
    /\ remapped sample_seeded sample_source self2
    /\ forall self',
         dumpTackle1 sample_source sample_seeded = (Val tt, self') ->
         remapped sample_seeded sample_source self'.
Proof.
  apply (dedup_remaps_tag_references sample_source sample_seeded).
  - destruct (loadTackle2Seeds_seeded sample_seeds) as (s & Hrun & Hs).
    unfold sample_seeded. rewrite Hrun. exact Hs.
  - vm_compute. repeat constructor; simpl; intuition discriminate.
  - vm_compute. repeat constructor; simpl; intuition discriminate.
  - vm_compute. repeat (first [apply Forall_nil | apply Forall_cons]); auto.
Defined.

(** The scenario of the specification: "Java" (origin id 99) exists at the
    destination with id 42, "Go" (origin id 100) does not.  After the export
    the outgoing 'tags' collection holds "Go" only, and the application that
    listed 99 and 100 refers to the destination's object of id 42 and to an
    object with the origin identity of "Go". *)
Example java_scenario :
  let self' := snd (dumpTackle1 sample_source sample_seeded) in
  fst (dumpTackle1 sample_source sample_seeded) = Val tt
  /\ map (fun a => attr (heap self') a "name") (data self' "tags")
     = [Some (Json (JStr "Go"))]
  /\ map (fun a => attr (heap self') a "tags") (data self' "applications")
     = [Some (ObjList [1%nat; 8%nat])]
  /\ nth 1 (heap self') [] = [("id", Json (JInt 42)); ("name", Json (JStr "Java"))]
  /\ nth 8 (heap self') [] = [("id", Json (JInt 100)); ("name", Json (JStr "Go"))].
Proof.
  vm_compute. repeat split; reflexivity.
Qed.

(* ===================================================================== *)
(** ** Files and requests *)
(* ===================================================================== *)

Section EngineFacts.

Variable E : Environment.

Lemma loadDump_run (path : string) (w : World E) :
  loadDump path w
  = (match files w path with
     | None => Exc (FileNotFoundError path)
     | Some text =>
         match json_load E text with
         | Some j => Val j
         | None => Exc (ValueError "JSONDecodeError")
         end
     end,
     mkWorld E (files w) (server w) (trace w ++ [Loaded path])).
Proof.
  unfold loadDump, bind, log, modify, gets. cbn.
  destruct (files w path) as [text|]; [|reflexivity].
  destruct (json_load E text); reflexivity.
Qed.

Lemma apiJSON_GET_run (url : string) (w : World E) :
  apiJSON url None GET false w
  = (if resp_ok (http_get E (server w) url)
     then decode_response E url (http_get E (server w) url)
     else Exc (SystemExit 1
                 (RequestFailed (resp_status_code (http_get E (server w) url)) url)),
     mkWorld E (files w) (server w) (trace w ++ [Requested GET url None])).
Proof.
  unfold apiJSON, bind, request, bind, log, modify, lift_res, pass, raise. cbn.
  destruct (resp_ok (http_get E (server w) url)); reflexivity.
Qed.

Lemma apiJSON_POST_run (url : string) (d : JSON) (w : World E) :
  apiJSON url (Some d) POST false w
  = (if resp_ok (fst (http_post E (server w) url (json_dumps E d)))
     then decode_response E url (fst (http_post E (server w) url (json_dumps E d)))
     else Exc (SystemExit 1
                 (RequestFailed
                    (resp_status_code (fst (http_post E (server w) url (json_dumps E d))))
                    url)),
     mkWorld E (files w) (snd (http_post E (server w) url (json_dumps E d)))
             (trace w ++ [Requested POST url (Some d)])).
Proof.
  unfold apiJSON, bind, request, bind, log, modify, lift_res, pass, raise. cbn.
  destruct (resp_ok (fst (http_post E (server w) url (json_dumps E d)))); reflexivity.
Qed.


(** *** Exit status of the exceptions of the pure steps *)

Lemma getitem_status (d : JSON) (k : string) (e : Exn) :
  getitem d k = Exc e -> exit_status e = 1%Z.
Proof.
  destruct d; cbn; try (intros [= <-]; reflexivity).
  destruct (dict_get k d); [discriminate | intros [= <-]; reflexivity].
Qed.

Lemma iter_json_status (j : JSON) (e : Exn) :
  iter_json j = Exc e -> exit_status e = 1%Z.
Proof.
  destruct j; cbn; try discriminate; intros [= <-]; reflexivity.
Qed.

Lemma iter_answer_status (c : option JSON) (e : Exn) :
  iter_answer c = Exc e -> exit_status e = 1%Z.
Proof.
  destruct c; cbn; [apply iter_json_status | intros [= <-]; reflexivity].
Qed.

Lemma format_d_status (v : JSON) (e : Exn) :
  format_d v = Exc e -> exit_status e = 1%Z.
Proof.
  destruct v; cbn; try discriminate; intros [= <-]; reflexivity.
Qed.

Lemma py_in_status (k : string) (j : JSON) (e : Exn) :
  py_in k j = Exc e -> exit_status e = 1%Z.
Proof.
  destruct j; cbn; try discriminate; intros [= <-]; reflexivity.
Qed.

Lemma decode_response_status (url : string) (r : Response (Text E)) (e : Exn) :
  decode_response E url r = Exc e -> exit_status e = 1%Z.
Proof.
  unfold decode_response. destruct (resp_text r) as [text|]; [|discriminate].
  destruct (json_load E text) as [j|]; [|intros [= <-]; reflexivity].
  destruct (py_in "_embedded" j) as [[|]|e'] eqn:Ein.
  - destruct (getitem j "_embedded") as [inner|e'] eqn:E1.
    + destruct (getitem inner (last_segment url)) as [v|e''] eqn:E2; [discriminate|].
      intros [= <-]. exact (getitem_status _ _ _ E2).
    + intros [= <-]. exact (getitem_status _ _ _ E1).
  - discriminate.
  - intros [= <-]. exact (py_in_status _ _ _ Ein).
Qed.

(** *** Computations that only read *)

Lemma only_reads_pass : only_reads (E := E) pass.
Proof.
  intros w. cbn. repeat split; auto.
  - exists []. now rewrite app_nil_r.
  - discriminate.
Qed.

Lemma only_reads_lift_res {A : Type} (r : Res A) :
  (forall e, r = Exc e -> exit_status e = 1%Z) -> only_reads (E := E) (lift_res r).
Proof.
  intros H w. cbn. repeat split; auto.
  exists []. now rewrite app_nil_r.
Qed.

Lemma only_reads_raise {A : Type} (e : Exn) :
  exit_status e = 1%Z -> only_reads (E := E) (raise (A := A) e).
Proof.
  intros H w. cbn. repeat split; auto.
  - exists []. now rewrite app_nil_r.
  - intros e' [= <-]. exact H.
Qed.

Lemma only_reads_bind {A B : Type} (m : IO E A) (f : A -> IO E B) :
  only_reads m -> (forall a, only_reads (f a)) -> only_reads (bind m f).
Proof.
  intros Hm Hf w. unfold bind. specialize (Hm w).
  destruct (m w) as [[a | e] w1]; cbn [fst snd] in *.
  - destruct Hm as (H1 & H2 & (evs & H3 & H4) & _).
    destruct (Hf a w1) as (G1 & G2 & (evs' & G3 & G4) & G5).
    split; [congruence|]. split; [congruence|]. split; [|exact G5].
    exists (evs ++ evs'). rewrite G3, H3, app_assoc. split; [reflexivity|].
    rewrite forallb_app, H4, G4. reflexivity.
  - destruct Hm as (H1 & H2 & H3 & H4).
    split; [exact H1|]. split; [exact H2|]. split; [exact H3|].
    intros e' [= <-]. now apply H4.
Qed.

Lemma only_reads_for_each {X : Type} (xs : list X) (body : X -> IO E unit) :
  (forall x, In x xs -> only_reads (body x)) -> only_reads (for_each xs body).
Proof.
  induction xs as [|x xs IH]; intros H; cbn [for_each].
  - apply only_reads_pass.
  - apply only_reads_bind.
    + apply H. now left.
    + intros _. apply IH. intros y Hy. apply H. now right.
Qed.

Lemma only_reads_loadDump (path : string) : only_reads (loadDump (E := E) path).
Proof.
  intros w. rewrite loadDump_run. cbn [fst snd files server trace].
  repeat split.
  - exists [Loaded path]. auto.
  - destruct (files w path) as [text|]; [|intros e [= <-]; reflexivity].
    destruct (json_load E text); [discriminate | intros e [= <-]; reflexivity].
Qed.

Lemma only_reads_GET (url : string) : only_reads (apiJSON (E := E) url None GET false).
Proof.
  intros w. rewrite apiJSON_GET_run. cbn [fst snd files server trace].
  repeat split.
  - exists [Requested GET url None]. auto.
  - destruct (resp_ok _); [apply decode_response_status | intros e [= <-]; reflexivity].
Qed.

Lemma only_reads_check_pair (t : string) (x y : JSON) :
  only_reads (check_pair (E := E) t x y).
Proof.
  unfold check_pair.
  apply only_reads_bind; [apply only_reads_lift_res, getitem_status|]. intros a.
  apply only_reads_bind; [apply only_reads_lift_res, getitem_status|]. intros b.
  destruct (py_eq a b); [|apply only_reads_pass].
  apply only_reads_bind; [apply only_reads_lift_res, getitem_status|]. intros i.
  apply only_reads_bind; [apply only_reads_lift_res, getitem_status|]. intros n.
  apply only_reads_bind; [apply only_reads_lift_res, getitem_status|]. intros dn.
  apply only_reads_bind; [apply only_reads_lift_res, format_d_status|]. intros z.
  apply only_reads_raise. reflexivity.
Qed.

Lemma only_reads_preImportCheck (dataDir tackle2Url : string) :
  only_reads (preImportCheck (E := E) dataDir tackle2Url).
Proof.
  unfold preImportCheck. apply only_reads_for_each. intros t _.
  destruct (contains "assessment" t); [apply only_reads_pass|].
  apply only_reads_bind; [apply only_reads_GET|]. intros destCollection.
  apply only_reads_bind; [apply only_reads_loadDump|]. intros localCollection.
  apply only_reads_bind; [apply only_reads_lift_res, iter_json_status|]. intros locals.
  apply only_reads_for_each. intros importObj _.
  apply only_reads_bind; [apply only_reads_lift_res, iter_answer_status|]. intros dests.
  apply only_reads_for_each. intros destObj _.
  apply only_reads_check_pair.
Qed.

(* ===================================================================== *)
(** ** Preflight *)
(* ===================================================================== *)

(** A loop raises when one of its elements makes the body raise in every
    state the loop can reach. *)
Lemma for_each_must_raise {S X : Type} (Inv : S -> Prop) (body : X -> M S unit)
    (xs : list X) (x : X) :
  In x xs ->
  (forall y s, Inv s -> Inv (snd (body y s))) ->
  (forall s, Inv s -> exists e, fst (body x s) = Exc e) ->
  forall s, Inv s -> exists e, fst (for_each xs body s) = Exc e.
Proof.
  intros Hin Hpres Hraise. induction xs as [|y xs IH]; [destruct Hin|].
  intros s Hs. cbn [for_each]. unfold bind.
  pose proof (Hpres y s Hs) as Hs'.
  destruct (body y s) as [[[] | e] s1] eqn:Ey; cbn [fst snd] in *.
  - destruct Hin as [-> | Hin].
    + destruct (Hraise s Hs) as [e He]. rewrite Ey in He. discriminate.
    + exact (IH Hin s1 Hs').
  - eauto.
Qed.

Lemma check_pair_collide (t : string) (x y : JSON) (w : World E) :
  collide x y -> exists e, fst (check_pair t x y w) = Exc e.
Proof.
  intros (a & b & Ha & Hb & Heq).
  unfold check_pair, bind, lift_res, raise. rewrite Ha, Hb, Heq.
  destruct (getitem x "name"); [|cbn; eauto].
  destruct (getitem y "name"); [|cbn; eauto].
  destruct (format_d a); cbn; eauto.
Qed.

Lemma check_pair_differ (t : string) (x y : JSON) (w : World E) :
  differ x y -> check_pair t x y w = (Val tt, w).
Proof.
  intros (a & b & Ha & Hb & Heq).
  unfold check_pair, bind, lift_res, pass. now rewrite Ha, Hb, Heq.
Qed.

Lemma preflight_raises_on_collision (dataDir tackle2Url : string) (w : World E)
    (t : string) (locals dests : list JSON) (x y : JSON) :
  In t TYPES -> checked t = true ->
  preflight_sees dataDir tackle2Url w t locals dests ->
  In x locals -> In y dests -> collide x y ->
  exists e, fst (preImportCheck dataDir tackle2Url w) = Exc e.
Proof.
  intros Ht Hchk ((text & j & Hfile & Hload & Hlocals) & Hok & c & Hdec & Hdests)
         Hx Hy Hcol.
  unfold preImportCheck.
  apply (for_each_must_raise
           (fun s : World E => files s = files w /\ server s = server w)) with (x := t);
    [exact Ht | | | split; reflexivity].
  - intros u s [Hf Hs].
    pose proof (only_reads_preImportCheck dataDir tackle2Url) as Hro.
    assert (Hbody : only_reads
              (if contains "assessment" u then pass
               else destCollection <- apiJSON (tackle2Url ++ tackle2path u) None GET false ;;
                    localCollection <- loadDump (path_join dataDir (u ++ ".json")) ;;
                    locals0 <- lift_res (iter_json localCollection) ;;
                    for_each locals0 (fun importObj =>
                      dests0 <- lift_res (iter_answer destCollection) ;;
                      for_each dests0 (fun destObj => check_pair (E := E) u importObj destObj)))).
    { destruct (contains "assessment" u); [apply only_reads_pass|].
      apply only_reads_bind; [apply only_reads_GET|]. intros destCollection.
      apply only_reads_bind; [apply only_reads_loadDump|]. intros localCollection.
      apply only_reads_bind; [apply only_reads_lift_res, iter_json_status|]. intros l.
      apply only_reads_for_each. intros importObj _.
      apply only_reads_bind; [apply only_reads_lift_res, iter_answer_status|]. intros d.
      apply only_reads_for_each. intros destObj _.
      apply only_reads_check_pair. }
    destruct (Hbody s) as (G1 & G2 & _). cbn beta.
    split; [rewrite <- Hf; exact G1 | rewrite <- Hs; exact G2].
  - intros s [Hf Hs].
    unfold checked in Hchk. apply negb_true_iff in Hchk. rewrite Hchk.
    unfold bind at 1. rewrite apiJSON_GET_run, Hs, Hok, Hdec.
    unfold bind at 1. rewrite loadDump_run. cbn [files].
    unfold snapshot_path in Hfile. rewrite Hf, Hfile, Hload.
    unfold bind at 1. unfold lift_res at 1. rewrite Hlocals.
    apply (for_each_must_raise (fun _ : World E => True)) with (x := x);
      [exact Hx | auto | | exact I].
    intros s' _. unfold bind at 1. unfold lift_res at 1. rewrite Hdests.
    apply (for_each_must_raise (fun _ : World E => True)) with (x := y);
      [exact Hy | auto | | exact I].
    intros s'' _. now apply check_pair_collide.
Qed.

Lemma for_each_unchanged {S X : Type} (body : X -> M S unit) (xs : list X) (s : S) :
  (forall x, In x xs -> body x s = (Val tt, s)) ->
  for_each xs body s = (Val tt, s).
Proof.
  induction xs as [|x xs IH]; intros H; cbn [for_each]; [reflexivity|].
  unfold bind. rewrite (H x) by now left.
  apply IH. intros y Hy. apply H. now right.
Qed.




End EngineFacts.


Lemma import_stops_in_preflight (E : Environment) (dataDir tackle2Url : string)
    (w : World E) (e : Exn) :
  fst (preImportCheck dataDir tackle2Url w) = Exc e ->
  import_action dataDir tackle2Url false w
  = (Exc e, snd (preImportCheck dataDir tackle2Url w)).
Proof.
  intros H. unfold import_action. cbn [negb]. unfold bind.
  destruct (preImportCheck dataDir tackle2Url w) as [[[] | e'] w']; cbn in *.
  - discriminate.
  - congruence.
Qed.

Lemma check_pair_nameless (E : Environment) (t : string) (x y : JSON) (w : World E) :
  differ x y \/ (collide x y /\ getitem x "name" = Exc (KeyError "name")) ->
  check_pair t x y w = (Val tt, w)
  \/ check_pair t x y w = (Exc (KeyError "name"), w).
Proof.
  intros [Hd | [(a & b & Ha & Hb & Heq) Hn]].
  - left. now apply check_pair_differ.
  - right. unfold check_pair, bind, lift_res. now rewrite Ha, Hb, Heq, Hn.
Qed.

(** When the only entities of the snapshot that collide with the
    destination are entities without a [name], preflight stops the import
    action with [KeyError] for ['name']. *)
Lemma preflight_nameless (E : Environment) (dataDir tackle2Url : string) (w : World E) :
  (forall t, In t TYPES -> checked t = true ->
     exists locals dests,
       preflight_sees dataDir tackle2Url w t locals dests
       /\ forall x y, In x locals -> In y dests ->
            differ x y
            \/ (collide x y /\ getitem x "name" = Exc (KeyError "name"))) ->
  (exists t locals dests x y,
     In t TYPES /\ checked t = true
     /\ preflight_sees dataDir tackle2Url w t locals dests
     /\ In x locals /\ In y dests /\ collide x y) ->
  exists w',
    import_action dataDir tackle2Url false w = (Exc (KeyError "name"), w').
Proof.
  intros Hall (t & locals & dests & x & y & Ht & Hc & Hsees & Hx & Hy & Hcol).
  destruct (preflight_raises_on_collision E dataDir tackle2Url w t locals dests
              x y Ht Hc Hsees Hx Hy Hcol) as [e He].
  exists (snd (preImportCheck dataDir tackle2Url w)).
  apply import_stops_in_preflight. rewrite He. f_equal.
  assert (Htriple : triple (fun s : World E => files s = files w /\ server s = server w)
                      (preImportCheck dataDir tackle2Url)
                      (fun _ s => files s = files w /\ server s = server w)
                      (fun e _ => e = KeyError "name")).
  { unfold preImportCheck.
    apply (triple_for_each
             (fun (_ : list string) (s : World E) =>
                files s = files w /\ server s = server w)).
    intros pre u post Hu s [Hf Hs].
    destruct (contains "assessment" u) eqn:Ec; [split; assumption|].
    assert (Hin : In u TYPES) by (rewrite Hu; apply in_elt).
    destruct (Hall u Hin) as (locals' & dests' & Hsees' & Hpairs);
      [unfold checked; now rewrite Ec|].
    destruct Hsees' as ((text & j & Hfile & Hload & Hlocals) & Hok & c & Hdec & Hdests).
    unfold bind at 1. rewrite apiJSON_GET_run, Hs, Hok, Hdec.
    unfold bind at 1. rewrite loadDump_run. cbn [files].
    unfold snapshot_path in Hfile. rewrite Hf, Hfile, Hload.
    unfold bind at 1. unfold lift_res at 1. rewrite Hlocals.
    set (s1 := mkWorld E _ _ _).
    assert (Hinner : triple (fun s' => s' = s1)
                       (for_each locals' (fun importObj =>
                          dests0 <- lift_res (iter_answer c) ;;
                          for_each dests0 (fun destObj =>
                            check_pair (E := E) u importObj destObj)))
                       (fun _ s' => s' = s1)
                       (fun e _ => e = KeyError "name")).
    { apply (triple_for_each (fun _ s' => s' = s1)).
      intros p x' q Hx' s' ->.
      unfold bind at 1. unfold lift_res at 1. rewrite Hdests.
      apply (triple_for_each (fun _ s' => s' = s1)); [|reflexivity].
      intros p' y' q' Hy' s' ->.
      assert (Hinx : In x' locals') by (rewrite Hx'; apply in_elt).
      assert (Hiny : In y' dests') by (rewrite Hy'; apply in_elt).
      destruct (check_pair_nameless E u x' y' s1 (Hpairs x' y' Hinx Hiny)) as [-> | ->];
        reflexivity. }
    specialize (Hinner s1 eq_refl).
    destruct (for_each locals' _ s1) as [[[] | e'] s2].
    - subst s2 s1. cbn [files server]. split; first [assumption | reflexivity].
    - exact Hinner. }
  specialize (Htriple w (conj eq_refl eq_refl)).
  destruct (preImportCheck dataDir tackle2Url w) as [[[] | e'] w'];
    cbn [fst] in He; [discriminate|].
  injection He as <-. exact Htriple.
Qed.


Ltac sample_sees :=
  unfold preflight_sees;
  split; [eexists; eexists; split; [reflexivity | split; reflexivity]
         | split; [reflexivity | eexists; split; reflexivity]].

Ltac sample_types H Hc :=
  simpl in H;
  repeat (destruct H as [<- | H]; [try discriminate Hc |]);
  [.. | contradiction].



(* ===================================================================== *)
(** ** Import and clean: the order of the types *)
(* ===================================================================== *)


Section Traversal.

Variable E : Environment.
Variable dataDir : string.
Variable tackle2Url : string.







End Traversal.

Section CleanRun.

Variable E : Environment.
Variable dataDir : string.
Variable tackle2Url : string.

(** Every answer to a DELETE can be decoded (it has no text, or its text is
    JSON); its status is free. *)
Hypothesis delete_answers_decode :
  forall s url, exists v, decode_response E url (fst (http_delete E s url)) = Val v.



End CleanRun.

Section ImportRun.

Variable E : Environment.
Variable dataDir : string.
Variable tackle2Url : string.

(** The destination accepts every create request and its answers can be
    decoded. *)
Hypothesis creates_accepted :
  forall s url body,
    resp_ok (fst (http_post E s url body)) = true
    /\ exists v, decode_response E url (fst (http_post E s url body)) = Val v.

Lemma upload_items_run (t : string) (objs : list JSON) :
  checked t = true ->
  forall w : World E,
  exists w',
    for_each objs (fun dictObj =>
      if contains "assessment" t then pass
      else _ <- apiJSON (tackle2Url ++ tackle2path t) (Some dictObj) POST false ;;
           pass) w = (Val tt, w')
    /\ files w' = files w
    /\ trace w' = trace w ++ map (create_request tackle2Url t) objs.
Proof.
  intros Hc. unfold checked in Hc. apply negb_true_iff in Hc. rewrite Hc.
  induction objs as [|x objs IH]; intros w; cbn [for_each map].
  - exists w. rewrite app_nil_r. auto.
  - unfold bind at 1. unfold bind at 1. rewrite apiJSON_POST_run.
    destruct (creates_accepted (server w) (tackle2Url ++ tackle2path t)
                (json_dumps E x)) as [-> [v ->]].
    cbn [pass].
    match goal with |- context [for_each objs _ ?w1] => destruct (IH w1) as (w' & Hrun & Hf & Ht) end.
    exists w'. rewrite Hrun. split; [reflexivity|]. split; [exact Hf|].
    rewrite Ht. cbn [trace]. rewrite <- app_assoc. reflexivity.
Qed.

Lemma upload_types_run (objs : string -> list JSON) (types : list string) :
  forall w : World E,
  (forall t, In t types ->
     exists text j,
       files w (snapshot_path dataDir t) = Some text
       /\ json_load E text = Some j
       /\ iter_json j = Val (objs t)) ->
  exists w',
    for_each types (fun t =>
      dictCollection <- loadDump (path_join dataDir (t ++ ".json")) ;;
      items <- lift_res (iter_json dictCollection) ;;
      for_each items (fun dictObj =>
        if contains "assessment" t then pass
        else _ <- apiJSON (tackle2Url ++ tackle2path t) (Some dictObj) POST false ;;
             pass)) w = (Val tt, w')
    /\ files w' = files w
    /\ trace w' = trace w
                  ++ flat_map (fun t =>
                       Loaded (snapshot_path dataDir t)
                       :: (if checked t then map (create_request tackle2Url t) (objs t)
                           else [])) types.
Proof.
  induction types as [|t types IH]; intros w Hall; cbn [for_each flat_map].
  - exists w. rewrite app_nil_r. auto.
  - destruct (Hall t (or_introl eq_refl)) as (text & j & Hfile & Hload & Hiter).
    unfold bind at 1. unfold bind at 1. rewrite loadDump_run.
    unfold snapshot_path in Hfile. rewrite Hfile, Hload.
    unfold bind at 1. unfold lift_res at 1. rewrite Hiter.
    set (w1 := mkWorld E _ _ _).
    assert (Hitems : exists w2,
               for_each (objs t) (fun dictObj =>
                 if contains "assessment" t then pass
                 else _ <- apiJSON (tackle2Url ++ tackle2path t) (Some dictObj) POST false ;;
                      pass) w1 = (Val tt, w2)
               /\ files w2 = files w1
               /\ trace w2 = trace w1
                    ++ (if checked t then map (create_request tackle2Url t) (objs t)
                        else [])).
    { destruct (checked t) eqn:Ec.
      - now apply upload_items_run.
      - exists w1. rewrite app_nil_r. split; [|auto].
        apply for_each_unchanged. intros x _.
        unfold checked in Ec. apply negb_false_iff in Ec. now rewrite Ec. }
    destruct Hitems as (w2 & -> & Hf2 & Ht2).
    destruct (IH w2) as (w' & Hrun & Hf & Ht).
    { intros u Hu. rewrite Hf2. cbn [files w1]. apply Hall. now right. }
    exists w'. split; [exact Hrun|]. split; [now rewrite Hf, Hf2|].
    rewrite Ht, Ht2. cbn [trace w1].
    rewrite <- !app_assoc. reflexivity.
Qed.

End ImportRun.




(* ===================================================================== *)
(** ** Snapshot files: store, then load *)
(* ===================================================================== *)

Lemma append_assoc_str (a b c : string) : ((a ++ b) ++ c)%string = (a ++ (b ++ c))%string.
Proof.
  induction a as [|x a IH]; cbn; [reflexivity | now rewrite IH].
Qed.

Lemma prefix_slash_append (b : string) :
  String.prefix "/" (b ++ ".json") = String.prefix "/" b.
Proof.
  destruct b as [|c b]; [reflexivity|]. cbn [append String.prefix].
  destruct (ascii_dec "/" c); [|reflexivity].
  destruct b; reflexivity.
Qed.

(** [saveJSON] adds ".json" to the path [store] joins; the loaders join the
    name that already has it.  Both are the same path. *)
Lemma saved_path (dataDir t : string) :
  (path_join dataDir t ++ ".json")%string = snapshot_path dataDir t.
Proof.
  unfold snapshot_path, path_join. rewrite prefix_slash_append.
  destruct (String.prefix "/" t); [reflexivity|].
  destruct (String.eqb dataDir "" || ends_with_slash dataDir)%bool.
  - apply append_assoc_str.
  - now rewrite !append_assoc_str.
Qed.

Lemma snapshot_path_relative (dataDir t : string) :
  String.prefix "/" t = false ->
  snapshot_path dataDir t = (dir_prefix dataDir ++ (t ++ ".json"))%string.
Proof.
  intros H. unfold snapshot_path, path_join, dir_prefix.
  rewrite prefix_slash_append, H.
  destruct (String.eqb dataDir "" || ends_with_slash dataDir)%bool; [reflexivity|].
  now rewrite append_assoc_str.
Qed.

Lemma eqb_append_prefix (p x y : string) :
  String.eqb (p ++ x) (p ++ y) = String.eqb x y.
Proof.
  induction p as [|c p IH]; cbn; [reflexivity|].
  now rewrite Ascii.eqb_refl.
Qed.

Lemma TYPES_relative : forall t, In t TYPES -> String.prefix "/" t = false.
Proof.
  intros t Ht. simpl in Ht.
  repeat (destruct Ht as [<- | Ht]; [reflexivity|]). contradiction.
Qed.

Lemma TYPES_files_distinct :
  forall t t', In t TYPES -> In t' TYPES -> t <> t' ->
    String.eqb (t ++ ".json") (t' ++ ".json") = false.
Proof.
  assert (H : forallb (fun t => forallb (fun t' =>
                 String.eqb t t' || negb (String.eqb (t ++ ".json") (t' ++ ".json")))
                 TYPES) TYPES = true) by (vm_compute; reflexivity).
  intros t t' Ht Ht' Hne.
  rewrite forallb_forall in H. specialize (H t Ht).
  rewrite forallb_forall in H. specialize (H t' Ht').
  apply orb_true_iff in H. destruct H as [H | H].
  - apply String.eqb_eq in H. contradiction.
  - now apply negb_true_iff in H.
Qed.

(** Two types of [TYPES] have different snapshot files. *)
Lemma snapshot_paths_distinct (dataDir t t' : string) :
  In t TYPES -> In t' TYPES -> t <> t' ->
  String.eqb (snapshot_path dataDir t) (snapshot_path dataDir t') = false.
Proof.
  intros Ht Ht' Hne.
  rewrite !snapshot_path_relative by now apply TYPES_relative.
  rewrite eqb_append_prefix. now apply TYPES_files_distinct.
Qed.

Lemma NoDup_TYPES : NoDup TYPES.
Proof.
  unfold TYPES. repeat constructor; simpl; intuition discriminate.
Qed.

(** *** Encoding of instances *)

Lemma all_some_map_Some {A B : Type} (f : A -> B) (l : list A) :
  all_some (map (fun x => Some (f x)) l) = Some (map f l).
Proof.
  induction l as [|x l IH]; cbn; [reflexivity | now rewrite IH].
Qed.

Lemma object_json_flat (fuel : nat) (h : list Tackle2Object) (a : nat) :
  flat (nth a h []) ->
  object_json (S fuel) h a = Some (vars_json (nth a h [])).
Proof.
  intros H. cbn [object_json]. unfold vars_json.
  induction H as [|[k v] o [j Hj] _ IH]; cbn in *; [reflexivity|].
  subst v. cbn.
  destruct (all_some _) as [l|]; [|discriminate].
  injection IH as ->. reflexivity.
Qed.

Lemma collection_json_flat (self : Tackle12Import) (coll : list nat) :
  Forall (fun a => flat (deref self a)) coll ->
  collection_json self coll = Some (JList (map (fun a => vars_json (deref self a)) coll)).
Proof.
  intros H. unfold collection_json.
  replace (map (object_json (S (List.length (heap self))) (heap self)) coll)
    with (map (fun a => Some (vars_json (deref self a))) coll).
  - now rewrite all_some_map_Some.
  - apply map_ext_in. intros a Ha. rewrite Forall_forall in H.
    symmetry. apply object_json_flat. exact (H a Ha).
Qed.

Section StoreLoad.

Variable E : Environment.

(** What [json.load] reads from a text [json.dumps] wrote is the tree that
    was written. *)
Hypothesis json_round_trip : forall j, json_load E (json_dumps E j) = Some j.

Variable dataDir : string.

Lemma saveJSON_run (path : string) (self : Tackle12Import) (coll : list nat)
    (j : JSON) (w : World E) :
  collection_json self coll = Some j ->
  saveJSON path self coll w
  = (Val tt,
     mkWorld E
       (update_map (update_map (files w) (path ++ ".json") (Some (empty_text E)))
                   (path ++ ".json") (Some (json_dumps E j)))
       (server w) (trace w)).
Proof.
  intros H. unfold saveJSON, bind, write_file, modify. cbn. now rewrite H.
Qed.

Lemma save_then_load (path : string) (self : Tackle12Import) (coll : list nat)
    (j : JSON) (w : World E) :
  collection_json self coll = Some j ->
  fst ((saveJSON path self coll ;;; loadDump (path ++ ".json")) w) = Val j.
Proof.
  intros H. unfold bind. rewrite (saveJSON_run path self coll j w H).
  rewrite loadDump_run. cbn [files fst]. rewrite update_map_same.
  now rewrite json_round_trip.
Qed.

Lemma store_run_from (self : Tackle12Import) (types : list string) :
  NoDup types ->
  (forall t, In t types -> In t TYPES) ->
  (forall t, In t types -> collection_json self (data self t) <> None) ->
  forall w : World E,
  exists w',
    for_each types (fun t => saveJSON (path_join dataDir t) self (data self t)) w
    = (Val tt, w')
    /\ server w' = server w
    /\ trace w' = trace w
    /\ (forall t, In t types ->
          exists j, collection_json self (data self t) = Some j
                    /\ files w' (snapshot_path dataDir t) = Some (json_dumps E j))
    /\ (forall t, In t TYPES -> ~ In t types ->
          files w' (snapshot_path dataDir t) = files w (snapshot_path dataDir t)).
Proof.
  induction types as [|t types IH]; intros Hnd Hsub Hser w; cbn [for_each].
  - exists w. repeat split; auto. intros t [].
  - inversion Hnd as [|? ? Hnotin Hnd']; subst.
    destruct (collection_json self (data self t)) as [j|] eqn:Ej;
      [|exfalso; apply (Hser t); [now left | exact Ej]].
    unfold bind. rewrite (saveJSON_run _ self _ j w Ej). rewrite saved_path.
    set (w1 := mkWorld E _ _ _).
    destruct (IH Hnd' (fun u Hu => Hsub u (or_intror Hu))
                 (fun u Hu => Hser u (or_intror Hu)) w1)
      as (w' & Hrun & Hs & Ht & Hin & Hout).
    exists w'. split; [exact Hrun|]. split; [exact Hs|]. split; [exact Ht|]. split.
    + intros u [<- | Hu].
      * exists j. split; [exact Ej|].
        rewrite Hout; [| apply Hsub; now left | exact Hnotin].
        cbn [files w1]. apply update_map_same.
      * apply Hin. exact Hu.
    + intros u Hu Hnot. rewrite Hout; [| exact Hu | intros H; apply Hnot; now right].
      cbn [files w1].
      assert (Hne : u <> t) by (intros ->; apply Hnot; now left).
      unfold update_map.
      rewrite (snapshot_paths_distinct dataDir u t Hu (Hsub t (or_introl eq_refl)) Hne).
      reflexivity.
Qed.

End StoreLoad.

Lemma ensureDataDir_run (E : Environment) (dataDir : string) (w : World E) :
  usable_dir E dataDir -> ensureDataDir dataDir w = (Val tt, w).
Proof.
  intros [H | H]; unfold ensureDataDir.
  - rewrite H. reflexivity.
  - destruct (os_path_isdir E dataDir); [reflexivity|]. rewrite H. reflexivity.
Qed.

Lemma ensureDataDir_fails (E : Environment) (dataDir : string) (w : World E) (e : Exn) :
  os_path_isdir E dataDir = false -> os_mkdir E dataDir = Some e ->
  ensureDataDir dataDir w = (Exc e, w).
Proof.
  intros H1 H2. unfold ensureDataDir. rewrite H1, H2. reflexivity.
Qed.

Lemma store_run (E : Environment) (dataDir : string) (self : Tackle12Import)
    (w : World E) :
  usable_dir E dataDir ->
  store dataDir self w
  = for_each TYPES (fun t => saveJSON (path_join dataDir t) self (data self t)) w.
Proof.
  intros H. unfold store. unfold bind at 1. rewrite (ensureDataDir_run E dataDir w H).
  reflexivity.
Qed.

(** *** What the encoder writes *)

Lemma all_some_map_Forall2 {A B : Type} (f : A -> option B) (l : list A) :
  forall ys, all_some (map f l) = Some ys -> Forall2 (fun x y => f x = Some y) l ys.
Proof.
  induction l as [|x l IH]; intros ys H; cbn in H.
  - injection H as <-. constructor.
  - destruct (f x) as [y|] eqn:Ex; [|discriminate].
    destruct (all_some (map f l)) as [ys'|]; [|discriminate].
    injection H as <-. constructor; [exact Ex | apply IH; reflexivity].
Qed.

Lemma Forall2_weaken {A B : Type} (R R' : A -> B -> Prop) (l : list A) (l' : list B) :
  (forall x y, R x y -> R' x y) -> Forall2 R l l' -> Forall2 R' l l'.
Proof. intros H F. induction F; constructor; auto. Qed.

(** The tree the encoder gives for an instance is the one that stands for
    it, nested instances included. *)
Lemma object_json_written (h : list Tackle2Object) :
  forall (fuel a : nat) (j : JSON),
    object_json fuel h a = Some j -> written h (Obj a) j.
Proof.
  induction fuel as [|fuel IH]; intros a j H; [discriminate|].
  cbn [object_json] in H.
  destruct (all_some _) as [kvs|] eqn:E; [|discriminate].
  injection H as <-. apply written_obj.
  apply all_some_map_Forall2 in E.
  eapply Forall2_weaken; [|exact E].
  intros [k v] [k' j'] Hkv. cbn [fst snd] in *.
  destruct v as [j0 | b | l]; cbn in Hkv.
  - injection Hkv as <- <-. split; [reflexivity | constructor].
  - destruct (object_json fuel h b) as [jb|] eqn:Eb; [|discriminate].
    injection Hkv as <- <-. split; [reflexivity | now apply IH].
  - destruct (all_some (map (object_json fuel h) l)) as [js|] eqn:El; [|discriminate].
    injection Hkv as <- <-. split; [reflexivity|]. apply written_list.
    apply all_some_map_Forall2 in El.
    eapply Forall2_weaken; [|exact El]. intros x y. apply IH.
Qed.

Lemma collection_json_written (self : Tackle12Import) (coll : list nat) (j : JSON) :
  collection_json self coll = Some j ->
  exists js, j = JList js
             /\ Forall2 (fun a x => written (heap self) (Obj a) x) coll js.
Proof.
  unfold collection_json. intros H.
  destruct (all_some _) as [js|] eqn:E; [|discriminate].
  injection H as <-. exists js. split; [reflexivity|].
  apply all_some_map_Forall2 in E.
  eapply Forall2_weaken; [|exact E]. intros a x. apply object_json_written.
Qed.

(** C7.  Let [json.load] read back what [json.dumps] writes, let the data
    directory be a directory or one [os.mkdir] makes, and let the collection
    of every type be one [json.dumps] encodes (no circular reference).
    Then [store] returns, and loading the snapshot file of a type yields a
    list with one tree per entity of the collection, in order, each the
    tree that stands for the entity: the dictionary of its attributes under
    their names, JSON data as it is, a nested instance again as the
    dictionary of its attributes and a list of instances as the list of
    theirs.  For entities that hold JSON data only, this is the list of
    their attribute dictionaries as they are. *)
Theorem snapshot_round_trip :
  forall (E : Environment),
    (forall j, json_load E (json_dumps E j) = Some j) ->
    forall (dataDir : string) (self : Tackle12Import) (w : World E),
      usable_dir E dataDir ->
      (forall t, In t TYPES -> collection_json self (data self t) <> None) ->
      exists w',
        store dataDir self w = (Val tt, w')
        /\ (forall t, In t TYPES ->
              exists js,
                fst (loadDump (snapshot_path dataDir t) w') = Val (JList js)
                /\ Forall2 (fun a j => written (heap self) (Obj a) j)
                           (data self t) js)
        /\ (forall t, In t TYPES ->
              Forall (fun a => flat (deref self a)) (data self t) ->
              fst (loadDump (snapshot_path dataDir t) w')
              = Val (JList (map (fun a => vars_json (deref self a)) (data self t)))).
Proof.
  intros E Hrt dataDir self w Hdir Hser.
  destruct (store_run_from E dataDir self TYPES NoDup_TYPES (fun t H => H) Hser w)
    as (w' & Hrun & _ & _ & Hin & _).
  assert (Hload : forall t, In t TYPES ->
            exists j, collection_json self (data self t) = Some j
                      /\ fst (loadDump (snapshot_path dataDir t) w') = Val j).
  { intros t Ht. destruct (Hin t Ht) as (j & Hj & Hfile).
    exists j. split; [exact Hj|].
    rewrite loadDump_run. cbn [fst]. now rewrite Hfile, Hrt. }
  exists w'. split; [rewrite (store_run E dataDir self w Hdir); exact Hrun|]. split.
  - intros t Ht. destruct (Hload t Ht) as (j & Hj & ->).
    destruct (collection_json_written self _ j Hj) as (js & -> & Hjs).
    exists js. split; [reflexivity | exact Hjs].
  - intros t Ht Hflat. destruct (Hload t Ht) as (j & Hj & ->).
    rewrite (collection_json_flat self _ Hflat) in Hj. now injection Hj as <-.
Qed.

Lemma snapshot_round_trip_witness :
  exists w',
    store "data" sample_exported sample_world_empty = (Val tt, w')
    /\ (forall t, In t TYPES ->
          exists js,
            fst (loadDump (snapshot_path "data" t) w') = Val (JList js)
            /\ Forall2 (fun a j => written (heap sample_exported) (Obj a) j)
                       (data sample_exported t) js)
    /\ (forall t, In t TYPES ->
          Forall (fun a => flat (deref sample_exported a)) (data sample_exported t) ->
          fst (loadDump (snapshot_path "data" t) w')
          = Val (JList (map (fun a => vars_json (deref sample_exported a))
                            (data sample_exported t)))).
Proof.
  apply (snapshot_round_trip sample_environment).
  - intros j. reflexivity.
  - right. reflexivity.
  - intros t Ht. simpl in Ht.
    repeat (destruct Ht as [<- | Ht]; [vm_compute; discriminate |]).
    contradiction.
Defined.

(** The import submits the elements of the stored lists as they are:
    against a destination that accepts every create request, the trace of
    [uploadTackle2] over the files [store] wrote is, type by type, the load
    of the file and one create request per element of the collection. *)
Lemma import_submits_snapshot (E : Environment) (dataDir tackle2Url : string)
    (self : Tackle12Import) (objs : string -> list JSON) (w w' : World E) :
  (forall j, json_load E (json_dumps E j) = Some j) ->
  (forall s url body,
     resp_ok (fst (http_post E s url body)) = true
     /\ exists v, decode_response E url (fst (http_post E s url body)) = Val v) ->
  usable_dir E dataDir ->
  (forall t, In t TYPES -> collection_json self (data self t) = Some (JList (objs t))) ->
  store dataDir self w = (Val tt, w') ->
  exists w'',
    uploadTackle2 dataDir tackle2Url w' = (Val tt, w'')
    /\ trace w'' = trace w' ++ import_trace dataDir tackle2Url objs.
Proof.
  intros Hrt Hpost Hdir Hobjs Hstore.
  assert (Hser : forall t, In t TYPES -> collection_json self (data self t) <> None).
  { intros t Ht. rewrite (Hobjs t Ht). discriminate. }
  destruct (store_run_from E dataDir self TYPES NoDup_TYPES (fun t H => H) Hser w)
    as (w1 & Hrun & _ & _ & Hin & _).
  rewrite (store_run E dataDir self w Hdir), Hrun in Hstore. injection Hstore as <-.
  destruct (upload_types_run E dataDir tackle2Url Hpost objs TYPES w1)
    as (w'' & Hup & _ & Htr).
  - intros t Ht. destruct (Hin t Ht) as (j & Hj & Hfile).
    rewrite (Hobjs t Ht) in Hj. injection Hj as <-.
    exists (json_dumps E (JList (objs t))), (JList (objs t)).
    split; [exact Hfile|]. split; [apply Hrt | reflexivity].
  - exists w''. split; [exact Hup | exact Htr].
Qed.

(** The sample export, stored and imported into the sample destination. *)
Example import_submits_sample :
  let w' := snd (store "data" sample_exported sample_world_empty) in
  exists w'',
    uploadTackle2 "data" "http://hub" w' = (Val tt, w'')
    /\ trace w'' = trace w' ++ import_trace "data" "http://hub" sample_objs.
Proof.
  apply (import_submits_snapshot sample_environment "data" "http://hub"
           sample_exported sample_objs sample_world_empty).
  - intros j. reflexivity.
  - intros s url body. split; [reflexivity | eexists; reflexivity].
  - right. reflexivity.
  - intros t Ht. simpl in Ht.
    repeat (destruct Ht as [<- | Ht]; [vm_compute; reflexivity |]).
    contradiction.
  - rewrite (surjective_pairing (store "data" sample_exported sample_world_empty)) at 1.
    f_equal.
Qed.

(* ===================================================================== *)
(** ** Dependencies *)
(* ===================================================================== *)

Lemma add_heap (type : string) (item : nat) (self : Tackle12Import) :
  heap (snd (add type item self)) = heap self.
Proof.
  unfold add. destruct (add_scan _ _) as [[|] | e]; reflexivity.
Qed.

Lemma dependency_object_flat (dep1 : Dependency1) : flat (dependency_object dep1).
Proof.
  unfold flat, dependency_object. cbn. repeat constructor; eexists; reflexivity.
Qed.

(** C9.  (1) The object built for a dependency holds, under [to] and
    [from], the id and the name of the payload's endpoints as they come, and
    that object is what [dump_dependency] creates whatever the instance
    holds (no index is consulted).  (2) When [json.load] reads back what
    [json.dumps] writes, saving a collection of such objects and loading the
    file yields, for every dependency, a dictionary with these same [to]
    and [from]. *)
Theorem dependency_endpoints_verbatim :
  (forall (dep1 : Dependency1),
     dict_get "to" (dependency_object dep1)
     = Some (Json (JDict [("id", ep1_id (dep1_to dep1));
                          ("name", ep1_name (dep1_to dep1))]))
     /\ dict_get "from" (dependency_object dep1)
        = Some (Json (JDict [("id", ep1_id (dep1_from dep1));
                             ("name", ep1_name (dep1_from dep1))]))
     /\ forall self : Tackle12Import,
          heap (snd (dump_dependency dep1 self))
          = heap self ++ [dependency_object dep1])
  /\
  (forall (E : Environment),
     (forall j, json_load E (json_dumps E j) = Some j) ->
     forall (self : Tackle12Import) (coll : list nat) (deps : list Dependency1)
            (path : string) (w : World E),
       map (deref self) coll = map dependency_object deps ->
       exists loaded,
         fst ((saveJSON path self coll ;;; loadDump (path ++ ".json")) w)
         = Val (JList loaded)
         /\ Forall2 (fun (j : JSON) (dep1 : Dependency1) =>
                       getitem j "to"
                       = Val (JDict [("id", ep1_id (dep1_to dep1));
                                     ("name", ep1_name (dep1_to dep1))])
                       /\ getitem j "from"
                          = Val (JDict [("id", ep1_id (dep1_from dep1));
                                        ("name", ep1_name (dep1_from dep1))]))
                    loaded deps).
Proof.
  split.
  - intros dep1. split; [reflexivity|]. split; [reflexivity|].
    intros self. unfold dump_dependency, bind, new_object.
    now rewrite add_heap.
  - intros E Hrt self coll deps path w Hmap.
    exists (map (fun d => vars_json (dependency_object d)) deps). split.
    + apply save_then_load; [exact Hrt|].
      rewrite collection_json_flat.
      * rewrite <- (map_map (deref self) vars_json), Hmap, map_map. reflexivity.
      * rewrite <- Forall_map with (f := deref self) (P := flat), Hmap.
        rewrite Forall_map. apply Forall_forall. intros d _.
        apply dependency_object_flat.
    + clear. induction deps as [|d deps IH]; cbn [map]; constructor.
      * split; reflexivity.
      * exact IH.
Qed.

Lemma dependency_endpoints_verbatim_witness :
  exists loaded,
    fst ((saveJSON "data/dependencies" sample_exported
                   (data sample_exported "dependencies") ;;;
          loadDump ("data/dependencies" ++ ".json")) sample_world_empty)
    = Val (JList loaded)
    /\ Forall2 (fun (j : JSON) (dep1 : Dependency1) =>
                  getitem j "to"
                  = Val (JDict [("id", ep1_id (dep1_to dep1));
                                ("name", ep1_name (dep1_to dep1))])
                  /\ getitem j "from"
                     = Val (JDict [("id", ep1_id (dep1_from dep1));
                                   ("name", ep1_name (dep1_from dep1))]))
               loaded [sample_dependency].
Proof.
  apply (proj2 dependency_endpoints_verbatim sample_environment).
  - intros j. reflexivity.
  - reflexivity.
Defined.

(** The scenario of the specification: from = {id: 10, name: "A"},
    to = {id: 20, name: "B"}, exported, stored and loaded. *)
Example dependency_scenario :
  fst ((store "data" sample_exported ;;;
        loadDump (snapshot_path "data" "dependencies")) sample_world_empty)
  = Val (JList [JDict [("id", JInt 8); ("createUser", JStr "admin");
                       ("updateUser", JStr "admin");
                       ("to", JDict [("id", JInt 20); ("name", JStr "B")]);
                       ("from", JDict [("id", JInt 10); ("name", JStr "A")])]]).
Proof.
  vm_compute. reflexivity.
Qed.

(** Export of the sample source, then import into a destination without
    collisions: the create requests follow [TYPES], the stored tag first,
    then the tag type it embeds. *)
Example export_then_import :
  let w1 := snd (export_action "data" false sample_seeds sample_source
                   sample_world_empty) in
  fst (export_action "data" false sample_seeds sample_source sample_world_empty)
  = Val tt
  /\ fst (import_action "data" "http://hub" false w1) = Val tt
  /\ created_urls (trace (snd (import_action "data" "http://hub" false w1)))
     = ["http://hub/hub/tags"; "http://hub/hub/tagtypes";
        "http://hub/hub/applications"; "http://hub/hub/dependencies"].
Proof.
  vm_compute. repeat split; reflexivity.
Qed.

(* ===================================================================== *)
(** * Further properties of the engine *)
(* ===================================================================== *)

(* ===================================================================== *)
(** ** What import and clean do to the outside *)
(* ===================================================================== *)

Section Emits.

Variable E : Environment.
Variable allowed : Event -> bool.

Lemma emits_pass : emits (E := E) allowed pass.
Proof.
  intros w. cbn. split; [reflexivity|]. exists []. now rewrite app_nil_r.
Qed.

Lemma emits_lift_res {A : Type} (r : Res A) : emits (E := E) allowed (lift_res r).
Proof.
  intros w. cbn. split; [reflexivity|]. exists []. now rewrite app_nil_r.
Qed.

Lemma emits_bind {A B : Type} (m : IO E A) (f : A -> IO E B) :
  emits allowed m -> (forall a, emits allowed (f a)) -> emits allowed (bind m f).
Proof.
  intros Hm Hf w. unfold bind. specialize (Hm w).
  destruct (m w) as [[a | e] w1]; cbn [fst snd] in *; [|exact Hm].
  destruct Hm as (H1 & evs & H3 & H4).
  destruct (Hf a w1) as (G1 & evs' & G3 & G4).
  split; [congruence|].
  exists (evs ++ evs'). rewrite G3, H3, app_assoc. split; [reflexivity|].
  now rewrite forallb_app, H4, G4.
Qed.

Lemma emits_for_each {X : Type} (xs : list X) (body : X -> IO E unit) :
  (forall x, In x xs -> emits allowed (body x)) -> emits allowed (for_each xs body).
Proof.
  induction xs as [|x xs IH]; intros H; cbn [for_each].
  - apply emits_pass.
  - apply emits_bind.
    + apply H. now left.
    + intros _. apply IH. intros y Hy. apply H. now right.
Qed.

Lemma emits_loadDump (path : string) :
  allowed (Loaded path) = true -> emits allowed (loadDump (E := E) path).
Proof.
  intros H w. rewrite loadDump_run. cbn [snd files trace].
  split; [reflexivity|]. exists [Loaded path]. cbn. now rewrite H.
Qed.

Lemma emits_apiJSON (url : string) (data : option JSON) (method : Method)
    (ignoreErrors : bool) :
  allowed (Requested method url data) = true ->
  emits allowed (apiJSON (E := E) url data method ignoreErrors).
Proof.
  intros H w. unfold apiJSON, bind, request, bind, log, modify, lift_res, pass, raise.
  destruct method; cbn; destruct (resp_ok _); cbn; destruct ignoreErrors; cbn;
    (split; [reflexivity|]; eexists; split; [reflexivity|]; cbn; now rewrite H).
Qed.

End Emits.

Lemma existsb_TYPES (f : string -> bool) (t : string) :
  In t TYPES -> f t = true -> existsb f TYPES = true.
Proof.
  intros Ht Hf. apply existsb_exists. now exists t.
Qed.

Lemma checked_hub_path (t : string) :
  contains "assessment" t = false -> tackle2path t = ("/hub/" ++ t)%string.
Proof.
  intros H. unfold tackle2path. now rewrite H.
Qed.

Lemma prefix_refl_append (a b : string) : String.prefix a (a ++ b) = true.
Proof.
  induction a as [|c a IH]; cbn.
  - now destruct b.
  - rewrite IH. now destruct (Ascii.ascii_dec c c).
Qed.

Lemma prefix_append_cancel (a b c : string) :
  String.prefix (a ++ b) (a ++ c) = String.prefix b c.
Proof.
  induction a as [|x a IH]; cbn; [reflexivity|].
  now destruct (Ascii.ascii_dec x x).
Qed.

Lemma snapshot_load_TYPES (dataDir t : string) :
  In t TYPES -> snapshot_load dataDir (Loaded (path_join dataDir (t ++ ".json"))) = true.
Proof.
  intros Ht. unfold snapshot_load. apply (existsb_TYPES _ t Ht).
  unfold snapshot_path. apply String.eqb_refl.
Qed.

(** X1.  Whatever the snapshot files hold and whatever the destination
    answers, and whether it returns or not, an import run leaves the files
    as they are and does nothing but load snapshot files of the [TYPES] and
    send create requests, each to the hub collection of a type without
    "assessment" in its name: it never reads from or deletes at the
    destination and never addresses Pathfinder. *)
Theorem import_only_creates :
  forall (E : Environment) (dataDir tackle2Url : string) (w : World E),
    files (snd (uploadTackle2 dataDir tackle2Url w)) = files w
    /\ exists evs,
         trace (snd (uploadTackle2 dataDir tackle2Url w)) = trace w ++ evs
         /\ forallb (import_event dataDir tackle2Url) evs = true.
Proof.
  intros E dataDir tackle2Url.
  change (emits (import_event dataDir tackle2Url) (uploadTackle2 (E := E) dataDir tackle2Url)).
  unfold uploadTackle2. apply emits_for_each. intros t Ht.
  apply emits_bind.
  { apply emits_loadDump. now apply snapshot_load_TYPES. }
  intros dictCollection. apply emits_bind; [apply emits_lift_res|].
  intros items. apply emits_for_each. intros dictObj _.
  destruct (contains "assessment" t) eqn:Ec; [apply emits_pass|].
  apply emits_bind; [|intros; apply emits_pass].
  apply emits_apiJSON. unfold import_event. apply (existsb_TYPES _ t Ht).
  unfold checked. rewrite Ec, (checked_hub_path t Ec). cbn [negb andb].
  apply String.eqb_refl.
Qed.

(** X2.  Whatever the snapshot files hold and whatever the destination
    answers, and whether it returns or not, a clean run leaves the files as
    they are and does nothing but load snapshot files of the [TYPES] and
    send delete requests for single entities, each under the hub collection
    of a type without "assessment" in its name: it never creates anything
    and never addresses Pathfinder. *)
Theorem clean_only_deletes :
  forall (E : Environment) (dataDir tackle2Url : string) (w : World E),
    files (snd (cleanTackle2 dataDir tackle2Url w)) = files w
    /\ exists evs,
         trace (snd (cleanTackle2 dataDir tackle2Url w)) = trace w ++ evs
         /\ forallb (clean_event dataDir tackle2Url) evs = true.
Proof.
  intros E dataDir tackle2Url.
  change (emits (clean_event dataDir tackle2Url) (cleanTackle2 (E := E) dataDir tackle2Url)).
  unfold cleanTackle2. apply emits_for_each. intros t Ht. apply in_rev in Ht.
  apply emits_bind.
  { apply emits_loadDump. now apply snapshot_load_TYPES. }
  intros dictCollection. apply emits_bind; [apply emits_lift_res|].
  intros items. apply emits_for_each. intros dictObj _.
  destruct (contains "assessment" t) eqn:Ec; [apply emits_pass|].
  apply emits_bind; [apply emits_lift_res|]. intros _.
  apply emits_bind; [apply emits_lift_res|]. intros i.
  apply emits_bind; [apply emits_lift_res|]. intros n.
  apply emits_bind; [|intros; apply emits_pass].
  apply emits_apiJSON. unfold clean_event. apply (existsb_TYPES _ t Ht).
  unfold checked. rewrite Ec. cbn [negb andb].
  rewrite prefix_append_cancel.
  change (String.prefix ("/hub/" ++ (t ++ "/")) ("/hub/" ++ (t ++ ("/" ++ decimal n))) = true).
  rewrite !prefix_append_cancel. apply prefix_refl_append.
Qed.

(* ===================================================================== *)
(** ** Every snapshot file is needed *)
(* ===================================================================== *)

Lemma snapshot_present_files (E : Environment) (dataDir : string) (w w' : World E)
    (t : string) :
  files w' = files w -> snapshot_present dataDir w' t -> snapshot_present dataDir w t.
Proof.
  intros Hf (text & j & items & H1 & H2 & H3).
  exists text, j, items. rewrite <- Hf. auto.
Qed.

(** A loop over types that loads the snapshot of each type, runs over its
    elements and keeps the files returns only when every snapshot is there. *)
Lemma traversal_needs_snapshots (E : Environment) (dataDir : string)
    (inner : string -> list JSON -> IO E unit) (types : list string) :
  (forall t items w, files (snd (inner t items w)) = files w) ->
  forall w w',
    for_each types (fun t =>
      dictCollection <- loadDump (path_join dataDir (t ++ ".json")) ;;
      items <- lift_res (iter_json dictCollection) ;;
      inner t items) w = (Val tt, w') ->
    forall t, In t types -> snapshot_present dataDir w t.
Proof.
  intros Hinner. induction types as [|u types IH]; intros w w' Hrun t Ht;
    [contradiction|].
  cbn [for_each] in Hrun. unfold bind at 1 in Hrun. unfold bind at 1 in Hrun.
  rewrite loadDump_run in Hrun.
  destruct (files w (path_join dataDir (u ++ ".json"))) as [text|] eqn:Hfile;
    [|discriminate].
  destruct (json_load E text) as [j|] eqn:Hload; [|discriminate].
  unfold bind at 1 in Hrun. unfold lift_res at 1 in Hrun.
  destruct (iter_json j) as [items|e] eqn:Hiter; [|discriminate].
  set (w1 := mkWorld E _ _ _) in Hrun.
  pose proof (Hinner u items w1) as Hf.
  destruct (inner u items w1) as [[[] | e] w2]; [|discriminate].
  cbn [snd] in Hf. destruct Ht as [<- | Ht].
  - now exists text, j, items.
  - apply (snapshot_present_files E dataDir w w2); [now rewrite Hf|].
    now apply (IH w2 w').
Qed.

Lemma emits_all (E : Environment) {A : Type} (m : IO E A) :
  emits (fun _ => true) m -> forall w, files (snd (m w)) = files w.
Proof. intros H w. now destruct (H w). Qed.

(** X3.  An import run and a clean run return only when the snapshot file
    of every one of the [TYPES] exists, decodes and holds something
    iterable: also those of the assessment types, whose entities neither
    run touches, and those of the types the export leaves empty. *)
Theorem runs_need_every_snapshot :
  forall (E : Environment) (dataDir tackle2Url : string) (w : World E),
    (forall w', uploadTackle2 dataDir tackle2Url w = (Val tt, w') ->
       forall t, In t TYPES -> snapshot_present dataDir w t)
    /\ (forall w', cleanTackle2 dataDir tackle2Url w = (Val tt, w') ->
          forall t, In t TYPES -> snapshot_present dataDir w t).
Proof.
  intros E dataDir tackle2Url w. split; intros w' Hrun t Ht.
  - unfold uploadTackle2 in Hrun.
    refine (traversal_needs_snapshots E dataDir
              (fun t items => for_each items (fun dictObj =>
                 if contains "assessment" t then pass
                 else _ <- apiJSON (tackle2Url ++ tackle2path t) (Some dictObj) POST false ;;
                      pass)) TYPES _ w w' Hrun t Ht).
    intros u items. apply emits_all. apply emits_for_each. intros dictObj _.
    destruct (contains "assessment" u); [apply emits_pass|].
    apply emits_bind; [now apply emits_apiJSON | intros; apply emits_pass].
  - unfold cleanTackle2 in Hrun.
    refine (traversal_needs_snapshots E dataDir
              (fun t items => for_each items (fun dictObj =>
                 if contains "assessment" t then pass
                 else _ <- lift_res (getitem dictObj "id") ;;
                      i <- lift_res (getitem dictObj "id") ;;
                      n <- lift_res (format_d i) ;;
                      _ <- apiJSON (tackle2Url ++ "/hub/" ++ t ++ "/" ++ decimal n)
                             None DELETE true ;;
                      pass)) (rev TYPES) _ w w' Hrun t _); [|apply in_rev in Ht; exact Ht].
    intros u items. apply emits_all. apply emits_for_each. intros dictObj _.
    destruct (contains "assessment" u); [apply emits_pass|].
    apply emits_bind; [apply emits_lift_res|]. intros _.
    apply emits_bind; [apply emits_lift_res|]. intros i.
    apply emits_bind; [apply emits_lift_res|]. intros n.
    apply emits_bind; [now apply emits_apiJSON | intros; apply emits_pass].
Qed.

Lemma runs_need_every_snapshot_witness :
  (forall t, In t TYPES -> snapshot_present "data" sample_world_clear t)
  /\ (forall t, In t TYPES -> snapshot_present "data" sample_world_clear t).
Proof.
  split.
  - apply (proj1 (runs_need_every_snapshot sample_environment "data" "http://hub"
                    sample_world_clear)
             (snd (uploadTackle2 "data" "http://hub" sample_world_clear))).
    rewrite (surjective_pairing (uploadTackle2 "data" "http://hub" sample_world_clear)) at 1.
    f_equal.
  - apply (proj2 (runs_need_every_snapshot sample_environment "data" "http://hub"
                    sample_world_clear)
             (snd (cleanTackle2 "data" "http://hub" sample_world_clear))).
    rewrite (surjective_pairing (cleanTackle2 "data" "http://hub" sample_world_clear)) at 1.
    f_equal.
Defined.

(* ===================================================================== *)
(** ** Where an import run stops *)
(* ===================================================================== *)

Lemma getitem_data_error (d : JSON) (k : string) (e : Exn) :
  getitem d k = Exc e -> data_error e.
Proof.
  destruct d; cbn; try (intros [= <-]; exact I).
  destruct (dict_get k d); [discriminate | intros [= <-]; exact I].
Qed.

Lemma iter_json_data_error (j : JSON) (e : Exn) :
  iter_json j = Exc e -> data_error e.
Proof.
  destruct j; cbn; try discriminate; intros [= <-]; exact I.
Qed.

Lemma format_d_data_error (v : JSON) (e : Exn) :
  format_d v = Exc e -> data_error e.
Proof.
  destruct v; cbn; try discriminate; intros [= <-]; exact I.
Qed.

Lemma decode_response_data_error (E : Environment) (url : string)
    (r : Response (Text E)) (e : Exn) :
  decode_response E url r = Exc e -> data_error e.
Proof.
  unfold decode_response. destruct (resp_text r) as [text|]; [|discriminate].
  destruct (json_load E text) as [j|]; [|intros [= <-]; exact I].
  destruct (py_in "_embedded" j) as [[|]|e'] eqn:Ein.
  - destruct (getitem j "_embedded") as [inner|e'] eqn:E1.
    + destruct (getitem inner (last_segment url)) as [v|e''] eqn:E2; [discriminate|].
      intros [= <-]. exact (getitem_data_error _ _ _ E2).
    + intros [= <-]. exact (getitem_data_error _ _ _ E1).
  - discriminate.
  - intros [= <-]. destruct j; cbn in Ein; try discriminate; now injection Ein as <-.
Qed.

(** X4.  A create request the destination refuses ends the import run at
    once with exit status 1: the refused request, to the URL the message
    names, is the last thing the run did.  A missing snapshot file ends it
    the same way: the file the exception names is absent and its load is
    the last thing the run did.  Collision and record-not-found exits and
    attribute errors do not occur in an import run. *)
Theorem import_stops_at_failure :
  forall (E : Environment) (dataDir tackle2Url : string) (w w' : World E) (e : Exn),
    uploadTackle2 dataDir tackle2Url w = (Exc e, w') ->
    match e with
    | SystemExit c (RequestFailed st u) =>
        c = 1%Z
        /\ exists evs x, trace w' = trace w ++ evs ++ [Requested POST u (Some x)]
    | SystemExit _ _ => False
    | FileNotFoundError p =>
        files w p = None /\ exists evs, trace w' = trace w ++ evs ++ [Loaded p]
    | AttributeError _ => False
    | _ => True
    end.
Proof.
  intros E dataDir tackle2Url w w' e Hrun.
  set (P := fun s : World E => files s = files w /\ exists evs, trace s = trace w ++ evs).
  set (F := fun (e : Exn) (s : World E) =>
              match e with
              | SystemExit c (RequestFailed st u) =>
                  c = 1%Z
                  /\ exists evs x, trace s = trace w ++ evs ++ [Requested POST u (Some x)]
              | SystemExit _ _ => False
              | FileNotFoundError p =>
                  files w p = None /\ exists evs, trace s = trace w ++ evs ++ [Loaded p]
              | AttributeError _ => False
              | _ => True
              end).
  assert (Hdata : forall e s, data_error e -> F e s).
  { intros [c []| | | | | |] s; cbn; auto; contradiction. }
  assert (Htriple : triple P (uploadTackle2 dataDir tackle2Url) (fun _ => P) F).
  { unfold uploadTackle2.
    apply (triple_for_each (fun _ => P)). intros pre t post _.
    eapply triple_bind with (Q' := fun _ => P).
    { intros s [Hf [evs Ht]]. rewrite loadDump_run.
      destruct (files s _) as [text|] eqn:Hfile.
      - destruct (json_load E text); [|exact I].
        split; [exact Hf|]. exists (evs ++ [Loaded (path_join dataDir (t ++ ".json"))]).
        cbn. now rewrite Ht, app_assoc.
      - cbn. split; [now rewrite <- Hf|]. exists evs. now rewrite Ht, app_assoc. }
    intros dictCollection. eapply triple_bind with (Q' := fun _ => P).
    { intros s Hs. unfold lift_res. destruct (iter_json dictCollection) eqn:Ei;
        [exact Hs | apply Hdata; exact (iter_json_data_error _ _ Ei)]. }
    intros items. apply (triple_for_each (fun _ => P)). intros pre' dictObj post' _.
    destruct (contains "assessment" t); [intros s Hs; exact Hs|].
    eapply triple_bind with (Q' := fun _ => P); [|intros a s Hs; exact Hs].
    intros s [Hf [evs Ht]]. rewrite apiJSON_POST_run.
    destruct (resp_ok _).
    - destruct (decode_response E _ _) eqn:Ed.
      + split; [exact Hf|]. eexists. cbn. rewrite Ht, <- app_assoc. reflexivity.
      + apply Hdata. exact (decode_response_data_error _ _ _ _ Ed).
    - cbn. split; [reflexivity|]. exists evs, dictObj. now rewrite Ht, app_assoc. }
  assert (HP : P w).
  { split; [reflexivity|]. exists []. now rewrite app_nil_r. }
  specialize (Htriple w HP). rewrite Hrun in Htriple. exact Htriple.
Qed.

Lemma import_stops_at_failure_witness :
  1%Z = 1%Z
  /\ exists evs x,
       trace (snd (uploadTackle2 "data" "http://hub" sample_world_refusing))
       = trace sample_world_refusing ++ evs
         ++ [Requested POST "http://hub/hub/applications" (Some x)].
Proof.
  apply (import_stops_at_failure sample_environment_refusing "data" "http://hub"
           sample_world_refusing
           (snd (uploadTackle2 "data" "http://hub" sample_world_refusing))
           (SystemExit 1 (RequestFailed 500 "http://hub/hub/applications"))).
  rewrite (surjective_pairing (uploadTackle2 "data" "http://hub" sample_world_refusing)) at 1.
  f_equal.
Defined.

(* ===================================================================== *)
(** ** apiJSON: the envelope of the Tackle 1 answers *)
(* ===================================================================== *)

Lemma last_segment_from_step (cur : string) (c : ascii) (rest : string) :
  last_segment_from cur (String c rest)
  = if Ascii.eqb c "/"%char then last_segment_from EmptyString rest
    else last_segment_from (cur ++ String c EmptyString) rest.
Proof.
  destruct c as [[] [] [] [] [] [] [] []]; reflexivity.
Qed.

Lemma contains_slash_step (c : ascii) (rest : string) :
  contains "/" (String c rest) = (Ascii.eqb c "/"%char || contains "/" rest)%bool.
Proof.
  cbn [contains String.prefix].
  destruct (Ascii.ascii_dec "/"%char c) as [<- | Hne].
  - cbn. now destruct rest.
  - destruct (Ascii.eqb_spec c "/"%char) as [-> | _]; [contradiction | reflexivity].
Qed.

Lemma last_segment_from_plain (name cur : string) :
  contains "/" name = false -> last_segment_from cur name = (cur ++ name)%string.
Proof.
  revert cur. induction name as [|c name IH]; intros cur H.
  - cbn. clear H. induction cur as [|x cur IHc]; cbn; [reflexivity | now rewrite <- IHc].
  - rewrite contains_slash_step in H. apply orb_false_iff in H. destruct H as [Hc Hn].
    rewrite last_segment_from_step, Hc, (IH _ Hn).
    clear. induction cur as [|x cur IHc]; cbn; [reflexivity | now rewrite IHc].
Qed.

Lemma last_segment_from_append (base name cur : string) :
  contains "/" name = false ->
  last_segment_from cur (base ++ "/" ++ name) = name.
Proof.
  intros Hn. revert cur. induction base as [|c base IH]; intros cur.
  - cbn [append]. rewrite last_segment_from_step, Ascii.eqb_refl.
    now rewrite (last_segment_from_plain name EmptyString Hn).
  - cbn [append]. rewrite last_segment_from_step.
    destruct (Ascii.eqb c "/"%char); apply IH.
Qed.

(** [url.rsplit('/')[-1]] of a URL that ends in [/name]. *)
Lemma last_segment_append (base name : string) :
  contains "/" name = false ->
  last_segment (base ++ "/" ++ name) = name.
Proof.
  intros Hn. unfold last_segment. now apply last_segment_from_append.
Qed.

(** X5.  An accepted answer whose JSON text is an object with an
    [_embedded] member is unwrapped: the call returns the member of
    [_embedded] that bears the name after the last slash of the URL, and
    raises [KeyError] when [_embedded] has no such member.  An object
    without [_embedded] is returned as it is. *)
Theorem apiJSON_unwraps_embedded :
  forall (E : Environment) (base name : string) (w : World E) (text : Text E)
         (d : list (string * JSON)),
    contains "/" name = false ->
    resp_ok (http_get E (server w) (base ++ "/" ++ name)) = true ->
    resp_text (http_get E (server w) (base ++ "/" ++ name)) = Some text ->
    json_load E text = Some (JDict d) ->
    fst (apiJSON (base ++ "/" ++ name) None GET false w)
    = match dict_get "_embedded" d with
      | None => Val (Some (JDict d))
      | Some (JDict inner) =>
          match dict_get name inner with
          | Some v => Val (Some v)
          | None => Exc (KeyError name)
          end
      | Some other =>
          match getitem other name with
          | Val v => Val (Some v)
          | Exc e => Exc e
          end
      end.
Proof.
  intros E base name w text d Hname Hok Htext Hload.
  rewrite apiJSON_GET_run, Hok. cbn [fst].
  unfold decode_response. rewrite Htext, Hload, (last_segment_append base name Hname).
  cbn [py_in getitem]. unfold dict_has.
  destruct (dict_get "_embedded" d) as [[| | | | inner | inner]|]; cbn; try reflexivity.
  now destruct (dict_get name inner).
Qed.

Lemma apiJSON_unwraps_embedded_witness :
  fst (apiJSON ("http://tackle1/api/controls" ++ "/" ++ "tag-type") None GET false
         (mkWorld sample_environment (fun _ => None)
            [("http://tackle1/api/controls/tag-type",
              JDict [("_embedded", JDict [("tag-type", JList [entity 5 "Language"])])])]
            []))
  = Val (Some (JList [entity 5 "Language"])).
Proof.
  apply (apiJSON_unwraps_embedded sample_environment "http://tackle1/api/controls"
           "tag-type"
           (mkWorld sample_environment (fun _ => None)
              [("http://tackle1/api/controls/tag-type",
                JDict [("_embedded", JDict [("tag-type", JList [entity 5 "Language"])])])]
              [])
           (JDict [("_embedded", JDict [("tag-type", JList [entity 5 "Language"])])])
           [("_embedded", JDict [("tag-type", JList [entity 5 "Language"])])]);
    reflexivity.
Defined.

(* ===================================================================== *)
(** ** Preflight and entities without a name *)
(* ===================================================================== *)

(** X6.  (1) The objects the export builds for reviews and dependencies
    have no [name]: neither have the elements of their snapshot files.
    (2) When the only entities of the snapshot that collide with the
    destination are entities without a [name], the import action stops in
    preflight, but with [KeyError] for ['name'], raised while the collision
    message is put together, not with the collision exit. *)
Theorem preflight_nameless_collision :
  (forall (app1 : Application1) (r : Review1),
      flat (review_object app1 r)
      /\ getitem (vars_json (review_object app1 r)) "name" = Exc (KeyError "name"))
  /\ (forall dep1 : Dependency1,
        flat (dependency_object dep1)
        /\ getitem (vars_json (dependency_object dep1)) "name" = Exc (KeyError "name"))
  /\ forall (E : Environment) (dataDir tackle2Url : string) (w : World E),
       (forall t, In t TYPES -> checked t = true ->
          exists locals dests,
            preflight_sees dataDir tackle2Url w t locals dests
            /\ forall x y, In x locals -> In y dests ->
                 differ x y
                 \/ (collide x y /\ getitem x "name" = Exc (KeyError "name"))) ->
       (exists t locals dests x y,
          In t TYPES /\ checked t = true
          /\ preflight_sees dataDir tackle2Url w t locals dests
          /\ In x locals /\ In y dests /\ collide x y) ->
       exists w',
         import_action dataDir tackle2Url false w = (Exc (KeyError "name"), w').
Proof.
  split; [|split].
  - intros app1 r. unfold review_object.
    destruct (truthy (rev1_copiedFromReviewId r)); cbn;
      (split; [repeat constructor; eexists; reflexivity | reflexivity]).
  - intros dep1. cbn.
    split; [repeat constructor; eexists; reflexivity | reflexivity].
  - intros E dataDir tackle2Url w Hall Hcol.
    exact (preflight_nameless E dataDir tackle2Url w Hall Hcol).
Qed.

Lemma preflight_nameless_collision_witness :
  exists w',
    import_action "data" "http://hub" false sample_world_dependency
    = (Exc (KeyError "name"), w').
Proof.
  apply (proj2 (proj2 preflight_nameless_collision) sample_environment "data" "http://hub"
           sample_world_dependency).
  - intros t Ht Hc. sample_types Ht Hc;
      (eexists; eexists; split; [sample_sees|];
       simpl; intros x y Hx Hy;
       repeat match goal with
              | H : _ \/ _ |- _ => destruct H as [<- | H]
              | H : False |- _ => destruct H
              end;
       try (right; split; [exists (JInt 8), (JInt 8); repeat split; reflexivity
                          | reflexivity])).
  - exists "dependencies", [vars_json (dependency_object sample_dependency)],
           [JDict [("id", JInt 8)]],
           (vars_json (dependency_object sample_dependency)), (JDict [("id", JInt 8)]).
    split; [simpl; tauto|]. split; [reflexivity|]. split; [sample_sees|].
    split; [now left|]. split; [now left|].
    exists (JInt 8), (JInt 8). repeat split; reflexivity.
Defined.

(* ===================================================================== *)
(** ** store: what it writes and what it leaves *)
(* ===================================================================== *)

Lemma saveJSON_frame (E : Environment) (path : string) (self : Tackle12Import)
    (coll : list nat) (w : World E) (r : Res unit) (w1 : World E) :
  saveJSON path self coll w = (r, w1) ->
  server w1 = server w /\ trace w1 = trace w
  /\ forall p, String.eqb p (path ++ ".json") = false -> files w1 p = files w p.
Proof.
  unfold saveJSON, bind, write_file, modify, raise.
  destruct (collection_json self coll); cbn; intros [= <- <-]; cbn;
    (split; [reflexivity|]; split; [reflexivity|]);
    intros p Hp; unfold update_map; now rewrite Hp.
Qed.

Lemma store_frame_from (E : Environment) (dataDir : string) (self : Tackle12Import)
    (types : list string) (w : World E) (r : Res unit) (w' : World E) :
  for_each types (fun t => saveJSON (path_join dataDir t) self (data self t)) w = (r, w') ->
  server w' = server w
  /\ trace w' = trace w
  /\ forall p, (forall t, In t types -> String.eqb p (snapshot_path dataDir t) = false) ->
       files w' p = files w p.
Proof.
  revert w. induction types as [|t types IH]; intros w; cbn [for_each].
  - intros [= <- <-]. auto.
  - unfold bind at 1.
    destruct (saveJSON (path_join dataDir t) self (data self t) w) as [[[] | e] w1] eqn:Es;
      apply saveJSON_frame in Es; rewrite saved_path in Es; destruct Es as (Hs & Ht & Hf).
    + intros Hrun. destruct (IH w1 Hrun) as (Hs' & Ht' & Hf').
      split; [congruence|]. split; [congruence|].
      intros p Hp. rewrite Hf' by (intros u Hu; apply Hp; now right).
      apply Hf. apply Hp. now left.
    + intros [= <- <-]. split; [exact Hs|]. split; [exact Ht|].
      intros p Hp. apply Hf. apply Hp. now left.
Qed.

Lemma ensureDataDir_world (E : Environment) (dataDir : string) (w : World E) :
  snd (ensureDataDir dataDir w) = w.
Proof.
  unfold ensureDataDir. destruct (os_path_isdir E dataDir); [reflexivity|].
  destruct (os_mkdir E dataDir); reflexivity.
Qed.

Lemma store_frame (E : Environment) (dataDir : string) (self : Tackle12Import)
    (w : World E) (r : Res unit) (w' : World E) :
  store dataDir self w = (r, w') ->
  server w' = server w
  /\ trace w' = trace w
  /\ forall p, (forall t, In t TYPES -> String.eqb p (snapshot_path dataDir t) = false) ->
       files w' p = files w p.
Proof.
  unfold store. unfold bind at 1.
  pose proof (ensureDataDir_world E dataDir w) as Hw.
  destruct (ensureDataDir dataDir w) as [[[] | e] w1]; cbn [snd] in Hw; subst w1.
  - apply store_frame_from.
  - intros [= <- <-]. auto.
Qed.

(** X7.  (1) Whether it returns or not, [store] sends no request, and the
    only files it changes are the snapshot files of the [TYPES].  (2) When
    the data directory is a directory or one [os.mkdir] makes, and every
    collection can be encoded, [store] returns, and the snapshot file of
    every type holds the encoding of its collection, whatever the file held
    before.  (3) When the data directory is no directory and [os.mkdir]
    raises, [store] raises that exception and has changed nothing. *)
Theorem store_overwrites_snapshots :
  forall (E : Environment) (dataDir : string) (self : Tackle12Import) (w : World E),
    (server (snd (store dataDir self w)) = server w
     /\ trace (snd (store dataDir self w)) = trace w
     /\ forall p, (forall t, In t TYPES -> p <> snapshot_path dataDir t) ->
          files (snd (store dataDir self w)) p = files w p)
    /\ (usable_dir E dataDir ->
        (forall t, In t TYPES -> collection_json self (data self t) <> None) ->
        exists w',
          store dataDir self w = (Val tt, w')
          /\ forall t, In t TYPES ->
               exists j,
                 collection_json self (data self t) = Some j
                 /\ files w' (snapshot_path dataDir t) = Some (json_dumps E j))
    /\ (forall e,
          os_path_isdir E dataDir = false -> os_mkdir E dataDir = Some e ->
          store dataDir self w = (Exc e, w)).
Proof.
  intros E dataDir self w. split; [|split].
  - destruct (store_frame E dataDir self w
                (fst (store dataDir self w)) (snd (store dataDir self w)))
      as (Hs & Ht & Hf); [exact (surjective_pairing (store dataDir self w))|].
    split; [exact Hs|]. split; [exact Ht|].
    intros p Hp. apply Hf. intros t Ht'. apply String.eqb_neq. now apply Hp.
  - intros Hdir Hser.
    destruct (store_run_from E dataDir self TYPES NoDup_TYPES (fun t H => H) Hser w)
      as (w' & Hrun & _ & _ & Hin & _).
    exists w'. split; [rewrite (store_run E dataDir self w Hdir); exact Hrun | exact Hin].
  - intros e H1 H2. unfold store. unfold bind at 1.
    rewrite (ensureDataDir_fails E dataDir w e H1 H2). reflexivity.
Qed.

Lemma store_overwrites_snapshots_witness :
  exists w',
    store "data" sample_exported sample_world_clear = (Val tt, w')
    /\ forall t, In t TYPES ->
         exists j,
           collection_json sample_exported (data sample_exported t) = Some j
           /\ files w' (snapshot_path "data" t) = Some (json_dumps sample_environment j).
Proof.
  apply (proj1 (proj2 (store_overwrites_snapshots sample_environment "data"
                         sample_exported sample_world_clear))).
  - right. reflexivity.
  - intros t Ht. simpl in Ht.
    repeat (destruct Ht as [<- | Ht]; [vm_compute; discriminate |]).
    contradiction.
Defined.

(* ===================================================================== *)
(** ** The export builds no circular structure *)
(* ===================================================================== *)

Lemma In_refs_of (o : Tackle2Object) (b : nat) :
  In b (refs_of o) <-> exists k v, In (k, v) o /\ In b (refs_val v).
Proof.
  unfold refs_of. rewrite in_flat_map. split.
  - intros ([k v] & Hin & Hb). now exists k, v.
  - intros (k & v & Hin & Hb). now exists (k, v).
Qed.

Lemma refs_dict_set (k : string) (v : PyVal) (d : Tackle2Object) (b : nat) :
  In b (refs_of (dict_set k v d)) -> In b (refs_of d) \/ In b (refs_val v).
Proof.
  induction d as [|[k' v'] d IH]; cbn.
  - rewrite app_nil_r. auto.
  - destruct (String.eqb k k'); cbn; rewrite !in_app_iff; intuition.
Qed.

Lemma refs_with_attrs (kvs : list (string * PyVal)) (o : Tackle2Object) (b : nat) :
  In b (refs_of (with_attrs o kvs)) ->
  In b (refs_of o) \/ exists kv, In kv kvs /\ In b (refs_val (snd kv)).
Proof.
  unfold with_attrs. revert o. induction kvs as [|kv kvs IH]; intros o; cbn.
  - auto.
  - intros H. destruct (IH _ H) as [H1 | (kv' & Hin & Hb)].
    + destruct (refs_dict_set _ _ _ _ H1) as [H2 | H2]; [now left|].
      right. exists kv. auto.
    + right. exists kv'. auto.
Qed.

Lemma scalar_dict_set (k : string) (v : PyVal) (d : Tackle2Object) :
  scalar_keys d ->
  (k = "id" \/ k = "name" -> exists j, v = Json j) ->
  scalar_keys (dict_set k v d).
Proof.
  intros Hd Hv k' v' Hk'. rewrite dict_get_set.
  destruct (String.eqb_spec k' k) as [-> | Hne].
  - intros [= <-]. now apply Hv.
  - now apply Hd.
Qed.

Lemma scalar_with_attrs (kvs : list (string * PyVal)) (o : Tackle2Object) :
  scalar_keys o ->
  (forall kv, In kv kvs -> fst kv = "id" \/ fst kv = "name" -> exists j, snd kv = Json j) ->
  scalar_keys (with_attrs o kvs).
Proof.
  unfold with_attrs. revert o. induction kvs as [|kv kvs IH]; intros o Ho Hkvs; cbn.
  - exact Ho.
  - apply IH.
    + apply scalar_dict_set; [exact Ho|]. apply Hkvs. now left.
    + intros kv' Hin. apply Hkvs. now right.
Qed.

Lemma scalar_init (initAttrs : option Base) : scalar_keys (Tackle2Object_init initAttrs).
Proof.
  destruct initAttrs as [b|]; intros k v _; cbn.
  - repeat (destruct (String.eqb k _); [intros [= <-]; eauto|]). discriminate.
  - discriminate.
Qed.

Lemma refs_init (initAttrs : option Base) : refs_of (Tackle2Object_init initAttrs) = [].
Proof. now destruct initAttrs. Qed.

Lemma flat_no_refs (o : Tackle2Object) : flat o -> refs_of o = [].
Proof.
  intros H. induction H as [|[k v] o [j Hj] _ IH]; cbn in *; [reflexivity|].
  subst v. exact IH.
Qed.

Lemma flat_scalar (o : Tackle2Object) : flat o -> scalar_keys o.
Proof.
  intros H k v _ Hget. apply dict_get_In in Hget.
  unfold flat in H. rewrite Forall_forall in H. exact (H _ Hget).
Qed.

(** *** Encoding along a ranking *)

Lemma all_some_Forall {A : Type} (l : list (option A)) :
  Forall (fun x => exists y, x = Some y) l -> exists ys, all_some l = Some ys.
Proof.
  intros H. induction H as [|x l [y ->] _ [ys IH]]; cbn.
  - now exists [].
  - rewrite IH. now exists (y :: ys).
Qed.

Lemma ranked_object_json (lv : nat -> nat) (h : list Tackle2Object) :
  ranked lv h ->
  forall m a, (lv a < m)%nat -> exists j, object_json m h a = Some j.
Proof.
  intros Hr. induction m as [|m IH]; intros a Hlt; [lia|].
  cbn [object_json].
  destruct (all_some_Forall
              (map (fun kv : string * PyVal =>
                      option_map (pair (fst kv))
                        match snd kv with
                        | Json j => Some j
                        | Obj b => object_json m h b
                        | ObjList l => option_map JList (all_some (map (object_json m h) l))
                        end) (nth a h []))) as [ys Hys].
  - apply Forall_map, Forall_forall. intros [k v] Hin. cbn [fst snd].
    destruct v as [j | b | l]; cbn.
    + eauto.
    + destruct (IH b) as [j ->]; [|cbn; eauto].
      destruct (Hr a b) as [_ Hb]; [|lia].
      apply In_refs_of. exists k, (Obj b). split; [exact Hin | now left].
    + destruct (all_some_Forall (map (object_json m h) l)) as [zs ->]; [|cbn; eauto].
      apply Forall_map, Forall_forall. intros b Hb.
      apply IH. destruct (Hr a b) as [_ Hb']; [|lia].
      apply In_refs_of. exists k, (ObjList l). split; [exact Hin | exact Hb].
  - rewrite Hys. cbn. eauto.
Qed.

Lemma layered_collection_json (n0 : nat) (lv : nat -> nat) (s : Tackle12Import)
    (coll : list nat) :
  layered_by n0 lv s -> collection_json s coll <> None.
Proof.
  intros (Hr & Hb & _).
  assert (Hobj : forall a, exists j,
             object_json (S (List.length (heap s))) (heap s) a = Some j).
  { destruct (Nat.le_gt_cases 2 (List.length (heap s))) as [Hlen | Hlen].
    - intros a. apply (ranked_object_json lv _ Hr). specialize (Hb a). lia.
    - assert (Hr0 : ranked (fun _ => 0%nat) (heap s)).
      { intros a b Hin. exfalso. destruct (Hr a b Hin) as [Hb1 Hb2].
        assert (b = 0%nat) by lia. subst b.
        destruct a as [|a].
        - lia.
        - rewrite nth_overflow in Hin by lia. exact Hin. }
      intros a. apply (ranked_object_json _ _ Hr0). lia. }
  unfold collection_json.
  destruct (all_some_Forall
              (map (object_json (S (List.length (heap s))) (heap s)) coll)) as [ys ->].
  - apply Forall_map, Forall_forall. intros a _. apply Hobj.
  - discriminate.
Qed.

(** *** Steps that keep a state layered *)

Section LayerSteps.

Variable n0 : nat.

Lemma layered_by_alloc (lv : nat -> nat) (s : Tackle12Import) (o : Tackle2Object)
    (k : nat) :
  layered_by n0 lv s ->
  (forall b, In b (refs_of o) -> (b < List.length (heap s))%nat /\ (lv b < k)%nat) ->
  (k <= 2)%nat ->
  scalar_keys o ->
  layered_by n0 (fun x => if Nat.eqb x (List.length (heap s)) then k else lv x)
             (snd (new_object o s)).
Proof.
  intros (Hr & Hb & H0 & Hn & Hsc & Hd) Ho Hk Hso.
  unfold new_object, layered_by, ranked. cbn [snd heap destData].
  split; [|split; [|split; [|split; [|split]]]].
  - intros a b Hin. rewrite length_app. cbn [List.length].
    destruct (Nat.lt_trichotomy a (List.length (heap s))) as [Ha | [-> | Ha]].
    + rewrite nth_old in Hin by exact Ha. destruct (Hr a b Hin) as [Hb1 Hb2].
      split; [lia|].
      destruct (Nat.eqb_spec b (List.length (heap s))); [lia|].
      destruct (Nat.eqb_spec a (List.length (heap s))); [lia | exact Hb2].
    + rewrite nth_fresh in Hin. destruct (Ho b Hin) as [Hb1 Hb2].
      split; [lia|].
      destruct (Nat.eqb_spec b (List.length (heap s))); [lia|].
      now rewrite Nat.eqb_refl.
    + rewrite nth_overflow in Hin by (rewrite length_app; cbn; lia). destruct Hin.
  - intros a. destruct (Nat.eqb a (List.length (heap s))); [exact Hk | apply Hb].
  - intros a Ha. destruct (Nat.eqb_spec a (List.length (heap s))); [lia | now apply H0].
  - rewrite length_app. cbn. lia.
  - intros a.
    destruct (Nat.lt_trichotomy a (List.length (heap s))) as [Ha | [-> | Ha]].
    + rewrite nth_old by exact Ha. apply Hsc.
    + rewrite nth_fresh. exact Hso.
    + rewrite nth_overflow by (rewrite length_app; cbn; lia). intros k' v _ [=].
  - exact Hd.
Qed.

Lemma layered_by_setattr (lv : nat -> nat) (s : Tackle12Import) (a : nat)
    (k : string) (v : PyVal) :
  layered_by n0 lv s ->
  (forall b, In b (refs_val v) -> (b < List.length (heap s))%nat /\ (lv b < lv a)%nat) ->
  k <> "id" -> k <> "name" ->
  layered_by n0 lv (snd (setattr a k v s)).
Proof.
  intros (Hr & Hb & H0 & Hn & Hsc & Hd) Hv Hid Hname.
  unfold setattr, modify, layered_by, ranked. cbn [snd heap destData].
  split; [|split; [|split; [|split; [|split]]]]; try assumption.
  - intros a' b Hin. rewrite length_update_nth.
    destruct (Nat.eq_dec a' a) as [-> | Hne].
    + destruct (Nat.lt_ge_cases a (List.length (heap s))) as [Ha | Ha].
      * rewrite nth_update_nth_same in Hin by exact Ha.
        destruct (refs_dict_set _ _ _ _ Hin) as [H | H]; [now apply Hr | now apply Hv].
      * rewrite nth_overflow in Hin by (rewrite length_update_nth; lia). destruct Hin.
    + rewrite nth_update_nth_other in Hin by exact Hne. now apply Hr.
  - now rewrite length_update_nth.
  - intros a'. destruct (Nat.eq_dec a' a) as [-> | Hne].
    + destruct (Nat.lt_ge_cases a (List.length (heap s))) as [Ha | Ha].
      * rewrite nth_update_nth_same by exact Ha.
        apply scalar_dict_set; [apply Hsc|]. intros [-> | ->]; contradiction.
      * rewrite nth_overflow by (rewrite length_update_nth; lia). intros k' v' _ [=].
    + rewrite nth_update_nth_other by exact Hne. apply Hsc.
Qed.

Lemma layered_by_frame (lv : nat -> nat) (s s' : Tackle12Import) :
  heap s' = heap s -> destData s' = destData s ->
  layered_by n0 lv s -> layered_by n0 lv s'.
Proof.
  intros Hh Hd. unfold layered_by. now rewrite Hh, Hd.
Qed.

Lemma add_keeps (type : string) (item : nat) (s : Tackle12Import) :
  heap (snd (add type item s)) = heap s
  /\ destData (snd (add type item s)) = destData s.
Proof.
  unfold add. destruct (add_scan _ _) as [[|] | e]; split; reflexivity.
Qed.

Lemma layered_forget (k k' : nat) (ys : list nat) (s : Tackle12Import) :
  layered n0 k ys s -> layered n0 k' [] s.
Proof.
  intros (lv & Hl & _). exists lv. split; [exact Hl | constructor].
Qed.

(** A computation that leaves the state as it is. *)
Lemma triple_reads {A : Type} (P : Tackle12Import -> Prop) (m : Py A) :
  (forall s, snd (m s) = s) ->
  triple P m (fun _ => P) (fun _ _ => True).
Proof.
  intros H s HP. specialize (H s). destruct (m s) as [[a | e] s']; cbn in H.
  - now subst.
  - exact I.
Qed.

Lemma triple_add (k : nat) (ys : list nat) (type : string) (item : nat) :
  triple (layered n0 k ys) (add type item) (fun _ => layered n0 k ys) (fun _ _ => True).
Proof.
  intros s (lv & Hl & Hys). destruct (add_keeps type item s) as [Hh Hd].
  destruct (add type item s) as [[[] | e] s']; cbn [snd] in *; [|exact I].
  exists lv. split; [now apply (layered_by_frame lv s)|]. now rewrite Hh.
Qed.

(** A new instance without references, tracked with the rank [k]. *)
Lemma triple_new_flat (k : nat) (ys : list nat) (o : Tackle2Object) :
  refs_of o = [] -> scalar_keys o -> (k <= 2)%nat ->
  triple (layered n0 k ys) (new_object o)
         (fun a => layered n0 k (ys ++ [a])) (fun _ _ => True).
Proof.
  intros Hrefs Hsc Hk s (lv & Hl & Hys).
  pose proof (layered_by_alloc lv s o k Hl) as Hal.
  unfold new_object in *. cbn [snd heap] in *.
  eexists. split.
  - apply Hal; [rewrite Hrefs; intros b [] | exact Hk | exact Hsc].
  - cbn [heap]. rewrite length_app. cbn [List.length]. apply Forall_app. split.
    + eapply Forall_impl; [|exact Hys]. cbn. intros y [Hy1 Hy2]. split; [lia|].
      destruct (Nat.eqb_spec y (List.length (heap s))); [lia | exact Hy2].
    + constructor; [|constructor]. split; [lia | now rewrite Nat.eqb_refl].
Qed.

(** A new instance that refers to tracked instances of a lower rank. *)
Lemma triple_new_refs (k ky : nat) (ys : list nat) (o : Tackle2Object) :
  (forall b, In b (refs_of o) -> In b ys) -> scalar_keys o ->
  (ky < k)%nat -> (k <= 2)%nat ->
  triple (layered n0 ky ys) (new_object o)
         (fun _ => layered n0 0 []) (fun _ _ => True).
Proof.
  intros Hrefs Hsc Hky Hk s (lv & Hl & Hys).
  pose proof (layered_by_alloc lv s o k Hl) as Hal.
  unfold new_object in *. cbn [snd heap] in *.
  eexists. split; [|constructor].
  apply Hal; [|exact Hk | exact Hsc].
  intros b Hb. rewrite Forall_forall in Hys. destruct (Hys b (Hrefs b Hb)). lia.
Qed.

(** One record turned into an instance without references and added. *)
Lemma triple_flat_record (type : string) (o : Tackle2Object) :
  refs_of o = [] -> scalar_keys o ->
  triple (layered n0 0 []) (x <- new_object o ;; add type x)
         (fun _ => layered n0 0 []) (fun _ _ => True).
Proof.
  intros Hrefs Hsc. eapply triple_bind.
  - apply (triple_new_flat 0 [] o Hrefs Hsc). lia.
  - intros x. eapply triple_weaken; [apply (triple_add 0 ([] ++ [x])) | auto | | auto].
    intros a s H. exact (layered_forget 0 0 _ s H).
Qed.

End LayerSteps.

(** *** The blocks of dumpTackle1 *)

Lemma json_attrs_refs (init : option Base) (kvs : list (string * PyVal)) :
  (forall kv, In kv kvs -> exists j, snd kv = Json j) ->
  refs_of (with_attrs (Tackle2Object_init init) kvs) = [].
Proof.
  intros H. destruct (refs_of _) as [|b l] eqn:Er; [reflexivity|]. exfalso.
  assert (Hb : In b (refs_of (with_attrs (Tackle2Object_init init) kvs)))
    by (rewrite Er; now left).
  destruct (refs_with_attrs _ _ _ Hb) as [H1 | (kv & Hin & H1)].
  - now rewrite refs_init in H1.
  - destruct (H kv Hin) as [j Hj]. now rewrite Hj in H1.
Qed.

Lemma json_attrs_scalar (init : option Base) (kvs : list (string * PyVal)) :
  (forall kv, In kv kvs -> exists j, snd kv = Json j) ->
  scalar_keys (with_attrs (Tackle2Object_init init) kvs).
Proof.
  intros H. apply scalar_with_attrs; [apply scalar_init|]. intros kv Hin _. now apply H.
Qed.

Ltac json_attrs :=
  let kv := fresh "kv" in
  let Hin := fresh "Hin" in
  intros kv Hin; simpl in Hin;
  repeat (destruct Hin as [<- | Hin]; [eexists; reflexivity|]);
  contradiction.

Lemma review_object_json (app1 : Application1) (r : Review1) :
  refs_of (review_object app1 r) = [] /\ scalar_keys (review_object app1 r).
Proof.
  unfold review_object. split.
  - apply json_attrs_refs. destruct (truthy (rev1_copiedFromReviewId r)); json_attrs.
  - apply json_attrs_scalar. destruct (truthy (rev1_copiedFromReviewId r)); json_attrs.
Qed.

Lemma getattr_state (a : nat) (k : string) (s : Tackle12Import) :
  snd (getattr a k s) = s.
Proof. unfold getattr. now destruct (dict_get k (deref s a)). Qed.

Lemma findById_state (objType : string) (i : Z) (s : Tackle12Import) :
  snd (findById objType i s) = s.
Proof. unfold findById. now destruct (findById_scan s i (data s objType)) as [[|]|]. Qed.

Lemma jobFunction_state (sh1 : Stakeholder1) (sh : nat) (s : Tackle12Import) :
  forall u s', dump_stakeholder_jobFunction sh1 sh s = (Val u, s') -> s' = s.
Proof.
  intros u s' H. destruct (truthy (sh1_jobFunction sh1)) eqn:Et.
  - destruct (dump_stakeholder_jobFunction_raises sh1 sh s Et) as (e & He & _).
    congruence.
  - unfold dump_stakeholder_jobFunction in H. rewrite Et in H. now injection H.
Qed.

Section LayerBlocks.

Variable n0 : nat.

Local Notation "'L'" := (layered n0 0 []).
Local Notation "'anyhow'" := (fun (_ : Exn) (_ : Tackle12Import) => True).

Lemma dump_dependency_layered (dep1 : Dependency1) :
  triple L (dump_dependency dep1) (fun _ => L) anyhow.
Proof.
  apply triple_flat_record; [apply json_attrs_refs | apply json_attrs_scalar]; json_attrs.
Qed.

Lemma dump_assessment_layered (assm1 : Assessment1) :
  triple L (dump_assessment assm1) (fun _ => L) anyhow.
Proof.
  apply triple_flat_record; [apply json_attrs_refs | apply json_attrs_scalar]; json_attrs.
Qed.

Lemma dump_assessment_risk_layered (assmr1 : AssessmentRisk1) :
  triple L (dump_assessment_risk assmr1) (fun _ => L) anyhow.
Proof.
  apply triple_flat_record; [apply json_attrs_refs | apply json_attrs_scalar]; json_attrs.
Qed.

Lemma dump_confidence_layered (conf1 : Confidence1) :
  triple L (dump_confidence conf1) (fun _ => L) anyhow.
Proof.
  apply triple_flat_record; [apply json_attrs_refs | apply json_attrs_scalar]; json_attrs.
Qed.

Lemma dump_stakeholdergroup_layered (shg1 : StakeholderGroup1) :
  triple L (dump_stakeholdergroup shg1) (fun _ => L) anyhow.
Proof.
  apply triple_flat_record; [apply json_attrs_refs | apply json_attrs_scalar]; json_attrs.
Qed.

Lemma dump_businessservice_layered (bs1 : BusinessService1) :
  triple L (dump_businessservice bs1) (fun _ => L) anyhow.
Proof.
  apply triple_flat_record; [apply json_attrs_refs | apply json_attrs_scalar]; json_attrs.
Qed.

Lemma for_each_layered {X : Type} (xs : list X) (body : X -> Py unit) :
  (forall x, triple L (body x) (fun _ => L) anyhow) ->
  triple L (for_each xs body) (fun _ => L) anyhow.
Proof.
  intros H. apply (triple_for_each (fun _ => L)). intros pre x post _. apply H.
Qed.

Lemma dump_assessments_layered (src : Tackle1) :
  triple L (dump_assessments src) (fun _ => L) anyhow.
Proof.
  unfold dump_assessments. eapply triple_bind; [apply triple_reads; reflexivity|].
  intros apps. apply for_each_layered. intros app. unfold dump_assessments_of.
  eapply triple_bind; [apply triple_reads; intros s; apply getattr_state|]. intros i.
  eapply triple_bind; [apply triple_reads; reflexivity|]. intros appId.
  eapply triple_bind; [apply for_each_layered, dump_assessment_layered|]. intros u.
  eapply triple_bind; [apply for_each_layered, dump_assessment_risk_layered|]. intros u'.
  apply for_each_layered, dump_confidence_layered.
Qed.

Lemma jobFunction_layered (sh1 : Stakeholder1) (sh : nat) :
  triple L (dump_stakeholder_jobFunction sh1 sh) (fun _ => L) anyhow.
Proof.
  intros s HL.
  destruct (dump_stakeholder_jobFunction sh1 sh s) as [[u | e] s'] eqn:Eq; [|exact I].
  now rewrite (jobFunction_state _ _ _ _ _ Eq).
Qed.

Lemma dump_stakeholder_layered (sh1 : Stakeholder1) :
  triple L (dump_stakeholder sh1) (fun _ => L) anyhow.
Proof.
  unfold dump_stakeholder. eapply triple_bind.
  - apply (triple_map_each (fun _ ys => layered n0 0 ys)).
    intros pre ys shg1 post _. eapply triple_bind.
    + apply triple_new_flat;
        [apply json_attrs_refs; json_attrs | apply json_attrs_scalar; json_attrs | lia].
    + intros shg. eapply triple_bind; [apply triple_add|]. intros u.
      apply (triple_ret shg (fun y => layered n0 0 (ys ++ [y]))).
  - intros shgs. eapply triple_bind.
    + apply (triple_new_refs n0 1 0 shgs); [| |lia|lia].
      * intros b Hb.
        destruct (refs_with_attrs _ _ _ Hb) as [H | (kv & Hin & H)];
          [now rewrite refs_init in H|].
        simpl in Hin. destruct Hin as [<- | [<- | [<- | []]]]; cbn in H;
          first [contradiction | exact H].
      * apply scalar_with_attrs; [apply scalar_init|]. intros kv Hin Hk. simpl in Hin.
        destruct Hin as [<- | [<- | [<- | []]]]; cbn in *;
          first [eexists; reflexivity | destruct Hk; discriminate].
    + intros sh. eapply triple_bind; [apply jobFunction_layered|].
      intros u. apply triple_add.
Qed.

Lemma dump_jobfunction_layered (jf1 : JobFunction1) :
  triple L (dump_jobfunction jf1) (fun _ => L) anyhow.
Proof.
  unfold dump_jobfunction. eapply triple_bind.
  - apply (triple_map_each (fun _ ys => layered n0 0 ys)).
    intros pre ys sh1 post _.
    apply triple_new_flat;
      [apply json_attrs_refs; json_attrs | apply json_attrs_scalar; json_attrs | lia].
  - intros shs. eapply triple_bind.
    + apply (triple_new_refs n0 1 0 shs); [| |lia|lia].
      * intros b Hb.
        destruct (refs_with_attrs _ _ _ Hb) as [H | (kv & Hin & H)];
          [now rewrite refs_init in H|].
        simpl in Hin. destruct Hin as [<- | [<- | []]]; cbn in H;
          first [contradiction | exact H].
      * apply scalar_with_attrs; [apply scalar_init|]. intros kv Hin Hk. simpl in Hin.
        destruct Hin as [<- | [<- | []]]; cbn in *;
          first [eexists; reflexivity | destruct Hk; discriminate].
    + intros jf. eapply triple_bind; [apply triple_reads; reflexivity|]. intros index.
      destruct (negb _); [apply triple_add | intros s H; exact H].
Qed.

Lemma dest_get_range (lv : nat -> nat) (s : Tackle12Import) (name : PyVal)
    (t : string) (a : nat) :
  layered_by n0 lv s -> dest_get name (destData s t) = Some a -> (a < n0)%nat.
Proof.
  intros (_ & _ & _ & _ & _ & Hd) H. destruct name as [[| | | n | |] | |]; try discriminate.
  cbn in H. apply dict_get_In in H. specialize (Hd t). rewrite Forall_forall in Hd.
  exact (Hd _ H).
Qed.

Lemma resolve_app_tag_layered (ys : list nat) (tagId : Z) :
  triple (layered n0 0 ys) (resolve_app_tag tagId)
         (fun y => layered n0 0 (ys ++ [y])) anyhow.
Proof.
  intros s (lv & Hl & Hys). unfold resolve_app_tag. unfold bind at 1.
  pose proof (findById_state "origin-tags" tagId s) as Hf.
  destruct (findById "origin-tags" tagId s) as [[appTag | e] s1]; cbn in Hf; subst s1;
    [|exact I].
  unfold bind at 1. unfold getattr at 1.
  destruct (dict_get "name" (deref s appTag)) as [name|] eqn:En; [|exact I].
  unfold bind at 1. unfold gets at 1.
  destruct (dest_get name (destData s "tags")) as [destTag|] eqn:Ed.
  - cbn. exists lv. split; [exact Hl|]. apply Forall_app. split; [exact Hys|].
    pose proof (dest_get_range lv s name "tags" destTag Hl Ed) as Hlt.
    destruct Hl as (_ & _ & H0 & Hn & _). constructor; [|constructor].
    split; [lia | now apply H0].
  - unfold bind at 1. unfold getattr at 1.
    destruct (dict_get "id" (deref s appTag)) as [i|] eqn:Ei; [|exact I].
    assert (Hsc : scalar_keys (deref s appTag)) by (destruct Hl as (_ & _ & _ & _ & Hsc & _); apply Hsc).
    destruct (Hsc "name" name (or_intror eq_refl) En) as [jn ->].
    destruct (Hsc "id" i (or_introl eq_refl) Ei) as [ji ->].
    apply (triple_new_flat n0 0 ys
             (with_attrs (Tackle2Object_init None) [("id", Json ji); ("name", Json jn)]));
      [apply json_attrs_refs; json_attrs | apply json_attrs_scalar; json_attrs | lia |].
    exists lv. split; assumption.
Qed.

Lemma dump_application_layered (app1 : Application1) :
  triple L (dump_application app1) (fun _ => L) anyhow.
Proof.
  unfold dump_application. eapply triple_bind.
  - apply (triple_map_each (fun _ ys => layered n0 0 ys)).
    intros pre ys tagId post _. apply resolve_app_tag_layered.
  - intros tags. eapply triple_bind.
    + apply (triple_new_refs n0 1 0 tags); [| |lia|lia].
      * intros b Hb.
        destruct (refs_with_attrs _ _ _ Hb) as [H | (kv & Hin & H)];
          [now rewrite refs_init in H|].
        destruct (app1_businessService app1); simpl in Hin;
          repeat (destruct Hin as [<- | Hin]; [cbn in H; first [contradiction | exact H]|]);
          contradiction.
      * apply scalar_with_attrs; [apply scalar_init|]. intros kv Hin Hk.
        destruct (app1_businessService app1); simpl in Hin;
          repeat (destruct Hin as [<- | Hin];
                  [cbn in *; first [eexists; reflexivity | destruct Hk; discriminate]|]);
          contradiction.
    + intros app. eapply triple_bind with (Q' := fun _ => L).
      * destruct (app1_review app1) as [r|]; [|intros s H; exact H].
        apply triple_flat_record; apply review_object_json.
      * intros u. apply triple_add.
Qed.

Lemma dump_tag_layered (ys : list nat) (tag1 : Tag1) :
  triple (layered n0 1 ys) (dump_tag tag1) (fun y => layered n0 1 (ys ++ [y])) anyhow.
Proof.
  unfold dump_tag. eapply triple_bind.
  - apply triple_new_flat;
      [apply json_attrs_refs; json_attrs | apply json_attrs_scalar; json_attrs | lia].
  - intros tag. eapply triple_bind; [apply triple_add|]. intros u.
    eapply triple_bind; [apply triple_reads; reflexivity|]. intros index.
    eapply triple_bind with (Q' := fun _ => layered n0 1 (ys ++ [tag])).
    + destruct (negb _); [apply triple_add | intros s H; exact H].
    + intros u'. apply (triple_ret tag (fun y => layered n0 1 (ys ++ [y]))).
Qed.

(** While a tag type is processed: its tags have rank 1, the tag type
    itself has rank 2 and holds no reference yet. *)
Lemma tagtype_copy_layered (tags : list nat) (tt tag : nat) :
  In tag tags ->
  triple
    (fun s => exists lv,
       layered_by n0 lv s
       /\ Forall (fun y => (y < tt)%nat /\ lv y = 1%nat) tags
       /\ (tt < List.length (heap s))%nat /\ lv tt = 2%nat
       /\ refs_of (nth tt (heap s) []) = [])
    (c <- deepcopy tt ;; setattr tag "tagType" (Obj c))
    (fun _ s => exists lv,
       layered_by n0 lv s
       /\ Forall (fun y => (y < tt)%nat /\ lv y = 1%nat) tags
       /\ (tt < List.length (heap s))%nat /\ lv tt = 2%nat
       /\ refs_of (nth tt (heap s) []) = [])
    anyhow.
Proof.
  intros Htag s (lv & Hl & Htags & Htt & Hlv & Hrefs).
  assert (Htag' : (tag < tt)%nat /\ lv tag = 1%nat).
  { rewrite Forall_forall in Htags. now apply Htags. }
  destruct Htag' as [Hlt Hlvtag].
  unfold deepcopy, bind, gets. cbn [fst snd].
  set (o := deref s tt).
  set (lv' := fun x => if Nat.eqb x (List.length (heap s)) then 0%nat else lv x).
  assert (Hl1 : layered_by n0 lv' (snd (new_object o s))).
  { apply layered_by_alloc; [exact Hl | | lia |].
    - unfold o, deref. rewrite Hrefs. intros b [].
    - destruct Hl as (_ & _ & _ & _ & Hsc & _). apply Hsc. }
  assert (Hl2 : layered_by n0 lv'
                  (snd (setattr tag "tagType" (Obj (List.length (heap s)))
                          (snd (new_object o s))))).
  { apply layered_by_setattr; [exact Hl1 | | discriminate | discriminate].
    intros b [<- | []]. unfold new_object. cbn [snd heap]. rewrite length_app. cbn.
    split; [lia|]. unfold lv'. rewrite Nat.eqb_refl.
    destruct (Nat.eqb_spec tag (List.length (heap s))); lia. }
  unfold new_object, setattr, modify in *. cbn [snd heap data destData] in *.
  exists lv'. split; [exact Hl2|]. cbn [heap].
  rewrite length_update_nth, length_app. cbn [List.length].
  split; [|split; [lia | split]].
  - eapply Forall_impl; [|exact Htags]. cbn. intros y [Hy1 Hy2]. split; [exact Hy1|].
    unfold lv'. destruct (Nat.eqb_spec y (List.length (heap s))); [lia | exact Hy2].
  - unfold lv'. destruct (Nat.eqb_spec tt (List.length (heap s))); [lia | exact Hlv].
  - rewrite nth_update_nth_other by lia. rewrite nth_old by exact Htt. exact Hrefs.
Qed.

Lemma dump_tagtype_layered (tt1 : TagType1) :
  triple L (dump_tagtype tt1) (fun _ => L) anyhow.
Proof.
  unfold dump_tagtype. eapply triple_bind with (Q' := fun tags => layered n0 1 tags).
  { eapply triple_weaken;
      [apply (triple_map_each (fun _ ys => layered n0 1 ys));
       intros pre ys tag1 post _; apply dump_tag_layered
      | intros s H; exact (layered_forget n0 0 1 [] s H)
      | auto | auto]. }
  intros tags.
  eapply triple_bind with
    (Q' := fun tt s => exists lv,
             layered_by n0 lv s
             /\ Forall (fun y => (y < tt)%nat /\ lv y = 1%nat) tags
             /\ (tt < List.length (heap s))%nat /\ lv tt = 2%nat
             /\ refs_of (nth tt (heap s) []) = []).
  { intros s (lv & Hl & Htags).
    match goal with |- context [new_object ?o s] => set (o' := o) end.
    assert (Hrefs : refs_of o' = []) by (apply json_attrs_refs; json_attrs).
    pose proof (layered_by_alloc n0 lv s o' 2 Hl) as Hal.
    unfold new_object in *. cbn [snd heap] in *.
    eexists. split; [|split; [|split; [|split]]].
    - apply Hal; [rewrite Hrefs; intros b [] | lia | apply json_attrs_scalar; json_attrs].
    - eapply Forall_impl; [|exact Htags]. cbn. intros y [Hy1 Hy2]. split; [exact Hy1|].
      destruct (Nat.eqb_spec y (List.length (heap s))); [lia | exact Hy2].
    - cbn [heap]. rewrite length_app. cbn. lia.
    - cbn. now rewrite Nat.eqb_refl.
    - cbn [heap]. rewrite nth_fresh. exact Hrefs. }
  intros tt. eapply triple_bind with
    (Q' := fun _ s => exists lv,
             layered_by n0 lv s
             /\ Forall (fun y => (y < tt)%nat /\ lv y = 1%nat) tags
             /\ (tt < List.length (heap s))%nat /\ lv tt = 2%nat
             /\ refs_of (nth tt (heap s) []) = []).
  { apply (triple_for_each
             (fun _ s => exists lv,
                layered_by n0 lv s
                /\ Forall (fun y => (y < tt)%nat /\ lv y = 1%nat) tags
                /\ (tt < List.length (heap s))%nat /\ lv tt = 2%nat
                /\ refs_of (nth tt (heap s) []) = [])).
    intros pre tag post Htags. apply tagtype_copy_layered.
    rewrite Htags. apply in_elt. }
  intros u. eapply triple_bind with (Q' := fun _ => L).
  { intros s (lv & Hl & Htags & Htt & Hlv & Hrefs).
    exists lv. split; [|constructor].
    apply layered_by_setattr; [exact Hl | | discriminate | discriminate].
    intros b Hb. cbn in Hb. rewrite Forall_forall in Htags.
    destruct (Htags b Hb). lia. }
  intros u'. eapply triple_bind; [apply triple_reads; reflexivity|]. intros index.
  destruct (negb _); [apply triple_add | intros s H; exact H].
Qed.

Lemma dumpTackle1_layered (src : Tackle1) :
  triple L (dumpTackle1 src) (fun _ => L) anyhow.
Proof.
  unfold dumpTackle1, dump_tagtypes, dump_applications.
  eapply triple_bind; [apply for_each_layered, dump_tagtype_layered|]. intros u1.
  eapply triple_bind; [apply for_each_layered, dump_application_layered|]. intros u2.
  eapply triple_bind; [apply for_each_layered, dump_dependency_layered|]. intros u3.
  eapply triple_bind; [apply dump_assessments_layered|]. intros u4.
  eapply triple_bind; [apply for_each_layered, dump_stakeholder_layered|]. intros u5.
  eapply triple_bind; [apply for_each_layered, dump_stakeholdergroup_layered|]. intros u6.
  eapply triple_bind; [apply for_each_layered, dump_jobfunction_layered|]. intros u7.
  apply for_each_layered, dump_businessservice_layered.
Qed.

End LayerBlocks.

(** *** The states an export starts from *)

Lemma flat_with_attrs (kvs : list (string * PyVal)) (o : Tackle2Object) :
  flat o -> (forall kv, In kv kvs -> exists j, snd kv = Json j) ->
  flat (with_attrs o kvs).
Proof.
  unfold with_attrs. revert o. induction kvs as [|[k v] kvs IH]; intros o Ho H; cbn.
  - exact Ho.
  - apply IH.
    + apply Forall_dict_set; [exact Ho|]. apply (H (k, v)). now left.
    + intros kv Hin. apply H. now right.
Qed.

Lemma flat_init (initAttrs : option Base) : flat (Tackle2Object_init initAttrs).
Proof.
  destruct initAttrs; cbn; repeat constructor; eexists; reflexivity.
Qed.

Lemma flat_start_layered (s : Tackle12Import) :
  flat_start s -> layered (List.length (heap s)) 0 [] s.
Proof.
  intros [Hflat Hd]. exists (fun _ => 0%nat). split; [|constructor].
  split; [|split; [|split; [|split; [|split]]]]; auto.
  - intros a b Hin. now rewrite (flat_no_refs _ (Hflat a)) in Hin.
  - intros a. apply flat_scalar, Hflat.
Qed.

Lemma flat_start_seed (type name : string) (o : Tackle2Object) :
  flat o ->
  triple flat_start (a <- new_object o ;; set_dest type name a)
         (fun _ => flat_start) (fun _ _ => False).
Proof.
  intros Ho s [Hflat Hd]. unfold bind, new_object, set_dest, modify, flat_start.
  cbn [heap destData]. split.
  - intros a.
    destruct (Nat.lt_trichotomy a (List.length (heap s))) as [Ha | [-> | Ha]].
    + rewrite nth_old by exact Ha. apply Hflat.
    + now rewrite nth_fresh.
    + rewrite nth_overflow by (rewrite length_app; cbn; lia). constructor.
  - intros t. rewrite length_app. cbn [List.length]. unfold update_map.
    destruct (String.eqb t type).
    + apply Forall_dict_set; [|cbn; lia].
      eapply Forall_impl; [|apply Hd]. cbn. intros kv H. lia.
    + eapply Forall_impl; [|apply Hd]. cbn. intros kv H. lia.
Qed.

Lemma loadTackle2Seeds_flat (dest : Tackle2Seeds) :
  triple flat_start (loadTackle2Seeds dest) (fun _ => flat_start) (fun _ _ => False).
Proof.
  unfold loadTackle2Seeds. eapply triple_bind with (Q' := fun _ => flat_start).
  - apply (triple_for_each (fun _ => flat_start)). intros pre tt2 post _.
    unfold bind at 1.
    change (triple flat_start
              (fun s => match (tt <- new_object
                                  (with_attrs (Tackle2Object_init (Some (tt2_base tt2)))
                                     [("name", Json (JStr (tt2_name tt2)))]) ;;
                               set_dest "tagtypes" (tt2_name tt2) tt) s with
                        | (Val _, s') =>
                            for_each (tt2_tags tt2) (fun t2 =>
                              tag <- new_object
                                       (with_attrs (Tackle2Object_init None)
                                          [("id", Json (t2_id t2));
                                           ("name", Json (JStr (t2_name t2)))]) ;;
                              set_dest "tags" (t2_name t2) tag) s'
                        | (Exc e, s') => (Exc e, s')
                        end)
              (fun _ => flat_start) (fun _ _ => False)).
    intros s Hs.
    pose proof (flat_start_seed "tagtypes" (tt2_name tt2) _
                  (flat_with_attrs [("name", Json (JStr (tt2_name tt2)))] _
                     (flat_init (Some (tt2_base tt2)))
                     ltac:(json_attrs)) s Hs) as H1.
    destruct (bind _ _ s) as [[u | e] s1]; [|contradiction].
    revert s1 H1. apply (triple_for_each (fun _ => flat_start)).
    intros pre' t2 post' _. apply flat_start_seed.
    apply flat_with_attrs; [apply flat_init | json_attrs].
  - intros u. apply (triple_for_each (fun _ => flat_start)). intros pre jf2 post _.
    apply flat_start_seed. apply flat_with_attrs; [apply flat_init | json_attrs].
Qed.

Lemma init_flat_start : flat_start Tackle12Import_init.
Proof.
  split.
  - intros a. cbn. destruct a; constructor.
  - intros t. constructor.
Qed.

Lemma extraction_starts_flat (skipDestCheck : bool) (dest : Tackle2Seeds) :
  exists s,
    (if negb skipDestCheck then loadTackle2Seeds dest else pass) Tackle12Import_init
    = (Val tt, s)
    /\ flat_start s.
Proof.
  destruct skipDestCheck; cbn [negb].
  - exists Tackle12Import_init. split; [reflexivity | apply init_flat_start].
  - destruct (triple_run flat_start (loadTackle2Seeds dest) (fun _ => flat_start)
                Tackle12Import_init (loadTackle2Seeds_flat dest) init_flat_start)
      as ([] & s & Hrun & Hs).
    now exists s.
Qed.

(* ===================================================================== *)
(** ** The export as a whole *)
(* ===================================================================== *)

Lemma dumpTackle1_encodable (src : Tackle1) (self0 self' : Tackle12Import) :
  flat_start self0 ->
  dumpTackle1 src self0 = (Val tt, self') ->
  forall coll, collection_json self' coll <> None.
Proof.
  intros H0 Hrun coll.
  pose proof (dumpTackle1_layered (List.length (heap self0)) src self0
                (flat_start_layered self0 H0)) as H.
  rewrite Hrun in H. destruct H as (lv & Hl & _).
  exact (layered_collection_json _ lv self' coll Hl).
Qed.

(** X8.  The instance [__init__] builds and the one [loadTackle2Seeds]
    makes of it hold JSON data only.  From such an instance, whatever the
    source answers, when [dumpTackle1] returns no instance reaches itself
    through its references (a tag refers to a copy of its tag type taken
    before the tag type is given its tags): every list of instances can be
    encoded, [json.dumps] meets no circular reference. *)
Theorem export_never_circular :
  flat_start Tackle12Import_init
  /\ (forall dest : Tackle2Seeds,
        flat_start (snd (loadTackle2Seeds dest Tackle12Import_init)))
  /\ forall (src : Tackle1) (self0 self' : Tackle12Import) (coll : list nat),
       flat_start self0 ->
       dumpTackle1 src self0 = (Val tt, self') ->
       exists l, collection_json self' coll = Some (JList l).
Proof.
  split; [apply init_flat_start|]. split.
  - intros dest. destruct (extraction_starts_flat false dest) as (s & Hrun & Hs).
    cbn [negb] in Hrun. now rewrite Hrun.
  - intros src self0 self' coll H0 Hrun.
    pose proof (dumpTackle1_encodable src self0 self' H0 Hrun coll) as H.
    unfold collection_json in *.
    destruct (all_some _) as [l|]; cbn in *; [now exists l | contradiction].
Qed.

Lemma export_never_circular_witness :
  exists l,
    collection_json (snd (dumpTackle1 sample_source sample_seeded))
      (data (snd (dumpTackle1 sample_source sample_seeded)) "tagtypes")
    = Some (JList l).
Proof.
  apply (proj2 (proj2 export_never_circular) sample_source sample_seeded).
  - apply (proj1 (proj2 export_never_circular) sample_seeds).
  - rewrite (surjective_pairing (dumpTackle1 sample_source sample_seeded)) at 1.
    f_equal.
Defined.








(** The scenarios: the export of the sample source into the directory
    "data" returns; into the directory of the empty path, which cannot be
    made, it raises what [os.mkdir] raises and writes nothing. *)
Example export_directory_scenario :
  fst (export_action "data" false sample_seeds sample_source sample_world_empty) = Val tt
  /\ export_action "" false sample_seeds sample_source sample_world_empty
     = (Exc (FileNotFoundError ""), sample_world_empty).
Proof. split; vm_compute; reflexivity. Qed.

(* ===================================================================== *)
(** ** add and findById *)
(* ===================================================================== *)

Lemma add_scan_exn (item : Tackle2Object) (existing : list Tackle2Object) (e : Exn) :
  add_scan item existing = Exc e -> e = AttributeError "id" /\ has_id item.
Proof.
  induction existing as [|x existing IH]; cbn; [discriminate|].
  destruct (dict_get "id" item) as [i|] eqn:Ei; [|exact IH].
  destruct (dict_get "id" x) as [j|].
  - destruct (pyval_eq i j); [discriminate|]. intros H.
    split; [now apply IH | unfold has_id; congruence].
  - intros [= <-]. split; [reflexivity | unfold has_id; congruence].
Qed.

(** X11.  [add] changes nothing but the collection it is given: the
    instances, the destination index and the other collections stay as
    they are, and the collection itself is either unchanged or longer by
    the item at its end; nothing is removed or reordered.  The only
    exception [add] can raise is [AttributeError] for [id], for an item that
    has an id, and then nothing has changed at all. *)
Theorem add_only_appends :
  forall (type : string) (item : nat) (self : Tackle12Import),
    heap (snd (add type item self)) = heap self
    /\ destData (snd (add type item self)) = destData self
    /\ (forall t, t <> type -> data (snd (add type item self)) t = data self t)
    /\ (data (snd (add type item self)) type = data self type
        \/ data (snd (add type item self)) type = data self type ++ [item])
    /\ (forall e, fst (add type item self) = Exc e ->
          e = AttributeError "id"
          /\ has_id (deref self item)
          /\ snd (add type item self) = self).
Proof.
  intros type item self. unfold add.
  destruct (add_scan (deref self item) (map (deref self) (data self type)))
    as [[|] | e] eqn:Es; cbn [fst snd].
  - split; [reflexivity|]. split; [reflexivity|]. split; [reflexivity|].
    split; [now left | discriminate].
  - unfold append_data, modify. cbn [snd fst heap data destData].
    split; [reflexivity|]. split; [reflexivity|]. split.
    + intros t Ht. now apply update_map_other.
    + split; [right; apply update_map_same | discriminate].
  - split; [reflexivity|]. split; [reflexivity|]. split; [reflexivity|].
    split; [now left|]. intros e' [= <-].
    destruct (add_scan_exn _ _ _ Es) as [-> Hid]. auto.
Qed.

Lemma findById_scan_int (self : Tackle12Import) (i : Z) (C : list nat) :
  Forall (fun a => int_id (heap self) a <> None) C ->
  findById_scan self i C = Val (find (bears (heap self) i) C).
Proof.
  induction 1 as [|a C Ha _ IH]; cbn; [reflexivity|].
  unfold bears at 1. destruct (int_id (heap self) a) as [z|] eqn:Ez; [|contradiction].
  unfold deref. rewrite (int_id_inv _ _ _ Ez). cbn.
  destruct (Z.eqb z i); [reflexivity | exact IH].
Qed.

Lemma findById_run (objType : string) (i : Z) (self : Tackle12Import) :
  Forall (fun a => int_id (heap self) a <> None) (data self objType) ->
  findById objType i self
  = (match find (bears (heap self) i) (data self objType) with
     | Some a => Val a
     | None => Exc (SystemExit 1 (RecordNotFound objType i))
     end, self).
Proof.
  intros H. unfold findById.
  rewrite (findById_scan_int self i _ H).
  now destruct (find _ _).
Qed.

(** X12.  In a collection of objects with integer ids, [findById] returns
    the first object that bears the id asked for and leaves the instance as
    it is; when no object bears it, the run ends with exit status 1 and the
    message that names the type and the id. *)
Theorem findById_first_match :
  forall (objType : string) (i : Z) (self : Tackle12Import),
    Forall (fun a => int_id (heap self) a <> None) (data self objType) ->
    findById objType i self
    = (match find (bears (heap self) i) (data self objType) with
       | Some a => Val a
       | None => Exc (SystemExit 1 (RecordNotFound objType i))
       end, self).
Proof.
  intros objType i self H. exact (findById_run objType i self H).
Qed.

Lemma findById_first_match_witness :
  findById "applications" 9 two_collected = (Val 1%nat, two_collected)
  /\ findById "applications" 8 two_collected
     = (Exc (SystemExit 1 (RecordNotFound "applications" 8)), two_collected).
Proof.
  split.
  - apply (findById_first_match "applications" 9 two_collected).
    repeat constructor; discriminate.
  - apply (findById_first_match "applications" 8 two_collected).
    repeat constructor; discriminate.
Defined.

Lemma find_app_none {A : Type} (f : A -> bool) (l l' : list A) :
  find f l = None -> find f (l ++ l') = find f l'.
Proof.
  induction l as [|x l IH]; cbn; [reflexivity|].
  destruct (f x); [discriminate | exact IH].
Qed.

Lemma find_app_some {A : Type} (f : A -> bool) (l l' : list A) (a : A) :
  find f l = Some a -> find f (l ++ l') = Some a.
Proof.
  induction l as [|x l IH]; cbn; [discriminate|].
  destruct (f x); [auto | exact IH].
Qed.

Lemma add_scan_bears (self : Tackle12Import) (item : nat) (i : Z) (C : list nat) :
  int_id (heap self) item = Some i ->
  Forall (fun a => int_id (heap self) a <> None) C ->
  add_scan (deref self item) (map (deref self) C)
  = Val (match find (bears (heap self) i) C with Some _ => true | None => false end).
Proof.
  intros Hi. apply int_id_inv in Hi. fold (deref self item) in Hi.
  generalize dependent (deref self item). intros o Ho.
  induction 1 as [|a C Ha _ IH]; cbn; [reflexivity|].
  rewrite Ho.
  unfold bears at 1. destruct (int_id (heap self) a) as [z|] eqn:Ez; [|contradiction].
  unfold deref at 1. rewrite (int_id_inv _ _ _ Ez). cbn.
  rewrite Z.eqb_sym. destruct (Z.eqb z i); [reflexivity | exact IH].
Qed.

(** X13.  Insert, then look up.  After [add] of an object with the integer
    id [i] to a collection of objects with integer ids, [findById] for [i]
    returns an object of the collection that bears [i]: the object that
    bore it before, when there was one, and the added object otherwise. *)
Theorem add_then_findById :
  forall (type : string) (item : nat) (i : Z) (self : Tackle12Import),
    int_id (heap self) item = Some i ->
    Forall (fun a => int_id (heap self) a <> None) (data self type) ->
    exists self' a,
      add type item self = (Val tt, self')
      /\ findById type i self' = (Val a, self')
      /\ In a (data self' type)
      /\ int_id (heap self') a = Some i
      /\ match find (bears (heap self) i) (data self type) with
         | Some b => a = b /\ data self' type = data self type
         | None => a = item /\ data self' type = data self type ++ [item]
         end.
Proof.
  intros type item i self Hi HC.
  unfold add. rewrite (add_scan_bears self item i _ Hi HC).
  assert (Hbears : forall a, bears (heap self) i a = true -> int_id (heap self) a = Some i).
  { intros a. unfold bears. destruct (int_id (heap self) a) as [z|]; [|discriminate].
    intros H. apply Z.eqb_eq in H. now subst. }
  destruct (find (bears (heap self) i) (data self type)) as [b|] eqn:Ef.
  - exists self, b. split; [reflexivity|].
    rewrite (findById_run type i self HC), Ef.
    destruct (find_some _ _ Ef) as [Hin Hb]. auto.
  - unfold append_data, modify. eexists. exists item. split; [reflexivity|].
    cbn [heap data]. rewrite update_map_same.
    rewrite findById_run; cbn [heap data]; rewrite ?update_map_same.
    + rewrite (find_app_none _ _ _ Ef). cbn. unfold bears at 1. rewrite Hi, Z.eqb_refl.
      split; [reflexivity|]. split; [apply in_or_app; right; now left|]. auto.
    + apply Forall_app. split; [exact HC|]. constructor; [congruence | constructor].
Qed.

Lemma add_then_findById_witness :
  exists self' a,
    add "applications" 2%nat two_collected = (Val tt, self')
    /\ findById "applications" 9 self' = (Val a, self')
    /\ In a (data self' "applications")
    /\ int_id (heap self') a = Some 9%Z
    /\ match find (bears (heap two_collected) 9) (data two_collected "applications") with
       | Some b => a = b /\ data self' "applications" = data two_collected "applications"
       | None => a = 2%nat
                 /\ data self' "applications" = data two_collected "applications" ++ [2%nat]
       end.
Proof.
  apply (add_then_findById "applications" 2%nat 9 two_collected).
  - reflexivity.
  - repeat constructor; discriminate.
Defined.

(* ===================================================================== *)
(** ** loadTackle2Seeds: the destination index *)
(* ===================================================================== *)

(** One seed: a new object entered in the index of its type. *)
Lemma seed_step_run (type n : string) (o : Tackle2Object) (s : Tackle12Import) :
  (a <- new_object o ;; set_dest type n a) s
  = (Val tt,
     mkImport (heap s ++ [o]) (data s)
       (update_map (destData s) type
          (dict_set n (List.length (heap s)) (destData s type)))).
Proof. reflexivity. Qed.

Lemma indexed_seed_same {X : Type} (s : Tackle12Import) (type : string) (L : list X)
    (name : X -> string) (obj : X -> Tackle2Object) (x : X) :
  indexed s type L name obj ->
  indexed (mkImport (heap s ++ [obj x]) (data s)
             (update_map (destData s) type
                (dict_set (name x) (List.length (heap s)) (destData s type))))
          type (L ++ [x]) name obj.
Proof.
  intros H n. rewrite rev_app_distr. cbn [rev app find heap destData].
  rewrite update_map_same, dict_get_set, length_app. cbn [List.length].
  rewrite (String.eqb_sym n). destruct (String.eqb (name x) n).
  - exists (List.length (heap s)). split; [reflexivity|]. split; [lia | apply nth_fresh].
  - specialize (H n). destruct (find _ (rev L)) as [y|]; [|exact H].
    destruct H as (a & Ha & Hlt & Hnth). exists a. split; [exact Ha|].
    split; [lia | now rewrite nth_old].
Qed.

Lemma indexed_seed_other {X : Type} (s : Tackle12Import) (type type' n : string)
    (o : Tackle2Object) (L : list X) (name : X -> string) (obj : X -> Tackle2Object) :
  type' <> type ->
  indexed s type' L name obj ->
  indexed (mkImport (heap s ++ [o]) (data s)
             (update_map (destData s) type
                (dict_set n (List.length (heap s)) (destData s type))))
          type' L name obj.
Proof.
  intros Hne H m. specialize (H m). cbn [heap destData].
  rewrite update_map_other by exact Hne. rewrite length_app. cbn [List.length].
  destruct (find _ (rev L)) as [y|]; [|exact H].
  destruct H as (a & Ha & Hlt & Hnth). exists a. split; [exact Ha|].
  split; [lia | now rewrite nth_old].
Qed.

Lemma seeds_entered_tagtype (tts : list SeedTagType2) (ts : list SeedTag2)
    (tt2 : SeedTagType2) :
  triple (seeds_entered tts ts [])
         (tt <- new_object (with_attrs (Tackle2Object_init (Some (tt2_base tt2)))
                              [("name", Json (JStr (tt2_name tt2)))]) ;;
          set_dest "tagtypes" (tt2_name tt2) tt)
         (fun _ => seeds_entered (tts ++ [tt2]) ts []) (fun _ _ => False).
Proof.
  intros s (Hd & H1 & H2 & H3 & H4). rewrite seed_step_run.
  split; [exact Hd|]. split; [|split; [|split]].
  - exact (indexed_seed_same s "tagtypes" tts tt2_name seed_tagtype_object tt2 H1).
  - apply indexed_seed_other; [discriminate | exact H2].
  - apply indexed_seed_other; [discriminate | exact H3].
  - intros t Ht1 Ht2 Ht3. cbn [destData]. rewrite update_map_other by exact Ht1. auto.
Qed.

Lemma seeds_entered_tag (tts : list SeedTagType2) (ts : list SeedTag2) (t2 : SeedTag2) :
  triple (seeds_entered tts ts [])
         (tag <- new_object (with_attrs (Tackle2Object_init None)
                               [("id", Json (t2_id t2));
                                ("name", Json (JStr (t2_name t2)))]) ;;
          set_dest "tags" (t2_name t2) tag)
         (fun _ => seeds_entered tts (ts ++ [t2]) []) (fun _ _ => False).
Proof.
  intros s (Hd & H1 & H2 & H3 & H4). rewrite seed_step_run.
  split; [exact Hd|]. split; [|split; [|split]].
  - apply indexed_seed_other; [discriminate | exact H1].
  - exact (indexed_seed_same s "tags" ts t2_name seed_tag_object t2 H2).
  - apply indexed_seed_other; [discriminate | exact H3].
  - intros t Ht1 Ht2 Ht3. cbn [destData]. rewrite update_map_other by exact Ht2. auto.
Qed.

Lemma seeds_entered_jobfunction (tts : list SeedTagType2) (ts : list SeedTag2)
    (jfs : list SeedJobFunction2) (jf2 : SeedJobFunction2) :
  triple (seeds_entered tts ts jfs)
         (jf <- new_object (with_attrs (Tackle2Object_init (Some (jf2_base jf2)))
                              [("name", Json (JStr (jf2_name jf2)))]) ;;
          set_dest "jobfunctions" (jf2_name jf2) jf)
         (fun _ => seeds_entered tts ts (jfs ++ [jf2])) (fun _ _ => False).
Proof.
  intros s (Hd & H1 & H2 & H3 & H4). rewrite seed_step_run.
  split; [exact Hd|]. split; [|split; [|split]].
  - apply indexed_seed_other; [discriminate | exact H1].
  - apply indexed_seed_other; [discriminate | exact H2].
  - exact (indexed_seed_same s "jobfunctions" jfs jf2_name seed_jobfunction_object jf2 H3).
  - intros t Ht1 Ht2 Ht3. cbn [destData]. rewrite update_map_other by exact Ht3. auto.
Qed.

Lemma loadTackle2Seeds_entered (dest : Tackle2Seeds) :
  triple (seeds_entered [] [] []) (loadTackle2Seeds dest)
         (fun _ => seeds_entered (t2_tagtypes dest) (all_seed_tags dest)
                                 (t2_jobfunctions dest))
         (fun _ _ => False).
Proof.
  unfold loadTackle2Seeds, all_seed_tags.
  eapply triple_bind with
    (Q' := fun _ => seeds_entered (t2_tagtypes dest) (flat_map tt2_tags (t2_tagtypes dest)) []).
  - apply (triple_for_each
             (fun pre => seeds_entered pre (flat_map tt2_tags pre) [])).
    intros pre tt2 post _.
    change (triple (seeds_entered pre (flat_map tt2_tags pre) [])
              ((tt <- new_object (with_attrs (Tackle2Object_init (Some (tt2_base tt2)))
                                    [("name", Json (JStr (tt2_name tt2)))]) ;;
                set_dest "tagtypes" (tt2_name tt2) tt) ;;;
               for_each (tt2_tags tt2) (fun t2 =>
                 tag <- new_object (with_attrs (Tackle2Object_init None)
                                      [("id", Json (t2_id t2));
                                       ("name", Json (JStr (t2_name t2)))]) ;;
                 set_dest "tags" (t2_name t2) tag))
              (fun _ => seeds_entered (pre ++ [tt2]) (flat_map tt2_tags (pre ++ [tt2])) [])
              (fun _ _ => False)).
    eapply triple_bind; [apply seeds_entered_tagtype|]. intros u.
    rewrite flat_map_app. cbn [flat_map]. rewrite app_nil_r.
    eapply triple_weaken;
      [apply (triple_for_each
                (fun p => seeds_entered (pre ++ [tt2]) (flat_map tt2_tags pre ++ p) []));
       intros p t2 q _; rewrite app_assoc; apply seeds_entered_tag
      | intros s H; now rewrite app_nil_r
      | intros a s H; exact H
      | auto].
  - intros u.
    apply (triple_for_each
             (fun pre => seeds_entered (t2_tagtypes dest)
                           (flat_map tt2_tags (t2_tagtypes dest)) pre)).
    intros pre jf2 post _. apply seeds_entered_jobfunction.
Qed.

(** X14.  From the fresh instance [loadTackle2Seeds] always returns and
    collects nothing.  Afterwards the index of 'tagtypes' holds exactly the
    names of the destination's tag types, the index of 'tags' the names of
    the tags of all of them together, the index of 'jobfunctions' the names
    of its job functions, and the indexes of the other types are empty.
    Under each name is the object built for the last seed of that name: a
    later seed replaces an earlier one of the same name, for tags also
    across tag types. *)
Theorem loadTackle2Seeds_index :
  forall dest : Tackle2Seeds,
    exists s,
      loadTackle2Seeds dest Tackle12Import_init = (Val tt, s)
      /\ (forall t, data s t = [])
      /\ indexed s "tagtypes" (t2_tagtypes dest) tt2_name seed_tagtype_object
      /\ indexed s "tags" (all_seed_tags dest) t2_name seed_tag_object
      /\ indexed s "jobfunctions" (t2_jobfunctions dest) jf2_name seed_jobfunction_object
      /\ (forall t, t <> "tagtypes" -> t <> "tags" -> t <> "jobfunctions" ->
            destData s t = []).
Proof.
  intros dest.
  destruct (triple_run (seeds_entered [] [] []) (loadTackle2Seeds dest) _
              Tackle12Import_init (loadTackle2Seeds_entered dest))
    as ([] & s & Hrun & Hs).
  - unfold seeds_entered, indexed. cbn. auto.
  - exists s. split; [exact Hrun | exact Hs].
Qed.

(* ===================================================================== *)
(** ** The collections of the later blocks *)
(* ===================================================================== *)

Lemma bind_val {S A B : Type} (m : M S A) (f : A -> M S B) (s s2 : S) (b : B) :
  bind m f s = (Val b, s2) ->
  exists a s1, m s = (Val a, s1) /\ f a s1 = (Val b, s2).
Proof.
  unfold bind. destruct (m s) as [[a | e] s1]; [|discriminate].
  intros H. now exists a, s1.
Qed.

(** *** What a block changes *)

Section Touches.

Variable ts : list string.

Lemma touches_unchanged {A : Type} (m : Py A) :
  (forall s, snd (m s) = s) -> touches ts m.
Proof.
  intros H s. rewrite H. split; [exists []; now rewrite app_nil_r | auto].
Qed.

Lemma touches_bind {A B : Type} (m : Py A) (f : A -> Py B) :
  touches ts m -> (forall a, touches ts (f a)) -> touches ts (bind m f).
Proof.
  intros Hm Hf s. unfold bind. specialize (Hm s).
  destruct (m s) as [[a | e] s1]; cbn [snd] in *; [|exact Hm].
  destruct Hm as ((ext & Hh) & Hd & Hfr).
  destruct (Hf a s1) as ((ext' & Hh') & Hd' & Hfr').
  split; [|split].
  - exists (ext ++ ext'). rewrite Hh', Hh. now rewrite app_assoc.
  - congruence.
  - intros t Ht. rewrite Hfr' by exact Ht. now apply Hfr.
Qed.

Lemma touches_for_each {X : Type} (xs : list X) (body : X -> Py unit) :
  (forall x, touches ts (body x)) -> touches ts (for_each xs body).
Proof.
  intros H. induction xs as [|x xs IH]; cbn [for_each].
  - now apply touches_unchanged.
  - apply touches_bind; [apply H | intros _; exact IH].
Qed.

Lemma touches_map_each {X Y : Type} (xs : list X) (body : X -> Py Y) :
  (forall x, touches ts (body x)) -> touches ts (map_each xs body).
Proof.
  intros H. induction xs as [|x xs IH]; cbn [map_each].
  - now apply touches_unchanged.
  - apply touches_bind; [apply H|]. intros y.
    apply touches_bind; [exact IH|]. intros ys.
    now apply touches_unchanged.
Qed.

Lemma touches_new_object (o : Tackle2Object) : touches ts (new_object o).
Proof.
  intros s. cbn. split; [now exists [o] | auto].
Qed.

Lemma touches_add (type : string) (item : nat) :
  In type ts -> touches ts (add type item).
Proof.
  intros Hin s. unfold add.
  destruct (add_scan _ _) as [[|] | e]; cbn.
  - split; [exists []; now rewrite app_nil_r | auto].
  - split; [exists []; now rewrite app_nil_r|]. split; [reflexivity|].
    intros t Ht. apply update_map_other. intros ->. contradiction.
  - split; [exists []; now rewrite app_nil_r | auto].
Qed.

Lemma touches_getattr (a : nat) (k : string) : touches ts (getattr a k).
Proof.
  apply touches_unchanged. intros s. apply getattr_state.
Qed.

Lemma touches_findById (objType : string) (i : Z) : touches ts (findById objType i).
Proof.
  apply touches_unchanged. intros s. apply findById_state.
Qed.

Lemma touches_jobFunction (sh1 : Stakeholder1) (sh : nat) :
  touches ts (dump_stakeholder_jobFunction sh1 sh).
Proof.
  apply touches_unchanged. intros s.
  destruct (truthy (sh1_jobFunction sh1)) eqn:Et.
  - destruct (dump_stakeholder_jobFunction_raises sh1 sh s Et) as (e & -> & _).
    reflexivity.
  - unfold dump_stakeholder_jobFunction. now rewrite Et.
Qed.

Lemma touches_writes {A : Type} (m : Py A) : touches ts m -> writes ts m.
Proof.
  intros H s. destruct (H s) as (_ & Hd & Hfr). auto.
Qed.

Lemma writes_unchanged {A : Type} (m : Py A) :
  (forall s, snd (m s) = s) -> writes ts m.
Proof.
  intros H s. rewrite H. auto.
Qed.

Lemma writes_bind {A B : Type} (m : Py A) (f : A -> Py B) :
  writes ts m -> (forall a, writes ts (f a)) -> writes ts (bind m f).
Proof.
  intros Hm Hf s. unfold bind. specialize (Hm s).
  destruct (m s) as [[a | e] s1]; cbn [snd] in *; [|exact Hm].
  destruct Hm as (Hd & Hfr). destruct (Hf a s1) as (Hd' & Hfr').
  split; [congruence|]. intros t Ht. rewrite Hfr' by exact Ht. now apply Hfr.
Qed.

Lemma writes_for_each {X : Type} (xs : list X) (body : X -> Py unit) :
  (forall x, writes ts (body x)) -> writes ts (for_each xs body).
Proof.
  intros H. induction xs as [|x xs IH]; cbn [for_each].
  - now apply writes_unchanged.
  - apply writes_bind; [apply H | intros _; exact IH].
Qed.

Lemma writes_setattr (a : nat) (k : string) (v : PyVal) : writes ts (setattr a k v).
Proof.
  intros s. cbn. auto.
Qed.

End Touches.

Ltac touches_steps :=
  repeat first
    [ apply touches_bind; [|intro]
    | apply touches_for_each; intro
    | apply touches_map_each; intro
    | apply touches_new_object
    | apply touches_add; simpl; tauto
    | apply touches_getattr
    | apply touches_findById
    | apply touches_jobFunction
    | apply touches_unchanged; intro; reflexivity ].

Lemma touches_dump_application (app1 : Application1) :
  touches ["reviews"; "applications"] (dump_application app1).
Proof.
  unfold dump_application, resolve_app_tag. touches_steps.
  - destruct (dest_get _ _); touches_steps.
  - destruct (app1_review app1); touches_steps.
Qed.

Lemma writes_dump_tagtype (tt1 : TagType1) :
  writes ["origin-tags"; "tags"; "tagtypes"] (dump_tagtype tt1).
Proof.
  unfold dump_tagtype, dump_tag, deepcopy.
  apply writes_bind; [apply touches_writes; touches_steps;
                      destruct (negb _); touches_steps|].
  intros tags. apply writes_bind; [apply touches_writes; touches_steps|].
  intros tt. apply writes_bind.
  { apply writes_for_each. intros tag.
    apply writes_bind; [apply touches_writes; touches_steps|].
    intros c. apply writes_setattr. }
  intros u. apply writes_bind; [apply writes_setattr|].
  intros u'. apply writes_bind; [apply touches_writes; touches_steps|].
  intros index. destruct (negb _); apply touches_writes; touches_steps.
Qed.

Lemma touches_dump_assessments (src : Tackle1) :
  touches ["assessments"; "assessments--assessment-risk"; "assessments--confidence"]
          (dump_assessments src).
Proof.
  unfold dump_assessments, dump_assessments_of, dump_assessment, dump_assessment_risk,
    dump_confidence. touches_steps.
Qed.

Lemma touches_dump_stakeholder (sh1 : Stakeholder1) :
  touches ["stakeholdergroups"; "stakeholders"] (dump_stakeholder sh1).
Proof.
  unfold dump_stakeholder. touches_steps.
Qed.

Lemma touches_dump_jobfunction (jf1 : JobFunction1) :
  touches ["jobfunctions"] (dump_jobfunction jf1).
Proof.
  unfold dump_jobfunction. touches_steps. destruct (negb _); touches_steps.
Qed.

Lemma touches_record (type : string) (o : Tackle2Object) :
  touches [type] (x <- new_object o ;; add type x).
Proof. touches_steps. Qed.

(** *** The run of [dumpTackle1], block by block *)

Lemma dumpTackle1_blocks (src : Tackle1) (s0 s' : Tackle12Import) :
  dumpTackle1 src s0 = (Val tt, s') ->
  exists s1 s2 s3 s4 s5 s6 s7,
    for_each (t1_tag_type src) dump_tagtype s0 = (Val tt, s1)
    /\ for_each (t1_application src) dump_application s1 = (Val tt, s2)
    /\ for_each (t1_applications_dependency src) dump_dependency s2 = (Val tt, s3)
    /\ dump_assessments src s3 = (Val tt, s4)
    /\ for_each (t1_stakeholder src) dump_stakeholder s4 = (Val tt, s5)
    /\ for_each (t1_stakeholder_group src) dump_stakeholdergroup s5 = (Val tt, s6)
    /\ for_each (t1_job_function src) dump_jobfunction s6 = (Val tt, s7)
    /\ for_each (t1_business_service src) dump_businessservice s7 = (Val tt, s').
Proof.
  unfold dumpTackle1, dump_tagtypes, dump_applications. intros H.
  apply bind_val in H. destruct H as ([] & s1 & H1 & H).
  apply bind_val in H. destruct H as ([] & s2 & H2 & H).
  apply bind_val in H. destruct H as ([] & s3 & H3 & H).
  apply bind_val in H. destruct H as ([] & s4 & H4 & H).
  apply bind_val in H. destruct H as ([] & s5 & H5 & H).
  apply bind_val in H. destruct H as ([] & s6 & H6 & H).
  apply bind_val in H. destruct H as ([] & s7 & H7 & H).
  now exists s1, s2, s3, s4, s5, s6, s7.
Qed.

Lemma touches_run {A : Type} (ts : list string) (m : Py A) (s s' : Tackle12Import)
    (r : Res A) :
  touches ts m -> m s = (r, s') ->
  (exists ext, heap s' = heap s ++ ext)
  /\ destData s' = destData s
  /\ forall t, ~ In t ts -> data s' t = data s t.
Proof.
  intros H Hrun. specialize (H s). now rewrite Hrun in H.
Qed.

Lemma writes_run {A : Type} (ts : list string) (m : Py A) (s s' : Tackle12Import)
    (r : Res A) :
  writes ts m -> m s = (r, s') ->
  destData s' = destData s /\ forall t, ~ In t ts -> data s' t = data s t.
Proof.
  intros H Hrun. specialize (H s). now rewrite Hrun in H.
Qed.

(** *** Blocks that build one object per record *)

Lemma is_record_extend {X : Type} (mk : X -> Tackle2Object) (h ext : list Tackle2Object)
    (a : nat) (x : X) :
  mk x <> [] -> is_record mk h a x -> is_record mk (h ++ ext) a x.
Proof.
  unfold is_record. intros Hne H. now apply nth_extend.
Qed.

Lemma Forall2_is_record_extend {X : Type} (mk : X -> Tackle2Object)
    (h ext : list Tackle2Object) (C : list nat) (L : list X) :
  (forall x, mk x <> []) ->
  Forall2 (is_record mk h) C L -> Forall2 (is_record mk (h ++ ext)) C L.
Proof.
  intros Hne H. eapply Forall2_impl; [|exact H].
  intros a x. now apply is_record_extend.
Qed.

Section RecordBlock.

Variable X : Type.
Variable key : X -> Z.
Variable mk : X -> Tackle2Object.
Variable type : string.

Hypothesis mk_id : forall x, dict_get "id" (mk x) = Some (Json (JInt (key x))).

Lemma mk_nonempty (x : X) : mk x <> [].
Proof.
  intros H. specialize (mk_id x). rewrite H in mk_id. discriminate.
Qed.

Lemma is_record_int_id (h : list Tackle2Object) (a : nat) (x : X) :
  is_record mk h a x -> int_id h a = Some (key x).
Proof.
  unfold is_record, int_id, attr. intros ->. now rewrite mk_id.
Qed.

(** One record: a new object, added to the collection. *)
Lemma record_add (s : Tackle12Import) (L : list X) (x : X) :
  Forall2 (is_record mk (heap s)) (data s type) L ->
  exists s',
    add type (List.length (heap s)) (snd (new_object (mk x) s)) = (Val tt, s')
    /\ heap s' = heap s ++ [mk x]
    /\ destData s' = destData s
    /\ (forall t, t <> type -> data s' t = data s t)
    /\ Forall2 (is_record mk (heap s')) (data s' type) (add_by key L x).
Proof.
  intros HL. unfold new_object. cbn [snd].
  set (s1 := mkImport (heap s ++ [mk x]) (data s) (destData s)).
  destruct (add_by_spec key (is_record mk (heap s1)) type (List.length (heap s)) x s1 L)
    as (s' & Hrun & Hh & Hd & Hfr & HL').
  - intros a y. apply is_record_int_id.
  - apply Forall2_is_record_extend; [exact mk_nonempty | exact HL].
  - unfold is_record. apply nth_fresh.
  - exists s'. rewrite Hh. auto.
Qed.

Lemma record_block (xs : list X) :
  forall (s : Tackle12Import) (L : list X),
    Forall2 (is_record mk (heap s)) (data s type) L ->
    exists s',
      for_each xs (fun x => o <- new_object (mk x) ;; add type o) s = (Val tt, s')
      /\ (exists ext, heap s' = heap s ++ ext)
      /\ Forall2 (is_record mk (heap s')) (data s' type) (fold_left (add_by key) xs L).
Proof.
  induction xs as [|x xs IH]; intros s L HL; cbn [for_each fold_left].
  - exists s. split; [reflexivity|]. split; [exists []; now rewrite app_nil_r | exact HL].
  - destruct (record_add s L x HL) as (s1 & Hrun & Hh & _ & _ & HL1).
    destruct (IH s1 _ HL1) as (s' & Hrun' & (ext & Hh') & HL').
    exists s'. split; [|split].
    + unfold bind at 1. unfold bind at 1.
      unfold new_object at 1. unfold new_object in Hrun. cbn [snd] in Hrun.
      rewrite Hrun. exact Hrun'.
    + exists ([mk x] ++ ext). rewrite Hh', Hh. now rewrite <- app_assoc.
    + exact HL'.
Qed.

End RecordBlock.

Lemma kept_refl (t : string) (s : Tackle12Import) : kept t s s.
Proof. split; [exists []; now rewrite app_nil_r | reflexivity]. Qed.

Lemma kept_trans (t : string) (s1 s2 s3 : Tackle12Import) :
  kept t s1 s2 -> kept t s2 s3 -> kept t s1 s3.
Proof.
  intros [[e1 H1] D1] [[e2 H2] D2]. split; [|congruence].
  exists (e1 ++ e2). rewrite H2, H1. now rewrite app_assoc.
Qed.

Lemma kept_touches {A : Type} (t : string) (ts : list string) (m : Py A)
    (s s' : Tackle12Import) (r : Res A) :
  touches ts m -> ~ In t ts -> m s = (r, s') -> kept t s s'.
Proof.
  intros H Hnot Hrun. destruct (touches_run ts m s s' r H Hrun) as (Hh & _ & Hfr).
  split; [exact Hh | now apply Hfr].
Qed.

Lemma kept_is_record {X : Type} (mk : X -> Tackle2Object) (t : string)
    (s s' : Tackle12Import) (L : list X) :
  (forall x, mk x <> []) ->
  kept t s s' ->
  Forall2 (is_record mk (heap s)) (data s t) L ->
  Forall2 (is_record mk (heap s')) (data s' t) L.
Proof.
  intros Hne [[ext Hh] Hd] H. rewrite Hh, Hd.
  now apply Forall2_is_record_extend.
Qed.

Ltac not_in := simpl; intuition discriminate.

(** What the blocks before the stakeholders leave of a collection they do
    not fill. *)
Lemma before_dependencies (src : Tackle1) (s0 s1 s2 : Tackle12Import) (t : string) :
  ~ In t ["origin-tags"; "tags"; "tagtypes"; "reviews"; "applications"] ->
  for_each (t1_tag_type src) dump_tagtype s0 = (Val tt, s1) ->
  for_each (t1_application src) dump_application s1 = (Val tt, s2) ->
  data s2 t = data s0 t /\ destData s2 = destData s0.
Proof.
  intros Ht H1 H2.
  destruct (writes_run _ _ _ _ _
              (writes_for_each _ _ _ writes_dump_tagtype) H1) as [D1 F1].
  destruct (touches_run _ _ _ _ _
              (touches_for_each _ _ _ touches_dump_application) H2) as (_ & D2 & F2).
  split; [|congruence].
  rewrite F2, F1; [reflexivity | |]; simpl in *; tauto.
Qed.

(** X15.  In an export that returns, started with empty 'dependencies' and
    'businessservices' collections: 'dependencies' holds, in source order,
    the object built for the first dependency of every id (its id, users
    and the two endpoint dictionaries), and 'businessservices' holds the
    object built for the first business service of every id (its id,
    users, name, description and owner as received); a later record with
    an id already met leaves no trace. *)
Theorem record_collections :
  forall (src : Tackle1) (self0 s' : Tackle12Import),
    data self0 "dependencies" = [] ->
    data self0 "businessservices" = [] ->
    dumpTackle1 src self0 = (Val tt, s') ->
    Forall2 (is_record dependency_object (heap s'))
            (data s' "dependencies")
            (dedup_by (fun dep1 => id (dep1_base dep1)) (t1_applications_dependency src))
    /\ Forall2 (is_record businessservice_object (heap s'))
               (data s' "businessservices")
               (dedup_by (fun bs1 => id (bs1_base bs1)) (t1_business_service src)).
Proof.
  intros src self0 s' Hd0 Hb0 Hrun.
  destruct (dumpTackle1_blocks src self0 s' Hrun)
    as (s1 & s2 & s3 & s4 & s5 & s6 & s7 & H1 & H2 & H3 & H4 & H5 & H6 & H7 & H8).
  assert (K34 : forall t, ~ In t ["assessments"; "assessments--assessment-risk";
                                  "assessments--confidence"] -> kept t s3 s4)
    by (intros t Ht; exact (kept_touches t _ _ _ _ _ (touches_dump_assessments src) Ht H4)).
  assert (K45 : forall t, ~ In t ["stakeholdergroups"; "stakeholders"] -> kept t s4 s5)
    by (intros t Ht;
        exact (kept_touches t _ _ _ _ _
                 (touches_for_each _ _ _ touches_dump_stakeholder) Ht H5)).
  assert (K56 : forall t, ~ In t ["stakeholdergroups"] -> kept t s5 s6)
    by (intros t Ht;
        exact (kept_touches t _ _ _ _ _
                 (touches_for_each _ _ _
                    (fun x => touches_record "stakeholdergroups" _)) Ht H6)).
  assert (K67 : forall t, ~ In t ["jobfunctions"] -> kept t s6 s7)
    by (intros t Ht;
        exact (kept_touches t _ _ _ _ _
                 (touches_for_each _ _ _ touches_dump_jobfunction) Ht H7)).
  assert (K78 : forall t, ~ In t ["businessservices"] -> kept t s7 s')
    by (intros t Ht;
        exact (kept_touches t _ _ _ _ _
                 (touches_for_each _ _ _
                    (fun x => touches_record "businessservices" _)) Ht H8)).
  assert (K23 : forall t, ~ In t ["dependencies"] -> kept t s2 s3)
    by (intros t Ht;
        exact (kept_touches t _ _ _ _ _
                 (touches_for_each _ _ _
                    (fun x => touches_record "dependencies" _)) Ht H3)).
  split.
  - destruct (before_dependencies src self0 s1 s2 "dependencies" ltac:(not_in) H1 H2)
      as [Hd2 _].
    destruct (record_block Dependency1 (fun dep1 => id (dep1_base dep1)) dependency_object
                "dependencies" (fun x => eq_refl) (t1_applications_dependency src) s2 [])
      as (s3' & Hrun3 & _ & HL).
    { rewrite Hd2, Hd0. constructor. }
    assert (Hs : s3' = s3).
    { pose proof (eq_trans (eq_sym Hrun3) H3) as Heq. now injection Heq. }
    subst s3'.
    apply (kept_is_record dependency_object "dependencies" s3 s');
      [intros x; discriminate | | exact HL].
    apply (kept_trans _ _ s4); [apply K34; not_in|].
    apply (kept_trans _ _ s5); [apply K45; not_in|].
    apply (kept_trans _ _ s6); [apply K56; not_in|].
    apply (kept_trans _ _ s7); [apply K67; not_in | apply K78; not_in].
  - destruct (before_dependencies src self0 s1 s2 "businessservices" ltac:(not_in) H1 H2)
      as [Hb2 _].
    assert (Hb7 : data s7 "businessservices" = []).
    { destruct (K67 "businessservices" ltac:(not_in)) as [_ ->].
      destruct (K56 "businessservices" ltac:(not_in)) as [_ ->].
      destruct (K45 "businessservices" ltac:(not_in)) as [_ ->].
      destruct (K34 "businessservices" ltac:(not_in)) as [_ ->].
      destruct (K23 "businessservices" ltac:(not_in)) as [_ ->].
      now rewrite Hb2. }
    destruct (record_block BusinessService1 (fun bs1 => id (bs1_base bs1))
                businessservice_object "businessservices" (fun x => eq_refl)
                (t1_business_service src) s7 [])
      as (s8 & Hrun8 & _ & HL).
    { rewrite Hb7. constructor. }
    assert (Hs : s8 = s').
    { pose proof (eq_trans (eq_sym Hrun8) H8) as Heq. now injection Heq. }
    now subst s8.
Qed.

Lemma record_collections_witness :
  Forall2 (is_record dependency_object
             (heap (snd (dumpTackle1 sample_source_people sample_seeded))))
          (data (snd (dumpTackle1 sample_source_people sample_seeded)) "dependencies")
          (dedup_by (fun dep1 => id (dep1_base dep1))
                    (t1_applications_dependency sample_source_people))
  /\ Forall2 (is_record businessservice_object
                (heap (snd (dumpTackle1 sample_source_people sample_seeded))))
             (data (snd (dumpTackle1 sample_source_people sample_seeded)) "businessservices")
             (dedup_by (fun bs1 => id (bs1_base bs1))
                       (t1_business_service sample_source_people)).
Proof.
  apply (record_collections sample_source_people sample_seeded
           (snd (dumpTackle1 sample_source_people sample_seeded))).
  - reflexivity.
  - reflexivity.
  - rewrite (surjective_pairing (dumpTackle1 sample_source_people sample_seeded)) at 1.
    f_equal.
Defined.

(** *** Stakeholders and their groups *)

Lemma is_stakeholder_extend (h ext : list Tackle2Object) (a : nat) (sh1 : Stakeholder1) :
  is_stakeholder h a sh1 -> is_stakeholder (h ++ ext) a sh1.
Proof.
  intros (shgs & Ho & Hg). exists shgs. split.
  - apply nth_extend; [exact Ho | discriminate].
  - apply Forall2_is_record_extend; [intros x; discriminate | exact Hg].
Qed.

Lemma is_stakeholder_int_id (h : list Tackle2Object) (a : nat) (sh1 : Stakeholder1) :
  is_stakeholder h a sh1 -> int_id h a = Some (id (sh1_base sh1)).
Proof.
  intros (shgs & Ho & _). unfold int_id, attr. now rewrite Ho.
Qed.

Lemma jobFunction_falsy (sh1 : Stakeholder1) (sh : nat) (s s' : Tackle12Import) (u : unit) :
  dump_stakeholder_jobFunction sh1 sh s = (Val u, s') ->
  truthy (sh1_jobFunction sh1) = false /\ s' = s.
Proof.
  intros H. split; [|exact (jobFunction_state _ _ _ _ _ H)].
  destruct (truthy (sh1_jobFunction sh1)) eqn:Et; [|reflexivity].
  destruct (dump_stakeholder_jobFunction_raises sh1 sh s Et) as (e & He & _).
  congruence.
Qed.

(** The groups nested in one stakeholder. *)
Lemma stakeholder_groups_run (groups : list StakeholderGroup1) :
  forall (s : Tackle12Import) (L : list StakeholderGroup1),
    Forall2 (is_record stakeholdergroup_object (heap s)) (data s "stakeholdergroups") L ->
    exists shgs s',
      map_each groups (fun shg1 =>
        shg <- new_object (stakeholdergroup_object shg1) ;;
        add "stakeholdergroups" shg ;;;
        ret shg) s = (Val shgs, s')
      /\ (exists ext, heap s' = heap s ++ ext)
      /\ destData s' = destData s
      /\ (forall t, t <> "stakeholdergroups" -> data s' t = data s t)
      /\ Forall2 (is_record stakeholdergroup_object (heap s'))
                 (data s' "stakeholdergroups")
                 (fold_left (add_by (fun g => id (shg1_base g))) groups L)
      /\ Forall2 (is_record stakeholdergroup_object (heap s')) shgs groups.
Proof.
  induction groups as [|g groups IH]; intros s L HL; cbn [map_each fold_left].
  - exists [], s. split; [reflexivity|]. split; [exists []; now rewrite app_nil_r|].
    split; [reflexivity|]. split; [reflexivity|]. split; [exact HL | constructor].
  - destruct (record_add StakeholderGroup1 (fun g => id (shg1_base g))
                stakeholdergroup_object "stakeholdergroups" (fun x => eq_refl) s L g HL)
      as (s1 & Hrun & Hh & Hd & Hfr & HL1).
    destruct (IH s1 _ HL1) as (shgs & s' & Hrun' & (ext & Hh') & Hd' & Hfr' & HL' & Hys).
    exists (List.length (heap s) :: shgs), s'. split; [|split; [|split; [|split; [|split]]]].
    + unfold bind at 1. unfold bind at 1. unfold new_object at 1.
      unfold new_object in Hrun. cbn [snd] in Hrun.
      unfold bind at 1. rewrite Hrun. unfold ret at 1.
      unfold bind at 1. rewrite Hrun'. reflexivity.
    + exists ([stakeholdergroup_object g] ++ ext). rewrite Hh', Hh. now rewrite <- app_assoc.
    + congruence.
    + intros t Ht. rewrite Hfr' by exact Ht. now apply Hfr.
    + exact HL'.
    + constructor; [|exact Hys].
      rewrite Hh', Hh. apply is_record_extend; [discriminate|].
      unfold is_record. apply nth_fresh.
Qed.

Lemma fold_add_by_dedup {X : Type} (key : X -> Z) (l l' : list X) :
  fold_left (add_by key) l' (dedup_by key l) = dedup_by key (l ++ l').
Proof.
  unfold dedup_by. now rewrite fold_left_app.
Qed.

(** One stakeholder, when its processing returns. *)
Lemma dump_stakeholder_run (sh1 : Stakeholder1) (s s' : Tackle12Import)
    (LG : list StakeholderGroup1) (LS : list Stakeholder1) :
  Forall2 (is_record stakeholdergroup_object (heap s)) (data s "stakeholdergroups") LG ->
  Forall2 (is_stakeholder (heap s)) (data s "stakeholders") LS ->
  dump_stakeholder sh1 s = (Val tt, s') ->
  truthy (sh1_jobFunction sh1) = false
  /\ Forall2 (is_record stakeholdergroup_object (heap s')) (data s' "stakeholdergroups")
             (fold_left (add_by (fun g => id (shg1_base g))) (sh1_stakeholderGroups sh1) LG)
  /\ Forall2 (is_stakeholder (heap s')) (data s' "stakeholders")
             (add_by (fun sh1 => id (sh1_base sh1)) LS sh1).
Proof.
  intros HG HS Hrun. unfold dump_stakeholder in Hrun.
  destruct (stakeholder_groups_run (sh1_stakeholderGroups sh1) s LG HG)
    as (shgs & s1 & Hrun1 & (ext & Hh1) & Hd1 & Hfr1 & HG1 & Hys).
  unfold bind at 1 in Hrun. rewrite Hrun1 in Hrun.
  unfold bind at 1 in Hrun. unfold new_object at 1 in Hrun.
  change (with_attrs (Tackle2Object_init (Some (sh1_base sh1)))
            [("name", Json (sh1_displayName sh1)); ("email", Json (sh1_email sh1));
             ("groups", ObjList shgs)])
    with (stakeholder_object sh1 shgs) in Hrun.
  set (s2 := mkImport (heap s1 ++ [stakeholder_object sh1 shgs]) (data s1) (destData s1))
    in Hrun.
  apply bind_val in Hrun. destruct Hrun as (u & s3 & Hjf & Hadd).
  destruct (jobFunction_falsy _ _ _ _ _ Hjf) as [Hfalsy ->].
  split; [exact Hfalsy|].
  assert (HS2 : Forall2 (is_stakeholder (heap s2)) (data s2 "stakeholders") LS).
  { cbn [heap data s2]. rewrite Hfr1 by discriminate. rewrite Hh1, <- app_assoc.
    eapply Forall2_impl; [|exact HS]. intros a x. apply is_stakeholder_extend. }
  assert (Hnew : is_stakeholder (heap s2) (List.length (heap s1)) sh1).
  { exists shgs. cbn [heap s2]. split; [apply nth_fresh|].
    apply Forall2_is_record_extend; [intros x; discriminate | exact Hys]. }
  destruct (add_by_spec (fun sh1 => id (sh1_base sh1)) (is_stakeholder (heap s2))
              "stakeholders" (List.length (heap s1)) sh1 s2 LS
              (is_stakeholder_int_id (heap s2)) HS2 Hnew)
    as (s4 & Hrun4 & Hh4 & _ & Hfr4 & HS4).
  rewrite Hrun4 in Hadd. injection Hadd as <-.
  rewrite Hh4. split; [|exact HS4].
  rewrite Hfr4 by discriminate. cbn [heap data s2].
  apply Forall2_is_record_extend; [intros x; discriminate | exact HG1].
Qed.

Lemma stakeholders_block_run (shs : list Stakeholder1) :
  forall (s s' : Tackle12Import) (pre : list Stakeholder1),
    Forall2 (is_record stakeholdergroup_object (heap s)) (data s "stakeholdergroups")
            (dedup_by (fun g => id (shg1_base g)) (flat_map sh1_stakeholderGroups pre)) ->
    Forall2 (is_stakeholder (heap s)) (data s "stakeholders")
            (dedup_by (fun sh1 => id (sh1_base sh1)) pre) ->
    for_each shs dump_stakeholder s = (Val tt, s') ->
    Forall (fun sh1 => truthy (sh1_jobFunction sh1) = false) shs
    /\ Forall2 (is_record stakeholdergroup_object (heap s')) (data s' "stakeholdergroups")
               (dedup_by (fun g => id (shg1_base g))
                         (flat_map sh1_stakeholderGroups (pre ++ shs)))
    /\ Forall2 (is_stakeholder (heap s')) (data s' "stakeholders")
               (dedup_by (fun sh1 => id (sh1_base sh1)) (pre ++ shs)).
Proof.
  induction shs as [|sh1 shs IH]; intros s s' pre HG HS Hrun; cbn [for_each] in Hrun.
  - injection Hrun as <-. rewrite app_nil_r. split; [constructor | auto].
  - apply bind_val in Hrun. destruct Hrun as ([] & s1 & Hrun1 & Hrun).
    destruct (dump_stakeholder_run sh1 s s1 _ _ HG HS Hrun1) as (Hf & HG1 & HS1).
    rewrite fold_add_by_dedup in HG1. rewrite <- dedup_by_snoc in HS1.
    replace (flat_map sh1_stakeholderGroups pre ++ sh1_stakeholderGroups sh1)
      with (flat_map sh1_stakeholderGroups (pre ++ [sh1])) in HG1
      by (rewrite flat_map_app; cbn; now rewrite app_nil_r).
    destruct (IH s1 s' (pre ++ [sh1]) HG1 HS1 Hrun) as (Hfs & HG' & HS').
    rewrite <- app_assoc in HG', HS'. split; [constructor; assumption | auto].
Qed.

(** X16.  In an export that returns, started with empty 'stakeholders' and
    'stakeholdergroups' collections: no stakeholder of the source carries a
    job function; 'stakeholders' holds the object built for the first
    stakeholder of every id, with its id, users, display name as [name],
    email and, as [groups], one object per group of its payload and no
    [jobFunction]; 'stakeholdergroups' holds the object built for the first
    group of every id among the groups nested in the stakeholders followed
    by the listed groups. *)
Theorem stakeholder_collections :
  forall (src : Tackle1) (self0 s' : Tackle12Import),
    data self0 "stakeholders" = [] ->
    data self0 "stakeholdergroups" = [] ->
    dumpTackle1 src self0 = (Val tt, s') ->
    Forall (fun sh1 => truthy (sh1_jobFunction sh1) = false) (t1_stakeholder src)
    /\ Forall2 (is_stakeholder (heap s')) (data s' "stakeholders")
               (dedup_by (fun sh1 => id (sh1_base sh1)) (t1_stakeholder src))
    /\ Forall2 (is_record stakeholdergroup_object (heap s')) (data s' "stakeholdergroups")
               (dedup_by (fun g => id (shg1_base g)) (all_stakeholdergroups src)).
Proof.
  intros src self0 s' Hs0 Hg0 Hrun.
  destruct (dumpTackle1_blocks src self0 s' Hrun)
    as (s1 & s2 & s3 & s4 & s5 & s6 & s7 & H1 & H2 & H3 & H4 & H5 & H6 & H7 & H8).
  assert (K23 : forall t, ~ In t ["dependencies"] -> kept t s2 s3)
    by (intros t Ht;
        exact (kept_touches t _ _ _ _ _
                 (touches_for_each _ _ _
                    (fun x => touches_record "dependencies" _)) Ht H3)).
  assert (K34 : forall t, ~ In t ["assessments"; "assessments--assessment-risk";
                                  "assessments--confidence"] -> kept t s3 s4)
    by (intros t Ht; exact (kept_touches t _ _ _ _ _ (touches_dump_assessments src) Ht H4)).
  assert (K56 : forall t, ~ In t ["stakeholdergroups"] -> kept t s5 s6)
    by (intros t Ht;
        exact (kept_touches t _ _ _ _ _
                 (touches_for_each _ _ _
                    (fun x => touches_record "stakeholdergroups" _)) Ht H6)).
  assert (K67 : forall t, ~ In t ["jobfunctions"] -> kept t s6 s7)
    by (intros t Ht;
        exact (kept_touches t _ _ _ _ _
                 (touches_for_each _ _ _ touches_dump_jobfunction) Ht H7)).
  assert (K78 : forall t, ~ In t ["businessservices"] -> kept t s7 s')
    by (intros t Ht;
        exact (kept_touches t _ _ _ _ _
                 (touches_for_each _ _ _
                    (fun x => touches_record "businessservices" _)) Ht H8)).
  assert (E4 : forall t, ~ In t ["origin-tags"; "tags"; "tagtypes"; "reviews";
                                 "applications"; "dependencies"; "assessments";
                                 "assessments--assessment-risk";
                                 "assessments--confidence"] ->
                         data s4 t = data self0 t).
  { intros t Ht.
    destruct (K34 t) as [_ ->]; [simpl in *; tauto|].
    destruct (K23 t) as [_ ->]; [simpl in *; tauto|].
    apply (before_dependencies src self0 s1 s2 t); [simpl in *; tauto | exact H1 | exact H2]. }
  destruct (stakeholders_block_run (t1_stakeholder src) s4 s5 []) as (Hf & HG5 & HS5).
  { rewrite E4, Hg0 by not_in. constructor. }
  { rewrite E4, Hs0 by not_in. constructor. }
  { exact H5. }
  cbn [app] in HG5, HS5.
  split; [exact Hf|]. split.
  - apply Forall2_impl with (R := is_stakeholder (heap s5)).
    + intros a x Ha.
      destruct (kept_trans _ _ _ _ (K56 "stakeholders" ltac:(not_in))
                  (kept_trans _ _ _ _ (K67 "stakeholders" ltac:(not_in))
                     (K78 "stakeholders" ltac:(not_in)))) as [[ext ->] _].
      now apply is_stakeholder_extend.
    + destruct (kept_trans _ _ _ _ (K56 "stakeholders" ltac:(not_in))
                  (kept_trans _ _ _ _ (K67 "stakeholders" ltac:(not_in))
                     (K78 "stakeholders" ltac:(not_in)))) as [_ ->].
      exact HS5.
  - destruct (record_block StakeholderGroup1 (fun g => id (shg1_base g))
                stakeholdergroup_object "stakeholdergroups" (fun x => eq_refl)
                (t1_stakeholder_group src) s5 _ HG5)
      as (s6' & Hrun6 & _ & HL).
    assert (Hs : s6' = s6).
    { pose proof (eq_trans (eq_sym Hrun6) H6) as Heq. now injection Heq. }
    subst s6'. rewrite fold_add_by_dedup in HL.
    apply (kept_is_record stakeholdergroup_object "stakeholdergroups" s6 s');
      [intros x; discriminate | | exact HL].
    apply (kept_trans _ _ s7); [apply K67; not_in | apply K78; not_in].
Qed.

Lemma stakeholder_collections_witness :
  Forall (fun sh1 => truthy (sh1_jobFunction sh1) = false) (t1_stakeholder sample_source_people)
  /\ Forall2 (is_stakeholder (heap (snd (dumpTackle1 sample_source_people sample_seeded))))
             (data (snd (dumpTackle1 sample_source_people sample_seeded)) "stakeholders")
             (dedup_by (fun sh1 => id (sh1_base sh1)) (t1_stakeholder sample_source_people))
  /\ Forall2 (is_record stakeholdergroup_object
                (heap (snd (dumpTackle1 sample_source_people sample_seeded))))
             (data (snd (dumpTackle1 sample_source_people sample_seeded)) "stakeholdergroups")
             (dedup_by (fun g => id (shg1_base g)) (all_stakeholdergroups sample_source_people)).
Proof.
  apply (stakeholder_collections sample_source_people sample_seeded
           (snd (dumpTackle1 sample_source_people sample_seeded))).
  - reflexivity.
  - reflexivity.
  - rewrite (surjective_pairing (dumpTackle1 sample_source_people sample_seeded)) at 1.
    f_equal.
Defined.

(** The sample source of people, exported: the group 1 nested in the
    stakeholder wins over the listed one, the job function the destination
    has is left out, the second business service 6 leaves no trace. *)
Example people_scenario :
  let s := snd (dumpTackle1 sample_source_people sample_seeded) in
  fst (dumpTackle1 sample_source_people sample_seeded) = Val tt
  /\ map (fun a => attr (heap s) a "name") (data s "stakeholdergroups")
     = [Some (Json (JStr "Core")); Some (Json (JStr "Ops"))]
  /\ map (fun a => attr (heap s) a "name") (data s "jobfunctions")
     = [Some (Json (JStr "Tester"))]
  /\ map (fun a => attr (heap s) a "name") (data s "businessservices")
     = [Some (Json (JStr "Retail"))].
Proof.
  vm_compute. repeat split; reflexivity.
Qed.

(* ===================================================================== *)
(** ** Job functions: deduplication by role *)
(* ===================================================================== *)

Lemma alloc_each {X : Type} (mk : X -> Tackle2Object) (xs : list X) :
  (forall x, mk x <> []) ->
  forall s : Tackle12Import,
  exists ys s',
    map_each xs (fun x => new_object (mk x)) s = (Val ys, s')
    /\ heap s' = heap s ++ map mk xs
    /\ data s' = data s
    /\ destData s' = destData s
    /\ Forall2 (is_record mk (heap s')) ys xs.
Proof.
  intros Hne. induction xs as [|x xs IH]; intros s; cbn [map_each map].
  - exists [], s. rewrite app_nil_r. repeat split; auto.
  - destruct (IH (mkImport (heap s ++ [mk x]) (data s) (destData s)))
      as (ys & s' & Hrun & Hh & Hd & Hdd & Hys).
    cbn [heap data destData] in *.
    exists (List.length (heap s) :: ys), s'. split; [|split; [|split; [|split]]].
    + unfold bind at 1. unfold new_object at 1. unfold bind at 1.
      rewrite Hrun. reflexivity.
    + rewrite Hh, <- app_assoc. reflexivity.
    + exact Hd.
    + exact Hdd.
    + constructor; [|exact Hys].
      unfold is_record. rewrite Hh. apply nth_extend; [apply nth_fresh | apply Hne].
Qed.

Lemma is_jobfunction_extend (h ext : list Tackle2Object) (a : nat) (jf1 : JobFunction1) :
  is_jobfunction h a jf1 -> is_jobfunction (h ++ ext) a jf1.
Proof.
  intros (shs & Ho & Hs). exists shs. split.
  - apply nth_extend; [exact Ho | discriminate].
  - apply Forall2_is_record_extend; [intros x; discriminate | exact Hs].
Qed.

Lemma is_jobfunction_int_id (h : list Tackle2Object) (a : nat) (jf1 : JobFunction1) :
  is_jobfunction h a jf1 -> int_id h a = Some (id (jf1_base jf1)).
Proof.
  intros (shs & Ho & _). unfold int_id, attr. now rewrite Ho.
Qed.

Lemma dump_jobfunction_run (jf1 : JobFunction1) (s : Tackle12Import) (L : list JobFunction1) :
  Forall2 (is_jobfunction (heap s)) (data s "jobfunctions") L ->
  exists s',
    dump_jobfunction jf1 s = (Val tt, s')
    /\ (exists ext, heap s' = heap s ++ ext)
    /\ destData s' = destData s
    /\ Forall2 (is_jobfunction (heap s')) (data s' "jobfunctions")
               (if negb (dict_has (jf1_role jf1) (destData s "jobfunctions"))
                then add_by (fun jf1 => id (jf1_base jf1)) L jf1 else L).
Proof.
  intros HL. unfold dump_jobfunction.
  destruct (alloc_each stakeholder_ref_object (jf1_stakeholders jf1)
              ltac:(intros x; discriminate) s)
    as (shs & s1 & Hrun1 & Hh1 & Hd1 & Hdd1 & Hshs).
  change (map_each (jf1_stakeholders jf1) (fun x => new_object (stakeholder_ref_object x)))
    with (map_each (jf1_stakeholders jf1) (fun sh1 =>
            new_object (with_attrs (Tackle2Object_init (Some (shr1_base sh1)))
                          [("name", Json (shr1_displayName sh1));
                           ("email", Json (shr1_email sh1))]))) in Hrun1.
  unfold bind at 1. rewrite Hrun1.
  unfold bind at 1. unfold new_object at 1.
  change (with_attrs (Tackle2Object_init (Some (jf1_base jf1)))
            [("name", Json (JStr (jf1_role jf1))); ("stakeholders", ObjList shs)])
    with (jobfunction_object jf1 shs).
  set (s2 := mkImport (heap s1 ++ [jobfunction_object jf1 shs]) (data s1) (destData s1)).
  unfold bind at 1. unfold gets at 1. cbn [destData s2]. rewrite Hdd1.
  assert (HL2 : Forall2 (is_jobfunction (heap s2)) (data s2 "jobfunctions") L).
  { cbn [heap data s2]. rewrite Hd1, Hh1, <- app_assoc.
    eapply Forall2_impl; [|exact HL]. intros a x. apply is_jobfunction_extend. }
  assert (Hext : exists ext, heap s2 = heap s ++ ext).
  { cbn [heap s2]. rewrite Hh1, <- app_assoc. eauto. }
  destruct (negb (dict_has (jf1_role jf1) (destData s "jobfunctions"))).
  - assert (Hnew : is_jobfunction (heap s2) (List.length (heap s1)) jf1).
    { exists shs. cbn [heap s2]. split; [apply nth_fresh|].
      apply Forall2_is_record_extend; [intros x; discriminate | exact Hshs]. }
    destruct (add_by_spec (fun jf1 => id (jf1_base jf1)) (is_jobfunction (heap s2))
                "jobfunctions" (List.length (heap s1)) jf1 s2 L
                (is_jobfunction_int_id (heap s2)) HL2 Hnew)
      as (s3 & Hrun3 & Hh3 & Hdd3 & _ & HL3).
    exists s3. split; [exact Hrun3|]. rewrite Hh3. split; [exact Hext|].
    split; [now rewrite Hdd3 | exact HL3].
  - exists s2. split; [reflexivity|]. split; [exact Hext|]. split; [exact Hdd1 | exact HL2].
Qed.

Lemma new_jobfunctions_snoc (self0 : Tackle12Import) (l : list JobFunction1)
    (jf1 : JobFunction1) :
  dedup_by (fun jf1 => id (jf1_base jf1)) (new_jobfunctions self0 (l ++ [jf1]))
  = if negb (dict_has (jf1_role jf1) (destData self0 "jobfunctions"))
    then add_by (fun jf1 => id (jf1_base jf1))
                (dedup_by (fun jf1 => id (jf1_base jf1)) (new_jobfunctions self0 l)) jf1
    else dedup_by (fun jf1 => id (jf1_base jf1)) (new_jobfunctions self0 l).
Proof.
  unfold new_jobfunctions. rewrite filter_app. cbn [filter].
  destruct (negb (dict_has (jf1_role jf1) (destData self0 "jobfunctions"))).
  - apply dedup_by_snoc.
  - now rewrite app_nil_r.
Qed.

Lemma jobfunctions_block_run (self0 : Tackle12Import) (jfs : list JobFunction1) :
  forall (s : Tackle12Import) (pre : list JobFunction1),
    destData s = destData self0 ->
    Forall2 (is_jobfunction (heap s)) (data s "jobfunctions")
            (dedup_by (fun jf1 => id (jf1_base jf1)) (new_jobfunctions self0 pre)) ->
    exists s',
      for_each jfs dump_jobfunction s = (Val tt, s')
      /\ Forall2 (is_jobfunction (heap s')) (data s' "jobfunctions")
                 (dedup_by (fun jf1 => id (jf1_base jf1))
                           (new_jobfunctions self0 (pre ++ jfs))).
Proof.
  induction jfs as [|jf1 jfs IH]; intros s pre Hdd HL; cbn [for_each].
  - exists s. rewrite app_nil_r. auto.
  - destruct (dump_jobfunction_run jf1 s _ HL) as (s1 & Hrun1 & _ & Hdd1 & HL1).
    rewrite Hdd, <- new_jobfunctions_snoc in HL1.
    destruct (IH s1 (pre ++ [jf1]) ltac:(congruence) HL1) as (s' & Hrun' & HL').
    exists s'. unfold bind. rewrite Hrun1. split; [exact Hrun'|].
    now rewrite <- app_assoc in HL'.
Qed.

(** X17.  In an export that returns, started with an empty 'jobfunctions'
    collection: a job function of the source whose role is a name of the
    destination's index of job functions is left out; of the others,
    'jobfunctions' holds the object built for the first one of every id,
    with the role as [name] and, as [stakeholders], one object per
    stakeholder of its payload. *)
Theorem jobfunctions_deduplicated_by_role :
  forall (src : Tackle1) (self0 s' : Tackle12Import),
    data self0 "jobfunctions" = [] ->
    dumpTackle1 src self0 = (Val tt, s') ->
    Forall2 (is_jobfunction (heap s')) (data s' "jobfunctions")
            (dedup_by (fun jf1 => id (jf1_base jf1))
                      (new_jobfunctions self0 (t1_job_function src))).
Proof.
  intros src self0 s' Hj0 Hrun.
  destruct (dumpTackle1_blocks src self0 s' Hrun)
    as (s1 & s2 & s3 & s4 & s5 & s6 & s7 & H1 & H2 & H3 & H4 & H5 & H6 & H7 & H8).
  destruct (before_dependencies src self0 s1 s2 "jobfunctions" ltac:(not_in) H1 H2)
    as [D2 DD2].
  destruct (touches_run _ _ _ _ _
              (touches_for_each _ _ _ (fun x => touches_record "dependencies" _)) H3)
    as (_ & DD3 & F3).
  destruct (touches_run _ _ _ _ _ (touches_dump_assessments src) H4) as (_ & DD4 & F4).
  destruct (touches_run _ _ _ _ _ (touches_for_each _ _ _ touches_dump_stakeholder) H5)
    as (_ & DD5 & F5).
  destruct (touches_run _ _ _ _ _
              (touches_for_each _ _ _ (fun x => touches_record "stakeholdergroups" _)) H6)
    as (_ & DD6 & F6).
  assert (D6 : data s6 "jobfunctions" = []).
  { rewrite F6, F5, F4, F3 by not_in. now rewrite D2. }
  assert (DD : destData s6 = destData self0) by congruence.
  destruct (jobfunctions_block_run self0 (t1_job_function src) s6 [] DD) as (s7' & Hrun7 & HL).
  { rewrite D6. constructor. }
  assert (Hs : s7' = s7).
  { pose proof (eq_trans (eq_sym Hrun7) H7) as Heq. now injection Heq. }
  subst s7'. cbn [app] in HL.
  destruct (kept_touches "jobfunctions" ["businessservices"] _ _ _ _
              (touches_for_each _ _ _ (fun x => touches_record "businessservices" _))
              ltac:(not_in) H8) as [[ext ->] ->].
  eapply Forall2_impl; [|exact HL]. intros a x. apply is_jobfunction_extend.
Qed.

Lemma jobfunctions_deduplicated_by_role_witness :
  Forall2 (is_jobfunction (heap (snd (dumpTackle1 sample_source_people sample_seeded))))
          (data (snd (dumpTackle1 sample_source_people sample_seeded)) "jobfunctions")
          (dedup_by (fun jf1 => id (jf1_base jf1))
                    (new_jobfunctions sample_seeded (t1_job_function sample_source_people))).
Proof.
  apply (jobfunctions_deduplicated_by_role sample_source_people sample_seeded
           (snd (dumpTackle1 sample_source_people sample_seeded))).
  - reflexivity.
  - rewrite (surjective_pairing (dumpTackle1 sample_source_people sample_seeded)) at 1.
    f_equal.
Defined.

(* ===================================================================== *)
(** ** Tag types: deduplication by name *)
(* ===================================================================== *)

Lemma steady_touches {A : Type} (ts : list string) (m : Py A) :
  touches ts m -> steady m.
Proof.
  intros H s. destruct (H s) as ((ext & ->) & _). apply evolves_extend. lia.
Qed.

Lemma steady_bind {A B : Type} (m : Py A) (f : A -> Py B) :
  steady m -> (forall a, steady (f a)) -> steady (bind m f).
Proof.
  intros Hm Hf s. unfold bind. specialize (Hm s).
  destruct (m s) as [[a | e] s1]; cbn [snd] in *; [|exact Hm].
  exact (evolves_trans _ _ _ _ Hm (Hf a s1)).
Qed.

Lemma steady_for_each {X : Type} (xs : list X) (body : X -> Py unit) :
  (forall x, steady (body x)) -> steady (for_each xs body).
Proof.
  intros H. induction xs as [|x xs IH]; cbn [for_each].
  - intros s. apply evolves_refl.
  - apply steady_bind; [apply H | intros _; exact IH].
Qed.

Lemma steady_setattr (a : nat) (k : string) (v : PyVal) :
  k <> "id" -> k <> "name" -> steady (setattr a k v).
Proof.
  intros H1 H2 s. cbn. apply evolves_setattr; [lia | exact H1 | exact H2].
Qed.

Lemma evolves_is_tagtype (h h' : list Tackle2Object) (a : nat) (tt1 : TagType1) :
  evolves 0 h h' -> is_tagtype h a tt1 -> is_tagtype h' a tt1.
Proof.
  intros Hev [Hi Hn]. pose proof (int_id_valid h a _ Hi) as Hv. split.
  - exact (evolves_int_id 0 h h' a _ Hev Hi).
  - destruct Hev as (_ & _ & C). destruct (C a Hv) as [_ ->]. exact Hn.
Qed.

(** What [dump_tagtype] does before it decides on the tag type: the tags,
    the tag type object, the copies. *)
Lemma tagtype_copies_steady (tags : list nat) (tt_ : nat) :
  steady (for_each tags (fun tag => c <- deepcopy tt_ ;; setattr tag "tagType" (Obj c)))
  /\ writes [] (for_each tags (fun tag =>
                  c <- deepcopy tt_ ;; setattr tag "tagType" (Obj c))).
Proof.
  split.
  - apply steady_for_each. intros tag. apply steady_bind.
    + apply (steady_touches []). unfold deepcopy. touches_steps.
    + intros c. apply steady_setattr; discriminate.
  - apply writes_for_each. intros tag. apply writes_bind.
    + apply touches_writes. unfold deepcopy. touches_steps.
    + intros c. apply writes_setattr.
Qed.

Lemma touches_dump_tags (tags1 : list Tag1) :
  touches ["origin-tags"; "tags"] (map_each tags1 dump_tag).
Proof.
  unfold dump_tag. touches_steps. destruct (negb _); touches_steps.
Qed.

Lemma dump_tagtype_run (tt1 : TagType1) (s s' : Tackle12Import) (L : list TagType1) :
  Forall2 (is_tagtype (heap s)) (data s "tagtypes") L ->
  dump_tagtype tt1 s = (Val tt, s') ->
  destData s' = destData s
  /\ evolves 0 (heap s) (heap s')
  /\ Forall2 (is_tagtype (heap s')) (data s' "tagtypes")
             (if negb (dict_has (tt1_name tt1) (destData s "tagtypes"))
              then add_by (fun tt1 => id (tt1_base tt1)) L tt1 else L).
Proof.
  intros HL Hrun. unfold dump_tagtype in Hrun.
  apply bind_val in Hrun. destruct Hrun as (tags & s1 & H1 & Hrun).
  destruct (touches_run _ _ _ _ _ (touches_dump_tags (tt1_tags tt1)) H1)
    as ((ext1 & Hh1) & Hdd1 & Hfr1).
  apply bind_val in Hrun. destruct Hrun as (tt_ & s2 & H2 & Hrun).
  unfold new_object in H2. injection H2 as <- <-.
  set (s2 := mkImport (heap s1 ++ [_]) (data s1) (destData s1)) in Hrun.
  apply bind_val in Hrun. destruct Hrun as ([] & s3 & H3 & Hrun).
  destruct (tagtype_copies_steady tags (List.length (heap s1))) as [Hst Hwr].
  pose proof (Hst s2) as Hev3. rewrite H3 in Hev3. cbn [snd] in Hev3.
  destruct (writes_run _ _ _ _ _ Hwr H3) as [Hdd3 Hfr3].
  apply bind_val in Hrun. destruct Hrun as ([] & s4 & H4 & Hrun).
  unfold setattr, modify in H4. injection H4 as <-.
  set (s4 := mkImport _ (data s3) (destData s3)) in Hrun.
  assert (Hev4 : evolves 0 (heap s3) (heap s4))
    by (apply evolves_setattr; [lia | discriminate | discriminate]).
  assert (Hev : evolves 0 (heap s) (heap s4)).
  { apply (evolves_trans _ _ (heap s2)).
    - cbn [heap s2]. rewrite Hh1, <- app_assoc. apply evolves_extend. lia.
    - exact (evolves_trans _ _ _ _ Hev3 Hev4). }
  assert (Hdd4 : destData s4 = destData s) by (cbn [destData s4 s2] in *; congruence).
  assert (Hd4 : data s4 "tagtypes" = data s "tagtypes").
  { cbn [data s4]. rewrite Hfr3 by (intros []). cbn [data s2]. apply Hfr1. not_in. }
  assert (HL4 : Forall2 (is_tagtype (heap s4)) (data s4 "tagtypes") L).
  { rewrite Hd4. eapply Forall2_impl; [|exact HL].
    intros a x. now apply evolves_is_tagtype. }
  assert (Hnew : is_tagtype (heap s4) (List.length (heap s1)) tt1).
  { apply (evolves_is_tagtype (heap s2)); [exact (evolves_trans _ _ _ _ Hev3 Hev4)|].
    cbn [heap s2]. split.
    - unfold int_id. rewrite attr_alloc_new. reflexivity.
    - rewrite attr_alloc_new. reflexivity. }
  unfold bind at 1 in Hrun. unfold gets at 1 in Hrun. rewrite Hdd4 in Hrun.
  destruct (negb (dict_has (tt1_name tt1) (destData s "tagtypes"))).
  - destruct (add_by_spec (fun tt1 => id (tt1_base tt1)) (is_tagtype (heap s4))
                "tagtypes" (List.length (heap s1)) tt1 s4 L
                (fun a y H => proj1 H) HL4 Hnew)
      as (s5 & Hrun5 & Hh5 & Hdd5 & _ & HL5).
    rewrite Hrun5 in Hrun. injection Hrun as <-.
    rewrite Hh5. split; [congruence|]. split; [exact Hev | exact HL5].
  - injection Hrun as <-. split; [exact Hdd4|]. split; [exact Hev | exact HL4].
Qed.

Lemma new_tagtypes_snoc (self0 : Tackle12Import) (l : list TagType1) (tt1 : TagType1) :
  dedup_by (fun tt1 => id (tt1_base tt1)) (new_tagtypes self0 (l ++ [tt1]))
  = if negb (dict_has (tt1_name tt1) (destData self0 "tagtypes"))
    then add_by (fun tt1 => id (tt1_base tt1))
                (dedup_by (fun tt1 => id (tt1_base tt1)) (new_tagtypes self0 l)) tt1
    else dedup_by (fun tt1 => id (tt1_base tt1)) (new_tagtypes self0 l).
Proof.
  unfold new_tagtypes. rewrite filter_app. cbn [filter].
  destruct (negb (dict_has (tt1_name tt1) (destData self0 "tagtypes"))).
  - apply dedup_by_snoc.
  - now rewrite app_nil_r.
Qed.

Lemma tagtypes_block_run (self0 : Tackle12Import) (tts : list TagType1) :
  forall (s s' : Tackle12Import) (pre : list TagType1),
    destData s = destData self0 ->
    Forall2 (is_tagtype (heap s)) (data s "tagtypes")
            (dedup_by (fun tt1 => id (tt1_base tt1)) (new_tagtypes self0 pre)) ->
    for_each tts dump_tagtype s = (Val tt, s') ->
    Forall2 (is_tagtype (heap s')) (data s' "tagtypes")
            (dedup_by (fun tt1 => id (tt1_base tt1)) (new_tagtypes self0 (pre ++ tts))).
Proof.
  induction tts as [|tt1 tts IH]; intros s s' pre Hdd HL Hrun; cbn [for_each] in Hrun.
  - injection Hrun as <-. now rewrite app_nil_r.
  - apply bind_val in Hrun. destruct Hrun as ([] & s1 & H1 & Hrun).
    destruct (dump_tagtype_run tt1 s s1 _ HL H1) as (Hdd1 & _ & HL1).
    rewrite Hdd, <- new_tagtypes_snoc in HL1.
    specialize (IH s1 s' (pre ++ [tt1]) ltac:(congruence) HL1 Hrun).
    now rewrite <- app_assoc in IH.
Qed.

(** X18.  In an export that returns, started with an empty 'tagtypes'
    collection: a tag type of the source whose name is a name of the
    destination's index of tag types is left out; of the others, 'tagtypes'
    holds, in source order, an object with the id and the name of the first
    one of every id. *)
Theorem tagtypes_deduplicated_by_name :
  forall (src : Tackle1) (self0 s' : Tackle12Import),
    data self0 "tagtypes" = [] ->
    dumpTackle1 src self0 = (Val tt, s') ->
    Forall2 (is_tagtype (heap s')) (data s' "tagtypes")
            (dedup_by (fun tt1 => id (tt1_base tt1))
                      (new_tagtypes self0 (t1_tag_type src))).
Proof.
  intros src self0 s' Ht0 Hrun.
  destruct (dumpTackle1_blocks src self0 s' Hrun)
    as (s1 & s2 & s3 & s4 & s5 & s6 & s7 & H1 & H2 & H3 & H4 & H5 & H6 & H7 & H8).
  pose proof (tagtypes_block_run self0 (t1_tag_type src) self0 s1 [] eq_refl) as HL.
  rewrite Ht0 in HL. specialize (HL (Forall2_nil _) H1). cbn [app] in HL.
  assert (K : kept "tagtypes" s1 s').
  { apply (kept_trans _ _ s2);
      [eapply kept_touches;
       [apply touches_for_each; intro; apply touches_dump_application | not_in | exact H2]|].
    apply (kept_trans _ _ s3);
      [eapply kept_touches;
       [apply touches_for_each; intro; apply (touches_record "dependencies")
       | not_in | exact H3]|].
    apply (kept_trans _ _ s4);
      [eapply kept_touches; [apply touches_dump_assessments | not_in | exact H4]|].
    apply (kept_trans _ _ s5);
      [eapply kept_touches;
       [apply touches_for_each; intro; apply touches_dump_stakeholder | not_in | exact H5]|].
    apply (kept_trans _ _ s6);
      [eapply kept_touches;
       [apply touches_for_each; intro; apply (touches_record "stakeholdergroups")
       | not_in | exact H6]|].
    apply (kept_trans _ _ s7);
      [eapply kept_touches;
       [apply touches_for_each; intro; apply touches_dump_jobfunction | not_in | exact H7]|].
    eapply kept_touches;
      [apply touches_for_each; intro; apply (touches_record "businessservices")
      | not_in | exact H8]. }
  destruct K as [[ext ->] ->].
  eapply Forall2_impl; [|exact HL]. intros a x.
  apply evolves_is_tagtype. apply evolves_extend. lia.
Qed.

Lemma tagtypes_deduplicated_by_name_witness :
  Forall2 (is_tagtype (heap (snd (dumpTackle1 sample_source_tagtypes sample_seeded))))
          (data (snd (dumpTackle1 sample_source_tagtypes sample_seeded)) "tagtypes")
          (dedup_by (fun tt1 => id (tt1_base tt1))
                    (new_tagtypes sample_seeded (t1_tag_type sample_source_tagtypes))).
Proof.
  apply (tagtypes_deduplicated_by_name sample_source_tagtypes sample_seeded
           (snd (dumpTackle1 sample_source_tagtypes sample_seeded))).
  - reflexivity.
  - rewrite (surjective_pairing (dumpTackle1 sample_source_tagtypes sample_seeded)) at 1.
    f_equal.
Defined.

(** The tags of a tag type the destination has are exported all the same,
    each with a copy of the source's tag type. *)
Example tagtypes_scenario :
  let s := snd (dumpTackle1 sample_source_tagtypes sample_seeded) in
  map (fun a => attr (heap s) a "name") (data s "tagtypes")
  = [Some (Json (JStr "Language"))]
  /\ map (fun a => attr (heap s) a "name") (data s "tags")
     = [Some (Json (JStr "JVM"))]
  /\ map (fun a => match attr (heap s) a "tagType" with
                   | Some (Obj c) => attr (heap s) c "name"
                   | _ => None
                   end) (data s "tags")
     = [Some (Json (JStr "Runtime"))].
Proof.
  vm_compute. repeat split; reflexivity.
Qed.

(* ===================================================================== *)
(** * The rows of an uploaded CSV file *)
(* ===================================================================== *)

Lemma index_in (row : list string) (i : Z) :
  (0 <= i < Z.of_nat (List.length row))%Z ->
  index row i = Returned (nth (Z.to_nat i) row EmptyString).
Proof.
  intros H. unfold index.
  replace (0 <=? i)%Z with true by (symmetry; apply Z.leb_le; lia).
  replace (i <? Z.of_nat (List.length row))%Z with true
    by (symmetry; apply Z.ltb_lt; lia).
  reflexivity.
Qed.

Lemma index_out (row : list string) (i : Z) :
  (i < 0 \/ Z.of_nat (List.length row) <= i)%Z ->
  index row i = IndexOutOfRange.
Proof.
  intros H. unfold index.
  destruct (0 <=? i)%Z eqn:E1; [|reflexivity].
  destruct (i <? Z.of_nat (List.length row))%Z eqn:E2; [|reflexivity].
  apply Z.leb_le in E1. apply Z.ltb_lt in E2. lia.
Qed.

Lemma skipn_head {A : Type} (d : A) :
  forall (i : nat) (l : list A) (x : A) (t : list A),
    skipn i l = x :: t ->
    nth i l d = x /\ (i < List.length l)%nat /\ skipn (S i) l = t.
Proof.
  induction i as [|i IH]; intros l x t H.
  - destruct l as [|a l]; [discriminate|].
    cbn in H. injection H as -> ->. cbn. repeat split. lia.
  - destruct l as [|a l]; [discriminate|].
    cbn in H. destruct (IH l x t H) as (Hn & Hl & Hs).
    repeat split; [exact Hn | cbn; lia | exact Hs].
Qed.

Lemma pair_induction {A : Type} (P : list A -> Prop) :
  P [] -> (forall x, P [x]) -> (forall x y l, P l -> P (x :: y :: l)) ->
  forall l, P l.
Proof.
  intros H0 H1 H2.
  assert (H : forall l, P l /\ forall x, P (x :: l)).
  { induction l as [|a l [IHa IHb]].
    - split; [exact H0 | exact H1].
    - split; [apply IHb | intros x; apply H2; exact IHa]. }
  intros l. apply H.
Qed.

Lemma odd_rem (i : nat) :
  Nat.odd i = true ->
  (Z.rem (Z.of_nat i) 2 =? 0)%Z = false /\ (Z.rem (Z.of_nat (S i)) 2 =? 0)%Z = true.
Proof.
  intros H. apply Nat.odd_spec in H. destruct H as [k ->].
  split.
  - apply Z.eqb_neq. rewrite Z.rem_mod_nonneg by lia.
    replace (Z.of_nat (2 * k + 1)) with (1 + Z.of_nat k * 2)%Z by lia.
    rewrite Z_mod_plus_full. cbn. discriminate.
  - apply Z.eqb_eq. rewrite Z.rem_mod_nonneg by lia.
    replace (Z.of_nat (S (2 * k + 1))) with (0 + (Z.of_nat k + 1) * 2)%Z by lia.
    rewrite Z_mod_plus_full. reflexivity.
Qed.

(** The loop over the columns from an odd position on collects the
    consecutive pairs of the columns. *)
Lemma importTags_pairs (row : list string) :
  forall (rest : list string) (i : nat) (tags : list ImportTag),
    skipn i row = rest -> Nat.odd i = true ->
    importTags row (map Z.of_nat (seq i (List.length rest))) tags
    = Returned (tags ++ tag_pairs rest).
Proof.
  intros rest. induction rest as [|x|x y rest IH] using pair_induction;
    intros i tags Hskip Hodd.
  - cbn. rewrite app_nil_r. reflexivity.
  - cbn. destruct (odd_rem i Hodd) as [-> _]. rewrite app_nil_r. reflexivity.
  - destruct (skipn_head EmptyString i row x (y :: rest) Hskip) as (Hx & Hlx & Hs).
    destruct (skipn_head EmptyString (S i) row y rest Hs) as (Hy & Hly & Hs').
    destruct (odd_rem i Hodd) as [Hi HSi].
    cbn [List.length seq map importTags]. rewrite Hi, HSi.
    rewrite (index_in row (Z.of_nat (S i))) by lia.
    replace (Z.of_nat (S i) - 1)%Z with (Z.of_nat i) by lia.
    rewrite (index_in row (Z.of_nat i)) by lia.
    rewrite !Nat2Z.id, Hx, Hy. cbn [go_bind].
    rewrite (IH (S (S i)) _ Hs').
    + rewrite <- app_assoc. reflexivity.
    + rewrite Nat.odd_succ, Nat.even_succ. exact Hodd.
Qed.

(** The outcome of [applicationFromRow] in closed form. *)
Lemma applicationFromRow_run (fileName : string) (row : list string) :
  applicationFromRow fileName row
  = if (List.length row <? 15)%nat then IndexOutOfRange
    else Returned (mkModelImport fileName
                     (nth 0 row EmptyString) (nth 1 row EmptyString)
                     (nth 2 row EmptyString) (nth 3 row EmptyString)
                     (nth 4 row EmptyString) (nth 5 row EmptyString)
                     (nth 6 row EmptyString) (nth 7 row EmptyString)
                     (nth 8 row EmptyString) (nth 9 row EmptyString)
                     (nth 10 row EmptyString) (nth 11 row EmptyString)
                     (nth 12 row EmptyString) (nth 13 row EmptyString)
                     (nth 14 row EmptyString)
                     (tag_pairs (skipn 15 row)) false false).
Proof.
  destruct (List.length row <? 15)%nat eqn:E.
  - apply Nat.ltb_lt in E.
    do 15 (destruct row as [|? row]; [reflexivity|]).
    cbn in E. lia.
  - apply Nat.ltb_ge in E. unfold applicationFromRow.
    rewrite !index_in by lia. cbn [go_bind].
    rewrite <- (length_skipn 15 row).
    rewrite (importTags_pairs row (skipn 15 row) 15 [] eq_refl eq_refl).
    reflexivity.
Qed.

(** The outcome of [dependencyFromRow] in closed form. *)
Lemma dependencyFromRow_run (fileName : string) (row : list string) :
  dependencyFromRow fileName row
  = if (List.length row <? 2)%nat then IndexOutOfRange
    else
      let dep := if (7 <? List.length row)%nat then 5%nat else (List.length row - 2)%nat in
      let dir := if (7 <? List.length row)%nat then 6%nat else (List.length row - 1)%nat in
      Returned (mkModelImport fileName
                  (nth 0 row EmptyString) (nth 1 row EmptyString)
                  EmptyString EmptyString EmptyString
                  (nth dep row EmptyString) (nth dir row EmptyString)
                  EmptyString EmptyString EmptyString EmptyString
                  EmptyString EmptyString EmptyString EmptyString
                  [] false false).
Proof.
  destruct (List.length row <? 2)%nat eqn:E.
  - apply Nat.ltb_lt in E.
    do 2 (destruct row as [|? row]; [reflexivity|]).
    cbn in E. lia.
  - apply Nat.ltb_ge in E. unfold dependencyFromRow.
    destruct (7 <? List.length row)%nat eqn:E7.
    + apply Nat.ltb_lt in E7.
      replace (7 <? Z.of_nat (List.length row))%Z with true
        by (symmetry; apply Z.ltb_lt; lia).
      rewrite !index_in by lia. reflexivity.
    + apply Nat.ltb_ge in E7.
      replace (7 <? Z.of_nat (List.length row))%Z with false
        by (symmetry; apply Z.ltb_ge; lia).
      rewrite !index_in by lia. cbn [go_bind].
      replace (Z.to_nat (Z.of_nat (List.length row) - 2)) with (List.length row - 2)%nat by lia.
      replace (Z.to_nat (Z.of_nat (List.length row) - 1)) with (List.length row - 1)%nat by lia.
      reflexivity.
Qed.

Lemma last_two {A : Type} (d : A) :
  forall (l : list A), (2 <= List.length l)%nat ->
    skipn (List.length l - 2) l
    = [nth (List.length l - 2) l d; nth (List.length l - 1) l d].
Proof.
  intros l H.
  assert (Hlen : List.length (skipn (List.length l - 2) l) = 2%nat)
    by (rewrite length_skipn; lia).
  destruct (skipn (List.length l - 2) l) as [|x [|y [|z t]]] eqn:E; try discriminate.
  destruct (skipn_head d _ _ _ _ E) as (Hx & _ & Hs).
  destruct (skipn_head d _ _ _ _ Hs) as (Hy & _ & _).
  replace (S (List.length l - 2)) with (List.length l - 1)%nat in Hy by lia.
  rewrite Hx, Hy. reflexivity.
Qed.

(** X19. An application row of fewer than 15 columns panics with an index
    out of range.  A longer one gives a record: its first 15 columns fill
    the fields in their order, and the columns after them are read as
    consecutive pairs (tag type, tag), a last column without a partner
    being dropped. *)
Theorem applicationFromRow_columns (fileName : string) (row : list string) :
  if (List.length row <? 15)%nat
  then applicationFromRow fileName row = IndexOutOfRange
  else exists app,
      applicationFromRow fileName row = Returned app /\
      Filename app = fileName /\
      [RecordType1 app; ApplicationName app; Description app; Comments app;
       BusinessService app; Dependency app; DependencyDirection app;
       BinaryGroup app; BinaryArtifact app; BinaryVersion app;
       BinaryPackaging app; RepositoryKind app; RepositoryURL app;
       RepositoryBranch app; RepositoryPath app] = firstn 15 row /\
      ImportTags app = tag_pairs (skipn 15 row) /\
      Processed app = false /\ IsValid app = false.
Proof.
  rewrite applicationFromRow_run.
  destruct (List.length row <? 15)%nat eqn:E; [reflexivity|].
  apply Nat.ltb_ge in E.
  eexists. split; [reflexivity|]. cbn [Filename ImportTags Processed IsValid].
  repeat split.
  do 15 (destruct row as [|? row]; [cbn in E; lia|]).
  reflexivity.
Qed.

(** X20. A dependency row panics exactly when it has fewer than two
    columns.  Otherwise the record names the application of the second
    column, and its dependency and direction are the last two columns of a
    row of at most seven columns, and the sixth and seventh column of a
    longer row, whatever the last two columns of that row hold. *)
Theorem dependencyFromRow_columns (fileName : string) (row : list string) :
  if (List.length row <? 2)%nat
  then dependencyFromRow fileName row = IndexOutOfRange
  else exists app,
      dependencyFromRow fileName row = Returned app /\
      Filename app = fileName /\
      RecordType1 app = nth 0 row EmptyString /\
      ApplicationName app = nth 1 row EmptyString /\
      [Dependency app; DependencyDirection app]
      = (if (7 <? List.length row)%nat then firstn 2 (skipn 5 row)
         else skipn (List.length row - 2) row) /\
      ImportTags app = [].
Proof.
  rewrite dependencyFromRow_run.
  destruct (List.length row <? 2)%nat eqn:E; [reflexivity|].
  apply Nat.ltb_ge in E.
  eexists. split; [reflexivity|].
  cbn [Filename RecordType1 ApplicationName Dependency DependencyDirection ImportTags].
  repeat split.
  destruct (7 <? List.length row)%nat eqn:E7.
  - apply Nat.ltb_lt in E7.
    do 8 (destruct row as [|? row]; [cbn in E7; lia|]).
    reflexivity.
  - symmetry. apply last_two. exact E.
Qed.

(** X21. The switch on the record type of a row panics for exactly two
    rows: the row without columns, and the row whose only column is the
    record type of a dependency.  In particular no application row panics:
    one of fewer than 15 columns is answered with 400. *)
Theorem importFromRow_panics (fileName : string) (row : list string) :
  importFromRow fileName row = IndexOutOfRange <-> row = [] \/ row = ["2"].
Proof.
  unfold importFromRow. destruct row as [|t cols].
  - split; [intros _; left; reflexivity | reflexivity].
  - rewrite (index_in (t :: cols) 0) by (cbn [List.length]; lia).
    cbn [go_bind Z.to_nat nth].
    destruct (String.eqb t "1") eqn:E1.
    + destruct (Z.of_nat (List.length (t :: cols)) <? 15)%Z eqn:E15.
      * split; [discriminate | intros [H|H]; [discriminate|]].
        injection H as -> ->. discriminate.
      * apply Z.ltb_ge in E15.
        rewrite applicationFromRow_run.
        replace (List.length (t :: cols) <? 15)%nat with false
          by (symmetry; apply Nat.ltb_ge; lia).
        split; [discriminate | intros [H|H]; [discriminate|]].
        injection H as -> ->. discriminate.
    + destruct (String.eqb t "2") eqn:E2.
      * apply String.eqb_eq in E2. subst t.
        rewrite dependencyFromRow_run.
        destruct cols as [|c cols].
        -- split; [intros _; right; reflexivity | reflexivity].
        -- cbn. split; [discriminate | intros [H|H]; discriminate].
      * split; [discriminate | intros [H|H]; [discriminate|]].
        injection H as -> ->. discriminate.
Qed.

(* ===================================================================== *)
(** * The summary of an import *)
(* ===================================================================== *)

Lemma int64_small (z : Z) :
  (- 2 ^ 63 <= z < 2 ^ 63)%Z -> int64 z = z.
Proof.
  intros H. unfold int64.
  change (2 ^ 63)%Z with 9223372036854775808%Z in *.
  change (2 ^ 64)%Z with 18446744073709551616%Z.
  rewrite Z.mod_small by lia. lia.
Qed.

Lemma count_imports_run :
  forall (imports : list ModelImport) (valid invalid : Z),
    (0 <= valid)%Z -> (0 <= invalid)%Z ->
    (valid + invalid + Z.of_nat (List.length imports) < 2 ^ 63)%Z ->
    count_imports imports valid invalid
    = ((valid + Z.of_nat (List.length (filter counted_valid imports)))%Z,
       (invalid + Z.of_nat (List.length (filter counted_invalid imports)))%Z).
Proof.
  change (2 ^ 63)%Z with 9223372036854775808%Z.
  induction imports as [|imp imports IH]; intros valid invalid Hv Hi Hlen.
  - cbn. rewrite !Z.add_0_r. reflexivity.
  - cbn [count_imports filter].
    change (counted_valid imp) with (Processed imp && IsValid imp).
    change (counted_invalid imp) with (Processed imp && negb (IsValid imp)).
    cbn [List.length] in Hlen.
    destruct (Processed imp); cbn [andb].
    + destruct (IsValid imp); cbn [negb].
      * rewrite int64_small
          by (change (2 ^ 63)%Z with 9223372036854775808%Z; lia).
        rewrite IH by lia. cbn [List.length]. f_equal; lia.
      * rewrite int64_small
          by (change (2 ^ 63)%Z with 9223372036854775808%Z; lia).
        rewrite IH by lia. cbn [List.length]. f_equal; lia.
    + rewrite IH by lia. reflexivity.
Qed.

Lemma counted_processed :
  forall (imports : list ModelImport),
    (List.length (filter counted_valid imports)
     + List.length (filter counted_invalid imports)
     = List.length (filter Processed imports))%nat.
Proof.
  induction imports as [|imp imports IH]; [reflexivity|].
  cbn [filter].
  change (counted_valid imp) with (Processed imp && IsValid imp).
  change (counted_invalid imp) with (Processed imp && negb (IsValid imp)).
  destruct (Processed imp), (IsValid imp); cbn [andb negb List.length]; lia.
Qed.

Lemma filter_all_length {A : Type} (p : A -> bool) :
  forall (l : list A),
    (List.length (filter p l) <= List.length l)%nat /\
    (List.length (filter p l) =? List.length l)%nat = forallb p l.
Proof.
  induction l as [|a l [IHle IHeq]]; [split; reflexivity|].
  cbn [filter forallb]. destruct (p a); cbn [List.length andb].
  - split; [lia|]. exact IHeq.
  - split; [lia|]. apply Nat.eqb_neq. lia.
Qed.

Section SummaryCounts.

Variables Resource Model Time : Type.
Variable Resource_With : Resource -> Model -> Resource.

(** X22. Filling a fresh summary from an import counts the processed
    records, the valid and the invalid ones apart, and leaves the
    unprocessed ones out of both counts.  The status is Completed exactly
    when every record is processed, so also for an import without records;
    the file name and the time are those of the import. *)
Theorem ImportSummary_With_counts
    (r : ImportSummary Resource Time) (m : ModelImportSummary Model Time) :
  r_ValidCount r = 0%Z -> r_InvalidCount r = 0%Z ->
  (Z.of_nat (List.length (m_Imports m)) < 2 ^ 63)%Z ->
  let r' := ImportSummary_With Resource_With r m in
  r_ValidCount r' = Z.of_nat (List.length (filter counted_valid (m_Imports m))) /\
  r_InvalidCount r' = Z.of_nat (List.length (filter counted_invalid (m_Imports m))) /\
  r_ImportStatus r'
  = (if forallb Processed (m_Imports m) then "Completed" else "In Progress") /\
  r_Filename r' = m_Filename m /\
  r_ImportTime r' = m_CreateTime m /\
  r_Resource r' = Resource_With (r_Resource r) (m_Model m).
Proof.
  intros Hv Hi Hlen r'. subst r'. unfold ImportSummary_With.
  rewrite Hv, Hi.
  rewrite count_imports_run by lia.
  cbn [fst snd r_ValidCount r_InvalidCount r_ImportStatus r_Filename
       r_ImportTime r_Resource].
  rewrite !Z.add_0_l.
  repeat split.
  pose proof (counted_processed (m_Imports m)) as Hc.
  destruct (filter_all_length Processed (m_Imports m)) as [Hle Heq].
  rewrite int64_small
    by (change (2 ^ 63)%Z with 9223372036854775808%Z in *; lia).
  rewrite <- Heq.
  destruct (List.length (filter Processed (m_Imports m))
            =? List.length (m_Imports m))%nat eqn:E.
  - apply Nat.eqb_eq in E.
    replace (Z.of_nat (List.length (m_Imports m)) =? _)%Z with true; [reflexivity|].
    symmetry. apply Z.eqb_eq. lia.
  - apply Nat.eqb_neq in E.
    replace (Z.of_nat (List.length (m_Imports m)) =? _)%Z with false; [reflexivity|].
    symmetry. apply Z.eqb_neq. lia.
Qed.

End SummaryCounts.

Lemma ImportSummary_With_counts_witness :
  r_ValidCount
    (ImportSummary_With (fun r _ => r) sample_fresh_summary sample_model_summary) = 2%Z /\
  r_InvalidCount
    (ImportSummary_With (fun r _ => r) sample_fresh_summary sample_model_summary) = 1%Z /\
  r_ImportStatus
    (ImportSummary_With (fun r _ => r) sample_fresh_summary sample_model_summary)
  = "In Progress".
Proof.
  destruct (ImportSummary_With_counts unit unit unit (fun r _ => r)
              sample_fresh_summary sample_model_summary
              eq_refl eq_refl eq_refl) as (Hv & Hi & Hs & _).
  split; [exact Hv | split; [exact Hi | exact Hs]].
Defined.

(* ===================================================================== *)
(** * Applications and their reviews *)
(* ===================================================================== *)

Lemma application_object_built (app1 : Application1) (tags : list nat) :
  with_attrs (Tackle2Object_init (Some (app1_base app1)))
    ([("name", Json (app1_name app1));
      ("description", Json (app1_description app1));
      ("tags", ObjList tags)]
     ++ match app1_businessService app1 with
        | Some bs => [("businessService", Json (JDict [("id", JInt bs)]))]
        | None => []
        end)
  = application_object app1 tags.
Proof.
  unfold application_object. destruct (app1_businessService app1); reflexivity.
Qed.

Lemma is_application_extend (h ext : list Tackle2Object) (a : nat) (app1 : Application1) :
  is_application h a app1 -> is_application (h ++ ext) a app1.
Proof.
  intros (tags & Hn & Hl). exists tags. split; [|exact Hl].
  apply nth_extend; [exact Hn | discriminate].
Qed.

Lemma is_application_int_id (h : list Tackle2Object) (a : nat) (app1 : Application1) :
  is_application h a app1 -> int_id h a = Some (app_id app1).
Proof.
  intros (tags & Hn & _). unfold int_id, attr. rewrite Hn. reflexivity.
Qed.

Lemma map_each_length {X Y : Type} (body : X -> Py Y) (xs : list X) :
  forall (s s' : Tackle12Import) (ys : list Y),
    map_each xs body s = (Val ys, s') -> List.length ys = List.length xs.
Proof.
  induction xs as [|x xs IH]; intros s s' ys H; cbn [map_each] in H.
  - injection H as <- _. reflexivity.
  - apply bind_val in H. destruct H as (y & s1 & _ & H).
    apply bind_val in H. destruct H as (ys' & s2 & H & Hret).
    injection Hret as <- _. cbn [List.length]. f_equal. exact (IH _ _ _ H).
Qed.

Lemma touches_resolve_app_tags (tagIds : list Z) :
  touches [] (map_each tagIds resolve_app_tag).
Proof.
  unfold resolve_app_tag. touches_steps. destruct (dest_get _ _); touches_steps.
Qed.

Lemma review_of_id (p : Application1 * Review1) :
  dict_get "id" (review_of p) = Some (Json (JInt (review_id p))).
Proof. apply review_object_id. Qed.

(** One application, when its processing returns. *)
Lemma dump_application_run (app1 : Application1) (s s' : Tackle12Import)
    (LA : list Application1) (LR : list (Application1 * Review1)) :
  Forall2 (is_application (heap s)) (data s "applications") LA ->
  Forall2 (is_record review_of (heap s)) (data s "reviews") LR ->
  dump_application app1 s = (Val tt, s') ->
  Forall2 (is_application (heap s')) (data s' "applications") (add_by app_id LA app1)
  /\ Forall2 (is_record review_of (heap s')) (data s' "reviews")
             (fold_left (add_by review_id) (reviews_of app1) LR).
Proof.
  intros HA HR Hrun. unfold dump_application in Hrun.
  apply bind_val in Hrun. destruct Hrun as (tags & s1 & Hmap & Hrun).
  destruct (touches_run _ _ _ _ _ (touches_resolve_app_tags (app1_tags app1)) Hmap)
    as ((ext & Hh1) & _ & Hfr1).
  pose proof (map_each_length _ _ _ _ _ Hmap) as Hlen.
  rewrite application_object_built in Hrun.
  unfold bind at 1 in Hrun. unfold new_object at 1 in Hrun.
  set (s2 := mkImport (heap s1 ++ [application_object app1 tags]) (data s1) (destData s1))
    in Hrun.
  apply bind_val in Hrun. destruct Hrun as (u & s3 & Hrev & Hadd).
  assert (HR2 : Forall2 (is_record review_of (heap s2)) (data s2 "reviews") LR).
  { cbn [heap data s2]. rewrite Hfr1 by (simpl; tauto). rewrite Hh1, <- app_assoc.
    apply Forall2_is_record_extend; [|exact HR].
    intros x H. pose proof (review_of_id x) as Hid. rewrite H in Hid. discriminate. }
  assert (HA2 : Forall2 (is_application (heap s2)) (data s2 "applications") LA).
  { cbn [heap data s2]. rewrite Hfr1 by (simpl; tauto). rewrite Hh1, <- app_assoc.
    eapply Forall2_impl; [|exact HA]. intros a x. apply is_application_extend. }
  assert (Hnew : is_application (heap s2) (List.length (heap s1)) app1).
  { exists tags. cbn [heap s2]. split; [apply nth_fresh | exact Hlen]. }
  assert (H3 : (exists ext3, heap s3 = heap s2 ++ ext3)
               /\ data s3 "applications" = data s2 "applications"
               /\ Forall2 (is_record review_of (heap s3)) (data s3 "reviews")
                          (fold_left (add_by review_id) (reviews_of app1) LR)).
  { unfold reviews_of. destruct (app1_review app1) as [r|].
    - destruct (record_add _ review_id review_of "reviews" review_of_id s2 LR (app1, r) HR2)
        as (s3' & Hrun3 & Hh3 & _ & Hfr3 & HR3).
      unfold bind at 1 in Hrev. unfold new_object at 1 in Hrev.
      unfold new_object in Hrun3. cbn [snd] in Hrun3.
      change (review_object app1 r) with (review_of (app1, r)) in Hrev.
      rewrite Hrun3 in Hrev. injection Hrev as _ <-.
      split; [exists [review_of (app1, r)]; exact Hh3|].
      split; [apply Hfr3; discriminate | exact HR3].
    - injection Hrev as _ <-.
      split; [exists []; now rewrite app_nil_r|]. split; [reflexivity | exact HR2]. }
  destruct H3 as ((ext3 & Hh3) & Hd3 & HR3).
  destruct (add_by_spec app_id (is_application (heap s3)) "applications"
              (List.length (heap s1)) app1 s3 LA (is_application_int_id (heap s3)))
    as (s4 & Hrun4 & Hh4 & _ & Hfr4 & HA4).
  { rewrite Hd3, Hh3. eapply Forall2_impl; [|exact HA2].
    intros a x. apply is_application_extend. }
  { rewrite Hh3. apply is_application_extend. exact Hnew. }
  rewrite Hrun4 in Hadd. injection Hadd as <-.
  rewrite Hh4. split; [exact HA4|].
  rewrite Hfr4 by discriminate. exact HR3.
Qed.

Lemma applications_block_run (apps : list Application1) :
  forall (s s' : Tackle12Import) (pre : list Application1),
    Forall2 (is_application (heap s)) (data s "applications") (dedup_by app_id pre) ->
    Forall2 (is_record review_of (heap s)) (data s "reviews")
            (dedup_by review_id (flat_map reviews_of pre)) ->
    for_each apps dump_application s = (Val tt, s') ->
    Forall2 (is_application (heap s')) (data s' "applications")
            (dedup_by app_id (pre ++ apps))
    /\ Forall2 (is_record review_of (heap s')) (data s' "reviews")
               (dedup_by review_id (flat_map reviews_of (pre ++ apps))).
Proof.
  induction apps as [|app1 apps IH]; intros s s' pre HA HR Hrun; cbn [for_each] in Hrun.
  - injection Hrun as <-. rewrite app_nil_r. auto.
  - apply bind_val in Hrun. destruct Hrun as ([] & s1 & Hrun1 & Hrun).
    destruct (dump_application_run app1 s s1 _ _ HA HR Hrun1) as (HA1 & HR1).
    rewrite fold_add_by_dedup in HR1. rewrite <- dedup_by_snoc in HA1.
    replace (flat_map reviews_of pre ++ reviews_of app1)
      with (flat_map reviews_of (pre ++ [app1])) in HR1
      by (rewrite flat_map_app; cbn; now rewrite app_nil_r).
    destruct (IH s1 s' (pre ++ [app1]) HA1 HR1 Hrun) as (HA' & HR').
    rewrite <- app_assoc in HA', HR'. auto.
Qed.

(** X23.  In an export that returns, started with empty 'applications' and
    'reviews' collections: 'applications' holds, in source order, the
    object built for the first application of every id, with its id, users,
    name and description as received, one tag object per tag id listed, and
    [businessService] only when the payload has one; 'reviews' holds the
    object built for the first review of every id among the reviews of all
    the applications, also of those left out as duplicates, each pointing
    to the id and name of the application that embeds it. *)
Theorem application_collections :
  forall (src : Tackle1) (self0 s' : Tackle12Import),
    data self0 "applications" = [] ->
    data self0 "reviews" = [] ->
    dumpTackle1 src self0 = (Val tt, s') ->
    Forall2 (is_application (heap s')) (data s' "applications")
            (dedup_by app_id (t1_application src))
    /\ Forall2 (is_record review_of (heap s')) (data s' "reviews")
               (dedup_by review_id (source_reviews src)).
Proof.
  intros src self0 s' Ha0 Hr0 Hrun.
  destruct (dumpTackle1_blocks src self0 s' Hrun)
    as (s1 & s2 & s3 & s4 & s5 & s6 & s7 & H1 & H2 & H3 & H4 & H5 & H6 & H7 & H8).
  destruct (writes_run _ _ _ _ _
              (writes_for_each _ _ _ writes_dump_tagtype) H1) as [_ F1].
  destruct (applications_block_run (t1_application src) s1 s2 [])
    as (HA2 & HR2); [| |exact H2|].
  { rewrite F1 by not_in. rewrite Ha0. constructor. }
  { rewrite F1 by not_in. rewrite Hr0. constructor. }
  cbn [app] in HA2, HR2.
  assert (K23 : forall t, ~ In t ["dependencies"] -> kept t s2 s3)
    by (intros t Ht;
        exact (kept_touches t _ _ _ _ _
                 (touches_for_each _ _ _
                    (fun x => touches_record "dependencies" _)) Ht H3)).
  assert (K34 : forall t, ~ In t ["assessments"; "assessments--assessment-risk";
                                  "assessments--confidence"] -> kept t s3 s4)
    by (intros t Ht; exact (kept_touches t _ _ _ _ _ (touches_dump_assessments src) Ht H4)).
  assert (K45 : forall t, ~ In t ["stakeholdergroups"; "stakeholders"] -> kept t s4 s5)
    by (intros t Ht;
        exact (kept_touches t _ _ _ _ _
                 (touches_for_each _ _ _ touches_dump_stakeholder) Ht H5)).
  assert (K56 : forall t, ~ In t ["stakeholdergroups"] -> kept t s5 s6)
    by (intros t Ht;
        exact (kept_touches t _ _ _ _ _
                 (touches_for_each _ _ _
                    (fun x => touches_record "stakeholdergroups" _)) Ht H6)).
  assert (K67 : forall t, ~ In t ["jobfunctions"] -> kept t s6 s7)
    by (intros t Ht;
        exact (kept_touches t _ _ _ _ _
                 (touches_for_each _ _ _ touches_dump_jobfunction) Ht H7)).
  assert (K78 : forall t, ~ In t ["businessservices"] -> kept t s7 s')
    by (intros t Ht;
        exact (kept_touches t _ _ _ _ _
                 (touches_for_each _ _ _
                    (fun x => touches_record "businessservices" _)) Ht H8)).
  assert (K : forall t, In t ["applications"; "reviews"] -> kept t s2 s').
  { intros t Ht. simpl in Ht.
    destruct Ht as [<- | [<- | []]];
      (apply (kept_trans _ _ s3); [apply K23; not_in|];
       apply (kept_trans _ _ s4); [apply K34; not_in|];
       apply (kept_trans _ _ s5); [apply K45; not_in|];
       apply (kept_trans _ _ s6); [apply K56; not_in|];
       apply (kept_trans _ _ s7); [apply K67; not_in | apply K78; not_in]). }
  split.
  - destruct (K "applications" ltac:(simpl; tauto)) as [[ext Hh] Hd].
    rewrite Hh, Hd. eapply Forall2_impl; [|exact HA2].
    intros a x. apply is_application_extend.
  - apply (kept_is_record review_of "reviews" s2 s').
    + intros x H. pose proof (review_of_id x) as Hid. rewrite H in Hid. discriminate.
    + apply K. simpl. tauto.
    + exact HR2.
Qed.

Lemma application_collections_witness :
  Forall2 (is_application
             (heap (snd (dumpTackle1 sample_source_reviews sample_seeded))))
          (data (snd (dumpTackle1 sample_source_reviews sample_seeded)) "applications")
          (dedup_by app_id (t1_application sample_source_reviews))
  /\ Forall2 (is_record review_of
                (heap (snd (dumpTackle1 sample_source_reviews sample_seeded))))
             (data (snd (dumpTackle1 sample_source_reviews sample_seeded)) "reviews")
             (dedup_by review_id (source_reviews sample_source_reviews)).
Proof.
  apply (application_collections sample_source_reviews sample_seeded
           (snd (dumpTackle1 sample_source_reviews sample_seeded))).
  - reflexivity.
  - reflexivity.
  - rewrite (surjective_pairing (dumpTackle1 sample_source_reviews sample_seeded)) at 1.
    f_equal.
Defined.

(** The scenario: three applications (the second record of "Shop" is left
    out), and the reviews 11 and 12, the latter from the record left out. *)
Example reviews_scenario :
  map app_id (dedup_by app_id (t1_application sample_source_reviews)) = [1; 2; 3]%Z
  /\ map (fun p => (review_id p, app1_name (fst p)))
         (dedup_by review_id (source_reviews sample_source_reviews))
     = [(11%Z, JStr "Shop"); (12%Z, JStr "Shop (copy)")]
  /\ List.length (data (snd (dumpTackle1 sample_source_reviews sample_seeded))
                       "applications") = 3%nat
  /\ List.length (data (snd (dumpTackle1 sample_source_reviews sample_seeded))
                       "reviews") = 2%nat.
Proof. repeat split; vm_compute; reflexivity. Qed.

(* ===================================================================== *)
(** * The script *)
(* ===================================================================== *)

Lemma cmdWanted_In (args : Args) (a : string) :
  cmdWanted args a = true <-> In a (args_action args).
Proof.
  unfold cmdWanted. split.
  - destruct (existsb _ _) eqn:E; [|discriminate]. intros _.
    apply existsb_exists in E. destruct E as (x & Hx & Hax).
    apply String.eqb_eq in Hax. now subst x.
  - intros H. replace (existsb _ _) with true; [reflexivity|].
    symmetry. apply existsb_exists. exists a. split; [exact H | apply String.eqb_refl].
Qed.

Lemma cmdWanted_false (args : Args) (a : string) :
  ~ In a (args_action args) -> cmdWanted args a = false.
Proof.
  intros H. destruct (cmdWanted args a) eqn:E; [|reflexivity].
  apply cmdWanted_In in E. contradiction.
Qed.

Lemma cmdWanted_wanted (args : Args) (a : string) :
  In a known_actions -> cmdWanted (wanted args) a = cmdWanted args a.
Proof.
  intros Ha. destruct (cmdWanted args a) eqn:E.
  - apply cmdWanted_In. cbn [wanted args_action]. apply filter_In. split; assumption.
  - apply cmdWanted_false. cbn [wanted args_action]. intros H.
    apply filter_In in H. destruct H as [_ H]. congruence.
Qed.

Section ScriptRuns.

Variable E : Environment.
Variable config_file : string -> option Config.
Variable keycloak : list Event -> string -> JSON -> Response (Text E).

Lemma getKeycloakToken_refused (host username password : string) (w : World E) :
  resp_ok (keycloak (trace w) (token_url host) (token_form username password)) = false ->
  getKeycloakToken keycloak host username password "tackle-ui" "tackle" w
  = (Stopped (TokenRefused (token_url host)),
     mkWorld E (files w) (server w)
             (trace w ++ [Requested POST (token_url host)
                                    (Some (token_form username password))])).
Proof.
  intros H. unfold getKeycloakToken.
  change (host ++ "/auth/realms/" ++ "tackle" ++ "/protocol/openid-connect/token")%string
    with (token_url host).
  change (JDict [("username", JStr username); ("password", JStr password);
                 ("client_id", JStr "tackle-ui"); ("grant_type", JStr "password")])
    with (token_form username password).
  rewrite H. reflexivity.
Qed.

(** X24.  The script takes the wanted actions once each and in the order
    export-tackle1, import, clean: its outcome and what it does to the
    files, the destination and the trace are those of the command line that
    names the wanted actions once, in this order.  The order of the words,
    their repetition and the words that are no action make no difference. *)
Theorem script_takes_actions_in_fixed_order
    (args : Args) (dest : Tackle2Seeds) (src : Tackle1) (w : World E) :
  script config_file keycloak args dest src w
  = script config_file keycloak (wanted args) dest src w.
Proof.
  unfold script.
  rewrite !cmdWanted_wanted by (unfold known_actions; simpl; tauto).
  reflexivity.
Qed.

(** X25.  When the command line names none of the three actions, the
    script reads the configuration and does nothing else: no token is asked
    for, no file is read or written and nothing is requested.  It ends with
    the exit for the unknown action, or with the one for the configuration
    when that cannot be read. *)
Theorem script_without_action
    (args : Args) (dest : Tackle2Seeds) (src : Tackle1) (w : World E) :
  (forall a, In a known_actions -> ~ In a (args_action args)) ->
  script config_file keycloak args dest src w
  = (Stopped (match config_file (args_config args) with
              | Some _ => UnknownAction
              | None => ConfigUnreadable (args_config args)
              end), w).
Proof.
  intros H. unfold script, loadConfig.
  rewrite !cmdWanted_false by (apply H; unfold known_actions; simpl; tauto).
  destruct (config_file (args_config args)); reflexivity.
Qed.

(** X26.  When the configuration is read, an action is wanted and Keycloak
    refuses the first token asked for (the one of Tackle 1 for an export,
    else the one of the destination), the run ends there with the exit for
    the token: the request for the token is all it did, no file is read or
    written and the destination is as it was. *)
Theorem script_stops_at_refused_token
    (args : Args) (dest : Tackle2Seeds) (src : Tackle1) (w : World E) (c : Config)
    (host username password : string) :
  config_file (args_config args) = Some c ->
  (exists a, In a known_actions /\ In a (args_action args)) ->
  first_credentials args c = (host, username, password) ->
  resp_ok (keycloak (trace w) (token_url host) (token_form username password)) = false ->
  script config_file keycloak args dest src w
  = (Stopped (TokenRefused (token_url host)),
     mkWorld E (files w) (server w)
             (trace w ++ [Requested POST (token_url host)
                                    (Some (token_form username password))])).
Proof.
  intros Hc (a & Hk & Ha) Hfirst Hno. unfold script, loadConfig. rewrite Hc.
  unfold first_credentials in Hfirst.
  unfold then_ at 1. unfold went at 1.
  destruct (cmdWanted args "export-tackle1") eqn:E1.
  - injection Hfirst as <- <- <-.
    unfold then_ at 1. unfold then_ at 1.
    rewrite (getKeycloakToken_refused _ _ _ w Hno). reflexivity.
  - injection Hfirst as <- <- <-.
    unfold then_ at 1. unfold went at 1.
    destruct (cmdWanted args "import") eqn:E2.
    + unfold then_ at 1. unfold then_ at 1.
      rewrite (getKeycloakToken_refused _ _ _ w Hno). reflexivity.
    + unfold then_ at 1. unfold went at 1.
      destruct (cmdWanted args "clean") eqn:E3.
      * unfold then_ at 1. unfold then_ at 1.
        rewrite (getKeycloakToken_refused _ _ _ w Hno). reflexivity.
      * exfalso. apply cmdWanted_In in Ha.
        unfold known_actions in Hk. simpl in Hk.
        destruct Hk as [<- | [<- | [<- | []]]]; congruence.
Qed.

End ScriptRuns.

Lemma script_without_action_witness :
  script (E := sample_environment) sample_config_file sample_keycloak
         (sample_args ["export"; "help"]) sample_seeds sample_source sample_world_empty
  = (Stopped UnknownAction, sample_world_empty).
Proof.
  apply (script_without_action sample_environment sample_config_file sample_keycloak
           (sample_args ["export"; "help"]) sample_seeds sample_source
           sample_world_empty).
  intros a Ha Hin. unfold known_actions in Ha. simpl in Ha, Hin.
  destruct Ha as [<- | [<- | [<- | []]]];
    destruct Hin as [H | [H | []]]; discriminate.
Defined.

Lemma script_stops_at_refused_token_witness :
  script (E := sample_environment) sample_config_file sample_keycloak_refusing
         (sample_args ["clean"; "import"]) sample_seeds sample_source sample_world_clear
  = (Stopped (TokenRefused (token_url "http://hub")),
     mkWorld sample_environment (files sample_world_clear) (server sample_world_clear)
             [Requested POST (token_url "http://hub")
                        (Some (token_form "admin" "secret"))]).
Proof.
  apply (script_stops_at_refused_token sample_environment sample_config_file
           sample_keycloak_refusing (sample_args ["clean"; "import"]) sample_seeds
           sample_source sample_world_clear sample_config "http://hub" "admin" "secret").
  - reflexivity.
  - exists "import". split; [unfold known_actions|]; simpl; tauto.
  - reflexivity.
  - reflexivity.
Defined.

(** The scenario: for the words clean, bogus, import, clean the run
    imports, then cleans, each once and each after a token of its own. *)
Example script_order_scenario :
  fst (script (E := sample_environment) sample_config_file sample_keycloak
              (sample_args ["clean"; "bogus"; "import"; "clean"])
              sample_seeds sample_source sample_world_clear) = Went tt
  /\ changing_requests
       (trace (snd (script (E := sample_environment) sample_config_file sample_keycloak
                           (sample_args ["clean"; "bogus"; "import"; "clean"])
                           sample_seeds sample_source sample_world_clear)))
     = [(POST, token_url "http://hub");
        (POST, "http://hub/hub/applications");
        (POST, token_url "http://hub");
        (DELETE, "http://hub/hub/applications/7")].
Proof. split; vm_compute; reflexivity. Qed.

(* ===================================================================== *)
(** * Reference resolution: the fatal case *)
(* ===================================================================== *)

Lemma review_of_nonempty (x : Application1 * Review1) : review_of x <> [].
Proof.
  intros H. pose proof (review_of_id x) as Hid. rewrite H in Hid. discriminate.
Qed.

(** One application: either a tag is not resolved, and that is where the
    processing stops, or the processing returns. *)
Lemma dump_application_cases (app1 : Application1) (s : Tackle12Import)
    (LA : list Application1) (LR : list (Application1 * Review1)) :
  Forall2 (is_application (heap s)) (data s "applications") LA ->
  Forall2 (is_record review_of (heap s)) (data s "reviews") LR ->
  (exists e s',
      map_each (app1_tags app1) resolve_app_tag s = (Exc e, s')
      /\ dump_application app1 s = (Exc e, s'))
  \/ (exists s', dump_application app1 s = (Val tt, s')).
Proof.
  intros HA HR.
  destruct (map_each (app1_tags app1) resolve_app_tag s) as [[tags | e] s1] eqn:Hmap.
  - right.
    destruct (touches_run _ _ _ _ _ (touches_resolve_app_tags (app1_tags app1)) Hmap)
      as ((ext & Hh1) & _ & Hfr1).
    pose proof (map_each_length _ _ _ _ _ Hmap) as Hlen.
    unfold dump_application. unfold bind at 1. rewrite Hmap.
    rewrite application_object_built.
    unfold bind at 1. unfold new_object at 1.
    set (s2 := mkImport (heap s1 ++ [application_object app1 tags]) (data s1) (destData s1)).
    assert (HR2 : Forall2 (is_record review_of (heap s2)) (data s2 "reviews") LR).
    { cbn [heap data s2]. rewrite Hfr1 by (simpl; tauto). rewrite Hh1, <- app_assoc.
      apply Forall2_is_record_extend; [exact review_of_nonempty | exact HR]. }
    assert (HA2 : Forall2 (is_application (heap s2)) (data s2 "applications") LA).
    { cbn [heap data s2]. rewrite Hfr1 by (simpl; tauto). rewrite Hh1, <- app_assoc.
      eapply Forall2_impl; [|exact HA]. intros a x. apply is_application_extend. }
    assert (Hnew : is_application (heap s2) (List.length (heap s1)) app1).
    { exists tags. cbn [heap s2]. split; [apply nth_fresh | exact Hlen]. }
    assert (H3 : exists s3 ext3,
               match app1_review app1 with
               | Some r => rev <- new_object (review_object app1 r) ;; add "reviews" rev
               | None => pass
               end s2 = (Val tt, s3)
               /\ heap s3 = heap s2 ++ ext3
               /\ data s3 "applications" = data s2 "applications").
    { destruct (app1_review app1) as [r|].
      - destruct (record_add _ review_id review_of "reviews" review_of_id s2 LR (app1, r)
                    HR2) as (s3 & Hrun3 & Hh3 & _ & Hfr3 & _).
        exists s3, [review_of (app1, r)].
        unfold bind at 1. unfold new_object at 1.
        unfold new_object in Hrun3. cbn [snd] in Hrun3.
        change (review_object app1 r) with (review_of (app1, r)).
        split; [exact Hrun3|]. split; [exact Hh3 | apply Hfr3; discriminate].
      - exists s2, []. rewrite app_nil_r. auto. }
    destruct H3 as (s3 & ext3 & Hrun3 & Hh3 & Hd3).
    unfold bind at 1. rewrite Hrun3.
    destruct (add_by_spec app_id (is_application (heap s3)) "applications"
                (List.length (heap s1)) app1 s3 LA (is_application_int_id (heap s3)))
      as (s4 & Hrun4 & _).
    { rewrite Hd3, Hh3. eapply Forall2_impl; [|exact HA2].
      intros a x. apply is_application_extend. }
    { rewrite Hh3. apply is_application_extend. exact Hnew. }
    exists s4. exact Hrun4.
  - left. exists e, s1. split; [reflexivity|].
    unfold dump_application. unfold bind at 1. rewrite Hmap. reflexivity.
Qed.

(** When the processing of an application stops, nothing was collected. *)
Lemma dump_application_stops (app1 : Application1) (s s' : Tackle12Import) (e : Exn)
    (pre : list Application1) :
  applications_of pre s ->
  dump_application app1 s = (Exc e, s') ->
  applications_of pre s'.
Proof.
  intros [HA HR] Hrun.
  destruct (dump_application_cases app1 s _ _ HA HR)
    as [(e' & s1 & Hmap & Hrun') | (s1 & Hrun')];
    rewrite Hrun in Hrun'; [|discriminate].
  injection Hrun' as <- <-.
  destruct (touches_run _ _ _ _ _ (touches_resolve_app_tags (app1_tags app1)) Hmap)
    as ((ext & Hh) & _ & Hfr).
  split.
  - rewrite Hh, Hfr by (simpl; tauto).
    eapply Forall2_impl; [|exact HA]. intros a x. apply is_application_extend.
  - rewrite Hh, Hfr by (simpl; tauto).
    apply Forall2_is_record_extend; [exact review_of_nonempty | exact HR].
Qed.

Lemma dump_application_collects (app1 : Application1) (s s' : Tackle12Import)
    (pre : list Application1) :
  applications_of pre s ->
  dump_application app1 s = (Val tt, s') ->
  applications_of (pre ++ [app1]) s'.
Proof.
  intros [HA HR] Hrun.
  destruct (dump_application_run app1 s s' _ _ HA HR Hrun) as (HA1 & HR1).
  rewrite fold_add_by_dedup in HR1. rewrite <- dedup_by_snoc in HA1.
  split; [exact HA1|].
  rewrite flat_map_app. cbn [flat_map]. now rewrite app_nil_r.
Qed.

(** The applications block, with the applications it has gone through. *)
Lemma dump_applications_stop_triple (self0 : Tackle12Import) (src : Tackle1) :
  triple (fun s => apps_inv self0 src [] s /\ applications_of [] s)
         (dump_applications src)
         (fun _ _ => True)
         (fun e s => exists i pre app1 post,
              t1_application src = pre ++ app1 :: post
              /\ e = SystemExit 1 (RecordNotFound "origin-tags" i)
              /\ In i (app1_tags app1)
              /\ origin_tag src i = None
              /\ Forall (fun a => Forall (fun j => origin_tag src j <> None)
                                         (app1_tags a)) pre
              /\ apps_inv self0 src pre s
              /\ applications_of pre s).
Proof.
  unfold dump_applications.
  eapply triple_weaken;
    [apply (triple_for_each
              (fun pre s =>
                 apps_inv self0 src pre s
                 /\ applications_of pre s
                 /\ Forall (fun a => Forall (fun j => origin_tag src j <> None)
                                            (app1_tags a)) pre)
              dump_application
              (fun e s => exists i pre app1 post,
                   t1_application src = pre ++ app1 :: post
                   /\ e = SystemExit 1 (RecordNotFound "origin-tags" i)
                   /\ In i (app1_tags app1)
                   /\ origin_tag src i = None
                   /\ Forall (fun a => Forall (fun j => origin_tag src j <> None)
                                              (app1_tags a)) pre
                   /\ apps_inv self0 src pre s
                   /\ applications_of pre s))
    | intros s [H1 H2]; split; [exact H1 | split; [exact H2 | constructor]]
    | intros u s H; exact I
    | intros e s H; exact H].
  intros pre x post Hx s (Hinv & Hof & Hpre).
  pose proof (dump_application_triple self0 src pre x s Hinv) as H.
  destruct (dump_application x s) as [[[] | e] s'] eqn:Hrun.
  - destruct H as [Hinv' Hx']. split; [exact Hinv'|].
    split; [exact (dump_application_collects x s s' pre Hof Hrun)|].
    apply Forall_app. split; [exact Hpre | constructor; [exact Hx' | constructor]].
  - destruct H as (i & He & Hin & Hnone & Hinv').
    exists i, pre, x, post.
    split; [exact Hx|]. split; [exact He|]. split; [exact Hin|].
    split; [exact Hnone|]. split; [exact Hpre|]. split; [exact Hinv'|].
    exact (dump_application_stops x s s' e pre Hof Hrun).
Qed.

(** C4.  From a fresh instance, when some application lists a tag id that no
    object of the 'origin-tags' collection (as the tag types block leaves
    it) bears, [dumpTackle1] ends in [exit(1)] after printing the record-not-
    found message for the collection and such an id, and returns nothing.
    The run stops at an application that lists the id: the applications
    before it list ids of source tags only, the collections of applications
    and reviews hold what these earlier applications gave and nothing of the
    application at which the run stops or of a later one, and the
    collections of the later blocks stay empty. *)
Theorem missing_tag_reference_is_fatal :
  forall (src : Tackle1) (self0 : Tackle12Import),
    (forall t, data self0 t = []) ->
    (exists app1 i,
        In app1 (t1_application src) /\ In i (app1_tags app1)
        /\ forall a, In a (data (snd (dump_tagtypes src self0)) "origin-tags") ->
                     int_id (heap (snd (dump_tagtypes src self0))) a <> Some i) ->
    exists i self' pre app1 post,
      dumpTackle1 src self0
      = (Exc (SystemExit 1 (RecordNotFound "origin-tags" i)), self')
      /\ exit_status (SystemExit 1 (RecordNotFound "origin-tags" i)) <> 0%Z
      /\ t1_application src = pre ++ app1 :: post
      /\ In i (app1_tags app1)
      /\ Forall (fun a => Forall (fun j => origin_tag src j <> None) (app1_tags a)) pre
      /\ (forall a, In a (data self' "origin-tags") -> int_id (heap self') a <> Some i)
      /\ Forall2 (is_application (heap self')) (data self' "applications")
                 (dedup_by app_id pre)
      /\ Forall2 (is_record review_of (heap self')) (data self' "reviews")
                 (dedup_by review_id (flat_map reviews_of pre))
      /\ (forall t, t <> "origin-tags" -> t <> "tags" -> t <> "tagtypes" ->
            t <> "applications" -> t <> "reviews" -> data self' t = []).
Proof.
  intros src self0 Hfresh (app1 & i & Happ & Hi & Hmiss).
  destruct (triple_run _ _ _ self0 (dump_tagtypes_triple self0 src)
              (tags_inv_init self0 Hfresh)) as ([] & self1 & Hrun1 & Hinv1).
  rewrite Hrun1 in Hmiss. cbn [snd] in Hmiss.
  assert (Hnone : origin_tag src i = None).
  { destruct (origin_tag src i) as [t|] eqn:Et; [|reflexivity].
    destruct (origin_tag_in_index _ _ _ _ _ Hinv1 Et) as (a & Ha & Hid).
    exfalso. exact (Hmiss a Ha Hid). }
  assert (Hof : applications_of [] self1).
  { destruct Hinv1 as (_ & _ & _ & _ & _ & H6). unfold applications_of.
    rewrite (H6 "applications"), (H6 "reviews") by discriminate.
    rewrite !Hfresh. split; constructor. }
  pose proof (dump_applications_triple self0 src self1
                (tags_inv_apps_inv self0 src self1 Hfresh Hinv1)) as H2.
  pose proof (dump_applications_stop_triple self0 src self1
                (conj (tags_inv_apps_inv self0 src self1 Hfresh Hinv1) Hof)) as H3.
  unfold dumpTackle1. unfold bind at 1. rewrite Hrun1.
  unfold bind at 1.
  destruct (dump_applications src self1) as [[[] | e] self2].
  - exfalso. destruct H2 as [_ Hall].
    rewrite Forall_forall in Hall. specialize (Hall app1 Happ).
    rewrite Forall_forall in Hall. exact (Hall i Hi Hnone).
  - destruct H3 as (j & pre & x & post & Hx & -> & Hj & Hjnone & Hpre & Hinv2 & HA & HR).
    exists j, self2, pre, x, post.
    split; [reflexivity|]. split; [discriminate|]. split; [exact Hx|].
    split; [exact Hj|]. split; [exact Hpre|]. split.
    + exact (proj2 (origin_tag_none_not_found _ _ _ _ _ Hinv2 Hjnone)).
    + split; [exact HA|]. split; [exact HR|].
      destruct Hinv2 as (_ & _ & _ & _ & _ & _ & Hfr).
      intros t T1 T2 T3 T4 T5. rewrite Hfr by assumption. apply Hfresh.
Qed.

Lemma missing_tag_reference_is_fatal_witness :
  exists i self' pre app1 post,
    dumpTackle1 sample_source_missing_later Tackle12Import_init
    = (Exc (SystemExit 1 (RecordNotFound "origin-tags" i)), self')
    /\ exit_status (SystemExit 1 (RecordNotFound "origin-tags" i)) <> 0%Z
    /\ t1_application sample_source_missing_later = pre ++ app1 :: post
    /\ In i (app1_tags app1)
    /\ Forall (fun a => Forall (fun j => origin_tag sample_source_missing_later j <> None)
                               (app1_tags a)) pre
    /\ (forall a, In a (data self' "origin-tags") -> int_id (heap self') a <> Some i)
    /\ Forall2 (is_application (heap self')) (data self' "applications")
               (dedup_by app_id pre)
    /\ Forall2 (is_record review_of (heap self')) (data self' "reviews")
               (dedup_by review_id (flat_map reviews_of pre))
    /\ (forall t, t <> "origin-tags" -> t <> "tags" -> t <> "tagtypes" ->
          t <> "applications" -> t <> "reviews" -> data self' t = []).
Proof.
  apply (missing_tag_reference_is_fatal sample_source_missing_later Tackle12Import_init).
  - reflexivity.
  - exists (mkApplication1 (sample_base 1) (JStr "Shop") JNull [99%Z; 555%Z] None
                           (Some (sample_review 22 JNull))),
           555%Z.
    split; [simpl; auto|]. split; [simpl; auto|].
    vm_compute. intros a [<- | []]. discriminate.
Defined.

(** The scenario: the run stops at "Shop"; only "Mail" and its review 21
    were collected, and no dependency. *)
Example missing_tag_scenario :
  fst (dumpTackle1 sample_source_missing_later Tackle12Import_init)
  = Exc (SystemExit 1 (RecordNotFound "origin-tags" 555))
  /\ map (int_id (heap (snd (dumpTackle1 sample_source_missing_later
                               Tackle12Import_init))))
         (data (snd (dumpTackle1 sample_source_missing_later Tackle12Import_init))
               "applications") = [Some 3%Z]
  /\ map (int_id (heap (snd (dumpTackle1 sample_source_missing_later
                               Tackle12Import_init))))
         (data (snd (dumpTackle1 sample_source_missing_later Tackle12Import_init))
               "reviews") = [Some 21%Z]
  /\ data (snd (dumpTackle1 sample_source_missing_later Tackle12Import_init))
          "dependencies" = [].
Proof. repeat split; vm_compute; reflexivity. Qed.

(* ===================================================================== *)
(** * The order of TYPES and the references between entities *)
(* ===================================================================== *)

Lemma In_dict_set {V : Type} (k k' : string) (v v' : V) (d : list (string * V)) :
  In (k', v') (dict_set k v d) -> (k' = k /\ v' = v) \/ In (k', v') d.
Proof.
  induction d as [|[k0 v0] d IH]; cbn.
  - intros [[= <- <-] | []]. now left.
  - destruct (String.eqb k k0); cbn.
    + intros [[= <- <-] | H]; [now left | right; now right].
    + intros [H | H]; [right; now left|].
      destruct (IH H) as [H' | H']; [now left | right; now right].
Qed.

Lemma In_with_attrs (kvs : list (string * PyVal)) (o : Tackle2Object)
    (k : string) (v : PyVal) :
  In (k, v) (with_attrs o kvs) -> In (k, v) o \/ In (k, v) kvs.
Proof.
  unfold with_attrs. revert o. induction kvs as [|[k0 v0] kvs IH]; intros o; cbn.
  - auto.
  - intros H. destruct (IH _ H) as [H1 | H1]; [|right; now right].
    cbn [fst snd] in H1. destruct (In_dict_set _ _ _ _ _ H1) as [[-> ->] | H2].
    + right. now left.
    + now left.
Qed.

Lemma plain_no_reference (j : JSON) :
  is_dict j = false -> holds_reference (Json j) = false.
Proof. destruct j; cbn; congruence. Qed.

Lemma listed_nil (t : string) : listed t [].
Proof. intros k v []. Qed.

Lemma listed_init (t : string) (b : Base) :
  plain_base b -> listed t (Tackle2Object_init (Some b)).
Proof.
  intros [Hc Hu] k v Hin Hr. cbn in Hin.
  destruct Hin as [[= <- <-] | [[= <- <-] | [[= <- <-] | []]]].
  - discriminate.
  - now rewrite plain_no_reference in Hr.
  - now rewrite plain_no_reference in Hr.
Qed.

Lemma listed_with_attrs (t : string) (o : Tackle2Object) (kvs : list (string * PyVal)) :
  listed t o ->
  (forall k v, In (k, v) kvs -> holds_reference v = true ->
     exists t', In (t, k, t') reference_fields) ->
  listed t (with_attrs o kvs).
Proof.
  intros Ho Hkvs k v Hin Hr.
  destruct (In_with_attrs _ _ _ _ Hin) as [H | H]; [exact (Ho k v H Hr) | exact (Hkvs k v H Hr)].
Qed.

Lemma listed_dict_set (t : string) (o : Tackle2Object) (k : string) (v : PyVal) :
  listed t o ->
  (holds_reference v = true -> exists t', In (t, k, t') reference_fields) ->
  listed t (dict_set k v o).
Proof.
  intros Ho Hv k' v' Hin Hr.
  destruct (In_dict_set _ _ _ _ _ Hin) as [[-> ->] | H]; [exact (Hv Hr) | exact (Ho k' v' H Hr)].
Qed.

(** The attributes given to a new instance: JSON data that is no
    dictionary, or a reference listed in the table. *)
Ltac listed_attrs :=
  let k := fresh "k" in
  let v := fresh "v" in
  let Hin := fresh "Hin" in
  let Hr := fresh "Hr" in
  intros k v Hin Hr; simpl in Hin;
  repeat (destruct Hin as [Hin | Hin];
          [injection Hin as <- <-;
           first [ discriminate Hr
                 | rewrite plain_no_reference in Hr by assumption; discriminate Hr
                 | eexists; simpl; eauto 20 ]
          |]);
  contradiction.

Lemma add_members (type : string) (item : nat) (s : Tackle12Import) :
  heap (snd (add type item s)) = heap s
  /\ forall t a, In a (data (snd (add type item s)) t) ->
       In a (data s t) \/ (t = type /\ a = item).
Proof.
  unfold add. destruct (add_scan _ _) as [[|] | e]; cbn; split; auto.
  intros t a. unfold update_map. destruct (String.eqb_spec t type) as [-> | _]; [|auto].
  rewrite in_app_iff. cbn. intuition.
Qed.

(** *** Steps that keep a state covered *)

Lemma covered_by_alloc (kind : nat -> option string) (s : Tackle12Import)
    (o : Tackle2Object) (k : option string) :
  covered_by kind s ->
  (forall t, k = Some t -> listed t o) ->
  covered_by (fun x => if Nat.eqb x (List.length (heap s)) then k else kind x)
             (snd (new_object o s)).
Proof.
  intros (H1 & H2 & H3) Ho. unfold new_object, covered_by. cbn [snd heap data].
  split; [|split].
  - intros t a Ht Ha. destruct (Nat.eqb_spec a (List.length (heap s))) as [-> | _].
    + pose proof (H1 t _ Ht Ha) as Hk. rewrite (H3 _ (Nat.le_refl _)) in Hk. discriminate.
    + now apply H1.
  - intros a t. destruct (Nat.eqb_spec a (List.length (heap s))) as [-> | Hne].
    + intros Hk. rewrite nth_fresh. now apply Ho.
    + intros Hk. destruct (Nat.lt_ge_cases a (List.length (heap s))) as [Ha | Ha].
      * rewrite nth_old by exact Ha. now apply H2.
      * rewrite (H3 a Ha) in Hk. discriminate.
  - intros a Ha. rewrite length_app in Ha. cbn in Ha.
    destruct (Nat.eqb_spec a (List.length (heap s))); [lia|]. apply H3. lia.
Qed.

Lemma covered_by_setattr (kind : nat -> option string) (s : Tackle12Import)
    (a : nat) (k : string) (v : PyVal) :
  covered_by kind s ->
  (forall t, kind a = Some t -> holds_reference v = true ->
     exists t', In (t, k, t') reference_fields) ->
  covered_by kind (snd (setattr a k v s)).
Proof.
  intros (H1 & H2 & H3) Hv. unfold setattr, modify, covered_by. cbn [snd heap data].
  split; [exact H1|]. split.
  - intros a' t Hk. destruct (Nat.eq_dec a' a) as [-> | Hne].
    + destruct (Nat.lt_ge_cases a (List.length (heap s))) as [Ha | Ha].
      * rewrite nth_update_nth_same by exact Ha.
        apply listed_dict_set; [now apply H2 | now apply Hv].
      * rewrite nth_overflow by (rewrite length_update_nth; lia). apply listed_nil.
    + rewrite nth_update_nth_other by exact Hne. now apply H2.
  - intros a' Ha. rewrite length_update_nth in Ha. now apply H3.
Qed.

Lemma covered_by_add (kind : nat -> option string) (s : Tackle12Import)
    (type : string) (item : nat) :
  covered_by kind s ->
  (In type TYPES -> kind item = Some type) ->
  covered_by kind (snd (add type item s)).
Proof.
  intros (H1 & H2 & H3) Hitem. destruct (add_members type item s) as [Hh Hm].
  unfold covered_by. rewrite Hh. split; [|split; assumption].
  intros t a Ht Ha. destruct (Hm t a Ha) as [H | [-> ->]]; [now apply H1 | now apply Hitem].
Qed.

Local Notation "'anyhow'" := (fun (_ : Exn) (_ : Tackle12Import) => True).

Lemma covered_forget (tr tr' : list (nat * string)) (s : Tackle12Import) :
  (forall p, In p tr' -> In p tr) -> covered tr s -> covered tr' s.
Proof.
  intros Hsub (kind & Hc & Htr). exists kind. split; [exact Hc|].
  rewrite Forall_forall in *. intros p Hp. apply Htr. now apply Hsub.
Qed.

Lemma tracked_below (kind : nat -> option string) (s : Tackle12Import)
    (tr : list (nat * string)) :
  covered_by kind s -> Forall (fun p => kind (fst p) = Some (snd p)) tr ->
  Forall (fun p => (fst p < List.length (heap s))%nat) tr.
Proof.
  intros (_ & _ & H3) Htr. eapply Forall_impl; [|exact Htr]. cbn. intros p Hp.
  destruct (Nat.lt_ge_cases (fst p) (List.length (heap s))) as [H | H]; [exact H|].
  rewrite (H3 _ H) in Hp. discriminate.
Qed.

Lemma triple_cov_new (tr : list (nat * string)) (t : string) (o : Tackle2Object) :
  listed t o ->
  triple (covered tr) (new_object o) (fun a => covered (tr ++ [(a, t)])) anyhow.
Proof.
  intros Ho s (kind & Hc & Htr).
  pose proof (tracked_below kind s tr Hc Htr) as Hlt.
  pose proof (covered_by_alloc kind s o (Some t) Hc) as Hal.
  unfold new_object in *. cbn [snd] in *.
  eexists. split; [apply Hal; intros t' [= <-]; exact Ho|].
  apply Forall_app. split.
  - rewrite Forall_forall in *. intros p Hp. specialize (Hlt p Hp).
    destruct (Nat.eqb_spec (fst p) (List.length (heap s))); [lia | now apply Htr].
  - constructor; [|constructor]. cbn. now rewrite Nat.eqb_refl.
Qed.

Lemma triple_cov_new_free (tr : list (nat * string)) (o : Tackle2Object) :
  triple (covered tr) (new_object o) (fun _ => covered tr) anyhow.
Proof.
  intros s (kind & Hc & Htr).
  pose proof (tracked_below kind s tr Hc Htr) as Hlt.
  pose proof (covered_by_alloc kind s o None Hc) as Hal.
  unfold new_object in *. cbn [snd] in *.
  eexists. split; [apply Hal; intros t' [=]|].
  rewrite Forall_forall in *. intros p Hp. specialize (Hlt p Hp).
  destruct (Nat.eqb_spec (fst p) (List.length (heap s))); [lia | now apply Htr].
Qed.

Lemma triple_cov_add (tr : list (nat * string)) (type : string) (item : nat) :
  (In type TYPES -> In (item, type) tr) ->
  triple (covered tr) (add type item) (fun _ => covered tr) anyhow.
Proof.
  intros Hitem s (kind & Hc & Htr).
  assert (Hk : In type TYPES -> kind item = Some type).
  { intros Ht. rewrite Forall_forall in Htr. exact (Htr _ (Hitem Ht)). }
  pose proof (covered_by_add kind s type item Hc Hk) as Hadd.
  destruct (add type item s) as [[[] | e] s']; cbn [snd] in Hadd; [|exact I].
  exists kind. split; assumption.
Qed.

Lemma triple_cov_setattr (tr : list (nat * string)) (a : nat) (t k : string) (v : PyVal) :
  In (a, t) tr ->
  (holds_reference v = true -> exists t', In (t, k, t') reference_fields) ->
  triple (covered tr) (setattr a k v) (fun _ => covered tr) anyhow.
Proof.
  intros Ha Hv s (kind & Hc & Htr).
  assert (Hk : kind a = Some t).
  { rewrite Forall_forall in Htr. exact (Htr _ Ha). }
  exists kind. split; [|exact Htr].
  apply covered_by_setattr; [exact Hc|].
  intros t' Hk' Hr. rewrite Hk in Hk'. injection Hk' as <-. now apply Hv.
Qed.

(** One record turned into an instance of its type and added. *)
Lemma triple_cov_record (tr : list (nat * string)) (type : string) (o : Tackle2Object) :
  listed type o ->
  triple (covered tr) (x <- new_object o ;; add type x) (fun _ => covered tr) anyhow.
Proof.
  intros Ho. eapply triple_bind; [apply (triple_cov_new tr type o Ho)|].
  intros x. eapply triple_weaken; [apply (triple_cov_add (tr ++ [(x, type)]) type x) | | |].
  - intros _. apply in_or_app. right. now left.
  - intros s H. exact H.
  - intros u s H. apply (covered_forget (tr ++ [(x, type)])); [|exact H].
    intros p Hp. apply in_or_app. now left.
  - auto.
Qed.

Lemma triple_cov_add_last (tr : list (nat * string)) (type : string) (item : nat) :
  triple (covered (tr ++ [(item, type)])) (add type item) (fun _ => covered []) anyhow.
Proof.
  eapply triple_weaken; [apply (triple_cov_add (tr ++ [(item, type)]) type item) | | |].
  - intros _. apply in_or_app. right. now left.
  - intros s H. exact H.
  - intros u s H. apply (covered_forget (tr ++ [(item, type)])); [|exact H]. intros p [].
  - auto.
Qed.

Lemma triple_cov_add_if (b : bool) (tr : list (nat * string)) (type : string) (item : nat) :
  triple (covered (tr ++ [(item, type)])) (if b then add type item else pass)
         (fun _ => covered []) anyhow.
Proof.
  destruct b; [apply triple_cov_add_last|].
  intros s H. apply (covered_forget (tr ++ [(item, type)])); [|exact H]. intros p [].
Qed.

Lemma for_each_covered {X : Type} (P : X -> Prop) (xs : list X) (body : X -> Py unit) :
  Forall P xs ->
  (forall x, P x -> triple (covered []) (body x) (fun _ => covered []) anyhow) ->
  triple (covered []) (for_each xs body) (fun _ => covered []) anyhow.
Proof.
  intros Hxs H. apply (triple_for_each (fun _ => covered [])). intros pre x post Hx.
  apply H. rewrite Forall_forall in Hxs. apply Hxs. rewrite Hx. apply in_elt.
Qed.

(** *** The blocks of dumpTackle1 *)

Lemma dump_dependency_covered (dep1 : Dependency1) :
  plain_base (dep1_base dep1) ->
  triple (covered []) (dump_dependency dep1) (fun _ => covered []) anyhow.
Proof.
  intros Hb. apply triple_cov_record. unfold dependency_object.
  apply listed_with_attrs; [now apply listed_init | listed_attrs].
Qed.

Lemma dump_assessment_covered (assm1 : Assessment1) :
  plain_assessment assm1 ->
  triple (covered []) (dump_assessment assm1) (fun _ => covered []) anyhow.
Proof.
  intros (H1 & H2 & H3). apply triple_cov_record. unfold assessment_object.
  apply listed_with_attrs; [apply listed_nil | listed_attrs].
Qed.

Lemma dump_assessment_risk_covered (assmr1 : AssessmentRisk1) :
  plain_assessment_risk assmr1 ->
  triple (covered []) (dump_assessment_risk assmr1) (fun _ => covered []) anyhow.
Proof.
  intros (H1 & H2 & H3). apply triple_cov_record. unfold assessment_risk_object.
  apply listed_with_attrs; [apply listed_nil | listed_attrs].
Qed.

Lemma dump_confidence_covered (conf1 : Confidence1) :
  plain_confidence conf1 ->
  triple (covered []) (dump_confidence conf1) (fun _ => covered []) anyhow.
Proof.
  intros (H1 & H2 & H3). apply triple_cov_record. unfold confidence_object.
  apply listed_with_attrs; [apply listed_nil | listed_attrs].
Qed.

Lemma dump_stakeholdergroup_covered (shg1 : StakeholderGroup1) :
  plain_stakeholdergroup shg1 ->
  triple (covered []) (dump_stakeholdergroup shg1) (fun _ => covered []) anyhow.
Proof.
  intros (Hb & H1 & H2). apply triple_cov_record. unfold stakeholdergroup_object.
  apply listed_with_attrs; [now apply listed_init | listed_attrs].
Qed.

Lemma dump_businessservice_covered (bs1 : BusinessService1) :
  plain_businessservice bs1 ->
  triple (covered []) (dump_businessservice bs1) (fun _ => covered []) anyhow.
Proof.
  intros (Hb & H1 & H2). apply triple_cov_record.
  apply listed_with_attrs; [now apply listed_init | listed_attrs].
Qed.

Lemma dump_assessments_covered (src : Tackle1) :
  plain_source src ->
  triple (covered []) (dump_assessments src) (fun _ => covered []) anyhow.
Proof.
  intros (_ & _ & _ & Ha & Hr & Hc & _).
  unfold dump_assessments. eapply triple_bind; [apply triple_reads; reflexivity|].
  intros apps. apply (triple_for_each (fun _ => covered [])). intros pre app post _.
  unfold dump_assessments_of.
  eapply triple_bind; [apply triple_reads; intros s; apply getattr_state|]. intros i.
  eapply triple_bind; [apply triple_reads; reflexivity|]. intros appId.
  eapply triple_bind;
    [apply (for_each_covered plain_assessment); [apply Ha | apply dump_assessment_covered]|].
  intros u.
  eapply triple_bind;
    [apply (for_each_covered plain_assessment_risk);
     [apply Hr | apply dump_assessment_risk_covered]|].
  intros u'.
  apply (for_each_covered plain_confidence); [apply Hc | apply dump_confidence_covered].
Qed.

Lemma jobFunction_keeps (P : Tackle12Import -> Prop) (sh1 : Stakeholder1) (sh : nat) :
  triple P (dump_stakeholder_jobFunction sh1 sh) (fun _ => P) anyhow.
Proof.
  intros s HP.
  destruct (dump_stakeholder_jobFunction sh1 sh s) as [[u | e] s'] eqn:Eq; [|exact I].
  now rewrite (jobFunction_state _ _ _ _ _ Eq).
Qed.

Lemma dump_stakeholder_covered (sh1 : Stakeholder1) :
  plain_stakeholder sh1 ->
  triple (covered []) (dump_stakeholder sh1) (fun _ => covered []) anyhow.
Proof.
  intros (Hb & H1 & H2 & Hg). unfold dump_stakeholder. eapply triple_bind.
  - apply (triple_map_each (fun _ _ => covered [])).
    intros pre ys shg1 post Hx.
    assert (Hp : plain_stakeholdergroup shg1).
    { rewrite Forall_forall in Hg. apply Hg. rewrite Hx. apply in_elt. }
    destruct Hp as (Hgb & Hg1 & Hg2).
    eapply triple_bind.
    + apply (triple_cov_new [] "stakeholdergroups"). unfold stakeholdergroup_object.
      apply listed_with_attrs; [now apply listed_init | listed_attrs].
    + intros shg. eapply triple_bind; [apply triple_cov_add_last|].
      intros u s H. exact H.
  - intros shgs. eapply triple_bind.
    + apply (triple_cov_new [] "stakeholders").
      apply listed_with_attrs; [now apply listed_init | listed_attrs].
    + intros sh. eapply triple_bind; [apply jobFunction_keeps|].
      intros u. apply triple_cov_add_last.
Qed.

Lemma dump_jobfunction_covered (jf1 : JobFunction1) :
  plain_base (jf1_base jf1) ->
  triple (covered []) (dump_jobfunction jf1) (fun _ => covered []) anyhow.
Proof.
  intros Hb. unfold dump_jobfunction. eapply triple_bind.
  - apply (triple_map_each (fun _ _ => covered [])).
    intros pre ys sh1 post _. apply triple_cov_new_free.
  - intros shs. eapply triple_bind.
    + apply (triple_cov_new [] "jobfunctions").
      apply listed_with_attrs; [now apply listed_init | listed_attrs].
    + intros jf. eapply triple_bind; [apply triple_reads; reflexivity|]. intros index.
      apply triple_cov_add_if.
Qed.

Lemma resolve_app_tag_covered (tagId : Z) :
  triple (covered []) (resolve_app_tag tagId) (fun _ => covered []) anyhow.
Proof.
  unfold resolve_app_tag.
  eapply triple_bind; [apply triple_reads; intros s; apply findById_state|]. intros appTag.
  eapply triple_bind; [apply triple_reads; intros s; apply getattr_state|]. intros name.
  eapply triple_bind; [apply triple_reads; reflexivity|]. intros index.
  destruct (dest_get name index) as [destTag|]; [intros s H; exact H|].
  eapply triple_bind; [apply triple_reads; intros s; apply getattr_state|]. intros i.
  apply triple_cov_new_free.
Qed.

Lemma review_object_listed (app1 : Application1) (r : Review1) :
  plain_review r -> listed "reviews" (review_object app1 r).
Proof.
  intros (Hb & H1 & H2 & H3 & H4 & H5 & H6). unfold review_object.
  apply listed_with_attrs; [now apply listed_init|].
  destruct (truthy (rev1_copiedFromReviewId r)); listed_attrs.
Qed.

Lemma dump_application_covered (app1 : Application1) :
  plain_application app1 ->
  triple (covered []) (dump_application app1) (fun _ => covered []) anyhow.
Proof.
  intros (Hb & H1 & H2 & Hrev). unfold dump_application. eapply triple_bind.
  - apply (triple_map_each (fun _ _ => covered [])).
    intros pre ys tagId post _. apply resolve_app_tag_covered.
  - intros tags. eapply triple_bind.
    + apply (triple_cov_new [] "applications").
      apply listed_with_attrs; [now apply listed_init|].
      destruct (app1_businessService app1); listed_attrs.
    + intros app.
      eapply triple_bind with (Q' := fun _ => covered ([] ++ [(app, "applications")])).
      * destruct (app1_review app1) as [r|]; [|intros s H; exact H].
        apply triple_cov_record. now apply review_object_listed.
      * intros u. apply triple_cov_add_last.
Qed.

Lemma origin_tags_no_type : ~ In "origin-tags" TYPES.
Proof. unfold TYPES. simpl. intuition discriminate. Qed.

Lemma dump_tag_covered (ys : list nat) (tag1 : Tag1) :
  plain_base (tag1_base tag1) ->
  triple (covered (map (fun y => (y, "tags")) ys)) (dump_tag tag1)
         (fun y => covered (map (fun y => (y, "tags")) (ys ++ [y]))) anyhow.
Proof.
  intros Hb. unfold dump_tag. eapply triple_bind.
  - apply (triple_cov_new _ "tags").
    apply listed_with_attrs; [now apply listed_init | listed_attrs].
  - intros tag. eapply triple_bind.
    + apply triple_cov_add. intros H. destruct (origin_tags_no_type H).
    + intros u. eapply triple_bind; [apply triple_reads; reflexivity|]. intros index.
      eapply triple_bind with
        (Q' := fun _ => covered (map (fun y => (y, "tags")) ys ++ [(tag, "tags")])).
      * destruct (negb _); [|intros s H; exact H].
        apply triple_cov_add. intros _. apply in_or_app. right. now left.
      * intros u' s H.
        change (covered (map (fun y => (y, "tags")) (ys ++ [tag])) s).
        rewrite map_app. exact H.
Qed.

Lemma dump_tagtype_covered (tt1 : TagType1) :
  plain_tagtype tt1 ->
  triple (covered []) (dump_tagtype tt1) (fun _ => covered []) anyhow.
Proof.
  intros (Hb & Hc & Hr & Htags). unfold dump_tagtype.
  eapply triple_bind with (Q' := fun tags => covered (map (fun y => (y, "tags")) tags)).
  { apply (triple_map_each (fun _ ys => covered (map (fun y => (y, "tags")) ys))).
    intros pre ys tag1 post Hx. apply dump_tag_covered.
    rewrite Forall_forall in Htags. apply Htags. rewrite Hx. apply in_elt. }
  intros tags. destruct Hb as [Hbc Hbu].
  eapply triple_bind.
  { apply (triple_cov_new _ "tagtypes").
    apply listed_with_attrs; [apply listed_init; split; assumption | listed_attrs]. }
  intros tt.
  eapply triple_bind with
    (Q' := fun _ => covered (map (fun y => (y, "tags")) tags ++ [(tt, "tagtypes")])).
  { apply (triple_for_each
             (fun _ => covered (map (fun y => (y, "tags")) tags ++ [(tt, "tagtypes")]))).
    intros pre tag post Hx. unfold deepcopy.
    eapply triple_bind.
    - eapply triple_bind; [apply triple_reads; reflexivity|]. intros attrs.
      apply triple_cov_new_free.
    - intros c. apply (triple_cov_setattr _ tag "tags").
      + apply in_or_app. left. apply in_map_iff. exists tag.
        split; [reflexivity | rewrite Hx; apply in_elt].
      + intros _. eexists. simpl. eauto 20. }
  intros u. eapply triple_bind.
  { apply (triple_cov_setattr _ tt "tagtypes").
    - apply in_or_app. right. now left.
    - intros _. eexists. simpl. eauto 20. }
  intros u'. eapply triple_bind; [apply triple_reads; reflexivity|]. intros index.
  apply triple_cov_add_if.
Qed.

Lemma dumpTackle1_covered (src : Tackle1) :
  plain_source src ->
  triple (covered []) (dumpTackle1 src) (fun _ => covered []) anyhow.
Proof.
  intros Hsrc.
  pose proof Hsrc as (Htt & Happ & Hdep & _ & _ & _ & Hsh & Hshg & Hjf & Hbs).
  unfold dumpTackle1, dump_tagtypes, dump_applications.
  eapply triple_bind;
    [apply (for_each_covered plain_tagtype); [exact Htt | apply dump_tagtype_covered]|].
  intros u1.
  eapply triple_bind;
    [apply (for_each_covered plain_application);
     [exact Happ | apply dump_application_covered]|].
  intros u2.
  eapply triple_bind;
    [apply (for_each_covered (fun dep1 => plain_base (dep1_base dep1)));
     [exact Hdep | apply dump_dependency_covered]|].
  intros u3.
  eapply triple_bind; [apply dump_assessments_covered; exact Hsrc|]. intros u4.
  eapply triple_bind;
    [apply (for_each_covered plain_stakeholder);
     [exact Hsh | apply dump_stakeholder_covered]|].
  intros u5.
  eapply triple_bind;
    [apply (for_each_covered plain_stakeholdergroup);
     [exact Hshg | apply dump_stakeholdergroup_covered]|].
  intros u6.
  eapply triple_bind;
    [apply (for_each_covered (fun jf1 => plain_base (jf1_base jf1)));
     [exact Hjf | apply dump_jobfunction_covered]|].
  intros u7.
  apply (for_each_covered plain_businessservice);
    [exact Hbs | apply dump_businessservice_covered].
Qed.

Lemma covered_start (s : Tackle12Import) :
  (forall t, data s t = []) -> covered [] s.
Proof.
  intros H. exists (fun _ => None). split; [|constructor].
  split; [|split].
  - intros t a _ Ha. rewrite H in Ha. destruct Ha.
  - intros a t [=].
  - reflexivity.
Qed.

(** The rows of the table, against the order of [TYPES]. *)
Lemma table_order :
  forall r : string * string * string,
    In r reference_fields ->
    points_forward r = false ->
    precedes (snd r) (fst (fst r)) TYPES = true.
Proof.
  intros r Hin Hfw. simpl in Hin.
  repeat (destruct Hin as [<- | Hin]; [first [reflexivity | discriminate Hfw] |]).
  contradiction.
Qed.

(** C2, as stated, fails: in the run on the sample source a stored tag
    carries [tagType], a copy of the tag type stored under "tagtypes", yet
    "tagtypes" does not precede "tags" in [TYPES]; "tags" comes first. *)
Lemma tagtypes_do_not_precede_tags :
  (exists tag c tagtype,
      In tag (data (snd (dumpTackle1 sample_source Tackle12Import_init)) "tags")
      /\ attr (heap (snd (dumpTackle1 sample_source Tackle12Import_init))) tag "tagType" = Some (Obj c)
      /\ In tagtype (data (snd (dumpTackle1 sample_source Tackle12Import_init)) "tagtypes")
      /\ attr (heap (snd (dumpTackle1 sample_source Tackle12Import_init))) c "id"
         = attr (heap (snd (dumpTackle1 sample_source Tackle12Import_init))) tagtype "id"
      /\ attr (heap (snd (dumpTackle1 sample_source Tackle12Import_init))) c "name"
         = attr (heap (snd (dumpTackle1 sample_source Tackle12Import_init))) tagtype "name")
  /\ In ("tags", "tagType", "tagtypes") reference_fields
  /\ precedes "tagtypes" "tags" TYPES = false
  /\ ~ (forall r, In r reference_fields ->
          precedes (snd r) (fst (fst r)) TYPES = true).
Proof.
  split; [|split; [|split]].
  - exists 0%nat, 3%nat, 2%nat. vm_compute. repeat split; auto.
  - simpl. auto.
  - reflexivity.
  - intros H. specialize (H ("tags", "tagType", "tagtypes")).
    assert (Hin : In ("tags", "tagType", "tagtypes") reference_fields)
      by (simpl; auto).
    specialize (H Hin). vm_compute in H. discriminate.
Qed.

(** C2, amended.  Take a complete run of [dumpTackle1] that starts with
    empty collections, on a source whose copied payload fields hold no
    dictionary.  Every attribute of a produced entity of type T that holds a
    nested instance, a list of nested instances or an embedded dictionary
    is one of the references listed for T in [reference_fields]; and unless
    it is the [tagType] of a tag or the [stakeholders] list of a job
    function, the type T' it refers to is placed strictly before T in
    [TYPES]. *)
Theorem references_point_backward :
  forall (src : Tackle1) (self0 s' : Tackle12Import),
    (forall t, data self0 t = []) ->
    plain_source src ->
    dumpTackle1 src self0 = (Val tt, s') ->
    forall (t : string) (a : nat) (k : string) (v : PyVal),
      In t TYPES ->
      In a (data s' t) ->
      attr (heap s') a k = Some v ->
      holds_reference v = true ->
      exists t',
        In (t, k, t') reference_fields
        /\ (points_forward (t, k, t') = false -> precedes t' t TYPES = true).
Proof.
  intros src self0 s' Hdata Hsrc Hrun t a k v Ht Ha Hattr Hr.
  pose proof (dumpTackle1_covered src Hsrc self0 (covered_start self0 Hdata)) as H.
  rewrite Hrun in H. destruct H as (kind & (H1 & H2 & _) & _).
  pose proof (H2 a t (H1 t a Ht Ha) k v (dict_get_In _ _ _ Hattr) Hr) as [t' Hin].
  exists t'. split; [exact Hin|].
  intros Hfw. exact (table_order (t, k, t') Hin Hfw).
Qed.

Lemma sample_source_references_plain : plain_source sample_source_references.
Proof.
  unfold plain_source, sample_source_references. cbn.
  repeat match goal with
         | |- _ /\ _ => split
         | |- forall _, _ => intro
         | |- Forall _ [] => constructor
         | |- Forall _ (_ :: _) => constructor
         | |- True => exact I
         | |- _ = _ => reflexivity
         | |- _ =>
             progress (unfold plain_tagtype, plain_application, plain_review,
                       plain_stakeholder, plain_stakeholdergroup,
                       plain_businessservice, plain_base; cbn)
         end.
Qed.

Lemma references_point_backward_witness :
  exists t',
    In ("applications", "businessService", t') reference_fields
    /\ (points_forward ("applications", "businessService", t') = false ->
        precedes t' "applications" TYPES = true).
Proof.
  assert (Hdata : forall t, data Tackle12Import_init t = []) by reflexivity.
  assert (Hrun : dumpTackle1 sample_source_references Tackle12Import_init
                 = (Val tt, snd (dumpTackle1 sample_source_references
                                             Tackle12Import_init)))
    by reflexivity.
  assert (Ht : In "applications" TYPES) by (simpl; auto 20).
  assert (Ha : In 4%nat (data (snd (dumpTackle1 sample_source_references
                                                Tackle12Import_init))
                              "applications"))
    by (vm_compute; auto).
  assert (Hattr : attr (heap (snd (dumpTackle1 sample_source_references
                                               Tackle12Import_init)))
                       4%nat "businessService"
                  = Some (Json (JDict [("id", JInt 3)])))
    by reflexivity.
  assert (Hr : holds_reference (Json (JDict [("id", JInt 3)])) = true)
    by reflexivity.
  exact (references_point_backward sample_source_references Tackle12Import_init _
           Hdata sample_source_references_plain Hrun
           "applications" 4%nat "businessService" _ Ht Ha Hattr Hr).
Defined.
